(* ===== verification/_CoqProject ===== *)
-Q . S2P
Prelude.v
Args.v
Proto.v
Env.v
Nvme.v
BlockServer.v
BlockRace.v
Tcp.v
AsyncServer.v
Worker.v
FileServer.v
FileServerAsync.v
FileService.v
FileStore.v
FileScript.v
FileContents.v
FileClient.v
BlockRw.v
BlockTarget.v
BlockInitiator.v
LocalRw.v
Rdma.v
RdmaRing.v
RdmaTermination.v
Benchmark.v
