(* ===== verification/Prelude.v ===== *)
(** * nvmeof-project: a verification library

    The repository holds small programs that measure writes to an NVMe device,
    locally, over gRPC, over io_uring and over RDMA.  This library models the
    programs under src/src/ and proves what they do; where a program does
    something else than it means to, the theorem states what happens.

    ** The programs and the files that model them

    - Data.  [Proto] (proto/net.proto) holds the messages of both services,
      [Args] (third_party/argparse.hpp) what [program.get<T>] makes of an option,
      [Nvme] (nvme.h) the queries that fill a [device_config].
    - Blocks.  [BlockServer] (net.h, [GRPCSyncServer]) has the handlers
      [WriteBlock] and [ReadBlock] with their function-local static arguments and
      counters; [BlockRace] interleaves two calls of a handler at the boundaries
      of its phases; [AsyncServer] (net.h, [GRPCAsyncServer]) is the completion
      queue, the four [CallData] classes, their daemons and the destructor;
      [Tcp] (net.h, [TCPConnection]) implements the class [Connection];
      [BlockRw] (block_rw_nvmeof.cc), [BlockTarget] (block_target.cc) and
      [BlockInitiator] (block_initiator.cc) are the programs on top.
    - Files.  [FileServer] (file_target.cc) has the options, the statistics and the
      two blocking stream handlers, [FileServerAsync] (file_target.cc) the three
      handlers that write through io_uring with a completion thread, [FileService]
      (file_target.cc, [main]) the server that answers calls of all kinds one after
      the other, [FileClient] (file_initiator.cc) the client, [LocalRw]
      (file_rw_nvmeof.cc) the local benchmark: blocking, io_uring, libaio and the
      experiments.  [FileStore] is what the handlers are specified by: files as a
      map from names to bytes, and a kernel that executes the calls of a history;
      [FileScript] has the books that such a kernel keeps of a handler's calls, and
      [FileContents] the theorems on what all five handlers leave in the files.
    - The benchmark (benchmark.cc).  [Worker] is the command line, [launch_worker]
      and the io_uring thread, with the machine [io_step] and the laws of a ring
      [RingLaws]; [Rdma] is the RDMA thread, which uses the io_uring members of
      [Worker].  [RdmaRing] relates the RDMA thread to [io_step], [RdmaTermination]
      shows that it ends.  [Benchmark] is [main]: the command line, the worker's
      thread of either kind and the monitor thread put together.
    - [Prelude] is the machine integers, the monad and its weakest preconditions,
      tactics, and lemmas on text and lists; [Env] is memory and the outside world.

    Definitions carry the names of the source.  Each is executable; the
    [_witness] lemmas at the end of a file run them.

    ** The semantics

    A statement is an [M S R A] (below): from a state it yields a value, an early
    [return] with a value of [R], a stop (undefined behaviour, a failed assertion,
    an uncaught exception, a call that waits for ever, the end of the thread or of
    the process), or [NoFuel].
    The state [st P] of [Env] is the object or thread that the code works on
    ([own]), the heap (blocks of bytes, each either known or indeterminate) and the
    history of the external calls with their replies, newest first.  [wp m Q s]
    says that [Q] holds of how [m] ends from [s]; [wp_steps] executes symbolically.

    Everything outside the sources is a [Platform]: [world] gives the reply to an
    external call as a function of the history so far, so a theorem about an
    arbitrary platform holds for every behaviour of kernel, device, network and
    fabric.  Where a program relies on documented behaviour a theorem names it:
    [SocketLaws] of TCP, [QueueLaws] of a gRPC completion queue, [RingLaws],
    [RingCompletes] and [serving] of io_uring, [aio_serving] of libaio,
    [granting] of open and memory, [resources] of memory and threads,
    [polls_posted] and [FabricLaws] of a verbs completion queue (an event comes only
    where its notification was asked for in time, [notified]), [connection] of a
    reliable connection, which delivers the bytes the peer had in its memory at the
    posted address.  An answer of gRPC may complete without [ok].  Each has an
    instance, on which the witnesses run.

    Integers are [Z] with the conversions written out ([u32], [i32], ...); signed
    arithmetic outside its range stops with [UB_overflow], and so do division by
    zero, reads of indeterminate values, accesses outside a block and double frees
    with a stop of their own.

    Threads.  A [std::thread] that is destroyed while it can be joined ends the
    process, and [pthread_join] of an id that no thread has is undefined.  A second
    thread of the same function runs between the external calls of the first:
    [schedule] gives how many of its steps, as a function of the history, and the
    theorems hold for every schedule.  [BlockRace] has explicit schedules of two
    calls.  Threads that share nothing are run in the order in which they are
    joined, and so is the benchmark's worker, which shares only [tid] with [main];
    the monitor finds the worker as an arbitrary [view] says.

    Files.  Contents are not part of a platform, since they answer to nothing the
    programs ask: [served] of [FileStore] relates the history of a run, after the
    fact, to each kernel that could have given its replies.  A submitted operation is
    executed at any time before its completion is taken and in any order but that of
    links; files are opened for appending, and a submitted write is not short.  A
    theorem [leaves h0 k0 h Q] is about every such kernel; [replay] runs two of them.

    Fuel bounds every loop that waits for the outside.  A theorem that says a run
    ends gives the fuel that is enough: the number of operations; or the readings of
    the clock that fit the run time ([readings_needed]), plus the calls a full ring
    can take to drain ([bound] of [Worker]) and those a full completion queue can
    take ([poll_bound] of [RdmaTermination]).  The others hold for any fuel.

    ** What is proved

    - Blocks: [WriteBlock] implements a write to the namespace behind the server's
      descriptor, on an abstract device of namespaces of bytes (a refinement), for
      a server whose static arguments no other namespace has claimed.  A handler
      returns when the request's data fit and overruns its buffer when they do
      not; the static arguments let concurrent calls redirect each other.  The
      asynchronous server answers each request once and never writes, until the
      first answer to a dead call aborts it; its destructor aborts it as well.
      Sending and receiving over TCP is a round trip.  The configuration, the
      local benchmark, the target's unused test and the client program do what
      their theorems list.
    - Files: for the stream handlers, which files are written with what and in
      which order, when they return OK and with what left behind (the parameter
      [n] below, equal to or above the number of messages), when an early return
      ends the process; the parameters of the service through any sequence of
      calls that asks for at least one file; the local tests, against every
      interleaving with their completion threads.  With [n] the number of messages
      the three io_uring handlers refine [append_chunks], up to the order the
      kernel chooses, and two of them are equivalent to the blocking ones for
      messages that are alike.  The client's own run is undefined, since it reads
      past its buffer; on the messages it means to send ([workload]) the server
      leaves exactly the bytes the client's options ask for.
    - The io_uring worker: its three counters are, in their width, what the log of
      its calls says; write [i] goes to an explicit offset, never to the file's
      last block; with a batch that fits the queue it terminates.  Every run is
      one of the machine [io_step], by whose rules the bounds are carried.
    - The RDMA worker: it keeps the same books and terminates, but for a server
      whose receive was refused; at most the queue depth is in flight; every read
      has an explicit source inside the announced buffer, with its key, and an
      explicit place in the client's pool; the handshake hands over address, size
      and key of the memory the server has registered; a batch writes one address
      only.
    - The benchmark as a process, from the command line: [main] gets past the end
      of its worker, of either kind, and then joins the return code that has
      overwritten the monitor's id, which is undefined.  Its monitor ends exactly
      when the worker's function returned.

    ** Not modelled

    Text that is only printed (but the arithmetic behind it, where it can
    overflow), the throughput as a [double] included; [nvme_show_status]; calls to
    the file server that overlap; the contents of the files of the local tests;
    [RDMAConnection], which is commented out in net.h; vendored code beyond the
    option values; the parser of the command line, whose result is the argument of
    [parse_args]; the code that protobuf and gRPC generate, and their transport;
    scripts, notebooks and build files. *)

From stdpp Require Export base numbers list gmap strings pretty.
From Stdlib Require Export ZArith Lia.
From Stdlib Require Export Strings.Byte.

#[export] Set Default Goal Selector "!".
#[export] Set Warnings "-clear-no-such-hyp".
Open Scope Z_scope.

(** ** Machine integers

    A C++ integer is a [Z]; its width is written where the source converts or
    computes.  Unsigned arithmetic wraps, signed arithmetic that leaves its
    range is undefined behaviour (see [int_ret] below). *)

Definition u16 (z : Z) : Z := z mod 2 ^ 16.
Definition u32 (z : Z) : Z := z mod 2 ^ 32.
Definition u64 (z : Z) : Z := z mod 2 ^ 64.
Definition INT_MIN : Z := - 2 ^ 31.
Definition INT_MAX : Z := 2 ^ 31 - 1.

(** Conversion to [int]: modular since C++20 and in every ABI before it. *)
Definition i32 (z : Z) : Z := (z + 2 ^ 31) mod 2 ^ 32 - 2 ^ 31.

(** Conversion to a signed 64-bit integer ([long], [off_t], [ssize_t]). *)
Definition i64 (z : Z) : Z := (z + 2 ^ 63) mod 2 ^ 64 - 2 ^ 63.

Definition in_int (z : Z) : bool := (INT_MIN <=? z) && (z <=? INT_MAX).

Lemma in_int_spec z : in_int z = true <-> - 2 ^ 31 <= z < 2 ^ 31.
Proof. unfold in_int, INT_MIN, INT_MAX. rewrite andb_true_iff, !Z.leb_le. lia. Qed.

Lemma i32_id z : - 2 ^ 31 <= z < 2 ^ 31 -> i32 z = z.
Proof. intros. unfold i32. rewrite Z.mod_small; lia. Qed.

Lemma i32_range z : - 2 ^ 31 <= i32 z < 2 ^ 31.
Proof. unfold i32. pose proof (Z.mod_pos_bound (z + 2 ^ 31) (2 ^ 32) eq_refl). lia. Qed.

Lemma u16_id z : 0 <= z < 2 ^ 16 -> u16 z = z.
Proof. intros. unfold u16. apply Z.mod_small; lia. Qed.
Lemma u32_id z : 0 <= z < 2 ^ 32 -> u32 z = z.
Proof. intros. unfold u32. apply Z.mod_small; lia. Qed.
Lemma u64_id z : 0 <= z < 2 ^ 64 -> u64 z = z.
Proof. intros. unfold u64. apply Z.mod_small; lia. Qed.
Lemma u16_range z : 0 <= u16 z < 2 ^ 16.
Proof. apply Z.mod_pos_bound. reflexivity. Qed.
Lemma u32_range z : 0 <= u32 z < 2 ^ 32.
Proof. apply Z.mod_pos_bound. reflexivity. Qed.
Lemma u64_range z : 0 <= u64 z < 2 ^ 64.
Proof. apply Z.mod_pos_bound. reflexivity. Qed.

Create HintDb cint.
#[export] Hint Resolve i32_range u16_range u32_range u64_range : cint.

(** *** Integers in memory, little-endian *)

Definition byte_of (z : Z) : byte := default x00 (Byte.of_N (Z.to_N (z mod 256))).

Fixpoint le_bytes (n : nat) (z : Z) : list byte :=
  match n with O => [] | S n => byte_of z :: le_bytes n (z / 256) end.

Fixpoint le_value (l : list byte) : Z :=
  match l with [] => 0 | b :: l => Z.of_N (Byte.to_N b) + 256 * le_value l end.

Lemma byte_of_spec z : Z.of_N (Byte.to_N (byte_of z)) = z mod 256.
Proof.
  unfold byte_of. pose proof (Z.mod_pos_bound z 256 eq_refl) as H.
  destruct (Byte.of_N _) as [b |] eqn:E; cbn [default id].
  - apply Byte.to_of_N in E. unfold id. rewrite E. by rewrite Z2N.id by lia.
  - apply Byte.of_N_None_iff in E. lia.
Qed.

Lemma length_le_bytes n z : length (le_bytes n z) = n.
Proof. revert z. induction n as [| n IH]; intros z; cbn; [done | by rewrite IH]. Qed.

Lemma le_value_bytes n z : 0 <= z < 256 ^ Z.of_nat n -> le_value (le_bytes n z) = z.
Proof.
  revert z. induction n as [| n IH]; intros z Hz; cbn [le_bytes le_value]; [cbn in Hz; lia |].
  rewrite Nat2Z.inj_succ, Z.pow_succ_r in Hz by lia.
  rewrite byte_of_spec, IH; [pose proof (Z.div_mod z 256); lia |].
  split; [apply Z.div_pos; lia | apply Z.div_lt_upper_bound; lia].
Qed.

(** ** Outcomes

    A C++ function body ends in one of these ways.  [Val] is falling through
    to the next statement, [Ret] an early [return], [Stop] an execution the
    language gives no meaning to or that ends the process, and [NoFuel] marks
    a loop cut by the model's fuel (never a behaviour of the program). *)

Inductive stop :=
| UB_oob            (* access outside an object *)
| UB_uninit         (* an indeterminate value is read *)
| UB_overflow       (* signed arithmetic out of range *)
| UB_div0
| UB_null           (* a null pointer is dereferenced *)
| UB_badptr         (* use or release of memory that is not allocated *)
| Bad_alloc         (* std::bad_alloc leaves the function *)
| Std_terminate     (* a joinable std::thread is destroyed, an exception is not caught *)
| Gpr_abort         (* GPR_ASSERT failed *)
| UB_thread         (* an id that is no thread's is joined *)
| Blocks            (* a call that never returns *)
| Thread_exit.      (* pthread_exit was called *)

#[export] Instance stop_eq_dec : EqDecision stop.
Proof. solve_decision. Defined.

Inductive outcome (R A : Type) :=
| Val (a : A)
| Ret (r : R)
| Stop (why : stop)
| NoFuel.
Arguments Val {R A} a.
Arguments Ret {R A} r.
Arguments Stop {R A} why.
Arguments NoFuel {R A}.

(** ** The statement monad

    [M S R A]: a statement over the state [S], in a function that returns an
    [R], yielding an [A]. *)

Definition M (S R A : Type) : Type := S -> outcome R A * S.

#[export] Instance M_ret {S R} : MRet (M S R) := fun A a s => (Val a, s).

#[export] Instance M_bind {S R} : MBind (M S R) := fun A B f m s =>
  match m s with
  | (Val a, s') => f a s'
  | (Ret r, s') => (Ret r, s')
  | (Stop u, s') => (Stop u, s')
  | (NoFuel, s') => (NoFuel, s')
  end.

Definition return_ {S R A} (r : R) : M S R A := fun s => (Ret r, s).
Definition stop_ {S R A} (u : stop) : M S R A := fun s => (Stop u, s).
Definition nofuel {S R A} : M S R A := fun s => (NoFuel, s).
Definition gets {S R A} (f : S -> A) : M S R A := fun s => (Val (f s), s).
Definition modify {S R} (f : S -> S) : M S R () := fun s => (Val (), f s).

(** A call of a function whose body returns: the [return] of the callee is a
    value in the caller. *)
Definition call {S R R'} (body : M S R R) : M S R' R := fun s =>
  match body s with
  | (Val r, s') => (Val r, s')
  | (Ret r, s') => (Val r, s')
  | (Stop u, s') => (Stop u, s')
  | (NoFuel, s') => (NoFuel, s')
  end.

(** [if (b) m]. *)
Definition when {S R} (b : bool) (m : M S R ()) : M S R () :=
  if b then m else mret ().

(** Reading a variable that may hold an indeterminate value. *)
Definition read_init {S R A} (o : option A) : M S R A :=
  match o with Some a => mret a | None => stop_ UB_uninit end.

(** The value of a signed [int] expression. *)
Definition int_ret {S R} (z : Z) : M S R Z :=
  if in_int z then mret z else stop_ UB_overflow.

Definition int_div {S R} (a b : Z) : M S R Z :=
  if b =? 0 then stop_ UB_div0 else int_ret (Z.quot a b).

Definition int_rem {S R} (a b : Z) : M S R Z :=
  if b =? 0 then stop_ UB_div0
  else if (a =? INT_MIN) && (b =? -1) then stop_ UB_overflow
  else mret (Z.rem a b).

(** ** Weakest preconditions *)

Definition wp {S R A} (m : M S R A) (Q : outcome R A -> S -> Prop) (s : S) : Prop :=
  let (o, s') := m s in Q o s'.

Section wp.
Context {S R : Type}.

Lemma wp_ret {A} (a : A) (Q : outcome R A -> S -> Prop) s :
  Q (Val a) s -> wp (mret a) Q s.
Proof. done. Qed.

Lemma wp_bind {A B} (m : M S R A) (f : A -> M S R B) Q s :
  wp m (fun o s' => match o with
                    | Val a => wp (f a) Q s'
                    | Ret r => Q (Ret r) s'
                    | Stop u => Q (Stop u) s'
                    | NoFuel => Q NoFuel s'
                    end) s ->
  wp (m ≫= f) Q s.
Proof. unfold wp, mbind, M_bind. by destruct (m s) as [[] s']. Qed.

Lemma wp_mono {A} (m : M S R A) (Q Q' : outcome R A -> S -> Prop) s :
  (forall o s', Q o s' -> Q' o s') -> wp m Q s -> wp m Q' s.
Proof. unfold wp. destruct (m s). auto. Qed.

Lemma wp_and {A} (m : M S R A) (Q Q' : outcome R A -> S -> Prop) s :
  wp m Q s -> wp m Q' s -> wp m (fun o s' => Q o s' /\ Q' o s') s.
Proof. unfold wp. destruct (m s). auto. Qed.

Lemma wp_run {A} (m : M S R A) (Q : outcome R A -> S -> Prop) s :
  wp m Q s -> forall o s', m s = (o, s') -> Q o s'.
Proof. unfold wp. intros H o s' E. by rewrite E in H. Qed.

Lemma wp_val_ex {A} (m : M S R A) a (Φ : S -> Prop) s :
  wp m (fun o s' => o = Val a /\ Φ s') s -> exists s', m s = (Val a, s') /\ Φ s'.
Proof. unfold wp. destruct (m s) as [o s']. intros [-> H]. eauto. Qed.

Lemma wp_ex {A} (m : M S R A) o (Φ : S -> Prop) s :
  wp m (fun o' s' => o' = o /\ Φ s') s -> exists s', m s = (o, s') /\ Φ s'.
Proof. unfold wp. destruct (m s) as [o' s']. intros [-> H]. eauto. Qed.

Lemma wp_eq {A} (m : M S R A) x s : wp m (fun o s' => (o, s') = x) s -> m s = x.
Proof. unfold wp. by destruct (m s). Qed.

Lemma wp_exact {A} (m : M S R A) s : wp m (fun o s' => m s = (o, s')) s.
Proof. unfold wp. by destruct (m s). Qed.
End wp.

(** Two statements are equivalent when they act alike on every state; [mbind]
    respects it, which lets equations be rewritten under a sequence. *)
Definition M_equiv {S R A} (m m' : M S R A) : Prop := forall s, m s = m' s.

#[export] Instance M_equiv_equivalence {S R A} : Equivalence (@M_equiv S R A).
Proof.
  split; unfold M_equiv; [intros m s; done | intros m m' H s; by rewrite H |].
  intros m1 m2 m3 H1 H2 s. by rewrite H1.
Qed.

#[export] Instance mbind_proper {S R A B} :
  Proper (pointwise_relation A M_equiv ==> M_equiv ==> M_equiv)
         (@mbind (M S R) _ A B).
Proof.
  intros f f' Hf m m' Hm s. unfold mbind, M_bind. rewrite Hm.
  destruct (m' s) as [[] s']; [apply Hf | done..].
Qed.

#[export] Instance wp_proper {S R A} :
  Proper (M_equiv ==> eq ==> eq ==> iff) (@wp S R A).
Proof. intros m m' H Q ? <- s ? <-. unfold wp. by rewrite H. Qed.

Lemma M_bind_ret_l {S R A B} (a : A) (f : A -> M S R B) : M_equiv (mret a ≫= f) (f a).
Proof. done. Qed.

Lemma M_bind_assoc {S R A B C} (m : M S R A) (f : A -> M S R B) (g : B -> M S R C) :
  M_equiv ((m ≫= f) ≫= g) (m ≫= fun a => f a ≫= g).
Proof. intros s. unfold mbind, M_bind. by destruct (m s) as [[] s']. Qed.

(** ** Tactics *)

(** Splits a boolean test of the goal and turns it into propositions. *)
Ltac bool_hyps :=
  repeat match goal with
  | H : (_ && _) = true |- _ => apply andb_true_iff in H; destruct H
  | H : (_ =? _) = true |- _ => apply Z.eqb_eq in H
  | H : (_ =? _) = false |- _ => apply Z.eqb_neq in H
  | H : (_ <? _) = true |- _ => apply Z.ltb_lt in H
  | H : (_ <? _) = false |- _ => apply Z.ltb_ge in H
  | H : (_ <=? _) = true |- _ => apply Z.leb_le in H
  | H : (_ <=? _) = false |- _ => apply Z.leb_gt in H
  | H : (_ >? _) = true |- _ => rewrite Z.gtb_ltb in H; apply Z.ltb_lt in H
  | H : (_ >? _) = false |- _ => rewrite Z.gtb_ltb in H; apply Z.ltb_ge in H
  | H : (_ >=? _) = true |- _ => rewrite Z.geb_leb in H; apply Z.leb_le in H
  | H : (_ >=? _) = false |- _ => rewrite Z.geb_leb in H; apply Z.leb_gt in H
  | H : in_int _ = true |- _ => apply in_int_spec in H
  end.

Lemma wp_gets {S R A} (f : S -> A) (Q : outcome R A -> S -> Prop) s :
  Q (Val (f s)) s -> wp (gets f) Q s.
Proof. done. Qed.
Lemma wp_modify {S R} (f : S -> S) (Q : outcome R () -> S -> Prop) s :
  Q (Val ()) (f s) -> wp (modify f) Q s.
Proof. done. Qed.
Lemma wp_return {S R A} (r : R) (Q : outcome R A -> S -> Prop) s :
  Q (Ret r) s -> wp (return_ r) Q s.
Proof. done. Qed.
Lemma wp_stop {S R A} u (Q : outcome R A -> S -> Prop) s :
  Q (Stop u) s -> wp (stop_ u) Q s.
Proof. done. Qed.
Lemma wp_nofuel {S R A} (Q : outcome R A -> S -> Prop) s :
  Q NoFuel s -> wp nofuel Q s.
Proof. done. Qed.
Lemma wp_call {S R R'} (body : M S R R) (Q : outcome R' R -> S -> Prop) s :
  wp body (fun o s' => match o with
                       | Val r => Q (Val r) s'
                       | Ret r => Q (Val r) s'
                       | Stop u => Q (Stop u) s'
                       | NoFuel => Q NoFuel s'
                       end) s ->
  wp (call body) Q s.
Proof. unfold wp, call. by destruct (body s) as [[] s']. Qed.
Lemma wp_int_ret {S R} z (Q : outcome R Z -> S -> Prop) s :
  - 2 ^ 31 <= z < 2 ^ 31 -> Q (Val z) s -> wp (int_ret z) Q s.
Proof. intros H HQ. unfold int_ret. by rewrite (proj2 (in_int_spec z) H). Qed.

Lemma int_ret_ok {S R} z : - 2 ^ 31 <= z < 2 ^ 31 -> int_ret (S := S) (R := R) z = mret z.
Proof. intros H. unfold int_ret. by rewrite (proj2 (in_int_spec z) H). Qed.

Lemma int_div_mul {S R} k b :
  - 2 ^ 31 <= k < 2 ^ 31 -> b <> 0 -> int_div (S := S) (R := R) (k * b) b = mret k.
Proof.
  intros Hk Hb. unfold int_div. rewrite (proj2 (Z.eqb_neq b 0) Hb), Z.quot_mul by done.
  by apply int_ret_ok.
Qed.

Lemma wp_read_some {S R A} (a : A) (Q : outcome R A -> S -> Prop) s :
  Q (Val a) s -> wp (read_init (Some a)) Q s.
Proof. done. Qed.
Lemma wp_read_init {S R A} (o : option A) (Q : outcome R A -> S -> Prop) s :
  (forall a, o = Some a -> Q (Val a) s) -> (o = None -> Q (Stop UB_uninit) s) ->
  wp (read_init o) Q s.
Proof. destruct o; intros H1 H2; [by apply H1 | by apply H2]. Qed.

(** One step of symbolic execution of a statement. *)
Ltac wp_one :=
  match goal with
  | |- wp (mret _) _ _ => apply wp_ret
  | |- wp (gets _) _ _ => apply wp_gets
  | |- wp (modify _) _ _ => apply wp_modify
  | |- wp (return_ _) _ _ => apply wp_return
  | |- wp (stop_ _) _ _ => apply wp_stop
  | |- wp nofuel _ _ => apply wp_nofuel
  | |- wp (call _) _ _ => apply wp_call
  | |- wp (read_init (Some _)) _ _ => apply wp_read_some
  | |- wp (_ ≫= _) _ _ => apply wp_bind
  end.
Ltac wp_go := cbn beta iota; repeat (wp_one; cbn beta iota).

(** ** Text *)

(** The character [\n]. *)
Definition LF : string := String (Ascii.Ascii false true false true false false false false) EmptyString.

Definition SPACE : Ascii.ascii := Ascii.Ascii false false false false false true false false.
Definition DASH : Ascii.ascii := Ascii.Ascii true false true true false true false false.

Fixpoint has_char (c : Ascii.ascii) (s : string) : bool :=
  match s with
  | EmptyString => false
  | String d s => bool_decide (c = d) || has_char c s
  end.

Lemma string_app_cons d (s t : string) : String d s +:+ t = String d (s +:+ t).
Proof. done. Qed.
Lemma string_app_nil (t : string) : EmptyString +:+ t = t.
Proof. done. Qed.

Lemma has_char_app c s t : has_char c (s +:+ t) = has_char c s || has_char c t.
Proof.
  induction s as [| d s IH]; [done |].
  rewrite string_app_cons. cbn. by rewrite IH, orb_assoc.
Qed.

(** A text is split in one way at the first occurrence of a character. *)
Lemma split_at_char c s1 s2 r1 r2 :
  has_char c s1 = false -> has_char c s2 = false ->
  s1 +:+ String c r1 = s2 +:+ String c r2 -> s1 = s2 /\ r1 = r2.
Proof.
  revert s2. induction s1 as [| d s1 IH]; intros [| e s2];
    rewrite ?string_app_cons, ?string_app_nil; cbn; intros H1 H2 E.
  - by simplify_eq.
  - simplify_eq. by rewrite bool_decide_true in H2.
  - simplify_eq. by rewrite bool_decide_true in H1.
  - apply orb_false_iff in H1 as [_ H1], H2 as [_ H2]. simplify_eq.
    destruct (IH s2 H1 H2) as [-> ->]; done.
Qed.

Definition is_digit (c : Ascii.ascii) : bool :=
  existsb (fun n => bool_decide (c = pretty_N_char n)) [0; 1; 2; 3; 4; 5; 6; 7; 8; 9]%N.

Lemma pretty_N_char_other c n : is_digit c = false -> bool_decide (c = pretty_N_char n) = false.
Proof.
  intros H. apply bool_decide_eq_false_2. intros ->. revert H. unfold pretty_N_char.
  by repeat case_match.
Qed.

Lemma pretty_N_go_has_char c n s :
  is_digit c = false -> has_char c s = false -> has_char c (pretty_N_go n s) = false.
Proof.
  intros Hc. revert s. induction (N.lt_wf_0 n) as [n _ IH]. intros s Hs.
  destruct (decide (n = 0%N)) as [-> | Hn]; [by rewrite pretty_N_go_0 |].
  rewrite pretty_N_go_step by lia. apply IH; [apply N.div_lt; lia |].
  cbn. by rewrite pretty_N_char_other.
Qed.

Lemma pretty_N_has_char c (n : N) : is_digit c = false -> has_char c (pretty n) = false.
Proof.
  intros Hc. unfold pretty, pretty_N. case_decide; [| by apply pretty_N_go_has_char].
  cbn [has_char]. rewrite orb_false_r. exact (pretty_N_char_other c 0 Hc).
Qed.

(** A number is printed with digits and at most a sign. *)
Lemma pretty_Z_has_char c (z : Z) :
  is_digit c = false -> c <> DASH -> has_char c (pretty z) = false.
Proof.
  intros Hc Hm. destruct z as [| p | p]; unfold pretty, pretty_Z.
  - by apply (pretty_N_has_char c 0).
  - by apply (pretty_N_has_char c (Npos p)).
  - rewrite has_char_app. cbn. rewrite bool_decide_eq_false_2 by done.
    by apply (pretty_N_has_char c (Npos p)).
Qed.

Lemma pretty_Z_nonneg_dash (z : Z) : 0 <= z -> has_char DASH (pretty z) = false.
Proof.
  intros H. destruct z as [| p | p]; unfold pretty, pretty_Z; [| | lia].
  - by apply (pretty_N_has_char DASH 0).
  - by apply (pretty_N_has_char DASH (Npos p)).
Qed.

Lemma string_app_cancel (s t t' : string) : s +:+ t = s +:+ t' -> t = t'.
Proof. induction s; rewrite ?string_app_cons; [done | intros [=]; auto]. Qed.

(** A counter printed as [<number> ms] can be read back. *)
Lemma split_ms (z z' : Z) (t t' : string) :
  pretty z +:+ " ms" +:+ t = pretty z' +:+ " ms" +:+ t' -> z = z' /\ t = t'.
Proof.
  intros E.
  destruct (split_at_char SPACE (pretty z) (pretty z') ("ms" +:+ t) ("ms" +:+ t')) as [H1 H2];
    [by apply pretty_Z_has_char.. | exact E |].
  split; [by apply pretty_Z_inj | by apply string_app_cancel in H2].
Qed.

(** ** Lists *)

Lemma take_drop_app {A} (n m : nat) (l : list A) :
  take n l ++ take m (drop n l) = take (n + m) l.
Proof. by rewrite take_take_drop. Qed.

(** Membership in a list that is written out. *)
Ltac in_list :=
  repeat first [apply list_elem_of_here | apply list_elem_of_further].

Lemma Z_quot_div a b : 0 <= a -> 0 < b -> Z.quot a b = a / b.
Proof. intros. by apply Z.quot_div_nonneg. Qed.
Lemma Z_rem_mod a b : 0 <= a -> 0 < b -> Z.rem a b = a mod b.
Proof. intros. by apply Z.rem_mod_nonneg. Qed.
