(* ===== verification/Args.v ===== *)
(** * Command-line values (src/src/third_party/argparse.hpp, [Argument::get])

    The programs read their options with the vendored argparse.  An option's
    value is a [std::any]: what [scan] or [implicit_value] made of the command
    line, or else the default as it was given, under the type it was given
    with.  [get<T>] throws [std::bad_any_cast] ([None] here) for a value stored
    under another type. *)

From S2P Require Import Prelude.

(** The stored types that occur. *)
Inductive any :=
| Any_int (z : Z)
| Any_unsigned (z : Z)
| Any_bool (b : bool)
| Any_string (s : string)
| Any_chars (s : string).      (* const char * *)

Record Argument := mk_argument { m_values : list any; m_default_value : any }.

Definition get (a : Argument) : any :=
  match m_values a with v :: _ => v | [] => m_default_value a end.

(** The conversions of [get<int>], [get<bool>] and [get<std::string>]. *)
Definition get_int (a : Argument) : option Z :=
  match get a with Any_int z => Some z | _ => None end.
Definition get_bool (a : Argument) : option bool :=
  match get a with Any_bool b => Some b | _ => None end.
Definition get_string (a : Argument) : option string :=
  match get a with Any_string s => Some s | _ => None end.

(** An option with [scan<'i', int>], one without a [scan], and a flag with
    [implicit_value(true)]; the first argument is what the command line gives. *)
Definition int_option (given : option Z) (d : any) : Argument :=
  mk_argument (Any_int <$> option_list given) d.
Definition text_option (given : option string) (d : any) : Argument :=
  mk_argument (Any_string <$> option_list given) d.
Definition flag_option (given : bool) : Argument :=
  mk_argument (if given then [Any_bool true] else []) (Any_bool false).

Lemma get_int_option given z :
  get_int (int_option given (Any_int z)) = Some (default z given).
Proof. by destruct given. Qed.
Lemma get_text_option given s :
  get_string (text_option given (Any_string s)) = Some (default s given).
Proof. by destruct given. Qed.
Lemma get_flag_option given : get_bool (flag_option given) = Some given.
Proof. by destruct given. Qed.

(** A default of another type than the one asked for is as good as none. *)
Lemma get_int_unsigned given z : get_int (int_option given (Any_unsigned z)) = given.
Proof. by destruct given. Qed.
Lemma get_text_chars given s : get_string (text_option given (Any_chars s)) = given.
Proof. by destruct given. Qed.

Create Rewrite HintDb args.
#[export] Hint Rewrite get_int_option get_text_option get_flag_option get_int_unsigned
  get_text_chars : args.
