(* ===== verification/Proto.v ===== *)
(** * Messages of the two gRPC services (src/src/proto/net.proto)

    A [bytes] field is a list of bytes, an [int32] field a [Z] in its range.
    Only the data of the messages is modelled; their encoding is generated
    code. *)

From S2P Require Import Prelude.

Record BlockRequest := {
  br_size : Z;
  br_start_block : Z;
  br_data : list byte;
}.

Record BlockReply := { end_block : Z }.

Record StatReply := { stat : string }.

Record FileRequest := {
  filename : string;
  fr_data : list byte;
}.

Record FileReply := { stats : string }.

Record Parameters := {
  p_blk_size : Z;
  p_buffer_size : Z;
  p_queue_depth : Z;
  p_poll_threshold : Z;
  p_n : Z;
  p_nfiles : Z;
}.

(** The field values protobuf can deliver: both [int32]s are in range. *)
Definition BlockRequest_wf (r : BlockRequest) : Prop :=
  INT_MIN <= br_size r <= INT_MAX /\ INT_MIN <= br_start_block r <= INT_MAX.

(** The message a default-constructed [BlockReply]/[FileRequest] holds. *)
Definition BlockReply_default : BlockReply := {| end_block := 0 |}.
Definition FileRequest_default : FileRequest := {| filename := ""; fr_data := [] |}.

(** [grpc::Status]: the codes the servers use. *)
Inductive Status :=
| OK
| UNKNOWN (msg : string).

#[export] Instance Status_eq_dec : EqDecision Status.
Proof. solve_decision. Defined.
