(* ===== verification/Env.v ===== *)
(** * The process and its environment

    The code's calls into the kernel, libnvme, liburing, gRPC, the clock and
    the allocator are the constructors of [ev]; what such a call answers is
    its [reply].  The environment [world] is a parameter: any function from
    the calls made so far to the answer of the next one.  What a theorem needs
    of it is a hypothesis on [world].

    A process state [st] has the component's own objects, the C++ heap and the
    history [log] of external calls with their answers, newest first. *)

From S2P Require Import Prelude Proto.

(** ** Memory *)

(** A byte of memory; [None] is an indeterminate one. *)
Abbreviation mbyte := (option byte).
Abbreviation loc := nat.

Record heap_t := mk_heap {
  blocks : gmap loc (list mbyte);
  next_loc : loc;
}.

Definition heap_wf (h : heap_t) : Prop :=
  forall l, is_Some (blocks h !! l) -> (l < next_loc h)%nat.

Definition heap_empty : heap_t := mk_heap ∅ 0.

Definition heap_alloc (n : Z) (h : heap_t) : loc * heap_t :=
  (next_loc h,
   mk_heap (<[next_loc h := replicate (Z.to_nat n) None]> (blocks h)) (S (next_loc h))).

Definition heap_free (l : loc) (h : heap_t) : heap_t :=
  mk_heap (delete l (blocks h)) (next_loc h).

Definition heap_store (l : loc) (bs : list mbyte) (h : heap_t) : heap_t :=
  mk_heap (<[l := bs]> (blocks h)) (next_loc h).

(** What [std::string::data()] points to: the bytes and a terminating 0. *)
Definition c_str (bs : list byte) : list mbyte := (Some <$> bs) ++ [Some x00].

(** ** External calls *)

Inductive open_flag :=
| O_RDONLY | O_WRONLY | O_RDWR | O_APPEND | O_DIRECT | O_CREAT | O_TRUNC | O_SYNC.

#[export] Instance open_flag_eq_dec : EqDecision open_flag.
Proof. solve_decision. Defined.

(** libnvme's argument block, the fields the code sets. *)
Record nvme_io_args := mk_args {
  slba : Z;
  nlb : Z;
  data_len : Z;
  data : option loc;
  fd : Z;
  nsid : Z;
  timeout : Z;
}.

(** A submission queue entry as the kernel reads it. *)
Inductive sqe_op :=
| Op_write (fd : Z) (buffer : loc) (bytes : list mbyte) (offset : Z)
| Op_write_fixed (index : Z) (buffer : loc) (bytes : list mbyte) (offset : Z)
| Op_close (fd : Z).

Record sqe := mk_sqe {
  operation : sqe_op;
  user_data : option loc;
  linked : bool;        (* IOSQE_IO_LINK *)
}.

(** *** RDMA *)

(** Events of the connection manager; [Cm_other] are those the code does not
    name. *)
Inductive cm_event :=
| ADDR_RESOLVED
| ROUTE_RESOLVED
| CONNECT_REQUEST
| ESTABLISHED
| Cm_other.

#[export] Instance cm_event_eq_dec : EqDecision cm_event.
Proof. solve_decision. Defined.

Inductive wr_opcode := WR_SEND | WR_RDMA_READ.

(** [struct ibv_send_wr] with its one [ibv_sge]; [None] is a member the code
    did not set. *)
Record send_wr := mk_wr {
  wr_id : option Z;
  opcode : option wr_opcode;
  signaled : option bool;
  sg_addr : Z;
  sg_length : Z;
  sg_lkey : Z;
  remote_addr : option Z;
  remote_key : option Z;
}.

(** [struct ibv_wc]: the members the code reads, and the bytes of the message a
    completed receive was for ([None]: the completion is not one of a receive
    that got a message). *)
Record ibv_wc := mk_wc {
  wc_status : Z;
  wc_wr_id : Z;
  wc_received : option (list byte);
}.

Inductive ev :=
(* files *)
| Sys_open (path : string) (flags : list open_flag)
| Sys_close (fd : Z)
| Sys_write (fd : Z) (bytes : list mbyte)
| Sys_fstat (fd : Z)
| Sys_fallocate (fd len : Z)
| Sleep (microseconds : Z)
(* sockets *)
| Sys_socket
| Sys_bind (sock port : Z)
| Sys_listen (sock backlog : Z)
| Sys_accept (sock : Z)
| Sys_connect (sock : Z) (address : string) (port : Z)
| Sys_send (sock : Z) (bytes : list byte)
| Sys_recv (sock len : Z)
(* libnvme *)
| Nvme_get_nsid (fd : Z)
| Nvme_get_logical_block_size (fd nsid : Z)
| Nvme_identify_ns (fd nsid : Z)
| Nvme_read (args : nvme_io_args)
| Nvme_write (args : nvme_io_args) (payload : list mbyte)
(* clock, allocator, random numbers *)
| Clock_now
| Alloc (alignment : option Z) (size : Z)
| Rand_int
(* gRPC *)
| Grpc_serve (address : string)
| Grpc_request_write (tag : nat)
| Grpc_finish (tag : nat) (status : Status) (reply : BlockReply)
| Grpc_shutdown
| Cq_next
| Cq_shutdown
| Stream_read
| Stream_write (reply : FileReply)
(* gRPC, the client's side *)
| Stub_set_parameters (params : Parameters)
| Stub_open_stream (method : string)
| Client_write (request : FileRequest)
| Client_read
| Client_writes_done
| Client_finish
| Stub_write_block (request : BlockRequest)
| Client_cq_next
(* liburing *)
| Uring_init (depth : Z)
| Uring_init_sqpoll (depth idle : Z)
| Uring_get_sqe
| Uring_prep_writev (fd : Z) (iov_base : Z) (iov_len offset : Z)
| Uring_submit
| Uring_peek_cqe
| Uring_cqe_seen
| Uring_enter (queue : list sqe)
| Uring_wait_cqe
| Uring_exit
| Uring_register_files (fd : Z)
| Uring_sqring_wait
| Uring_submit_writev (queue : list (Z * option Z))
(* libaio *)
| Aio_setup (n : Z)
| Aio_submit (n : Z) (iocbs : list (loc * sqe_op))
| Aio_getevents (min_nr max_nr : Z)
| Aio_destroy
(* librdmacm, libibverbs *)
| Rdma_create_event_channel
| Rdma_create_id (channel : Z)
| Rdma_resolve_addr (id : Z) (host : string) (port : Z)
| Rdma_resolve_route (id : Z)
| Rdma_bind_addr (id : Z) (host : string) (port : Z)
| Rdma_listen (id backlog : Z)
| Rdma_get_cm_event (channel : Z)
| Rdma_ack_cm_event
| Rdma_connect (id depth : Z)
| Rdma_accept (id depth : Z)
| Rdma_create_qp (id pd depth cq : Z)
| Ibv_query_device (id : Z)
| Ibv_alloc_pd (id : Z)
| Ibv_create_comp_channel (id : Z)
| Ibv_create_cq (id depth channel : Z)
| Ibv_req_notify_cq (cq : Z)
| Ibv_reg_mr (pd addr len : Z) (remote : bool)
| Ibv_dereg_mr (mr : Z)
| Ibv_post_recv (qp addr len lkey : Z)
(* with the bytes of the local buffer, where the request reads it *)
| Ibv_post_send (qp : Z) (wr : send_wr) (payload : list mbyte)
| Ibv_get_cq_event (channel : Z)
| Ibv_poll_cq (cq n : Z)
| Ibv_ack_cq_events (cq n : Z)
(* threads *)
| Pthread_create (thread : string)
| Pthread_setaffinity (tid : Z) (cpu : Z)
| Pthread_join (tid : Z).

(** [(ret, errno)] where the code reads [errno], [(ret, out)] where the call
    has an out-parameter ([None]: the call left it as it was). *)
Definition reply (e : ev) : Type :=
  match e with
  | Sys_open _ _ | Sys_close _ | Sys_write _ _ | Sys_fallocate _ _ => Z
  | Sys_fstat _ => Z * Z
  | Sleep _ => unit
  | Sys_socket | Sys_bind _ _ | Sys_listen _ _ | Sys_accept _ | Sys_connect _ _ _ => Z
  | Sys_send _ _ => Z * Z
  | Sys_recv _ _ => Z * Z * list byte
  | Nvme_get_nsid _ | Nvme_get_logical_block_size _ _ | Nvme_identify_ns _ _ => Z * option Z
  | Nvme_read _ => Z * list byte
  | Nvme_write _ _ => Z
  | Clock_now | Rand_int => Z
  | Alloc _ _ => Z
  | Grpc_serve _ | Grpc_request_write _ | Grpc_finish _ _ _ => unit
  | Grpc_shutdown | Cq_shutdown => unit
  (* the tag, [ok], and the request that was read for it *)
  | Cq_next => option (nat * bool * option BlockRequest)
  | Stream_read => option FileRequest
  | Stream_write _ => bool
  (* whether the status is ok *)
  | Stub_set_parameters _ | Client_finish => bool
  | Stub_open_stream _ | Client_writes_done => unit
  | Client_write _ => bool
  | Client_read => option FileReply
  | Stub_write_block _ => unit
  (* whether there was a completion, its tag, [ok], and the reply if the status
     is OK *)
  | Client_cq_next => bool * Z * bool * option BlockReply
  | Uring_init _ | Uring_init_sqpoll _ _ => Z
  | Uring_get_sqe => bool
  | Uring_prep_writev _ _ _ _ => unit
  | Uring_submit => Z
  | Uring_peek_cqe => option Z
  | Uring_cqe_seen | Uring_exit => unit
  (* how many entries were taken from the front of the queue *)
  | Uring_enter _ => Z
  (* the result, [cqe->res] and the user data; [None] while there is nothing *)
  | Uring_wait_cqe => option (Z * Z * option loc)
  | Uring_register_files _ | Uring_sqring_wait | Uring_submit_writev _ => Z
  | Aio_setup _ | Aio_submit _ _ => Z
  (* the result and the [obj] of the events *)
  | Aio_getevents _ _ => Z * list loc
  | Aio_destroy => unit
  (* a pointer, null on failure *)
  | Rdma_create_event_channel | Ibv_alloc_pd _ | Ibv_create_comp_channel _
  | Ibv_create_cq _ _ _ => Z
  (* the result, and the new id, the queue pair, [max_qp_rd_atom] *)
  | Rdma_create_id _ | Rdma_create_qp _ _ _ _ | Ibv_query_device _ => Z * Z
  (* the result and the cq; [None] where it waits for ever *)
  | Ibv_get_cq_event _ => option (Z * Z)
  | Rdma_resolve_addr _ _ _ | Rdma_resolve_route _ | Rdma_bind_addr _ _ _ | Rdma_listen _ _
  | Rdma_connect _ _ | Rdma_accept _ _ | Ibv_req_notify_cq _ | Ibv_dereg_mr _ => Z
  (* the result, the event and its id *)
  | Rdma_get_cm_event _ => Z * cm_event * Z
  | Rdma_ack_cm_event => unit
  (* the region, its lkey and its rkey *)
  | Ibv_reg_mr _ _ _ _ => Z * Z * Z
  | Ibv_post_recv _ _ _ _ | Ibv_post_send _ _ _ => Z
  | Ibv_poll_cq _ _ => Z * list ibv_wc
  | Ibv_ack_cq_events _ _ => unit
  (* the result and the new thread's id *)
  | Pthread_create _ => Z * Z
  | Pthread_setaffinity _ _ | Pthread_join _ => Z
  end.

(** Answers of an environment in which every call succeeds with 0 and nothing
    arrives; the witnesses build their environments from it. *)
Definition default_reply (e : ev) : reply e :=
  match e with
  | Sys_open _ _ | Sys_close _ | Sys_write _ _ | Sys_fallocate _ _ => 0
  | Sys_fstat _ => (0, 0)
  | Sleep _ => tt
  | Sys_socket | Sys_bind _ _ | Sys_listen _ _ | Sys_accept _ | Sys_connect _ _ _ => 0
  | Sys_send _ _ => (0, 0)
  | Sys_recv _ _ => (0, 0, [])
  | Nvme_get_nsid _ | Nvme_get_logical_block_size _ _ | Nvme_identify_ns _ _ => (0, None)
  | Nvme_read _ => (0, [])
  | Nvme_write _ _ => 0
  | Clock_now | Rand_int => 0
  | Alloc _ _ => 0
  | Grpc_serve _ | Grpc_request_write _ | Grpc_finish _ _ _ => tt
  | Grpc_shutdown | Cq_shutdown => tt
  | Cq_next => None
  | Stream_read => None
  | Stream_write _ => true
  | Stub_set_parameters _ | Client_finish => true
  | Stub_open_stream _ | Client_writes_done => tt
  | Client_write _ => true
  | Client_read => None
  | Stub_write_block _ => tt
  | Client_cq_next => (true, 1, true, None)
  | Uring_init _ | Uring_init_sqpoll _ _ => 0
  | Uring_get_sqe => true
  | Uring_prep_writev _ _ _ _ => tt
  | Uring_submit => 0
  | Uring_peek_cqe => None
  | Uring_cqe_seen | Uring_exit => tt
  | Uring_enter _ => 0
  | Uring_wait_cqe => None
  | Uring_register_files _ | Uring_sqring_wait | Uring_submit_writev _ => 0
  | Aio_setup _ | Aio_submit _ _ => 0
  | Aio_getevents _ _ => (0, [])
  | Aio_destroy => tt
  | Rdma_create_event_channel | Ibv_alloc_pd _ | Ibv_create_comp_channel _
  | Ibv_create_cq _ _ _ => 0
  | Rdma_create_id _ | Rdma_create_qp _ _ _ _ | Ibv_query_device _ => (0, 0)
  | Ibv_get_cq_event _ => Some (0, 0)
  | Rdma_resolve_addr _ _ _ | Rdma_resolve_route _ | Rdma_bind_addr _ _ _ | Rdma_listen _ _
  | Rdma_connect _ _ | Rdma_accept _ _ | Ibv_req_notify_cq _ | Ibv_dereg_mr _ => 0
  | Rdma_get_cm_event _ => (0, Cm_other, 0)
  | Rdma_ack_cm_event => tt
  | Ibv_reg_mr _ _ _ _ => (0, 0, 0)
  | Ibv_post_recv _ _ _ _ | Ibv_post_send _ _ _ => 0
  | Ibv_poll_cq _ _ => (0, [])
  | Ibv_ack_cq_events _ _ => tt
  | Pthread_create _ => (0, 0)
  | Pthread_setaffinity _ _ | Pthread_join _ => 0
  end.

(** An external call and its answer. *)
Abbreviation entry := (@sigT ev reply).
Notation "e ~> r" := (existT (P := reply) e r) (at level 40, no associativity).
Abbreviation history := (list entry).

(** What the code is compiled and run against. *)
Class Platform := {
  world : history -> forall e : ev, reply e;
  (* width of [nvme_io_args::nlb] in libnvme's header *)
  nlb_width : Z;
  NVME_DEFAULT_IOCTL_TIMEOUT : Z;
  ENVME_CONNECT_RESOLVE : Z;
  nvme_errno_to_string : Z -> string;
  std_strerror : Z -> string;
  EINTR : Z;
  (* how many steps another thread of the process makes at this point *)
  schedule : history -> nat;
  (* [io_uring_queue_init]: the number of entries of the submission queue *)
  sq_entries : Z -> nat;
  (* whether [io_uring_prep_*] resets [sqe->user_data] (liburing up to 2.0) *)
  prep_clears : bool;
  (* where the compiler puts the literal "" of nvme.h *)
  empty_literal : Z;
}.

(** A platform around an environment, for the witnesses. *)
Definition platform_of (w : history -> forall e : ev, reply e) : Platform := {|
  world := w;
  nlb_width := 16;
  NVME_DEFAULT_IOCTL_TIMEOUT := 120000;
  ENVME_CONNECT_RESOLVE := 1000;
  nvme_errno_to_string := fun _ => "nvme error"%string;
  std_strerror := fun _ => "error"%string;
  EINTR := 4;
  schedule := fun _ => 0%nat;
  sq_entries := Z.to_nat;
  prep_clears := false;
  empty_literal := 64;
|}.

(** ** Process states *)

Record st (P : Type) := mk_st { own : P; heap : heap_t; log : history }.
Arguments mk_st {P}.
Arguments own {P}.
Arguments heap {P}.
Arguments log {P}.

Definition with_own {P Q} (f : P -> Q) (s : st P) : st Q := mk_st (f (own s)) (heap s) (log s).

Section ops.
Context {PF : Platform} {P R : Type}.

Definition ext (e : ev) : M (st P) R (reply e) := fun s =>
  let r := world (log s) e in
  (Val r, mk_st (own s) (heap s) (e ~> r :: log s)).

Definition get_own {A} (f : P -> A) : M (st P) R A := gets (fun s => f (own s)).
Definition set_own (f : P -> P) : M (st P) R () := modify (with_own f).

Definition with_heap (f : heap_t -> heap_t) : M (st P) R () :=
  modify (fun s => mk_st (own s) (f (heap s)) (log s)).

Definition fresh_block (n : Z) : M (st P) R loc := fun s =>
  let (l, h) := heap_alloc n (heap s) in (Val l, mk_st (own s) h (log s)).

(** [new char[n]]. *)
Definition new_array (n : Z) : M (st P) R loc :=
  if n <? 0 then stop_ Bad_alloc
  else r ← ext (Alloc None n);
       if r =? 0 then fresh_block n else stop_ Bad_alloc.

(** [posix_memalign]: the error number and, on success, the block. *)
Definition posix_memalign (alignment size : Z) : M (st P) R (Z * option loc) :=
  r ← ext (Alloc (Some alignment) size);
  if r =? 0 then l ← fresh_block size; mret (r, Some l) else mret (r, None).

Definition block_at (p : option loc) : M (st P) R (loc * list mbyte) := fun s =>
  match p with
  | None => (Stop UB_null, s)
  | Some l => match blocks (heap s) !! l with
              | Some b => (Val (l, b), s)
              | None => (Stop UB_badptr, s)
              end
  end.

(** [free], [delete[]]: nothing for a null pointer. *)
Definition release (p : option loc) : M (st P) R () :=
  match p with
  | None => mret ()
  | Some _ => '(l, _) ← block_at p; with_heap (heap_free l)
  end.

(** [memcpy(p, src, n)], [n] a [size_t]. *)
Definition memcpy (p : option loc) (src : list mbyte) (n : Z) : M (st P) R () :=
  '(l, b) ← block_at p;
  if (n <=? Z.of_nat (length src)) && (n <=? Z.of_nat (length b))
  then with_heap (heap_store l (take (Z.to_nat n) src ++ drop (Z.to_nat n) b))
  else stop_ UB_oob.
End ops.

Create HintDb cheap.

(** ** Symbolic execution of the operations *)

Section wp_ops.
Context {PF : Platform} {P R : Type}.
Implicit Types (s : st P).

Lemma wp_ext e (Q : outcome R (reply e) -> st P -> Prop) s :
  (forall r, r = world (log s) e ->
     Q (Val r) (mk_st (own s) (heap s) (e ~> r :: log s))) ->
  wp (ext e) Q s.
Proof. intros H. by apply H. Qed.

Lemma wp_get_own {A} (f : P -> A) (Q : outcome R A -> st P -> Prop) s :
  Q (Val (f (own s))) s -> wp (get_own f) Q s.
Proof. done. Qed.

Lemma wp_set_own (f : P -> P) (Q : outcome R () -> st P -> Prop) s :
  Q (Val ()) (mk_st (f (own s)) (heap s) (log s)) -> wp (set_own f) Q s.
Proof. done. Qed.

Lemma wp_with_heap (f : heap_t -> heap_t) (Q : outcome R () -> st P -> Prop) s :
  Q (Val ()) (mk_st (own s) (f (heap s)) (log s)) -> wp (with_heap f) Q s.
Proof. done. Qed.

Lemma wp_fresh_block n (Q : outcome R loc -> st P -> Prop) s :
  Q (Val (next_loc (heap s))) (mk_st (own s) (heap_alloc n (heap s)).2 (log s)) ->
  wp (fresh_block n) Q s.
Proof. done. Qed.

Lemma wp_block_at l b (Q : outcome R (loc * list mbyte) -> st P -> Prop) s :
  blocks (heap s) !! l = Some b -> Q (Val (l, b)) s -> wp (block_at (Some l)) Q s.
Proof. intros E H. unfold wp, block_at. by rewrite E. Qed.

Lemma wp_release l b (Q : outcome R () -> st P -> Prop) s :
  blocks (heap s) !! l = Some b ->
  Q (Val ()) (mk_st (own s) (heap_free l (heap s)) (log s)) ->
  wp (release (Some l)) Q s.
Proof.
  intros E H. unfold release. apply wp_bind, (wp_block_at _ b); [done |].
  by apply wp_with_heap.
Qed.

Lemma wp_memcpy l b src n (Q : outcome R () -> st P -> Prop) s :
  blocks (heap s) !! l = Some b ->
  0 <= n <= Z.of_nat (length src) -> n <= Z.of_nat (length b) ->
  Q (Val ()) (mk_st (own s)
     (heap_store l (take (Z.to_nat n) src ++ drop (Z.to_nat n) b) (heap s)) (log s)) ->
  wp (memcpy (Some l) src n) Q s.
Proof.
  intros E Hs Hb H. unfold memcpy. apply wp_bind, (wp_block_at _ b); [done |].
  cbn beta iota. rewrite !(proj2 (Z.leb_le _ _)) by lia. by apply wp_with_heap.
Qed.

Lemma wp_memcpy_oob l b src n (Q : outcome R () -> st P -> Prop) s :
  blocks (heap s) !! l = Some b ->
  Z.of_nat (length b) < n \/ Z.of_nat (length src) < n ->
  Q (Stop UB_oob) s -> wp (memcpy (Some l) src n) Q s.
Proof.
  intros E Ho H. unfold memcpy. apply wp_bind, (wp_block_at _ b); [done |].
  cbn beta iota. destruct (_ && _) eqn:C; bool_hyps; [lia | by apply wp_stop].
Qed.
End wp_ops.

(** Running a statement on a part of the state. *)
Definition zoom {P Q R A} (get : Q -> P) (put : P -> Q -> Q) (m : M (st P) R A)
  : M (st Q) R A := fun s =>
  let (o, s') := m (mk_st (get (own s)) (heap s) (log s)) in
  (o, mk_st (put (own s') (own s)) (heap s') (log s')).

Lemma wp_zoom {P Q R A} (get : Q -> P) (put : P -> Q -> Q) (m : M (st P) R A) Φ s :
  wp m (fun o s' => Φ o (mk_st (put (own s') (own s)) (heap s') (log s')))
    (mk_st (get (own s)) (heap s) (log s)) ->
  wp (zoom get put m) Φ s.
Proof. unfold wp, zoom. by destruct (m _). Qed.

(** One step of symbolic execution, external calls included. *)
Ltac wp_step :=
  first
  [ wp_one
  | match goal with
    | |- wp (ext ?e) _ _ => let H := fresh "Hw" in apply (wp_ext e); intros ? H; cbn [own heap log] in H
    | |- wp (get_own _) _ _ => apply wp_get_own
    | |- wp (set_own _) _ _ => apply wp_set_own
    | |- wp (with_heap _) _ _ => apply wp_with_heap
    | |- wp (fresh_block _) _ _ => apply wp_fresh_block
    end ].
Ltac wp_steps := cbn beta iota; repeat (wp_step; cbn beta iota; cbn [own heap log]).

(** ** Heap lemmas *)

Lemma heap_alloc_fresh h : heap_wf h -> blocks h !! next_loc h = None.
Proof.
  intros W. destruct (blocks h !! next_loc h) eqn:E; [| done].
  specialize (W (next_loc h) (ex_intro _ _ E)). lia.
Qed.

Lemma heap_alloc_wf n h : heap_wf h -> heap_wf (heap_alloc n h).2.
Proof.
  intros W l [b Hb]. cbn in *. apply lookup_insert_Some in Hb as [[<- _] | [_ Hb]]; [lia |].
  specialize (W l (ex_intro _ _ Hb)). lia.
Qed.

Lemma heap_free_wf l h : heap_wf h -> heap_wf (heap_free l h).
Proof.
  intros W k [b Hb]. cbn in *. apply lookup_delete_Some in Hb as [_ Hb]. apply W. by exists b.
Qed.

Lemma heap_store_wf l bs h : is_Some (blocks h !! l) -> heap_wf h -> heap_wf (heap_store l bs h).
Proof.
  intros Hl W k [b Hb]. cbn in *.
  apply lookup_insert_Some in Hb as [[<- _] | [_ Hb]]; [by apply W | apply W; by exists b].
Qed.

#[export] Hint Resolve heap_alloc_wf heap_free_wf : cheap.

Lemma heap_empty_wf : heap_wf heap_empty.
Proof. intros l [b Hb]. done. Qed.

Lemma heap_alloc_lookup n h :
  blocks (heap_alloc n h).2 !! next_loc h = Some (replicate (Z.to_nat n) None).
Proof. apply lookup_insert_eq. Qed.

(** A block that is allocated, stored to and freed leaves the map of blocks as
    it was. *)
Lemma heap_scratch n bs h :
  heap_wf h ->
  blocks (heap_free (next_loc h) (heap_store (next_loc h) bs (heap_alloc n h).2)) = blocks h.
Proof.
  intros W. cbn. rewrite delete_insert_eq, delete_insert_id; [done |].
  by apply heap_alloc_fresh.
Qed.

(** The number of blocks that are allocated. *)
Definition live (h : heap_t) : nat := size (blocks h).

Lemma live_insert b h :
  heap_wf h -> size (<[next_loc h := b]> (blocks h)) = S (live h).
Proof. intros W. apply map_size_insert_None. by apply heap_alloc_fresh. Qed.

(** ** What a statement can add to the history

    [logs Φ m]: every external call that [m] makes, on whatever state and
    however it ends, satisfies [Φ]. *)

Definition logs {P R A} (Φ : entry -> Prop) (m : M (st P) R A) : Prop := forall s,
  wp m (fun _ s' => exists l, log s' = l ++ log s /\ Forall Φ l) s.

Section logs.
Context {PF : Platform} {P R : Type} (Φ : entry -> Prop).

Lemma logs_silent {A} (m : M (st P) R A) :
  (forall s, wp m (fun _ s' => log s' = log s) s) -> logs Φ m.
Proof. intros H s. eapply wp_mono; [| apply H]. intros _ s' ->. by exists []. Qed.

Lemma logs_bind {A B} (m : M (st P) R A) (f : A -> M (st P) R B) :
  logs Φ m -> (forall a, logs Φ (f a)) -> logs Φ (m ≫= f).
Proof.
  intros Hm Hf s. apply wp_bind. eapply wp_mono; [| apply Hm].
  intros [a | r | u |] s1 (l & E & H); [| by exists l..].
  eapply wp_mono; [| apply Hf]. intros o s2 (l2 & E2 & H2). exists (l2 ++ l).
  rewrite E2, E, app_assoc. split; [done | by apply Forall_app].
Qed.

Lemma logs_ext e : (forall r, Φ (e ~> r)) -> logs Φ (ext (P := P) (R := R) e).
Proof. intros H s. apply wp_ext. intros r _. exists [e ~> r]. auto. Qed.

Lemma logs_mret {A} (a : A) : logs Φ (mret a : M (st P) R A).
Proof. by apply logs_silent. Qed.
Lemma logs_return {A} (r : R) : logs Φ (return_ r : M (st P) R A).
Proof. by apply logs_silent. Qed.
Lemma logs_stop {A} u : logs Φ (stop_ u : M (st P) R A).
Proof. by apply logs_silent. Qed.
Lemma logs_nofuel {A} : logs Φ (nofuel : M (st P) R A).
Proof. by apply logs_silent. Qed.
Lemma logs_get {A} (f : P -> A) : logs Φ (get_own f : M (st P) R A).
Proof. by apply logs_silent. Qed.
Lemma logs_set (f : P -> P) : logs Φ (set_own f : M (st P) R ()).
Proof. by apply logs_silent. Qed.
Lemma logs_with_heap f : logs Φ (with_heap f : M (st P) R ()).
Proof. by apply logs_silent. Qed.
Lemma logs_fresh n : logs Φ (fresh_block n : M (st P) R loc).
Proof. by apply logs_silent. Qed.
Lemma logs_read {A} (o : option A) : logs Φ (read_init o : M (st P) R A).
Proof. destruct o; [apply logs_mret | apply logs_stop]. Qed.
Lemma logs_read_some {A B} (a : A) (f : A -> M (st P) R B) :
  logs Φ (f a) -> logs Φ (read_init (Some a) ≫= f).
Proof. intros H s. exact (H s). Qed.
Lemma logs_bind_ret {A B} (a : A) (f : A -> M (st P) R B) :
  logs Φ (f a) -> logs Φ (mret a ≫= f).
Proof. intros H s. exact (H s). Qed.
Lemma logs_int_ret z : logs Φ (int_ret z : M (st P) R Z).
Proof. unfold int_ret. destruct (in_int z); [apply logs_mret | apply logs_stop]. Qed.
Lemma logs_int_div a b : logs Φ (int_div a b : M (st P) R Z).
Proof. unfold int_div. destruct (b =? 0); [apply logs_stop | apply logs_int_ret]. Qed.
Lemma logs_int_rem a b : logs Φ (int_rem a b : M (st P) R Z).
Proof.
  unfold int_rem. destruct (b =? 0); [apply logs_stop |].
  destruct (_ && _); [apply logs_stop | apply logs_mret].
Qed.
Lemma logs_block_at p : logs Φ (block_at p : M (st P) R _).
Proof.
  apply logs_silent. intros s. unfold wp, block_at.
  destruct p as [l |]; [destruct (blocks (heap s) !! l) |]; done.
Qed.
Lemma logs_call {R'} (body : M (st P) R R) : logs Φ body -> logs Φ (call (R' := R') body).
Proof. intros H s. apply wp_call. eapply wp_mono; [| apply H]. by intros [] s'. Qed.
Lemma logs_release p : logs Φ (release p : M (st P) R ()).
Proof.
  destruct p as [l |]; [| apply logs_mret].
  apply logs_bind; [apply logs_block_at | intros []; apply logs_with_heap].
Qed.
Lemma logs_memcpy p src n : logs Φ (memcpy p src n : M (st P) R ()).
Proof.
  apply logs_bind; [apply logs_block_at | intros [l b]].
  destruct (_ && _); [apply logs_with_heap | apply logs_stop].
Qed.
Lemma logs_when b (m : M (st P) R ()) : logs Φ m -> logs Φ (when b m).
Proof. intros H. destruct b; [exact H | apply logs_mret]. Qed.
End logs.

Lemma logs_zoom {P Q R A} (Φ : entry -> Prop) (get : Q -> P) (put : P -> Q -> Q)
    (m : M (st P) R A) : logs Φ m -> logs Φ (zoom get put m).
Proof. intros H s. apply wp_zoom. eapply wp_mono; [| apply H]. intros o s' Hs. exact Hs. Qed.

Lemma logs_weaken {P R A} (Φ Ψ : entry -> Prop) (m : M (st P) R A) :
  (forall e, Φ e -> Ψ e) -> logs Φ m -> logs Ψ m.
Proof.
  intros H Hm s. eapply wp_mono; [| apply Hm]. intros o s' (l & E & Hl). exists l.
  split; [done | by eapply Forall_impl].
Qed.

Create HintDb logs.
#[export] Hint Resolve logs_mret logs_return logs_stop logs_nofuel logs_get logs_set
  logs_with_heap logs_fresh logs_read logs_int_ret logs_int_div logs_int_rem logs_block_at
  logs_call logs_when logs_zoom logs_release logs_memcpy : logs.

(** A statement that is written out; a call is left when its own [Φ] does not
    hold by computation. *)
Ltac logs_go :=
  repeat match goal with
  | |- logs _ (match ?x with _ => _ end) => destruct x
  | |- logs _ (if ?x then _ else _) => destruct x
  | |- logs _ (_ ≫= _) => apply logs_bind; [| intros ?; cbn beta iota zeta]
  | |- logs ?Φ (ext ?e) => refine (logs_ext Φ e _); intros ?; solve [exact I | cbn; auto]
  | |- logs _ _ => solve [auto with logs]
  | |- logs _ (call _) => apply logs_call
  | |- logs _ (when _ _) => apply logs_when
  end.

(** ** Statements that leave a part of the state alone

    [steady get Φ m]: [m] keeps what [get] looks at, and every call it makes
    satisfies [Φ] of that. *)

Definition steady {P T R A} (get : P -> T) (Φ : T -> entry -> Prop) (m : M (st P) R A) : Prop :=
  forall s, wp m (fun _ s' => get (own s') = get (own s) /\
    exists l, log s' = l ++ log s /\ Forall (Φ (get (own s))) l) s.

Section steady.
Context {PF : Platform} {P T R : Type} (get : P -> T) (Φ : T -> entry -> Prop).

Lemma steady_bind {A B} (m : M (st P) R A) (f : A -> M (st P) R B) :
  steady get Φ m -> (forall a, steady get Φ (f a)) -> steady get Φ (m ≫= f).
Proof.
  intros Hm Hf s. apply wp_bind. eapply wp_mono; [| apply Hm].
  intros o s1 (E1 & l1 & L1 & F1).
  assert (get (own s1) = get (own s) /\ exists l, log s1 = l ++ log s /\ Forall (Φ (get (own s))) l) as H1
    by eauto.
  destruct o as [a | | |]; [| done..].
  eapply wp_mono; [| apply Hf]. intros o s2 (E2 & l2 & L2 & F2). split; [congruence |].
  exists (l2 ++ l1). rewrite L2, L1, app_assoc, E1 in *. split; [done | by apply Forall_app].
Qed.

Lemma steady_logs {A} (m : M (st P) R A) :
  (forall s, wp m (fun _ s' => own s' = own s /\ log s' = log s) s) -> steady get Φ m.
Proof. intros H s. eapply wp_mono; [| apply H]. intros o s' (-> & ->). split; [done |]. by exists []. Qed.

Lemma steady_mret {A} (a : A) : steady get Φ (mret a : M (st P) R A).
Proof. by apply steady_logs. Qed.
Lemma steady_return {A} (r : R) : steady get Φ (return_ r : M (st P) R A).
Proof. by apply steady_logs. Qed.
Lemma steady_stop {A} u : steady get Φ (stop_ u : M (st P) R A).
Proof. by apply steady_logs. Qed.
Lemma steady_nofuel {A} : steady get Φ (nofuel : M (st P) R A).
Proof. by apply steady_logs. Qed.
Lemma steady_get {A} (f : P -> A) : steady get Φ (get_own f : M (st P) R A).
Proof. by apply steady_logs. Qed.
Lemma steady_fresh n : steady get Φ (fresh_block n : M (st P) R loc).
Proof. by apply steady_logs. Qed.
Lemma steady_int_ret z : steady get Φ (int_ret z : M (st P) R Z).
Proof. unfold int_ret. destruct (in_int z); [apply steady_mret | apply steady_stop]. Qed.
Lemma steady_set (f : P -> P) :
  (forall x, get (f x) = get x) -> steady get Φ (set_own f : M (st P) R ()).
Proof. intros H s. apply wp_set_own. split; [apply H |]. by exists []. Qed.
Lemma steady_ext e : (forall t r, Φ t (e ~> r)) -> steady get Φ (ext (P := P) (R := R) e).
Proof. intros H s. apply wp_ext. intros r _. split; [done |]. exists [e ~> r]. auto. Qed.
Lemma steady_when b (m : M (st P) R ()) : steady get Φ m -> steady get Φ (when b m).
Proof. intros H. destruct b; [exact H | apply steady_mret]. Qed.
Lemma steady_call {R'} (body : M (st P) R R) :
  steady get Φ body -> steady get Φ (call (R' := R') body).
Proof. intros H s. apply wp_call. eapply wp_mono; [| apply H]. by intros [] s'. Qed.
Lemma steady_weaken (Ψ : T -> entry -> Prop) {A} (m : M (st P) R A) :
  (forall t e, Φ t e -> Ψ t e) -> steady get Φ m -> steady get Ψ m.
Proof.
  intros H Hm s. eapply wp_mono; [| apply Hm]. intros o s' (E & l & L & F). split; [done |].
  exists l. split; [done |]. eapply Forall_impl; [exact F | apply H].
Qed.
End steady.

Lemma steady_zoom {P Q T R A} (get : Q -> P) (put : P -> Q -> Q) (look : P -> T) (look' : Q -> T)
    (Φ : T -> entry -> Prop) (m : M (st P) R A) :
  (forall x, look (get x) = look' x) -> (forall p x, look' (put p x) = look p) ->
  steady look Φ m -> steady look' Φ (zoom get put m).
Proof.
  intros H1 H2 Hm s. apply wp_zoom. eapply wp_mono; [| apply Hm]. cbn [own heap log].
  intros o s' (E & l & L & F). rewrite H2, <- H1. split; [done |]. by exists l.
Qed.

Create HintDb steady.
#[export] Hint Resolve steady_mret steady_return steady_stop steady_nofuel steady_get steady_fresh
  steady_int_ret steady_call steady_when : steady.

(** A statement that is written out; [Φ] holds of its calls by computation. *)
Ltac steady_go :=
  repeat match goal with
  | |- steady _ _ (match ?x with _ => _ end) => destruct x
  | |- steady _ _ (if ?x then _ else _) => destruct x
  | |- steady _ _ (_ ≫= _) => apply steady_bind; [| intros ?; cbn beta iota zeta]
  | |- steady ?g ?Φ (ext ?e) => refine (steady_ext g Φ e _); intros ? ?; solve [exact I | cbn; auto | cbn; intros; congruence]
  | |- steady ?g ?Φ (set_own ?f) => refine (steady_set g Φ f _); intros ?; reflexivity
  | |- steady _ _ _ => solve [auto with steady]
  | |- steady _ _ (call _) => apply steady_call
  | |- steady _ _ (when _ _) => apply steady_when
  end.
