(* ===== verification/Nvme.v ===== *)
(** * The NVMe device configuration (src/src/nvme.h)

    [init_device_config] fills a [device_config] from the namespace a block
    device belongs to.  A member the function has not written is [None]. *)

From S2P Require Import Prelude Proto Env.

(** A C string: where it lies and what it spells. *)
Record cstr := mk_cstr { cs_addr : Z; cs_text : string }.

Record device_config := mk_config {
  namespace_id : option Z;               (* __u32 *)
  name : cstr;
  number_of_logical_blocks : option Z;   (* __le64 *)
  logical_block_size : option Z;         (* int *)
}.

(** [struct device_config config; config.name = n;] *)
Definition config_uninit (n : cstr) : device_config := mk_config None n None None.

(** An out-parameter after a call that wrote [out] to it, or nothing. *)
Definition out_param {A} (out old : option A) : option A :=
  match out with Some _ => out | None => old end.

Section Nvme.
Context {PF : Platform}.

Definition nvme_strerror (errnum : Z) : string :=
  if errnum >=? ENVME_CONNECT_RESOLVE
  then nvme_errno_to_string errnum
  else std_strerror errnum.

Context {P : Type}.

(** The lines [dump_config] prints. *)
Definition dump_config {R} (config : device_config) : M (st P) R (list string) :=
  ns ← read_init (namespace_id config);
  blocks ← read_init (number_of_logical_blocks config);
  size ← read_init (logical_block_size config);
  mret [("device: " +:+ cs_text (name config))%string;
        ("namespace id: " +:+ pretty (i32 ns))%string;
        ("number of logical blocks: " +:+ pretty (i64 blocks))%string;
        ("logical block size: " +:+ pretty size +:+ " bytes")%string].

Definition open_bdev {R} (dev : cstr) (flags : list open_flag) : M (st P) R Z :=
  fd ← ext (Sys_open (cs_text dev) flags);
  mret fd.

(** The label [ret:] of [init_device_config]. *)
Definition init_ret {R} (fd : Z) (config : device_config) : M (st P) R (Z * device_config) :=
  _ ← ext (Sys_close fd);
  mret (0, config).

(** [init_device_config(config)]: its value and the configuration after it.
    [goto ret] is a [return_] of the label's block. *)
Definition init_device_config {R} (config : device_config) : M (st P) R (Z * device_config) :=
  call (
    if cs_addr (name config) =? empty_literal
    then return_ (-1, config)
    else
      fd ← open_bdev (name config) [O_RDONLY];
      '(err, out) ← ext (Nvme_get_nsid fd);
      let config := mk_config (out_param (u32 <$> out) (namespace_id config)) (name config)
                      (number_of_logical_blocks config) (logical_block_size config) in
      if negb (err =? 0) then init_ret fd config else
      ns ← read_init (namespace_id config);
      '(err, out) ← ext (Nvme_get_logical_block_size fd ns);
      let config := mk_config (namespace_id config) (name config)
                      (number_of_logical_blocks config)
                      (out_param (i32 <$> out) (logical_block_size config)) in
      if negb (err =? 0) then init_ret fd config else
      '(err, out) ← ext (Nvme_identify_ns fd ns);
      if negb (err =? 0) then init_ret fd config else
      nsze ← read_init out;
      let config := mk_config (namespace_id config) (name config)
                      (Some (u64 nsze)) (logical_block_size config) in
      _ ← dump_config config;
      init_ret fd config).

(** ** Properties *)

(** The descriptor a history's newest [open] returned, if its newest call is
    the [close] of it. *)
Definition closes_its_fd (before after : history) (path : string) : Prop :=
  exists h fd ret,
    after = Sys_close fd ~> ret :: h /\
    exists mid, h = mid ++ Sys_open path [O_RDONLY] ~> fd :: before.

(** The values a successful run of the three queries reports. *)
Record reports (h : history) (dev : cstr) (fd ns lbs nsze : Z) : Prop := {
  rep_open : world h (Sys_open (cs_text dev) [O_RDONLY]) = fd;
  rep_nsid : world (Sys_open (cs_text dev) [O_RDONLY] ~> fd :: h)
               (Nvme_get_nsid fd) = (0, Some ns);
  rep_lbs : world (Nvme_get_nsid fd ~> (0, Some ns) ::
                   Sys_open (cs_text dev) [O_RDONLY] ~> fd :: h)
               (Nvme_get_logical_block_size fd (u32 ns)) = (0, Some lbs);
  rep_size : world (Nvme_get_logical_block_size fd (u32 ns) ~> (0, Some lbs) ::
                    Nvme_get_nsid fd ~> (0, Some ns) ::
                    Sys_open (cs_text dev) [O_RDONLY] ~> fd :: h)
               (Nvme_identify_ns fd (u32 ns)) = (0, Some nsze);
}.

Lemma wp_init_ret {R} fd config (Q : outcome R (Z * device_config) -> st P -> Prop) s :
  (forall ret, Q (Val (0, config)) (mk_st (own s) (heap s) (Sys_close fd ~> ret :: log s))) ->
  wp (init_ret fd config) Q s.
Proof. intros H. unfold init_ret. wp_steps. apply H. Qed.

Lemma wp_dump_config {R} config (Q : outcome R (list string) -> st P -> Prop) s :
  (forall ls, Q (Val ls) s) -> Q (Stop UB_uninit) s -> wp (dump_config config) Q s.
Proof.
  intros H1 H2. unfold dump_config. wp_steps.
  do 3 (apply wp_read_init; [intros ? _; wp_steps | done]). apply H1.
Qed.

Lemma closes_intro mid before fd ret path :
  closes_its_fd before
    (Sys_close fd ~> ret :: mid ++ Sys_open path [O_RDONLY] ~> fd :: before) path.
Proof. eexists _, _, _. split; [done |]. by exists mid. Qed.

(** What holds of a run of [init_device_config] on every path. *)
Lemma init_device_config_paths config (s : st P) :
  cs_addr (name config) <> empty_literal ->
  wp (init_device_config (R := Empty_set) config) (fun o s' =>
    match o with
    | Val (r, config') =>
        r = 0 /\ name config' = name config /\
        closes_its_fd (log s) (log s') (cs_text (name config))
    | Stop u => u = UB_uninit
    | _ => False
    end /\ heap s' = heap s /\ own s' = own s) s.
Proof.
  intros Hne. unfold init_device_config. apply wp_call.
  rewrite (proj2 (Z.eqb_neq _ _) Hne). unfold open_bdev. wp_steps.
  destruct r0 as [err out]. destruct (err =? 0); cbn [negb].
  2:{ apply wp_init_ret. intros ret. split_and!; [done.. | apply (closes_intro [_]) | done | done]. }
  wp_steps. apply wp_read_init; [intros ns _; wp_steps | done].
  destruct r0 as [err1 out1]. destruct (err1 =? 0); cbn [negb].
  2:{ apply wp_init_ret. intros ret. split_and!; [done.. | apply (closes_intro [_; _]) | done | done]. }
  wp_steps. destruct r0 as [err2 out2]. destruct (err2 =? 0); cbn [negb].
  2:{ apply wp_init_ret. intros ret. split_and!; [done.. | apply (closes_intro [_; _; _]) | done | done]. }
  wp_steps. apply wp_read_init; [intros nsze _; wp_steps | done].
  apply wp_dump_config; [intros ls | done].
  apply wp_init_ret. intros ret. split_and!; [done.. | apply (closes_intro [_; _; _]) | done | done].
Qed.

(** [init_device_config] closes the descriptor it opened on every path on
    which it returns, and, once past the check of the name, the value it
    returns is 0 on all of them, failures of the three queries included. *)
Theorem init_device_config_returns_zero (config : device_config) (s : st P) :
  cs_addr (name config) <> empty_literal ->
  forall r config' s',
    init_device_config (R := Empty_set) config s = (Val (r, config'), s') ->
    r = 0 /\ closes_its_fd (log s) (log s') (cs_text (name config)).
Proof.
  intros Hne r config' s' E.
  pose proof (wp_run _ _ _ (init_device_config_paths config s Hne) _ _ E) as H.
  cbn in H. tauto.
Qed.

(** when the three queries succeed, the configuration holds exactly what
    they reported, converted to the members' widths. *)
Theorem init_device_config_fills (n : cstr) (s : st P) fd ns lbs nsze :
  cs_addr n <> empty_literal ->
  reports (log s) n fd ns lbs nsze ->
  exists s',
    init_device_config (R := Empty_set) (config_uninit n) s =
      (Val (0, mk_config (Some (u32 ns)) n (Some (u64 nsze)) (Some (i32 lbs))), s').
Proof.
  intros Hne [H1 H2 H3 H4].
  edestruct (wp_val_ex (init_device_config (R := Empty_set) (config_uninit n))
    (0, mk_config (Some (u32 ns)) n (Some (u64 nsze)) (Some (i32 lbs))) (fun _ => True) s)
    as (s' & E & _); [| by exists s'].
  unfold init_device_config, config_uninit. apply wp_call. cbn [name].
  rewrite (proj2 (Z.eqb_neq _ _) Hne). unfold open_bdev. wp_steps.
  rewrite H1 in Hw. subst r. rewrite H2 in Hw0. subst r0. cbn. wp_steps.
  rewrite H3 in Hw. subst r. cbn. wp_steps. rewrite H4 in Hw. subst r. cbn.
  wp_steps. unfold init_ret. by wp_steps.
Qed.

(** The run behind [init_device_config_failure_invisible]. *)
Lemma init_device_config_failure_exists (n : cstr) (s : st P) err :
  cs_addr n <> empty_literal ->
  err <> 0 ->
  (forall h fd, world h (Nvme_get_nsid fd) = (err, None)) ->
  exists s',
    init_device_config (R := Empty_set) (config_uninit n) s = (Val (0, config_uninit n), s').
Proof.
  intros Hne Herr H.
  edestruct (wp_val_ex (init_device_config (R := Empty_set) (config_uninit n))
    (0, config_uninit n) (fun _ => True) s) as (s' & E & _); [| by exists s'].
  unfold init_device_config, config_uninit. apply wp_call. cbn [name].
  rewrite (proj2 (Z.eqb_neq _ _) Hne). unfold open_bdev. wp_steps.
  rewrite H in Hw0. subst. cbn beta iota.
  rewrite (proj2 (Z.eqb_neq _ _) Herr). unfold init_ret. by wp_steps.
Qed.
End Nvme.

(** ** Instances *)

(** A device with namespace 1, blocks of 512 bytes and 1024 of them. *)
Definition sample_device : Platform := platform_of (fun _ e =>
  match e with
  | Sys_open _ _ => 5
  | Nvme_get_nsid _ => (0, Some 1)
  | Nvme_get_logical_block_size _ _ => (0, Some 512)
  | Nvme_identify_ns _ _ => (0, Some 1024)
  | e => default_reply e
  end).

Definition sample_name : cstr := mk_cstr 8 "/dev/nvme0n1".

Lemma init_device_config_returns_zero_witness :
  let s := mk_st () heap_empty [] in
  cs_addr sample_name <> @empty_literal sample_device /\
  exists s' : st (),
    closes_its_fd [] (log s') "/dev/nvme0n1" /\ length (log s') = 5%nat.
Proof.
  intros s. split; [done |].
  destruct (@init_device_config sample_device () Empty_set (config_uninit sample_name) s)
    as [[[r config'] | | |] s'] eqn:E; try (vm_compute in E; discriminate E).
  exists s'. split.
  - apply (@init_device_config_returns_zero sample_device () (config_uninit sample_name) s
             ltac:(done) r config' s' E).
  - vm_compute in E. by injection E as _ _ <-.
Defined.

Lemma init_device_config_fills_witness :
  @reports sample_device [] sample_name 5 1 512 1024 /\
  exists s' : st (),
    @init_device_config sample_device () Empty_set (config_uninit sample_name)
      (mk_st () heap_empty []) =
    (Val (0, mk_config (Some 1) sample_name (Some 1024) (Some 512)), s').
Proof.
  assert (@reports sample_device [] sample_name 5 1 512 1024) as H by done.
  split; [exact H |].
  exact (@init_device_config_fills sample_device () sample_name (mk_st () heap_empty [])
    5 1 512 1024 ltac:(done) H).
Defined.
