(* ===== verification/BlockServer.v ===== *)
(** * The synchronous block server (class [GRPCSyncServer] of src/src/net.h)

    State: the server object and the two function-local statics [args], one
    of [ReadBlock] and one of [WriteBlock], which outlive the calls and which
    every server object of the process shares.  A handler is cut into the
    phases [prepare], [fill], [submit] and [finish], run in that order. *)

From S2P Require Import Prelude Proto Env Nvme.

Record GRPCSyncServer := mk_server {
  address : string;
  port : Z;
  blk_fd : Z;
  config : device_config;
  time_on_allocation : Z;
  time_on_rw : Z;
  time_total : Z;
}.

(** Ticks of [system_clock] are nanoseconds. *)
Definition milliseconds (ticks : Z) : Z := Z.quot ticks 1000000.

(** Which of the two handlers' statics is meant. *)
Inductive op := Read | Write.

Record blk := mk_blk {
  this : GRPCSyncServer;
  args_Read : option nvme_io_args;
  args_Write : option nvme_io_args;
}.

Definition args_of (o : op) (b : blk) : option nvme_io_args :=
  match o with Read => args_Read b | Write => args_Write b end.

Definition set_args (o : op) (a : nvme_io_args) (b : blk) : blk :=
  match o with
  | Read => mk_blk (this b) (Some a) (args_Write b)
  | Write => mk_blk (this b) (args_Read b) (Some a)
  end.

Definition with_this (f : GRPCSyncServer -> GRPCSyncServer) (b : blk) : blk :=
  mk_blk (f (this b)) (args_Read b) (args_Write b).

Definition add_times (alloc rw total : Z) (g : GRPCSyncServer) : GRPCSyncServer :=
  mk_server (address g) (port g) (blk_fd g) (config g)
    (time_on_allocation g + alloc) (time_on_rw g + rw) (time_total g + total).

Section BlockServer.
Context {PF : Platform}.

(** Assignment to [args.nlb]. *)
Definition u_nlb (z : Z) : Z := z mod 2 ^ nlb_width.

(** [(args.nlb, actual_len)] of a request: the test on [request->size()] and
    the product after it. *)
Definition io_geometry {S R} (size lbs : Z) : M S R (Z * Z) :=
  rem ← int_rem size lbs;
  nlb ← (if negb (rem =? 0)
         then q ← int_div size lbs; mret (u_nlb q)
         else q ← int_div size lbs; q ← int_ret (q - 1); mret (u_nlb q));
  blocks ← int_ret (nlb + 1);
  actual_len ← int_ret (blocks * lbs);
  mret (nlb, actual_len).

(** [static struct nvme_io_args args {...}]: initialised by the first call. *)
Definition static_args {R} (o : op) : M (st blk) R () :=
  a ← get_own (args_of o);
  match a with
  | Some _ => mret ()
  | None =>
      fd ← get_own (fun b => blk_fd (this b));
      ns ← get_own (fun b => namespace_id (config (this b)));
      ns ← read_init ns;
      set_own (set_args o (mk_args 0 0 0 None fd ns NVME_DEFAULT_IOCTL_TIMEOUT))
  end.

Definition get_args {R} (o : op) : M (st blk) R nvme_io_args :=
  a ← get_own (args_of o); read_init a.

(** Up to [args.data_len = actual_len]; yields [total_start] and
    [actual_len]. *)
Definition prepare {R} (o : op) (request : BlockRequest) : M (st blk) R (Z * Z) :=
  total_start ← ext Clock_now;
  static_args o;;
  lbs ← get_own (fun b => logical_block_size (config (this b)));
  lbs ← read_init lbs;
  '(n, actual_len) ← io_geometry (br_size request) lbs;
  a ← get_args o;
  set_own (set_args o (mk_args (u64 (br_start_block request)) n (u32 actual_len)
                         (data a) (fd a) (nsid a) (timeout a)));;
  mret (total_start, actual_len).

(** The allocation and the [memcpy].  [buffer_size] is computed by the source
    and not used. *)
Definition fill {R} (o : op) (request : BlockRequest) (actual_len : Z) : M (st blk) R () :=
  start ← ext Clock_now;
  p ← new_array actual_len;
  a ← get_args o;
  set_own (set_args o (mk_args (slba a) (nlb a) (data_len a) (Some p)
                         (fd a) (nsid a) (timeout a)));;
  let buffer_size :=
    if Z.of_nat (length (br_data request)) >? actual_len then actual_len else actual_len in
  memcpy (Some p) (c_str (br_data request)) (Z.of_nat (length (br_data request)));;
  now ← ext Clock_now;
  set_own (with_this (add_times (now - start) 0 0)).

(** [nvme_read(&args)] or [nvme_write(&args)]: the command goes out with what
    the shared [args] hold at this point. *)
Definition submit {R} (o : op) : M (st blk) R Z :=
  start ← ext Clock_now;
  a ← get_args o;
  '(l, b) ← block_at (data a);
  err ← match o with
        | Write => ext (Nvme_write a b)
        | Read => '(err, bytes) ← ext (Nvme_read a);
                  let got := take (length b) bytes in
                  with_heap (heap_store l ((Some <$> got) ++ drop (length got) b));;
                  mret err
        end;
  now ← ext Clock_now;
  set_own (with_this (add_times 0 (now - start) 0));;
  mret err.

(** From [delete[]] to the end. *)
Definition finish {R} (o : op) (request : BlockRequest) (total_start err : Z)
  : M (st blk) R (Status * BlockReply) :=
  a ← get_args o;
  release (data a);;
  now ← ext Clock_now;
  set_own (with_this (add_times 0 0 (now - total_start)));;
  if err <? 0 then mret (UNKNOWN "nvme write error", BlockReply_default)
  else if negb (err =? 0) then mret (UNKNOWN "nvme write error", BlockReply_default)
  else
    a ← get_args o;
    e ← int_ret (br_start_block request + nlb a);
    mret (OK, {| end_block := e |}).

Definition handle {R} (o : op) (request : BlockRequest) : M (st blk) R (Status * BlockReply) :=
  '(total_start, actual_len) ← prepare o request;
  fill o request actual_len;;
  err ← submit o;
  finish o request total_start err.

Definition ReadBlock {R} (request : BlockRequest) : M (st blk) R (Status * BlockReply) :=
  handle Read request.

Definition WriteBlock {R} (request : BlockRequest) : M (st blk) R (Status * BlockReply) :=
  handle Write request.

Definition GetStat {R} : M (st blk) R (Status * StatReply) :=
  g ← get_own this;
  let ss :=
    ("time on allocation is " +:+ pretty (milliseconds (time_on_allocation g)) +:+
     " ms" +:+ LF +:+ "time on writes is " +:+ pretty (milliseconds (time_on_rw g)) +:+
     " ms" +:+ LF +:+ "total time on server is " +:+ pretty (milliseconds (time_total g)) +:+
     " ms" +:+ LF)%string in
  mret (OK, {| stat := ss |}).

Definition ResetStat {R} : M (st blk) R (Status * StatReply) :=
  set_own (with_this (fun g =>
    mk_server (address g) (port g) (blk_fd g) (config g) 0 0 0));;
  mret (OK, {| stat := "" |}).

(** The constructor; its [return] after a failed [open] leaves [config]
    uninitialised and the object in use.  The members [time_*] start at the
    epoch.  [blk_device] is where the by-value argument's characters lie. *)
Definition construct {P R} (addr : string) (port : Z) (blk_device : cstr)
  : M (st P) R GRPCSyncServer :=
  fd ← ext (Sys_open (cs_text blk_device) [O_RDWR; O_DIRECT]);
  let no_config := config_uninit (mk_cstr 0 "") in
  if fd <? 0 then mret (mk_server addr port fd no_config 0 0 0)
  else
    '(_, c) ← init_device_config (config_uninit blk_device);
    mret (mk_server addr port fd c 0 0 0).

Definition run {R} : M (st blk) R Z :=
  g ← get_own this;
  if blk_fd g <? 0 then mret (-1)
  else
    _ ← ext (Grpc_serve (address g +:+ ":" +:+ pretty (port g))%string);
    mret 0.
End BlockServer.

(** ** Commands the device is given *)

(** The operation, its arguments, the payload of a write, the result. *)
Definition command : Type := op * nvme_io_args * list mbyte * Z.

Definition command_of (e : entry) : option command :=
  match e with
  | existT (Nvme_write a payload) err => Some (Write, a, payload, err)
  | existT (Nvme_read a) r => Some (Read, a, [], r.1)
  | _ => None
  end.

(** Newest first, like the history. *)
Definition commands (h : history) : list command := omap command_of h.

(** The whole blocks a request of [size] bytes needs. *)
Definition blocks_needed (size lbs : Z) : Z := (size + lbs - 1) / lbs.

Lemma blocks_needed_spec size lbs :
  0 < lbs -> 0 < size ->
  (blocks_needed size lbs - 1) * lbs < size <= blocks_needed size lbs * lbs.
Proof.
  intros. unfold blocks_needed.
  pose proof (Z.div_mod (size + lbs - 1) lbs ltac:(lia)).
  pose proof (Z.mod_pos_bound (size + lbs - 1) lbs ltac:(lia)). nia.
Qed.

Lemma blocks_needed_pos size lbs : 0 < lbs -> 0 < size -> 1 <= blocks_needed size lbs.
Proof. intros. pose proof (blocks_needed_spec size lbs). nia. Qed.

Lemma quot_blocks size lbs :
  0 < lbs -> 0 < size ->
  (if negb (size mod lbs =? 0) then size / lbs else size / lbs - 1) =
  blocks_needed size lbs - 1.
Proof.
  intros. pose proof (blocks_needed_spec size lbs ltac:(lia) ltac:(lia)).
  pose proof (Z.div_mod size lbs ltac:(lia)).
  pose proof (Z.mod_pos_bound size lbs ltac:(lia)).
  destruct (size mod lbs =? 0) eqn:E; bool_hyps; cbn [negb]; nia.
Qed.

(** ** State lemmas *)

Lemma args_set o a b : args_of o (set_args o a b) = Some a.
Proof. by destruct o. Qed.
Lemma this_set o a b : this (set_args o a b) = this b.
Proof. by destruct o. Qed.
Lemma args_with_this o f b : args_of o (with_this f b) = args_of o b.
Proof. by destruct o. Qed.
Lemma set_args_set o a a' b : set_args o a (set_args o a' b) = set_args o a b.
Proof. by destruct o. Qed.
Lemma set_args_id o a b : args_of o b = Some a -> set_args o a b = b.
Proof. by destruct o, b; cbn; intros ->. Qed.
Lemma set_args_other o o' a b : o <> o' -> args_of o' (set_args o a b) = args_of o' b.
Proof. by destruct o, o'. Qed.
Lemma this_with_this f b : this (with_this f b) = f (this b).
Proof. done. Qed.

Create Rewrite HintDb blk.
#[export] Hint Rewrite args_set this_set args_with_this set_args_set this_with_this : blk.

Ltac blk_simpl :=
  cbn [own heap log];
  rewrite ?args_with_this, ?args_set, ?this_with_this, ?this_set, ?args_with_this, ?args_set.

Section geometry.
Context {PF : Platform}.
Hypothesis nlb16 : nlb_width = 16.

Lemma u_nlb_small z : 0 <= z < 65536 -> u_nlb z = z.
Proof. intros. unfold u_nlb. rewrite nlb16. apply Z.mod_small. lia. Qed.

Lemma wp_int_div {S R} a b (Q : outcome R Z -> S -> Prop) s :
  0 <= a <= INT_MAX -> 0 < b -> Q (Val (a / b)) s -> wp (int_div a b) Q s.
Proof.
  intros Ha Hb H. unfold int_div. rewrite (proj2 (Z.eqb_neq b 0)) by lia.
  rewrite Z_quot_div by lia. apply wp_int_ret; [| done].
  pose proof (Z.div_le_upper_bound a b a ltac:(lia) ltac:(nia)).
  pose proof (Z.div_pos a b ltac:(lia) ltac:(lia)). unfold INT_MAX in *. lia.
Qed.

Lemma wp_int_rem {S R} a b (Q : outcome R Z -> S -> Prop) s :
  0 <= a -> 0 < b -> Q (Val (a mod b)) s -> wp (int_rem a b) Q s.
Proof.
  intros Ha Hb H. unfold int_rem. rewrite (proj2 (Z.eqb_neq b 0)) by lia.
  rewrite (proj2 (Z.eqb_neq a INT_MIN)) by (unfold INT_MIN; lia). cbn [andb].
  by rewrite Z_rem_mod by lia.
Qed.

(** The computation of the geometry, for a size that is positive or zero. *)
Lemma wp_io_geometry {S R} size lbs (Q : outcome R (Z * Z) -> S -> Prop) s :
  let q := if negb (size mod lbs =? 0) then size / lbs else size / lbs - 1 in
  0 <= size <= INT_MAX -> 0 < lbs ->
  (u_nlb q + 1) * lbs <= INT_MAX ->
  Q (Val (u_nlb q, (u_nlb q + 1) * lbs)) s -> wp (io_geometry size lbs) Q s.
Proof.
  intros q Hs Hl Hmul H. unfold io_geometry.
  assert (0 <= u_nlb q < 65536) as Hr.
  { unfold u_nlb. rewrite nlb16. apply Z.mod_pos_bound. lia. }
  apply wp_bind, wp_int_rem; [lia.. |]. apply wp_bind.
  assert (wp (if negb (size mod lbs =? 0)
              then q ← int_div size lbs; mret (u_nlb q)
              else q ← int_div size lbs; q ← int_ret (q - 1); mret (u_nlb q))
            (fun o s' => o = @Val R _ (u_nlb q) /\ s' = s) s) as Hq.
  { pose proof (Z.div_le_upper_bound size lbs size ltac:(lia) ltac:(nia)).
    pose proof (Z.div_pos size lbs ltac:(lia) ltac:(lia)).
    subst q. destruct (negb _); apply wp_bind, wp_int_div; [lia | lia | by wp_steps | lia | lia |].
    apply wp_bind, wp_int_ret; [unfold INT_MAX in *; lia | by wp_steps]. }
  revert Hq. apply wp_mono. intros o s' [-> ->].
  apply wp_bind, wp_int_ret; [lia |]. apply wp_bind, wp_int_ret; [unfold INT_MAX in *; nia |].
  by wp_steps.
Qed.

Lemma wp_io_geometry_ok {S R} size lbs (Q : outcome R (Z * Z) -> S -> Prop) s :
  let n := blocks_needed size lbs in
  0 < size <= INT_MAX -> 0 < lbs -> n <= 65536 -> n * lbs <= INT_MAX ->
  Q (Val (n - 1, n * lbs)) s -> wp (io_geometry size lbs) Q s.
Proof.
  intros n Hs Hl Hn Hmul H.
  pose proof (blocks_needed_pos size lbs ltac:(lia) ltac:(lia)) as Hp. fold n in Hp.
  apply wp_io_geometry; [lia | lia | |]; rewrite quot_blocks by lia; fold n;
    rewrite u_nlb_small by lia; replace (n - 1 + 1) with n by lia; done.
Qed.
End geometry.

(** ** A handler from its call to its return *)

(** The clock never steps back. *)
Definition clock_monotone {PF : Platform} : Prop :=
  forall h t, Clock_now ~> t ∈ h -> t <= world h Clock_now.

(** What [memcpy] leaves in the buffer: the request's data, then bytes of the
    new allocation nobody wrote. *)
Definition padded (bytes : list byte) (len : Z) : list mbyte :=
  (Some <$> bytes) ++ replicate (Z.to_nat len - length bytes) None.

Lemma c_str_length bytes : Z.of_nat (length (c_str bytes)) = Z.of_nat (length bytes) + 1.
Proof. unfold c_str. rewrite length_app, length_fmap. cbn. lia. Qed.

Lemma take_c_str bytes : take (length bytes) (c_str bytes) = Some <$> bytes.
Proof. unfold c_str. by rewrite take_app_length' by (by rewrite length_fmap). Qed.

Lemma length_padded bytes len :
  Z.of_nat (length bytes) <= len -> Z.of_nat (length (padded bytes len)) = len.
Proof. intros. unfold padded. rewrite length_app, length_fmap, length_replicate. lia. Qed.

Section handlers.
Context {PF : Platform}.

(** The contents of the statics in the call: those of the first call, if this
    is not it. *)
Definition static_value (o : op) (b : blk) (ns : Z) : nvme_io_args :=
  match args_of o b with
  | Some a => a
  | None => mk_args 0 0 0 None (blk_fd (this b)) ns NVME_DEFAULT_IOCTL_TIMEOUT
  end.

Lemma wp_static_args {R} o ns (Q : outcome R () -> st blk -> Prop) s :
  (args_of o (own s) = None -> namespace_id (config (this (own s))) = Some ns) ->
  Q (Val ()) (mk_st (set_args o (static_value o (own s) ns) (own s)) (heap s) (log s)) ->
  wp (static_args o) Q s.
Proof.
  intros Hns H. unfold static_args, static_value in *. wp_steps.
  destruct (args_of o (own s)) as [a |] eqn:E.
  - wp_steps. rewrite set_args_id in H by done. by destruct s.
  - wp_steps. rewrite Hns by done. by wp_steps.
Qed.

Lemma wp_get_args {R} o a (Q : outcome R nvme_io_args -> st blk -> Prop) s :
  args_of o (own s) = Some a -> Q (Val a) s -> wp (get_args o) Q s.
Proof. intros E H. unfold get_args. wp_steps. by rewrite E. Qed.

(** The geometry of a request of [size] bytes is [n] blocks. *)
Definition geometry_is (size lbs n : Z) : Prop :=
  forall R (x : st blk), io_geometry (R := R) size lbs x = (Val (n - 1, n * lbs), x).

(** What a handler's call needs to reach its allocation and get it. *)
Record callable (o : op) (s : st blk) (request : BlockRequest) (lbs ns n : Z) : Prop := {
  c_heap : heap_wf (heap s);
  c_lbs : logical_block_size (config (this (own s))) = Some lbs;
  c_ns : args_of o (own s) = None -> namespace_id (config (this (own s))) = Some ns;
  c_len : 0 <= n * lbs;
  c_geometry : geometry_is (br_size request) lbs n;
  c_alloc : forall h, world h (Alloc None (n * lbs)) = 0;
}.

(** The arguments the device is given. *)
Definition args_for (o : op) (s : st blk) (request : BlockRequest) (lbs ns n : Z) : nvme_io_args :=
  let a := static_value o (own s) ns in
  mk_args (u64 (br_start_block request)) (n - 1) (u32 (n * lbs))
    (Some (next_loc (heap s))) (fd a) (nsid a) (timeout a).

Lemma wp_prepare {R} o s request lbs ns n (Q : outcome R (Z * Z) -> st blk -> Prop) :
  let a := static_value o (own s) ns in
  callable o s request lbs ns n ->
  (forall t, t = world (log s) Clock_now ->
    Q (Val (t, n * lbs))
      (mk_st (set_args o (mk_args (u64 (br_start_block request)) (n - 1) (u32 (n * lbs))
                            (data a) (fd a) (nsid a) (timeout a)) (own s))
             (heap s) (Clock_now ~> t :: log s))) ->
  wp (prepare o request) Q s.
Proof.
  intros a [] H. unfold prepare. wp_steps. apply (wp_static_args o ns); [done |].
  wp_steps. autorewrite with blk. rewrite c_lbs0. wp_steps.
  unfold wp at 1. rewrite c_geometry0. wp_steps.
  apply (wp_get_args o a); [apply args_set |]. wp_steps.
  autorewrite with blk. by apply H.
Qed.

Lemma wp_new_array {P R} n (Q : outcome R loc -> st P -> Prop) s :
  0 <= n -> world (log s) (Alloc None n) = 0 ->
  Q (Val (next_loc (heap s)))
    (mk_st (own s) (heap_alloc n (heap s)).2 (Alloc None n ~> 0 :: log s)) ->
  wp (new_array n) Q s.
Proof.
  intros Hn Ha H. unfold new_array. rewrite (proj2 (Z.ltb_ge n 0)) by lia.
  wp_steps. rewrite Ha in Hw. subst r. rewrite Z.eqb_refl. by wp_steps.
Qed.

Lemma wp_fill {R} o s request a len (Q : outcome R () -> st blk -> Prop) :
  let d := br_data request in
  let l := next_loc (heap s) in
  args_of o (own s) = Some a ->
  Z.of_nat (length d) <= len ->
  (forall h, world h (Alloc None len) = 0) ->
  (forall t1 t2,
    t1 = world (log s) Clock_now ->
    t2 = world (Alloc None len ~> 0 :: Clock_now ~> t1 :: log s) Clock_now ->
    Q (Val ())
      (mk_st (with_this (add_times (t2 - t1) 0 0)
                (set_args o (mk_args (slba a) (nlb a) (data_len a) (Some l) (fd a)
                               (nsid a) (timeout a)) (own s)))
             (heap_store l (padded d len) (heap_alloc len (heap s)).2)
             (Clock_now ~> t2 :: Alloc None len ~> 0 :: Clock_now ~> t1 :: log s))) ->
  wp (fill o request len) Q s.
Proof.
  intros d l Ha Hd Hal H. unfold fill. wp_steps. apply wp_new_array; [lia | done |].
  wp_steps. apply (wp_get_args o a); [done |]. wp_steps.
  apply (wp_memcpy l (replicate (Z.to_nat len) None)).
  - apply heap_alloc_lookup.
  - rewrite c_str_length. fold d. lia.
  - rewrite length_replicate. fold d. lia.
  - wp_steps. fold d. rewrite Nat2Z.id, take_c_str, drop_replicate. by apply H.
Qed.

Lemma heap_store_id l b h : blocks h !! l = Some b -> heap_store l b h = h.
Proof. intros E. unfold heap_store. rewrite insert_id by done. by destruct h. Qed.

(** The call into libnvme, as an entry of the history. *)
Definition nvme_entry (o : op) (a : nvme_io_args) (b : list mbyte) (e : entry) (err : Z) : Prop :=
  command_of e = Some (o, a, match o with Write => b | Read => [] end, err).

Lemma wp_submit {R} o s a l b (Q : outcome R Z -> st blk -> Prop) :
  args_of o (own s) = Some a -> data a = Some l -> blocks (heap s) !! l = Some b ->
  (forall t1 e err t2 b',
    t1 = world (log s) Clock_now ->
    nvme_entry o a b e err ->
    t2 = world (e :: Clock_now ~> t1 :: log s) Clock_now ->
    Q (Val err)
      (mk_st (with_this (add_times 0 (t2 - t1) 0) (own s)) (heap_store l b' (heap s))
             (Clock_now ~> t2 :: e :: Clock_now ~> t1 :: log s))) ->
  wp (submit o) Q s.
Proof.
  intros Ha Hd Hb H. unfold submit. wp_steps. apply (wp_get_args o a); [done |].
  wp_steps. rewrite Hd. apply (wp_block_at l b); [done |]. destruct o.
  - wp_steps. destruct r0 as [err bytes]. wp_steps. eapply H; [done | | done].
    reflexivity.
  - wp_steps. rewrite <- (heap_store_id l b (heap s)) by done.
    eapply H; [done | | done]. reflexivity.
Qed.

(** How a handler answers once the device has. *)
Definition answer (request : BlockRequest) (n err : Z) {R} : outcome R (Status * BlockReply) :=
  if err =? 0
  then if in_int (br_start_block request + n)
       then Val (OK, {| end_block := br_start_block request + n |})
       else Stop UB_overflow
  else Val (UNKNOWN "nvme write error", BlockReply_default).

Lemma wp_finish {R} o s request t0 err a l b (Q : outcome R (Status * BlockReply) -> st blk -> Prop) :
  args_of o (own s) = Some a -> data a = Some l -> blocks (heap s) !! l = Some b ->
  (forall t, t = world (log s) Clock_now ->
    Q (answer request (nlb a) err)
      (mk_st (with_this (add_times 0 0 (t - t0)) (own s)) (heap_free l (heap s))
             (Clock_now ~> t :: log s))) ->
  wp (finish o request t0 err) Q s.
Proof.
  intros Ha Hd Hb H. unfold finish, answer in *. wp_steps. apply (wp_get_args o a); [done |].
  wp_steps. rewrite Hd. apply (wp_release l b); [done |]. wp_steps.
  specialize (H r Hw). destruct (err <? 0) eqn:E1; bool_hyps.
  { rewrite (proj2 (Z.eqb_neq err 0)) in H by lia. by wp_steps. }
  destruct (err =? 0) eqn:E2; cbn [negb]; [| by wp_steps].
  wp_steps. apply (wp_get_args o a); [by blk_simpl |]. wp_steps.
  unfold int_ret. destruct (in_int _); by wp_steps.
Qed.

(** The clock readings of a call: start, around the allocation, around the
    transfer, end. *)
Record readings := mk_readings { at0 : Z; at1 : Z; at2 : Z; at3 : Z; at4 : Z; at5 : Z }.

(** The history a call adds. *)
Definition trace_of (len : Z) (t : readings) (e : entry) (h : history) : history :=
  Clock_now ~> at5 t :: Clock_now ~> at4 t :: e :: Clock_now ~> at3 t :: Clock_now ~> at2 t ::
  Alloc None len ~> 0 :: Clock_now ~> at1 t :: Clock_now ~> at0 t :: h.

(** The whole effect of a call. *)
Record handled (o : op) (s : st blk) (request : BlockRequest) (lbs ns n : Z)
  (out : outcome Empty_set (Status * BlockReply)) (s' : st blk) : Prop := {
  h_ex : exists t e err,
    let a := args_for o s request lbs ns n in
    nvme_entry o a (padded (br_data request) (n * lbs)) e err /\
    log s' = trace_of (n * lbs) t e (log s) /\
    out = answer request (n - 1) err /\
    own s' = with_this (add_times (at2 t - at1 t) (at4 t - at3 t) (at5 t - at0 t))
               (set_args o a (own s)) /\
    (clock_monotone -> at0 t <= at1 t <= at2 t /\ at2 t <= at3 t <= at4 t /\ at4 t <= at5 t);
  h_blocks : blocks (heap s') = blocks (heap s);
  h_wf : heap_wf (heap s');
}.

Lemma handle_runs o s request lbs ns n :
  callable o s request lbs ns n ->
  Z.of_nat (length (br_data request)) <= n * lbs ->
  wp (handle o request) (handled o s request lbs ns n) s.
Proof.
  intros C Hd. pose proof C as []. unfold handle. apply wp_bind.
  eapply wp_prepare; [done |]. intros t0 H0. wp_steps.
  eapply wp_fill; [apply args_set | done | done |]. intros t1 t2 H1 H2. wp_steps. cbn [heap own log] in *.
  eapply wp_submit; [by blk_simpl | done | apply lookup_insert_eq |].
  intros t3 e err t4 b' H3 He H4. wp_steps. cbn [heap own log] in *.
  eapply wp_finish; [by blk_simpl | done | apply lookup_insert_eq |].
  intros t5 H5. cbn [heap own log] in *. split.
  - exists (mk_readings t0 t1 t2 t3 t4 t5), e, err. cbn [at0 at1 at2 at3 at4 at5]. split_and!.
    + exact He.
    + done.
    + done.
    + cbn [own]. rewrite set_args_set. unfold with_this, add_times. destruct o; cbn;
        f_equal; f_equal; lia.
    + intros M. subst. split_and!; apply M; in_list.
  - cbn [heap]. unfold heap_store at 1. cbn. rewrite insert_insert_eq.
    by apply (heap_scratch (n * lbs) b').
  - cbn [heap]. apply heap_free_wf, heap_store_wf, heap_store_wf, heap_alloc_wf; [| | done].
    + cbn. rewrite lookup_insert_eq. by eexists.
    + cbn. rewrite lookup_insert_eq. by eexists.
Qed.

(** ** Geometry *)

Lemma geometry_of_wp size lbs n :
  (forall R (x : st blk),
     wp (io_geometry (R := R) size lbs) (fun o s' => o = Val (n - 1, n * lbs) /\ s' = x) x) ->
  geometry_is size lbs n.
Proof.
  intros H R x. destruct (io_geometry size lbs x) as [o s'] eqn:E.
  destruct (wp_run _ _ _ (H R x) _ _ E) as [-> ->]. done.
Qed.

Lemma geometry_ok size lbs :
  nlb_width = 16 -> 0 < size <= INT_MAX -> 0 < lbs ->
  blocks_needed size lbs <= 65536 -> blocks_needed size lbs * lbs <= INT_MAX ->
  geometry_is size lbs (blocks_needed size lbs).
Proof. intros. apply geometry_of_wp. intros R x. by apply wp_io_geometry_ok. Qed.

Lemma geometry_zero lbs :
  nlb_width = 16 -> 0 < lbs -> 65536 * lbs <= INT_MAX -> geometry_is 0 lbs 65536.
Proof.
  intros H16 Hl Hm. apply geometry_of_wp. intros R x.
  assert (u_nlb (0 / lbs - 1) = 65535) as Hu.
  { rewrite Z.div_0_l by lia. unfold u_nlb. by rewrite H16. }
  apply wp_io_geometry; rewrite ?Z.mod_0_l, ?Z.eqb_refl by lia; cbn [negb];
    rewrite ?Hu; try done; unfold INT_MAX; lia.
Qed.

(** What a caller can check of a request before sending it. *)
Record ready (o : op) (s : st blk) (request : BlockRequest) (lbs ns : Z) : Prop := {
  rd_nlb : nlb_width = 16;
  rd_heap : heap_wf (heap s);
  rd_lbs : logical_block_size (config (this (own s))) = Some lbs;
  rd_ns : namespace_id (config (this (own s))) = Some ns;
  rd_lbs_pos : 0 < lbs;
  rd_size : 0 < br_size request <= INT_MAX;
  rd_blocks : blocks_needed (br_size request) lbs <= 65536;
  rd_len : blocks_needed (br_size request) lbs * lbs <= INT_MAX;
  rd_start : 0 <= br_start_block request;
  rd_end : br_start_block request + blocks_needed (br_size request) lbs - 1 <= INT_MAX;
  rd_alloc : forall h n, world h (Alloc None n) = 0;
}.

Lemma ready_callable o s request lbs ns :
  ready o s request lbs ns ->
  callable o s request lbs ns (blocks_needed (br_size request) lbs).
Proof.
  intros []. split; [done.. | | by apply geometry_ok | done].
  pose proof (blocks_needed_pos (br_size request) lbs). nia.
Qed.

Lemma answer_ready o s request lbs ns err {R} :
  ready o s request lbs ns ->
  answer request (blocks_needed (br_size request) lbs - 1) err (R := R) =
  if err =? 0
  then Val (OK, {| end_block := br_start_block request + blocks_needed (br_size request) lbs - 1 |})
  else Val (UNKNOWN "nvme write error", BlockReply_default).
Proof.
  intros []. unfold answer. destruct (err =? 0); [| done].
  rewrite (proj2 (in_int_spec _)); [do 3 f_equal; lia |].
  pose proof (blocks_needed_pos (br_size request) lbs). unfold INT_MAX in *. lia.
Qed.

(** The commands a call adds: exactly one. *)
Lemma commands_trace len t e h c :
  command_of e = Some c -> commands (trace_of len t e h) = c :: commands h.
Proof. intros He. unfold commands, trace_of. cbn. by rewrite He. Qed.
End handlers.

(** ** The abstract devices *)

(** The bytes of every namespace, by the descriptor and the namespace id that
    address it.  [None] is a byte of unspecified value. *)
Definition disks : Type := Z -> Z -> Z -> mbyte.

(** The contents [f] for one namespace, the other ones as they were. *)
Definition on_namespace (dev ns : Z) (f : Z -> mbyte) (d : disks) : disks :=
  fun dev' ns' => if (dev' =? dev) && (ns' =? ns) then f else d dev' ns'.

(** A successful write command replaces the bytes of its blocks in the
    namespace its [fd] and [nsid] address.  When its [data_len] is not the
    length of these blocks, nothing is known of the namespace any more.
    [bs] gives the block size of each namespace. *)
Definition apply_command (bs : Z -> Z -> Z) (c : command) (d : disks) : disks :=
  match c with
  | (Write, a, payload, err) =>
      let lbs := bs (fd a) (nsid a) in
      if err =? 0 then
        on_namespace (fd a) (nsid a)
          (fun off =>
             if data_len a =? (nlb a + 1) * lbs then
               let i := off - slba a * lbs in
               if (0 <=? i) && (i <? data_len a)
               then default None (payload !! Z.to_nat i)
               else d (fd a) (nsid a) off
             else None) d
      else d
  | _ => d
  end.

(** The devices after a history, from their contents [d0] at the start. *)
Definition disks_after (bs : Z -> Z -> Z) (d0 : disks) (h : history) : disks :=
  foldr (apply_command bs) d0 (commands h).

(** Specification of a write of [bytes] at block [start] of one namespace, over
    [n] blocks: the bytes of the request, then bytes of unspecified value up
    to the end of the last block; every other namespace keeps its bytes. *)
Definition spec_write (dev ns lbs start : Z) (bytes : list byte) (n : Z) (d : disks) : disks :=
  fun dev' ns' off =>
    let i := off - start * lbs in
    if (dev' =? dev) && (ns' =? ns) && (0 <=? i) && (i <? n * lbs)
    then if i <? Z.of_nat (length bytes) then bytes !! Z.to_nat i else None
    else d dev' ns' off.

(** The statics of the handler are still to be initialised, or a call of a
    server for the same namespace did it. *)
Definition args_own (o : op) (b : blk) (ns : Z) : Prop :=
  match args_of o b with
  | None => True
  | Some a => fd a = blk_fd (this b) /\ nsid a = ns
  end.

Lemma args_own_fd {PF : Platform} o (s : st blk) request lbs ns n :
  args_own o (own s) ns ->
  fd (args_for o s request lbs ns n) = blk_fd (this (own s)) /\
  nsid (args_for o s request lbs ns n) = ns.
Proof. unfold args_own, args_for, static_value. by destruct (args_of o (own s)). Qed.

Lemma padded_lookup bytes len i :
  0 <= i < len -> Z.of_nat (length bytes) <= len ->
  default None (padded bytes len !! Z.to_nat i) =
  if i <? Z.of_nat (length bytes) then bytes !! Z.to_nat i else None.
Proof.
  intros Hi Hl. unfold padded. destruct (i <? _) eqn:E; bool_hyps.
  - rewrite lookup_app_l by (rewrite length_fmap; lia). rewrite list_lookup_fmap.
    destruct (bytes !! Z.to_nat i) eqn:B; [done |].
    apply lookup_ge_None in B. lia.
  - rewrite lookup_app_r by (rewrite length_fmap; lia). rewrite length_fmap.
    by rewrite lookup_replicate_2 by lia.
Qed.

Lemma apply_write_spec bs dev ns lbs start bytes n a d dev' ns' off :
  fd a = dev -> nsid a = ns -> bs dev ns = lbs ->
  slba a = start -> nlb a = n - 1 -> data_len a = n * lbs ->
  Z.of_nat (length bytes) <= n * lbs ->
  apply_command bs (Write, a, padded bytes (n * lbs), 0) d dev' ns' off =
  spec_write dev ns lbs start bytes n d dev' ns' off.
Proof.
  intros <- <- <- <- Hn Hl Hb. unfold apply_command, spec_write, on_namespace.
  rewrite Z.eqb_refl, Hn, Hl, Z.sub_add, Z.eqb_refl.
  destruct (dev' =? fd a) eqn:E1, (ns' =? nsid a) eqn:E2; cbn [andb]; try done. bool_hyps. subst.
  set (i := off - _). destruct (0 <=? i) eqn:E0; cbn [andb]; [| done]. bool_hyps.
  destruct (i <? n * _) eqn:E; bool_hyps; [| done].
  by rewrite padded_lookup by lia.
Qed.

(** ** Properties *)

Section properties.
Context {PF : Platform}.

Lemma handle_exact o s request lbs ns n out s' :
  callable o s request lbs ns n ->
  Z.of_nat (length (br_data request)) <= n * lbs ->
  handle o request s = (out, s') -> handled o s request lbs ns n out s'.
Proof. intros C L E. exact (wp_run _ _ _ (handle_runs _ _ _ _ _ _ C L) _ _ E). Qed.

(** C1: [WriteBlock] implements the specified write.  Take a request whose data
    fit the blocks its [size] asks for, and a server whose static args no
    server for another namespace has initialised and whose configuration has
    the block size of its namespace.  The call returns; with [OK] it
    names the last block, the namespace [ns] behind the server's own
    descriptor holds the specified contents and every other namespace is
    unchanged; otherwise it answers [UNKNOWN] and no namespace has changed.
    It leaves no memory allocated. *)
Theorem WriteBlock_refines_disk (request : BlockRequest) (s : st blk) (lbs ns : Z)
  (bs : Z -> Z -> Z) (d0 : disks) :
  let n := blocks_needed (br_size request) lbs in
  let start := br_start_block request in
  let dev := blk_fd (this (own s)) in
  ready Write s request lbs ns ->
  args_own Write (own s) ns ->
  bs dev ns = lbs ->
  Z.of_nat (length (br_data request)) <= n * lbs ->
  exists status reply s',
    WriteBlock (R := Empty_set) request s = (Val (status, reply), s') /\
    blocks (heap s') = blocks (heap s) /\
    match status with
    | OK => end_block reply = start + n - 1 /\
            forall dev' ns' off, disks_after bs d0 (log s') dev' ns' off =
              spec_write dev ns lbs start (br_data request) n
                (disks_after bs d0 (log s)) dev' ns' off
    | UNKNOWN msg => msg = "nvme write error"%string /\
            disks_after bs d0 (log s') = disks_after bs d0 (log s)
    end.
Proof.
  intros n start dev Hr Ho Hbs Hd. pose proof (ready_callable _ _ _ _ _ Hr) as C.
  unfold WriteBlock. destruct (handle Write request s) as [out s'] eqn:E.
  destruct (handle_exact _ _ _ _ _ _ _ _ C Hd E) as [(t & e & err & He & Hlog & Hout & _) Hb _].
  rewrite (answer_ready _ _ _ _ _ err Hr) in Hout. fold n start in Hout.
  pose proof Hr as []. fold n start in rd_end0, rd_blocks0, rd_len0.
  pose proof (blocks_needed_pos (br_size request) lbs ltac:(lia) ltac:(lia)) as Hn. fold n in Hn.
  assert (disks_after bs d0 (log s') =
    apply_command bs (Write, args_for Write s request lbs ns n, padded (br_data request) (n * lbs), err)
      (disks_after bs d0 (log s))) as HD.
  { unfold disks_after. rewrite Hlog. erewrite commands_trace by exact He. done. }
  destruct (err =? 0) eqn:Ez; bool_hyps; subst out.
  - eexists OK, _, s'. split_and!; [done | done | done |]. intros dev' ns' off. rewrite HD. subst err.
    destruct (args_own_fd Write s request lbs ns n Ho) as [Hf Hi].
    apply apply_write_spec; [done | done | done | | done | | done].
    + cbn. fold start. apply u64_id. unfold INT_MAX in *. lia.
    + cbn. apply u32_id. unfold INT_MAX in *. nia.
  - eexists (UNKNOWN _), _, s'. split_and!; [done | done | done |]. rewrite HD.
    unfold apply_command. by rewrite (proj2 (Z.eqb_neq err 0)).
Qed.

(** C35: [ReadBlock] gives the device exactly one read command, for the blocks
    the request asks for, answers like a write, leaves every device as it was,
    and frees the buffer the data were read into: what the device returned
    is in no reply and in no memory afterwards. *)
Theorem ReadBlock_reads_and_drops (request : BlockRequest) (s : st blk) (lbs ns : Z)
  (bs : Z -> Z -> Z) (d0 : disks) :
  let n := blocks_needed (br_size request) lbs in
  ready Read s request lbs ns ->
  Z.of_nat (length (br_data request)) <= n * lbs ->
  exists err s',
    ReadBlock (R := Empty_set) request s =
      (if err =? 0
       then Val (OK, {| end_block := br_start_block request + n - 1 |})
       else Val (UNKNOWN "nvme write error", BlockReply_default), s') /\
    commands (log s') =
      (Read, args_for Read s request lbs ns n, [], err) :: commands (log s) /\
    disks_after bs d0 (log s') = disks_after bs d0 (log s) /\
    blocks (heap s') = blocks (heap s).
Proof.
  intros n Hr Hd. pose proof (ready_callable _ _ _ _ _ Hr) as C.
  unfold ReadBlock. destruct (handle Read request s) as [out s'] eqn:E.
  destruct (handle_exact _ _ _ _ _ _ _ _ C Hd E) as [(t & e & err & He & Hlog & Hout & _) Hb _].
  rewrite (answer_ready _ _ _ _ _ err Hr) in Hout.
  exists err, s'. split; [by rewrite Hout |].
  assert (commands (log s') = (Read, args_for Read s request lbs ns n, [], err) :: commands (log s)) as Hc.
  { rewrite Hlog. by apply commands_trace. }
  split_and!; [done | | done]. unfold disks_after. by rewrite Hc.
Qed.

(** A request with more data than its blocks hold runs into the [memcpy], with
    the buffer allocated and nothing sent to the device. *)
Lemma handle_overflow o s request lbs ns n :
  callable o s request lbs ns n ->
  n * lbs < Z.of_nat (length (br_data request)) ->
  wp (handle (R := Empty_set) o request) (fun out s' => out = Stop UB_oob /\
    exists t0 t1, log s' = Alloc None (n * lbs) ~> 0 :: Clock_now ~> t1 :: Clock_now ~> t0 :: log s) s.
Proof.
  intros C Hd. pose proof C as []. unfold handle. apply wp_bind.
  eapply wp_prepare; [done |]. intros t0 H0. wp_steps. unfold fill. wp_steps.
  apply wp_new_array; [done | done |]. wp_steps.
  eapply wp_get_args; [apply args_set |]. wp_steps.
  eapply wp_memcpy_oob; [apply heap_alloc_lookup | | by eauto].
  rewrite length_replicate. lia.
Qed.

(** C17: the [memcpy] of a handler is safe exactly when the request's data fit
    the blocks its [size] names.  If they fit, the call returns; if they do
    not, it writes past the buffer it has just allocated, before it has given
    the device a command (the clamp [buffer_size] is computed and not used). *)
Theorem handle_safe_iff (o : op) (request : BlockRequest) (s : st blk) (lbs ns : Z) :
  let len := blocks_needed (br_size request) lbs * lbs in
  ready o s request lbs ns ->
  (Z.of_nat (length (br_data request)) <= len ->
   exists v s', handle (R := Empty_set) o request s = (Val v, s')) /\
  (len < Z.of_nat (length (br_data request)) ->
   exists t0 t1 s', handle (R := Empty_set) o request s = (Stop UB_oob, s') /\
     log s' = Alloc None len ~> 0 :: Clock_now ~> t1 :: Clock_now ~> t0 :: log s).
Proof.
  intros len Hr. pose proof (ready_callable _ _ _ _ _ Hr) as C.
  destruct (handle o request s) as [out s'] eqn:E. split; intros Hd.
  - destruct (handle_exact _ _ _ _ _ _ _ _ C Hd E) as [(t & e & err & _ & _ & Hout & _) _ _].
    rewrite (answer_ready _ _ _ _ _ err Hr) in Hout.
    destruct (err =? 0); rewrite Hout; eauto.
  - destruct (wp_run _ _ _ (handle_overflow _ _ _ _ _ _ C Hd) _ _ E) as [-> (t0 & t1 & Hl)].
    by exists t0, t1, s'.
Qed.

(** a request of size 0 is not a no-op: the block count underflows to
    65535, so the device is told to transfer 65536 blocks, of which the
    write's payload is the request's data and indeterminate bytes. *)
Theorem handle_zero_size (o : op) (request : BlockRequest) (s : st blk) (lbs ns : Z) :
  br_size request = 0 ->
  nlb_width = 16 -> 0 < lbs -> 65536 * lbs <= INT_MAX ->
  heap_wf (heap s) ->
  logical_block_size (config (this (own s))) = Some lbs ->
  namespace_id (config (this (own s))) = Some ns ->
  (forall h n, world h (Alloc None n) = 0) ->
  Z.of_nat (length (br_data request)) <= 65536 * lbs ->
  forall out s', handle (R := Empty_set) o request s = (out, s') ->
  exists a payload err,
    commands (log s') = (o, a, payload, err) :: commands (log s) /\
    nlb a + 1 = 65536 /\ data_len a = 65536 * lbs /\
    payload = match o with Write => padded (br_data request) (65536 * lbs) | Read => [] end.
Proof.
  intros Hs H16 Hl Hm Hh Hlbs Hns Hal Hd out s' E.
  assert (callable o s request lbs ns 65536) as C.
  { split; [done.. | lia | rewrite Hs; by apply geometry_zero | done]. }
  destruct (handle_exact _ _ _ _ _ _ _ _ C Hd E) as [(t & e & err & He & Hlog & _) _ _].
  eexists _, _, err. split_and!; [rewrite Hlog; by apply commands_trace | done | | done].
  cbn. apply u32_id. unfold INT_MAX in *. lia.
Qed.

(** the statics outlive the server object.  Once a first call has
    initialised them, every later call, on whatever server object, goes to
    the descriptor and namespace of that first call. *)
Theorem handle_uses_first_args (o : op) (request : BlockRequest) (s : st blk) (lbs ns : Z) first :
  args_of o (own s) = Some first ->
  ready o s request lbs ns ->
  Z.of_nat (length (br_data request)) <= blocks_needed (br_size request) lbs * lbs ->
  forall out s', handle (R := Empty_set) o request s = (out, s') ->
  exists a payload err,
    commands (log s') = (o, a, payload, err) :: commands (log s) /\
    fd a = fd first /\ nsid a = nsid first.
Proof.
  intros Hf Hr Hd out s' E. pose proof (ready_callable _ _ _ _ _ Hr) as C.
  destruct (handle_exact _ _ _ _ _ _ _ _ C Hd E) as [(t & e & err & He & Hlog & _) _ _].
  eexists _, _, err. split; [rewrite Hlog; by apply commands_trace |].
  cbn. unfold static_value. by rewrite Hf.
Qed.

(** ** Counters *)

(** No counter is negative, and the parts do not exceed the whole. *)
Definition times_ok (g : GRPCSyncServer) : Prop :=
  0 <= time_on_allocation g /\ 0 <= time_on_rw g /\
  time_on_allocation g + time_on_rw g <= time_total g.

(** with a clock that never steps back, a call keeps the time counters
    consistent: allocation and transfer together stay within the total. *)
Theorem handle_keeps_times (o : op) (request : BlockRequest) (s : st blk) (lbs ns : Z) :
  clock_monotone ->
  ready o s request lbs ns ->
  Z.of_nat (length (br_data request)) <= blocks_needed (br_size request) lbs * lbs ->
  times_ok (this (own s)) ->
  forall out s', handle (R := Empty_set) o request s = (out, s') -> times_ok (this (own s')).
Proof.
  intros M Hr Hd Ht out s' E. pose proof (ready_callable _ _ _ _ _ Hr) as C.
  destruct (handle_exact _ _ _ _ _ _ _ _ C Hd E) as [(t & e & err & _ & _ & _ & Ho & Hm) _ _].
  rewrite Ho. specialize (Hm M). unfold times_ok in *. rewrite this_with_this, this_set.
  unfold add_times. cbn. lia.
Qed.

(** the text of [GetStat] determines the three counters in milliseconds. *)
Theorem GetStat_injective (s1 s2 : st blk) (r : StatReply) s1' s2' :
  GetStat (R := Empty_set) s1 = (Val (OK, r), s1') ->
  GetStat (R := Empty_set) s2 = (Val (OK, r), s2') ->
  let g1 := this (own s1) in
  let g2 := this (own s2) in
  milliseconds (time_on_allocation g1) = milliseconds (time_on_allocation g2) /\
  milliseconds (time_on_rw g1) = milliseconds (time_on_rw g2) /\
  milliseconds (time_total g1) = milliseconds (time_total g2).
Proof.
  intros [= E1 _] [= E2 _] g1 g2. rewrite <- E1 in E2. injection E2 as E2.
  fold g1 g2 in E2.
  apply string_app_cancel, split_ms in E2 as [? E2].
  do 2 apply string_app_cancel in E2. apply split_ms in E2 as [? E2].
  do 2 apply string_app_cancel in E2. by apply split_ms in E2 as [? _].
Qed.

(** ** A server whose device could not be queried *)

(** a constructor whose namespace query fails reports nothing, and the
    first request the server handles reads indeterminate configuration. *)
Theorem unconfigured_server_undefined addr port (dev : cstr) (o : op) (request : BlockRequest) err s :
  cs_addr dev <> empty_literal ->
  err <> 0 ->
  (forall h fd, world h (Nvme_get_nsid fd) = (err, None)) ->
  (forall h p fl, 0 <= world h (Sys_open p fl)) ->
  exists g s',
    construct (P := blk) (R := Empty_set) addr port dev s = (Val g, s') /\
    0 <= blk_fd g /\
    exists s'', handle (R := Empty_set) o request
                  (mk_st (mk_blk g None None) (heap s') (log s')) = (Stop UB_uninit, s'').
Proof.
  intros Hne Herr Hq Hop.
  set (s1 := mk_st (own s) (heap s)
    (Sys_open (cs_text dev) [O_RDWR; O_DIRECT] ~>
       world (log s) (Sys_open (cs_text dev) [O_RDWR; O_DIRECT]) :: log s)).
  destruct (init_device_config_failure_exists dev s1 err Hne Herr Hq) as [s2 E].
  pose proof (Hop (log s) (cs_text dev) [O_RDWR; O_DIRECT]) as Hfd.
  eexists _, s2. split_and!.
  - unfold construct, mbind, M_bind, ext.
    rewrite (proj2 (Z.ltb_ge _ 0)) by exact Hfd. fold s1. rewrite E. reflexivity.
  - exact Hfd.
  - eexists. unfold handle, prepare, static_args, mbind, M_bind, ext, get_own, gets. cbn.
    by destruct o.
Qed.
End properties.

(** ** Instances *)

(** An environment in which every call succeeds, and one whose device fails. *)
Definition sample_env : Platform := platform_of (fun _ => default_reply).

(** A server for a device with blocks of 4 bytes. *)
Definition sample_server : GRPCSyncServer :=
  mk_server "0.0.0.0" 50051 5 (mk_config (Some 1) sample_name (Some 1024) (Some 4)) 0 0 0.

Definition sample_state : st blk := mk_st (mk_blk sample_server None None) heap_empty [].

(** Six bytes at block 3, and a request of size 0 with one byte. *)
Definition sample_request : BlockRequest :=
  {| br_size := 6; br_start_block := 3; br_data := [x61; x62; x63; x64; x65; x66] |}.
Definition empty_request : BlockRequest :=
  {| br_size := 0; br_start_block := 3; br_data := [x61] |}.

Lemma sample_ready o : @ready sample_env o sample_state sample_request 4 1.
Proof. split; try done. apply heap_empty_wf. Qed.

(** Both sample devices have blocks of 4 bytes and nothing written yet. *)
Definition sample_bs : Z -> Z -> Z := fun _ _ => 4.
Definition blank_disks : disks := fun _ _ _ => None.

Lemma WriteBlock_refines_disk_witness :
  @ready sample_env Write sample_state sample_request 4 1 /\
  exists status reply s',
    @WriteBlock sample_env Empty_set sample_request sample_state = (Val (status, reply), s') /\
    blocks (heap s') = ∅ /\
    match status with
    | OK => end_block reply = 3 + 2 - 1 /\
            forall dev ns off, disks_after sample_bs blank_disks (log s') dev ns off =
              spec_write 5 1 4 3 (br_data sample_request) 2 blank_disks dev ns off
    | UNKNOWN msg => msg = "nvme write error"%string /\
            disks_after sample_bs blank_disks (log s') = blank_disks
    end.
Proof.
  split; [apply sample_ready |].
  exact (@WriteBlock_refines_disk sample_env sample_request sample_state 4 1 sample_bs blank_disks
    (sample_ready Write) I eq_refl ltac:(done)).
Defined.

Lemma ReadBlock_reads_and_drops_witness :
  @ready sample_env Read sample_state sample_request 4 1 /\
  exists err s',
    @ReadBlock sample_env Empty_set sample_request sample_state =
      (if err =? 0 then Val (OK, {| end_block := 3 + 2 - 1 |})
       else Val (UNKNOWN "nvme write error", BlockReply_default), s') /\
    commands (log s') =
      [(Read, @args_for sample_env Read sample_state sample_request 4 1 2, [], err)] /\
    disks_after sample_bs blank_disks (log s') = blank_disks /\
    blocks (heap s') = ∅.
Proof.
  split; [apply sample_ready |].
  exact (@ReadBlock_reads_and_drops sample_env sample_request sample_state 4 1 sample_bs blank_disks
    (sample_ready Read) ltac:(done)).
Defined.

(** The same request with nine bytes of data, one more than its two blocks. *)
Definition overlong_request : BlockRequest :=
  {| br_size := 6; br_start_block := 3; br_data := replicate 9 x61 |}.

Lemma overlong_ready o : @ready sample_env o sample_state overlong_request 4 1.
Proof. split; try done. apply heap_empty_wf. Qed.

Lemma handle_safe_iff_witness :
  (exists v s', @handle sample_env Empty_set Write sample_request sample_state = (Val v, s')) /\
  (exists t0 t1 s', @handle sample_env Empty_set Write overlong_request sample_state = (Stop UB_oob, s') /\
     log s' = [Alloc None 8 ~> 0; Clock_now ~> t1; Clock_now ~> t0]).
Proof.
  split.
  - apply (@handle_safe_iff sample_env Write sample_request sample_state 4 1 (sample_ready Write)).
    done.
  - apply (@handle_safe_iff sample_env Write overlong_request sample_state 4 1 (overlong_ready Write)).
    done.
Defined.

Lemma handle_zero_size_witness :
  br_size empty_request = 0 /\
  exists a payload err (s' : st blk),
    commands (log s') = [(Write, a, payload, err)] /\
    nlb a + 1 = 65536 /\ data_len a = 65536 * 4.
Proof.
  split; [done |].
  destruct (@handle sample_env Empty_set Write empty_request sample_state) as [out s'] eqn:E.
  destruct (@handle_zero_size sample_env Write empty_request sample_state 4 1
    eq_refl eq_refl ltac:(done) ltac:(done) heap_empty_wf eq_refl eq_refl
    ltac:(done) ltac:(done) out s' E) as (a & payload & err & H1 & H2 & H3 & _).
  exists a, payload, err, s'. exact (conj H1 (conj H2 H3)).
Defined.

(** The state after another server object, for descriptor 9 and namespace 2,
    has served a call. *)
Definition reused_state : st blk :=
  mk_st (mk_blk sample_server None (Some (mk_args 0 0 4 None 9 2 120000))) heap_empty [].

Lemma reused_ready : @ready sample_env Write reused_state sample_request 4 1.
Proof. split; try done. apply heap_empty_wf. Qed.

Lemma handle_uses_first_args_witness :
  blk_fd (this (own reused_state)) = 5 /\
  exists a payload err (s' : st blk),
    commands (log s') = [(Write, a, payload, err)] /\ fd a = 9 /\ nsid a = 2.
Proof.
  split; [done |].
  destruct (@handle sample_env Empty_set Write sample_request reused_state) as [out s'] eqn:E.
  destruct (@handle_uses_first_args sample_env Write sample_request reused_state 4 1
    (mk_args 0 0 4 None 9 2 120000) eq_refl reused_ready ltac:(done) out s' E)
    as (a & payload & err & H).
  exists a, payload, err, s'. exact H.
Defined.

Lemma GetStat_injective_witness :
  exists r s', @GetStat Empty_set sample_state = (Val (OK, r), s') /\
    milliseconds (time_total (this (own sample_state))) =
    milliseconds (time_total (this (own reused_state))).
Proof.
  destruct (@GetStat Empty_set sample_state) as [o s1] eqn:E1.
  destruct (@GetStat Empty_set reused_state) as [o2 s2] eqn:E2.
  pose proof E1 as F1. pose proof E2 as F2.
  unfold GetStat, mbind, M_bind, get_own, gets, mret, M_ret in F1, F2.
  injection F1 as F1 _. injection F2 as F2 _. subst o o2.
  eexists _, s1. split; [reflexivity |].
  exact (proj2 (proj2 (@GetStat_injective sample_state reused_state _ s1 s2 E1 E2))).
Defined.
