(* ===== verification/BlockRace.v ===== *)
(** * Two calls of the block server at once

    gRPC's synchronous server runs the handlers of concurrent calls on several
    threads.  Both use the one function-local [static args].  Here two calls of
    the same handler are interleaved at the boundaries of the phases of
    [BlockServer.handle]; a schedule says which thread runs its next phase. *)

From S2P Require Import Prelude Proto Env Nvme BlockServer.

(** Where a thread is, with the locals it carries to the next phase. *)
Inductive pc :=
| Enter
| Prepared (total_start actual_len : Z)
| Filled (total_start : Z)
| Submitted (total_start err : Z)
| Returned (v : Status * BlockReply).

Inductive tid := A | B.

Definition at_pc (i : tid) (ps : pc * pc) : pc := match i with A => ps.1 | B => ps.2 end.
Definition move (i : tid) (p : pc) (ps : pc * pc) : pc * pc :=
  match i with A => (p, ps.2) | B => (ps.1, p) end.

Lemma at_move i p ps : at_pc i (move i p ps) = p.
Proof. by destruct i. Qed.
Lemma move_move i p q ps : move i p (move i q ps) = move i p ps.
Proof. by destruct i. Qed.

Section Race.
Context {PF : Platform}.

(** A thread's next phase of [handle]. *)
Definition thread_step (o : op) (request : BlockRequest) (p : pc)
  : M (st blk) Empty_set pc :=
  match p with
  | Enter => '(t, len) ← prepare o request; mret (Prepared t len)
  | Prepared t len => fill o request len;; mret (Filled t)
  | Filled t => err ← submit o; mret (Submitted t err)
  | Submitted t err => v ← finish o request t err; mret (Returned v)
  | Returned v => mret (Returned v)
  end.

(** Runs the phases in the order the schedule gives. *)
Fixpoint run_schedule (o : op) (req : tid -> BlockRequest) (sched : list tid) (ps : pc * pc)
  : M (st blk) Empty_set (pc * pc) :=
  match sched with
  | [] => mret ps
  | i :: sched =>
      p ← thread_step o (req i) (at_pc i ps);
      run_schedule o req sched (move i p ps)
  end.

(** A thread that runs alone runs the handler. *)
Lemma alone o (request : BlockRequest) {X} (k : pc -> M (st blk) Empty_set X) :
  M_equiv
    (p1 ← thread_step o request Enter; p2 ← thread_step o request p1;
     p3 ← thread_step o request p2; p4 ← thread_step o request p3; k p4)
    (v ← handle o request; k (Returned v)).
Proof.
  intros s. unfold handle, thread_step, mbind, M_bind, mret, M_ret.
  destruct (prepare o request s) as [[[t len] | | |] s1]; try done.
  destruct (fill o request len s1) as [[[] | | |] s2]; try done.
  destruct (submit o s2) as [[err | | |] s3]; try done.
  by destruct (finish o request t err s3) as [[v | | |] s4].
Qed.

(** ** Phases of one thread in the middle of a schedule *)

(** What another call may rely on after a thread has prepared and filled. *)
Record filled_state (o : op) (s : st blk) (request : BlockRequest) (lbs ns n : Z) (s1 : st blk)
  : Prop := {
  f_args : args_of o (own s1) = Some (args_for o s request lbs ns n);
  f_config : config (this (own s1)) = config (this (own s));
  f_heap : heap s1 = heap_store (next_loc (heap s)) (padded (br_data request) (n * lbs))
                       (heap_alloc (n * lbs) (heap s)).2;
  f_commands : commands (log s1) = commands (log s);
}.

Lemma filled_callable o s s1 ra rb lbs ns na nb :
  callable o s ra lbs ns na -> callable o s rb lbs ns nb ->
  filled_state o s ra lbs ns na s1 -> callable o s1 rb lbs ns nb.
Proof.
  intros CA CB []. destruct CB. split; [| by rewrite f_config0 | by rewrite f_args0 | done..].
  rewrite f_heap0. apply heap_store_wf, heap_alloc_wf; [| done].
  rewrite heap_alloc_lookup. by eexists.
Qed.

(** [prepare] of a thread whose data pointer the next phase replaces. *)
Lemma step_prepare_fill o req i sched ps s lbs ns n (Q : outcome Empty_set (pc * pc) -> st blk -> Prop) :
  at_pc i ps = Enter ->
  callable o s (req i) lbs ns n ->
  Z.of_nat (length (br_data (req i))) <= n * lbs ->
  (forall t s1, filled_state o s (req i) lbs ns n s1 ->
     wp (run_schedule o req sched (move i (Filled t) ps)) Q s1) ->
  wp (run_schedule o req (i :: i :: sched) ps) Q s.
Proof.
  intros Hp C Hd H. cbn [run_schedule]. rewrite Hp. cbn [thread_step].
  apply wp_bind, wp_bind. eapply wp_prepare; [done |]. intros t0 _. wp_steps.
  rewrite at_move. cbn [thread_step]. apply wp_bind.
  eapply wp_fill; [apply args_set | done | apply C |]. intros t1 t2 _ _. wp_steps.
  rewrite move_move. apply H. split; [| | done | done]; blk_simpl; done.
Qed.

Lemma step_prepare o req i sched ps s lbs ns n (Q : outcome Empty_set (pc * pc) -> st blk -> Prop) :
  at_pc i ps = Enter ->
  callable o s (req i) lbs ns n ->
  (forall t s1,
     (exists a, args_of o (own s1) = Some a /\ slba a = u64 (br_start_block (req i)) /\
        nlb a = n - 1 /\ data_len a = u32 (n * lbs) /\
        data a = data (static_value o (own s) ns)) ->
     heap s1 = heap s -> commands (log s1) = commands (log s) ->
     wp (run_schedule o req sched (move i (Prepared t (n * lbs)) ps)) Q s1) ->
  wp (run_schedule o req (i :: sched) ps) Q s.
Proof.
  intros Hp C H. cbn [run_schedule]. rewrite Hp. cbn [thread_step].
  apply wp_bind, wp_bind. eapply wp_prepare; [done |]. intros t0 _. wp_steps.
  apply H; [| done | done]. eexists. cbn [own]. split; [apply args_set | done].
Qed.

Lemma step_submit o req i sched ps s t a l b (Q : outcome Empty_set (pc * pc) -> st blk -> Prop) :
  at_pc i ps = Filled t ->
  args_of o (own s) = Some a -> data a = Some l -> blocks (heap s) !! l = Some b ->
  (forall err b' s1,
     args_of o (own s1) = Some a -> heap s1 = heap_store l b' (heap s) ->
     commands (log s1) = (o, a, match o with Write => b | Read => [] end, err) :: commands (log s) ->
     wp (run_schedule o req sched (move i (Submitted t err) ps)) Q s1) ->
  wp (run_schedule o req (i :: sched) ps) Q s.
Proof.
  intros Hp Ha Hd Hb H. cbn [run_schedule]. rewrite Hp. cbn [thread_step].
  apply wp_bind, wp_bind. eapply wp_submit; [done.. |]. intros t1 e err t2 b' _ He _. wp_steps.
  eapply H; [by blk_simpl | done |]. unfold commands. cbn [log omap list_omap command_of].
  by rewrite He.
Qed.

(** C34: the shared [args] let one call redirect another.  If B prepares
    between A's fill and A's submit, A's data go to the device as a write to
    B's start block, over B's number of blocks. *)
Theorem race_misdirects (req : tid -> BlockRequest) (s : st blk) (lbs ns na nb : Z) :
  callable Write s (req A) lbs ns na ->
  callable Write s (req B) lbs ns nb ->
  Z.of_nat (length (br_data (req A))) <= na * lbs ->
  exists ps s' a err,
    run_schedule Write req [A; A; B; A] (Enter, Enter) s = (Val ps, s') /\
    commands (log s') =
      (Write, a, padded (br_data (req A)) (na * lbs), err) :: commands (log s) /\
    slba a = u64 (br_start_block (req B)) /\ nlb a = nb - 1 /\ data_len a = u32 (nb * lbs).
Proof.
  intros CA CB Hd.
  assert (wp (run_schedule Write req [A; A; B; A] (Enter, Enter)) (fun out s' =>
    exists ps a err, out = Val ps /\
      commands (log s') =
        (Write, a, padded (br_data (req A)) (na * lbs), err) :: commands (log s) /\
      slba a = u64 (br_start_block (req B)) /\ nlb a = nb - 1 /\ data_len a = u32 (nb * lbs)) s) as W.
  { eapply step_prepare_fill; [done.. |]. intros t s1 F1.
    pose proof (filled_callable _ _ _ _ _ _ _ _ _ CA CB F1) as C1. destruct F1.
    eapply step_prepare; [done | done |].
    intros t' s2 (a & Ha & H1 & H2 & H3 & H4) Hh Hc.
    unfold static_value in H4. rewrite f_args0 in H4. cbn in H4.
    eapply step_submit; [done | done | done | rewrite Hh, f_heap0; apply lookup_insert_eq |].
    intros err b' s3 _ _ Hc3. cbn [run_schedule]. wp_steps. eexists _, a, err. split; [done |].
    by rewrite Hc3, Hc, f_commands0. }
  destruct (run_schedule _ _ _ _ s) as [out s'] eqn:E.
  destruct (wp_run _ _ _ W _ _ E) as (ps & a & err & -> & H). eauto 10.
Qed.

Lemma wp_block_freed {P R} l (Q : outcome R (loc * list mbyte) -> st P -> Prop) s :
  blocks (heap s) !! l = None -> Q (Stop UB_badptr) s -> wp (block_at (Some l)) Q s.
Proof. intros E H. unfold wp, block_at. by rewrite E. Qed.

(** two calls that overlap from their allocations on corrupt the heap:
    A's [delete[]] releases the buffer B has put into the shared [args], and
    B's transfer then uses released memory. *)
Theorem race_use_after_free (req : tid -> BlockRequest) (s : st blk) (lbs ns na nb : Z) :
  callable Write s (req A) lbs ns na ->
  callable Write s (req B) lbs ns nb ->
  Z.of_nat (length (br_data (req A))) <= na * lbs ->
  Z.of_nat (length (br_data (req B))) <= nb * lbs ->
  in_int (br_start_block (req A) + (nb - 1)) = true ->
  exists s',
    run_schedule Write req [A; A; B; B; A; A; B] (Enter, Enter) s = (Stop UB_badptr, s').
Proof.
  intros CA CB Hda Hdb Hr.
  assert (wp (run_schedule Write req [A; A; B; B; A; A; B] (Enter, Enter))
            (fun out _ => out = Stop UB_badptr) s) as W.
  { eapply step_prepare_fill; [done.. |]. intros t s1 F1.
    pose proof (filled_callable _ _ _ _ _ _ _ _ _ CA CB F1) as C1.
    eapply step_prepare_fill; [done | done | done |]. intros t' s2 F2. destruct F2.
    eapply step_submit; [done | done | done | rewrite f_heap0; apply lookup_insert_eq |].
    intros err b' s3 Ha3 Hh3 _. cbn [run_schedule at_pc move fst snd thread_step].
    apply wp_bind, wp_bind.
    eapply wp_finish; [done | done | rewrite Hh3; apply lookup_insert_eq |].
    intros t8 _. unfold answer. cbn [nlb args_for].
    rewrite Hr. destruct (err =? 0); wp_steps; cbn [thread_step];
      apply wp_bind; unfold submit; wp_steps;
      (eapply wp_get_args; [by blk_simpl |]); wp_steps; cbn [data args_for];
      (apply wp_block_freed; [| done]); apply lookup_delete_eq. }
  destruct (run_schedule _ _ _ _ s) as [out s'] eqn:E.
  exists s'. f_equal. by apply (wp_run _ _ _ W) in E.
Qed.
End Race.

(** ** Instances *)

(** A writes six bytes at block 3, B five bytes at block 40. *)
Definition two_requests (i : tid) : BlockRequest :=
  match i with
  | A => sample_request
  | B => {| br_size := 10; br_start_block := 40; br_data := [x70; x71; x72; x73; x74] |}
  end.

Lemma two_callable i : @callable sample_env Write sample_state (two_requests i) 4 1
  (match i with A => 2 | B => 3 end).
Proof.
  destruct i; (split; [apply heap_empty_wf | done | done | done | | done]);
    by apply geometry_ok.
Qed.

Lemma race_misdirects_witness :
  exists ps s' a err,
    @run_schedule sample_env Write two_requests [A; A; B; A] (Enter, Enter) sample_state =
      (Val ps, s') /\
    commands (log s') = [(Write, a, padded (br_data sample_request) 8, err)] /\
    slba a = u64 40 /\ nlb a = 2 /\ data_len a = u32 12.
Proof.
  exact (@race_misdirects sample_env two_requests sample_state 4 1 2 3
    (two_callable A) (two_callable B) ltac:(done)).
Defined.

Lemma race_use_after_free_witness :
  exists s',
    @run_schedule sample_env Write two_requests [A; A; B; B; A; A; B] (Enter, Enter) sample_state =
      (Stop UB_badptr, s').
Proof.
  exact (@race_use_after_free sample_env two_requests sample_state 4 1 2 3
    (two_callable A) (two_callable B) ltac:(done) ltac:(done) ltac:(done)).
Defined.
