(* ===== verification/Tcp.v ===== *)
(** * TCP connections (classes [Connection], [TCPConnection] of src/src/net.h)

    [Connection] is the abstract class: a typeclass of the four operations.
    [TCPConnection] implements it over BSD sockets.  A [void *] argument is the
    bytes it points to. *)

From S2P Require Import Prelude Proto Env.

(** [enum { INITIATOR, TARGET }]. *)
Definition INITIATOR : Z := 0.
Definition TARGET : Z := 1.

(** The pure virtual methods, over objects of type [C]; [fuel] bounds the
    iterations of a method that loops.  [recv] yields its value and the bytes it
    stored from the start of the caller's buffer. *)
Class Connection (C : Type) := {
  conn_init : forall R, M (st C) R Z;
  conn_send : forall R, nat -> list byte -> Z -> M (st C) R Z;
  conn_recv : forall R, nat -> Z -> M (st C) R (Z * list byte);
  conn_close : forall R, M (st C) R Z;
}.

Record TCPConnection := mk_tcp {
  peer_sock : option Z;
  address : string;
  role : Z;
  port : Z;
}.

(** The two constructors; [peer_sock] is not initialised. *)
Definition TCPConnection_client (role : Z) (address : string) (port : Z) : TCPConnection :=
  mk_tcp None address role port.
Definition TCPConnection_server (role port : Z) : TCPConnection := mk_tcp None "" role port.

Definition set_peer (sock : Z) (c : TCPConnection) : TCPConnection :=
  mk_tcp (Some sock) (address c) (role c) (port c).

Section TCP.
Context {PF : Platform} {R : Type}.

Definition close {R} : M (st TCPConnection) R Z :=
  sock ← get_own peer_sock;
  sock ← read_init sock;
  ext (Sys_close sock).

(** [goto ret] of [init]. *)
Definition init_failed {A} : M (st TCPConnection) Z A := r ← close; return_ r.

Definition init : M (st TCPConnection) R Z :=
  call (
    c ← get_own (fun c => c);
    if role c =? TARGET then
      sock ← ext Sys_socket;
      b ← ext (Sys_bind sock (u16 (port c)));
      if negb (b =? 0) then init_failed else
      l ← ext (Sys_listen sock 5);
      if negb (l =? 0) then init_failed else
      p ← ext (Sys_accept sock);
      set_own (set_peer p);;
      if p <? 0 then init_failed else
      _ ← ext (Sys_close sock);
      mret 0
    else if role c =? INITIATOR then
      p ← ext Sys_socket;
      set_own (set_peer p);;
      r ← ext (Sys_connect p (address c) (u16 (port c)));
      if r <? 0 then init_failed else mret 0
    else mret 0).

(** The loop of [send]: [left] bytes to go, from [buffer]. *)
Fixpoint send_loop (fuel : nat) (left : Z) (buffer : list byte) (len : Z)
  : M (st TCPConnection) Z Z :=
  if left >? 0 then
    match fuel with
    | O => nofuel
    | S fuel =>
        sock ← get_own peer_sock;
        sock ← read_init sock;
        if Z.of_nat (length buffer) <? left then stop_ UB_oob else
        '(ret, errno) ← ext (Sys_send sock (take (Z.to_nat left) buffer));
        let writeBytes := i32 ret in
        if writeBytes <? 0 then
          if errno =? EINTR then send_loop fuel left buffer len else return_ (-1)
        else if writeBytes =? 0 then send_loop fuel left buffer len
        else send_loop fuel (left - writeBytes) (drop (Z.to_nat writeBytes) buffer) len
    end
  else mret len.

Definition send (fuel : nat) (data : list byte) (len : Z) : M (st TCPConnection) R Z :=
  call (send_loop fuel len data len).

(** The loop of [recv]; [got] are the bytes stored so far. *)
Fixpoint recv_loop (fuel : nat) (left : Z) (got : list byte) (len : Z)
  : M (st TCPConnection) (Z * list byte) (Z * list byte) :=
  if left >? 0 then
    match fuel with
    | O => nofuel
    | S fuel =>
        sock ← get_own peer_sock;
        sock ← read_init sock;
        '(ret, errno, bytes) ← ext (Sys_recv sock left);
        let readBytes := i32 ret in
        if readBytes <? 0 then
          if errno =? EINTR then recv_loop fuel left got len else return_ (-1, got)
        else if readBytes =? 0 then return_ (len - left, got)
        else recv_loop fuel (left - readBytes) (got ++ take (Z.to_nat readBytes) bytes) len
    end
  else mret (len, got).

Definition recv (fuel : nat) (len : Z) : M (st TCPConnection) R (Z * list byte) :=
  call (recv_loop fuel len [] len).
End TCP.

#[export] Instance TCPConnection_is_Connection {PF : Platform} : Connection TCPConnection := {
  conn_init := fun R => init;
  conn_send := fun R => send;
  conn_recv := fun R => recv;
  conn_close := fun R => close;
}.

(** ** What went over the wire *)

(** The bytes the kernel accepted, in order. *)
Definition sent_of (e : entry) : list byte :=
  match e with
  | existT (Sys_send _ bytes) r => take (Z.to_nat r.1) bytes
  | _ => []
  end.
Fixpoint sent (h : history) : list byte :=
  match h with [] => [] | e :: h => sent h ++ sent_of e end.

(** The bytes the kernel delivered, in order. *)
Definition received_of (e : entry) : list byte :=
  match e with
  | existT (Sys_recv _ _) r => take (Z.to_nat r.1.1) r.2
  | _ => []
  end.
Fixpoint received (h : history) : list byte :=
  match h with [] => [] | e :: h => received h ++ received_of e end.

(** A transfer that moved nothing and is repeated. *)
Definition stalled {PF : Platform} (e : entry) : bool :=
  match e with
  | existT (Sys_send _ _) r => (r.1 =? 0) || ((r.1 <? 0) && (r.2 =? EINTR))
  | existT (Sys_recv _ _) r => (r.1.1 <? 0) && (r.1.2 =? EINTR)
  | _ => false
  end.
Definition stalls {PF : Platform} (h : history) : nat := length (filter stalled h).

(** ** The socket interface *)

(** [send(2)] and [recv(2)] as documented: a result is -1 or a count no larger
    than what was asked for, and a positive count of received bytes comes with
    them.  The kernel makes a caller repeat a call at most [b] times in a run. *)
Class SocketLaws {PF : Platform} (b : nat) : Prop := {
  send_ret : forall h sock bytes,
    -1 <= (world h (Sys_send sock bytes)).1 <= Z.of_nat (length bytes);
  recv_ret : forall h sock len, 0 <= len ->
    -1 <= (world h (Sys_recv sock len)).1.1 <= len /\
    ((world h (Sys_recv sock len)).1.1 <= Z.of_nat (length (world h (Sys_recv sock len)).2));
  few_stalls : forall h e, stalled (e ~> world h e) = true -> (stalls h < b)%nat;
}.

Section send_proofs.
Context {PF : Platform} {b : nat} {SL : SocketLaws b}.

Lemma stalls_cons e r h :
  stalls (e ~> r :: h) = if stalled (e ~> r) then S (stalls h) else stalls h.
Proof.
  unfold stalls. rewrite filter_cons. destruct (stalled (e ~> r)); by case_decide.
Qed.

Lemma sent_after k bytes r h :
  sent (Sys_send k bytes ~> r :: h) = sent h ++ take (Z.to_nat r.1) bytes.
Proof. done. Qed.

Lemma stalls_step h e :
  (stalls h <= b)%nat ->
  (stalls (e ~> world h e :: h) <= b)%nat /\
  (if stalled (e ~> world h e)
   then (b - stalls (e ~> world h e :: h) < b - stalls h)%nat
   else (b - stalls (e ~> world h e :: h) = b - stalls h)%nat).
Proof.
  intros Hb. rewrite stalls_cons. destruct (stalled (e ~> world h e)) eqn:E; [| lia].
  pose proof (few_stalls h e E). lia.
Qed.

(** The loop of [send], from any point of it. *)
Lemma send_loop_spec k fuel left buffer len (s : st TCPConnection) :
  peer_sock (own s) = Some k ->
  0 <= left <= Z.of_nat (length buffer) -> left <= INT_MAX ->
  (stalls (log s) <= b)%nat ->
  (Z.to_nat left + (b - stalls (log s)) <= fuel)%nat ->
  wp (send_loop fuel left buffer len) (fun o s' =>
    own s' = own s /\ heap s' = heap s /\
    match o with
    | Val r => r = len /\ sent (log s') = sent (log s) ++ take (Z.to_nat left) buffer
    | Ret r => r = -1 /\ exists n, (n < Z.to_nat left)%nat /\
                 sent (log s') = sent (log s) ++ take n buffer
    | _ => False
    end) s.
Proof.
  revert left buffer s. induction fuel as [| fuel IH]; intros left buffer s Hk Hl Hmax Hs Hf;
    cbn [send_loop]; destruct (left >? 0) eqn:Hpos; bool_hyps.
  1: lia.
  1,3: assert (left = 0) as -> by lia; wp_steps; by rewrite take_0, app_nil_r.
  wp_steps. rewrite Hk. wp_steps.
  rewrite (proj2 (Z.ltb_ge _ _)) by lia. wp_steps.
  set (e := Sys_send k (take (Z.to_nat left) buffer)) in *.
  pose proof (send_ret (log s) k (take (Z.to_nat left) buffer)) as Hret.
  pose proof (stalls_step (log s) e Hs) as [Hb Hst].
  rewrite <- Hw in Hb, Hst. fold e in Hret. rewrite <- Hw in Hret.
  destruct r as [ret errno]. cbn [fst] in Hret. rewrite length_take_le in Hret by lia.
  change (stalled (e ~> (ret, errno))) with ((ret =? 0) || ((ret <? 0) && (errno =? EINTR))) in Hst.
  unfold INT_MAX in Hmax. subst e.
  rewrite i32_id by lia.
  destruct (ret <? 0) eqn:E1; bool_hyps.
  { rewrite (proj2 (Z.eqb_neq ret 0)) in Hst by lia. cbn beta iota delta [orb andb] in Hst.
    destruct (errno =? EINTR) eqn:E2; cbn beta iota delta [orb andb] in Hst.
    - eapply wp_mono; [| apply (IH left buffer)]; cbn [own heap log]; [| done | lia | unfold INT_MAX; lia | lia | lia].
      intros o s' (H1 & H2 & H3). rewrite sent_after in H3. cbn [fst] in H3.
      replace (Z.to_nat ret) with 0%nat in H3 by lia. rewrite take_0, app_nil_r in H3. done.
    - wp_steps. split_and!; [done.. |]. exists 0%nat. split; [lia |].
      rewrite sent_after. cbn [fst]. by replace (Z.to_nat ret) with 0%nat by lia. }
  destruct (ret =? 0) eqn:E2; bool_hyps; cbn beta iota delta [orb andb] in Hst.
  { subst ret. eapply wp_mono; [| apply (IH left buffer)]; cbn [own heap log];
      [| done | lia | unfold INT_MAX; lia | lia | lia].
    intros o s' (H1 & H2 & H3). rewrite sent_after in H3. cbn [fst] in H3. rewrite Z2Nat.inj_0, take_0 in H3. rewrite app_nil_r in H3. done. }
  eapply wp_mono; [| apply (IH (left - ret) (drop (Z.to_nat ret) buffer))]; cbn [own heap log];
    [| done | rewrite length_drop; lia | unfold INT_MAX; lia | lia | lia].
  intros o s' (H1 & H2 & H3). split_and!; [done.. |].
  rewrite sent_after in H3. cbn [fst] in H3. rewrite take_take in H3.
  replace (Z.to_nat ret `min` Z.to_nat left)%nat with (Z.to_nat ret) in H3 by lia.
  destruct o as [r | r | |]; [| | done | done].
  - destruct H3 as [-> ->]. rewrite <- app_assoc, take_drop_app.
    by replace (Z.to_nat ret + Z.to_nat (left - ret))%nat with (Z.to_nat left) by lia.
  - destruct H3 as (-> & n & Hn & ->). split; [done |].
    exists (Z.to_nat ret + n)%nat. split; [lia |]. by rewrite <- app_assoc, take_drop_app.
Qed.
End send_proofs.

Section recv_proofs.
Context {PF : Platform} {b : nat} {SL : SocketLaws b}.

Lemma received_after k n r h :
  received (Sys_recv k n ~> r :: h) = received h ++ take (Z.to_nat r.1.1) r.2.
Proof. done. Qed.

Lemma received_none k n ret errno bytes h :
  ret <= 0 -> received (Sys_recv k n ~> (ret, errno, bytes) :: h) = received h.
Proof.
  intros H. rewrite received_after. cbn [fst]. replace (Z.to_nat ret) with 0%nat by lia.
  by rewrite take_0, app_nil_r.
Qed.

(** The loop of [recv], from any point of it. *)
Lemma recv_loop_spec k fuel left got len (s : st TCPConnection) :
  peer_sock (own s) = Some k ->
  0 <= left <= INT_MAX ->
  (stalls (log s) <= b)%nat ->
  (Z.to_nat left + (b - stalls (log s)) <= fuel)%nat ->
  wp (recv_loop fuel left got len) (fun o s' =>
    own s' = own s /\ heap s' = heap s /\
    exists x, received (log s') = received (log s) ++ x /\
    match o with
    | Val (r, out) => r = len /\ out = got ++ x /\ Z.of_nat (length x) = left
    | Ret (r, out) => out = got ++ x /\ Z.of_nat (length x) < left /\
                      (r = -1 \/ r = len - left + Z.of_nat (length x))
    | _ => False
    end) s.
Proof.
  revert left got s. induction fuel as [| fuel IH]; intros left got s Hk Hl Hs Hf;
    cbn [recv_loop]; destruct (left >? 0) eqn:Hpos; bool_hyps.
  1: lia.
  1,3: assert (left = 0) as -> by lia; wp_steps; split_and!; [done.. |];
       exists []; by rewrite !app_nil_r.
  wp_steps. rewrite Hk. wp_steps.
  pose proof (recv_ret (log s) k left ltac:(lia)) as [Hret Hlen].
  pose proof (stalls_step (log s) (Sys_recv k left) Hs) as [Hb Hst].
  rewrite <- Hw in Hb, Hst, Hret, Hlen.
  destruct r as [[ret errno] bytes]. cbn [fst snd] in Hret, Hlen.
  change (stalled (Sys_recv k left ~> (ret, errno, bytes)))
    with ((ret <? 0) && (errno =? EINTR)) in Hst.
  unfold INT_MAX in Hl. rewrite i32_id by lia.
  destruct (ret <? 0) eqn:E1; bool_hyps; cbn beta iota delta [andb] in Hst.
  { destruct (errno =? EINTR) eqn:E2.
    - eapply wp_mono; [| apply (IH left got)]; cbn [own heap log];
        [| done | unfold INT_MAX; lia | lia | lia].
      intros o s'. by rewrite received_none by lia.
    - wp_steps. split_and!; [done.. |]. exists []. rewrite received_none, !app_nil_r by lia.
      cbn. split_and!; [done.. | lia | by left]. }
  destruct (ret =? 0) eqn:E2; bool_hyps.
  { wp_steps. split_and!; [done.. |]. exists []. rewrite received_none, !app_nil_r by lia.
    cbn. split_and!; [done.. | lia | right; lia]. }
  eapply wp_mono; [| apply (IH (left - ret) (got ++ take (Z.to_nat ret) bytes))];
    cbn [own heap log]; [| done | unfold INT_MAX; lia | lia | lia].
  intros o s' (H1 & H2 & x & H3 & H4). split_and!; [done.. |].
  rewrite received_after in H3. cbn [fst snd] in H3.
  exists (take (Z.to_nat ret) bytes ++ x). rewrite app_assoc. split; [done |].
  rewrite length_app, length_take.
  destruct o as [[r out] | [r out] | |]; [| | done | done].
  - destruct H4 as (-> & -> & H4). rewrite app_assoc. split_and!; [done.. | lia].
  - destruct H4 as (-> & H4 & H5). rewrite app_assoc. split_and!; [done | lia | lia].
Qed.
End recv_proofs.

(** What success of [send] and of [recv] says of the streams. *)
Lemma send_len_sent {PF : Platform} {R} b {SL : SocketLaws b} k fuel data len s s' :
  peer_sock (own s) = Some k ->
  0 < len <= Z.of_nat (length data) -> len <= INT_MAX ->
  (stalls (log s) <= b)%nat -> (Z.to_nat len + b <= fuel)%nat ->
  send (R := R) fuel data len s = (Val len, s') ->
  sent (log s') = sent (log s) ++ take (Z.to_nat len) data.
Proof.
  intros Hk Hl Hm Hs Hf E. unfold send, call in E.
  pose proof (send_loop_spec k fuel len data len s Hk ltac:(lia) Hm Hs ltac:(lia)) as H.
  unfold wp in H. destruct (send_loop fuel len data len s) as [[r | r | |] t];
    simplify_eq; destruct_and?; [done | lia].
Qed.

Lemma recv_len_received {PF : Platform} {R} b {SL : SocketLaws b} k fuel len out s s' :
  peer_sock (own s) = Some k ->
  0 < len <= INT_MAX ->
  (stalls (log s) <= b)%nat -> (Z.to_nat len + b <= fuel)%nat ->
  recv (R := R) fuel len s = (Val (len, out), s') ->
  received (log s') = received (log s) ++ out /\ Z.of_nat (length out) = len.
Proof.
  intros Hk Hl Hs Hf E. unfold recv, call in E.
  pose proof (recv_loop_spec k fuel len [] len s Hk ltac:(lia) Hs ltac:(lia)) as H.
  unfold wp in H. destruct (recv_loop fuel len [] len s) as [[[r y] | [r y] | |] t];
    simplify_eq; destruct H as (_ & _ & x & Hx & H); cbn [app] in H;
    destruct_and?; subst; [done | lia].
Qed.

(** ** Theorems *)

Section theorems.
Context {PF : Platform} {R : Type}.

(** C15: [TCPConnection::send] terminates: it returns [len] and then exactly
    the first [len] bytes of the buffer went out, in order and each once,
    however the kernel split and interrupted the transfer; or it returns -1 and
    a proper prefix of them went out. *)
Theorem send_sends_all b {SL : SocketLaws b} k fuel data len (s : st TCPConnection) :
  peer_sock (own s) = Some k ->
  0 <= len <= Z.of_nat (length data) -> len <= INT_MAX ->
  (stalls (log s) <= b)%nat ->
  (Z.to_nat len + b <= fuel)%nat ->
  exists (r : Z) s', send (R := R) fuel data len s = (Val r, s') /\
    own s' = own s /\ heap s' = heap s /\
    exists n, sent (log s') = sent (log s) ++ take n data /\
      (r = len /\ n = Z.to_nat len \/ r = -1 /\ (n < Z.to_nat len)%nat).
Proof.
  intros Hk Hl Hm Hs Hf. unfold send, call.
  pose proof (send_loop_spec k fuel len data len s Hk Hl Hm Hs ltac:(lia)) as H.
  unfold wp in H. destruct (send_loop fuel len data len s) as [o s'].
  destruct H as (H1 & H2 & H3). destruct o as [r | r | |]; [| | done | done].
  - destruct H3 as [-> H3]. exists len, s'. split_and!; [done.. |]. eauto 10.
  - destruct H3 as (-> & n & Hn & H3). exists (-1), s'. split_and!; [done.. |]. eauto 10.
Qed.

(** [TCPConnection::recv] terminates: the bytes it stored are exactly the
    bytes the kernel delivered during the call, in order; it returns [len] when
    there are [len] of them, and otherwise their number (the peer closed) or
    -1 (an error, whose count is lost). *)
Theorem recv_stores_stream b {SL : SocketLaws b} k fuel len (s : st TCPConnection) :
  peer_sock (own s) = Some k ->
  0 <= len <= INT_MAX ->
  (stalls (log s) <= b)%nat ->
  (Z.to_nat len + b <= fuel)%nat ->
  exists (r : Z) out s', recv (R := R) fuel len s = (Val (r, out), s') /\
    own s' = own s /\ heap s' = heap s /\
    received (log s') = received (log s) ++ out /\
    Z.of_nat (length out) <= len /\
    (r = Z.of_nat (length out) \/ r = -1 /\ Z.of_nat (length out) < len).
Proof.
  intros Hk Hl Hs Hf. unfold recv, call.
  pose proof (recv_loop_spec k fuel len [] len s Hk Hl Hs ltac:(lia)) as H.
  unfold wp in H. destruct (recv_loop fuel len [] len s) as [o s'].
  destruct H as (H1 & H2 & x & H3 & H4).
  destruct o as [[r out] | [r out] | |]; [| | done | done]; cbn [app] in H4.
  - destruct H4 as (-> & -> & H4). exists len, x, s'. split_and!; [done.. | lia | lia].
  - destruct H4 as (-> & H4 & H5). exists r, x, s'. split_and!; [done.. | lia |].
    destruct H5; [right | left]; lia.
Qed.

(** C24: A message sent with [send] by one process and read with [recv] of
    the same length by another, over a byte stream that delivers nothing but a
    prefix of what was sent on it, is received unchanged whenever both report
    success. *)
Theorem send_recv_roundtrip (A B : Platform) b1 b2
    {SA : SocketLaws (PF := A) b1} {SB : SocketLaws (PF := B) b2}
    k1 k2 f1 f2 data len (s1 s1' s2 s2' : st TCPConnection) out :
  peer_sock (own s1) = Some k1 -> peer_sock (own s2) = Some k2 ->
  0 < len <= Z.of_nat (length data) -> len <= INT_MAX ->
  log s1 = [] -> log s2 = [] ->
  (Z.to_nat len + b1 <= f1)%nat -> (Z.to_nat len + b2 <= f2)%nat ->
  send (PF := A) (R := R) f1 data len s1 = (Val len, s1') ->
  recv (PF := B) (R := R) f2 len s2 = (Val (len, out), s2') ->
  received (log s2') `prefix_of` sent (log s1') ->
  out = take (Z.to_nat len) data.
Proof.
  intros Hk1 Hk2 Hl Hm L1 L2 F1 F2 Hsend Hrecv [rest Hp].
  pose proof (send_len_sent (R := R) b1 k1 f1 data len s1 s1' Hk1 Hl Hm
    ltac:(rewrite L1; cbn; lia) F1 Hsend) as Hs.
  pose proof (recv_len_received (R := R) b2 k2 f2 len out s2 s2' Hk2 ltac:(lia)
    ltac:(rewrite L2; cbn; lia) F2 Hrecv) as [Hr Hn].
  rewrite L1 in Hs. rewrite L2 in Hr. cbn [sent received app] in Hs, Hr.
  rewrite Hs, Hr in Hp. rewrite <- (take_app_length out rest), <- Hp, take_take.
  f_equal. lia.
Qed.

(** [init] of an INITIATOR always returns normally, with the socket as
    peer, after [socket], one [connect] to the configured address and, when that
    failed, one [close]; but what it returns on a failed [connect] is what
    [close] returned, so the caller sees 0 for a connection that does not
    exist. *)
Theorem init_initiator_result (s : st TCPConnection) :
  role (own s) = INITIATOR ->
  let p := world (log s) Sys_socket in
  let h := Sys_socket ~> p :: log s in
  let e := Sys_connect p (address (own s)) (u16 (port (own s))) in
  let r := world h e in
  let h' := e ~> r :: h in
  init (R := R) s =
    if r <? 0
    then (Val (world h' (Sys_close p)),
          mk_st (set_peer p (own s)) (heap s) (Sys_close p ~> world h' (Sys_close p) :: h'))
    else (Val 0, mk_st (set_peer p (own s)) (heap s) h').
Proof.
  intros Hr p h e r h'.
  apply wp_eq. unfold init. wp_steps. rewrite Hr.
  change (INITIATOR =? TARGET) with false. change (INITIATOR =? INITIATOR) with true. wp_steps.
  subst. cbn [address port set_peer]. fold p h e r.
  change (world (Sys_socket ~> p :: log s) e) with r.
  destruct (r <? 0); [| by wp_steps]. unfold init_failed, close. wp_steps. by subst.
Qed.

(** [init] of a freshly constructed TARGET whose [bind] or [listen] fails
    closes [peer_sock], which nothing has set: an indeterminate value is read
    and the listening socket is never closed. *)
Theorem init_target_failure (port : Z) hp h :
  let sock := world h Sys_socket in
  let h1 := Sys_socket ~> sock :: h in
  let eb := Sys_bind sock (u16 port) in
  let h2 := eb ~> world h1 eb :: h1 in
  world h1 eb <> 0 \/ world h2 (Sys_listen sock 5) <> 0 ->
  exists s', init (R := R) (mk_st (TCPConnection_server TARGET port) hp h) = (Stop UB_uninit, s') /\
    forall r, (Sys_close sock ~> r) ∈ log s' -> (Sys_close sock ~> r) ∈ h.
Proof.
  intros sock h1 eb h2 Hf.
  apply wp_ex. unfold init. wp_steps. change (role _ =? TARGET) with true. wp_steps. subst.
  fold sock. fold h1. change (world h1 (Sys_bind sock _)) with (world h1 eb).
  destruct (world h1 eb =? 0) eqn:E; cbn [negb]; bool_hyps.
  - destruct Hf as [Hf | Hf]; [done |]. wp_steps. subst. fold h2 in Hf |- *.
      change (world _ (Sys_listen sock 5)) with (world h2 (Sys_listen sock 5)).
      rewrite (proj2 (Z.eqb_neq _ 0) Hf). cbn [negb]. unfold init_failed, close. wp_steps.
      split; [done |]. intros r. cbn [log]. subst h1. rewrite !elem_of_cons. intros Hin.
    by repeat match type of Hin with _ \/ _ => destruct Hin as [Hin | Hin]; [discriminate |] end.
  - unfold init_failed, close. wp_steps. split; [done |].
    intros r. cbn [log]. subst h1. rewrite !elem_of_cons. intros Hin.
    by repeat match type of Hin with _ \/ _ => destruct Hin as [Hin | Hin]; [discriminate |] end.
Qed.
End theorems.

(** ** Instances *)

(** A kernel that interrupts the first call and then moves at most two bytes at
    a time; what there is to receive is [stream]. *)
Definition slow_kernel (stream : list byte) : Platform := platform_of (fun h e =>
  match e with
  | Sys_socket => 7
  | Sys_connect _ _ _ => -1
  | Sys_send _ bytes =>
      match h, bytes with
      | [], _ => (-1, 4)
      | _, [] => (-1, 0)
      | _, _ => (Z.min 2 (Z.of_nat (length bytes)), 0)
      end
  | Sys_recv _ len =>
      match h with
      | [] => (-1, 4, [])
      | _ => let got := take (Z.to_nat (Z.min 2 len)) (drop (length (received h)) stream) in
             (Z.of_nat (length got), 0, got)
      end
  | e => default_reply e
  end).

#[export] Instance slow_kernel_laws stream : SocketLaws (PF := slow_kernel stream) 1.
Proof.
  split.
  - intros [| x h] sock [| y bytes]; cbn; lia.
  - intros [| x h] sock len Hl; [cbn; lia |].
    cbn [slow_kernel platform_of world fst snd]. rewrite length_take. lia.
  - intros [| x h] e; [cbn; lia |]. intros H. exfalso. revert H.
    destruct e; cbn -[take drop received Z.min Z.of_nat Z.to_nat]; try discriminate.
    + destruct bytes as [| y bytes]; cbn -[Z.min Z.of_nat]; [discriminate |].
      rewrite (proj2 (Z.eqb_neq _ 0)) by lia. by rewrite (proj2 (Z.ltb_ge _ 0)) by lia.
    + by rewrite (proj2 (Z.ltb_ge _ 0)) by lia.
Qed.

Definition connected : st TCPConnection :=
  mk_st (set_peer 7 (TCPConnection_client INITIATOR "10.0.0.1" 4420)) heap_empty [].

Definition hello : list byte := [x68; x65; x6c; x6c; x6f].

Lemma send_sends_all_witness :
  exists (r : Z) s', send (PF := slow_kernel []) (R := Empty_set) 6 hello 5 connected = (Val r, s') /\
    own s' = own connected /\ heap s' = heap_empty /\
    exists n, sent (log s') = [] ++ take n hello /\
      (r = 5 /\ n = 5%nat \/ r = -1 /\ (n < 5)%nat).
Proof.
  exact (send_sends_all (PF := slow_kernel []) (R := Empty_set) 1 7 6 hello 5 connected
    eq_refl ltac:(cbn; lia) ltac:(done) ltac:(cbn; lia) ltac:(cbn; lia)).
Defined.

Lemma recv_stores_stream_witness :
  exists (r : Z) out s',
    recv (PF := slow_kernel hello) (R := Empty_set) 9 8 connected = (Val (r, out), s') /\
    own s' = own connected /\ heap s' = heap_empty /\
    received (log s') = [] ++ out /\
    Z.of_nat (length out) <= 8 /\
    (r = Z.of_nat (length out) \/ r = -1 /\ Z.of_nat (length out) < 8).
Proof.
  exact (recv_stores_stream (PF := slow_kernel hello) (R := Empty_set) 1 7 9 8 connected
    eq_refl ltac:(done) ltac:(cbn; lia) ltac:(cbn; lia)).
Defined.

Lemma send_recv_roundtrip_witness :
  exists out s1' s2',
    send (PF := slow_kernel []) (R := Empty_set) 6 hello 5 connected = (Val 5, s1') /\
    recv (PF := slow_kernel hello) (R := Empty_set) 6 5 connected = (Val (5, out), s2') /\
    out = take 5 hello.
Proof.
  eexists _, _, _. split; [vm_compute; reflexivity |]. split; [vm_compute; reflexivity |].
  eapply (send_recv_roundtrip (R := Empty_set) (slow_kernel []) (slow_kernel hello) 1 1 7 7 6 6
    hello 5 connected _ connected); try done; try (cbn; lia); try (vm_compute; reflexivity).
Defined.

Lemma init_initiator_result_witness :
  role (own connected) = INITIATOR /\
  exists s', init (PF := slow_kernel []) (R := Empty_set) connected = (Val 0, s').
Proof.
  split; [done |]. eexists.
  exact (init_initiator_result (PF := slow_kernel []) (R := Empty_set) connected eq_refl).
Defined.

(** A kernel on which the port is taken. *)
Definition port_taken : Platform := platform_of (fun _ e =>
  match e with
  | Sys_socket => 7
  | Sys_bind _ _ => -1
  | e => default_reply e
  end).

Lemma init_target_failure_witness :
  exists s', init (PF := port_taken) (R := Empty_set)
      (mk_st (TCPConnection_server TARGET 4420) heap_empty []) = (Stop UB_uninit, s') /\
    forall r, (Sys_close 7 ~> r) ∈ log s' -> (Sys_close 7 ~> r) ∈ ([] : history).
Proof.
  apply (init_target_failure (PF := port_taken) (R := Empty_set) 4420 heap_empty []).
  left. done.
Defined.
