(* ===== verification/AsyncServer.v ===== *)
(** * The asynchronous block server (class [GRPCAsyncServer] of src/src/net.h)

    A call in progress is a [CallData] object, known to the completion queue by
    its address ([tag]).  The daemon thread of an [RPCHandler] takes completed
    operations off the queue one at a time and runs [proceed] of the object the
    tag points to; [main] only waits, so the daemon is the one thread that
    changes the state. *)

From S2P Require Import Prelude Proto Env Nvme BlockServer.

Inductive CallStatus := CREATE | PROCESS | FINISH.

#[export] Instance CallStatus_eq_dec : EqDecision CallStatus.
Proof. solve_decision. Defined.

(** The class of an object, that is, which [proceed] its vtable holds. *)
Inductive call_class := WriteBlockCallData | ReadBlockCallData | GetStatCallData | ResetStatCallData.

#[export] Instance call_class_eq_dec : EqDecision call_class.
Proof. solve_decision. Defined.

Record CallData := mk_call {
  class_of : call_class;
  status : CallStatus;
  request : BlockRequest;
}.

(** [std::unique_ptr<RPCHandler<...>>] that is not null: whether [exec] has
    started its daemon. *)
Record RPCHandler := mk_handler { daemon : bool }.

Record async := mk_async {
  dev : blk;                   (* address, blk_fd, config, times, static args *)
  calls : gmap nat CallData;   (* the objects that are alive *)
  next_call : nat;
  server : bool;               (* [server] is not null *)
  write_block_handler : option RPCHandler;
  read_block_handler : option RPCHandler;
  get_stat_handler : option RPCHandler;
  reset_stat_handler : option RPCHandler;
}.

Definition with_calls (f : gmap nat CallData -> gmap nat CallData) (a : async) : async :=
  mk_async (dev a) (f (calls a)) (next_call a) (server a) (write_block_handler a)
    (read_block_handler a) (get_stat_handler a) (reset_stat_handler a).

Definition with_dev (d : blk) (a : async) : async :=
  mk_async d (calls a) (next_call a) (server a) (write_block_handler a)
    (read_block_handler a) (get_stat_handler a) (reset_stat_handler a).

Definition set_status (t : nat) (x : CallStatus) : async -> async :=
  with_calls (alter (fun c => mk_call (class_of c) x (request c)) t).

(** gRPC stores the message it read in the object's [request]. *)
Definition set_request (t : nat) (r : option BlockRequest) : async -> async :=
  match r with
  | None => fun a => a
  | Some r => with_calls (alter (fun c => mk_call (class_of c) (status c) r) t)
  end.

Definition BlockRequest_default : BlockRequest :=
  {| br_size := 0; br_start_block := 0; br_data := [] |}.

Section AsyncServer.
Context {PF : Platform}.

Definition construct {P R} (addr : string) (port : Z) (blk_device : cstr)
  : M (st P) R async :=
  fd ← ext (Sys_open (cs_text blk_device) [O_RDWR; O_DIRECT]);
  let object g := mk_async (mk_blk g None None) ∅ 0 false None None None None in
  let no_config := config_uninit (mk_cstr 0 "") in
  if fd <? 0 then mret (object (mk_server addr port fd no_config 0 0 0))
  else
    '(_, c) ← init_device_config (config_uninit blk_device);
    mret (object (mk_server addr port fd c 0 0 0)).

(** The branch [CREATE] of both [proceed]s (a read also registers itself with
    [RequestWriteBlock]). *)
Definition proceed_CREATE {R} (t : nat) : M (st async) R () :=
  set_own (set_status t PROCESS);;
  ext (Grpc_request_write t).

(** [new T(server, service, cq)]: the constructor of a write and of a read runs
    [proceed] on the object it has just given status [CREATE]; that of the two
    others runs an empty function. *)
Definition new_CallData {R} (k : call_class) : M (st async) R nat :=
  t ← get_own next_call;
  set_own (fun a =>
    mk_async (dev a) (<[t := mk_call k CREATE BlockRequest_default]> (calls a)) (S t)
      (server a) (write_block_handler a) (read_block_handler a) (get_stat_handler a)
      (reset_stat_handler a));;
  match k with
  | WriteBlockCallData | ReadBlockCallData => proceed_CREATE t
  | GetStatCallData | ResetStatCallData => mret ()
  end;;
  mret t.

Definition delete_CallData {R} (t : nat) : M (st async) R () :=
  set_own (with_calls (delete t)).

(** [WriteBlockCallData::proceed]. *)
Definition proceed_Write {R} (t : nat) (c : CallData) : M (st async) R () :=
  match status c with
  | CREATE => proceed_CREATE t
  | PROCESS =>
      _ ← new_CallData WriteBlockCallData;
      set_own (set_status t FINISH);;
      ext (Grpc_finish t OK {| end_block := 114514 |})
  | FINISH => delete_CallData t
  end.

(** [ReadBlockCallData::proceed]: its work on the device is that of
    [GRPCSyncServer::ReadBlock], with a static [args] of its own. *)
Definition proceed_Read {R} (t : nat) (c : CallData) : M (st async) R () :=
  match status c with
  | CREATE => proceed_CREATE t
  | PROCESS =>
      _ ← new_CallData WriteBlockCallData;
      '(st, reply) ← zoom dev with_dev (handle Read (request c));
      set_own (set_status t FINISH);;
      ext (Grpc_finish t st reply)
  | FINISH => delete_CallData t
  end.

(** The virtual call [tag->proceed()]. *)
Definition proceed {R} (t : nat) : M (st async) R () :=
  a ← get_own (fun a => a);
  match calls a !! t with
  | None => stop_ UB_badptr
  | Some c =>
      match class_of c with
      | WriteBlockCallData => proceed_Write t c
      | ReadBlockCallData => proceed_Read t c
      | GetStatCallData | ResetStatCallData => mret ()
      end
  end.

(** One round of the daemon's [while (true)]. *)
Definition daemon_step {R} : M (st async) R () :=
  n ← ext Cq_next;
  match n with
  | None => stop_ Gpr_abort                        (* GPR_ASSERT(cq->Next(...)) *)
  | Some (t, ok, r) =>
      if negb ok then stop_ Gpr_abort              (* GPR_ASSERT(ok) *)
      else set_own (set_request t r);; proceed t
  end.

(** The loop has no exit; [fuel] counts completions. *)
Fixpoint daemon_loop {R} (fuel : nat) : M (st async) R () :=
  match fuel with
  | O => nofuel
  | S fuel => daemon_step;; daemon_loop fuel
  end.

(** [RPCHandler<K>::exec], the body of its thread. *)
Definition exec {R} (k : call_class) (fuel : nat) : M (st async) R () :=
  _ ← new_CallData k;
  daemon_loop fuel.

(** [RPCHandler::shutdown] through a [unique_ptr]; [join] runs the daemon to
    its end. *)
Definition shutdown {R} (h : option RPCHandler) (fuel : nat) : M (st async) R () :=
  match h with
  | None => stop_ UB_null
  | Some h => ext Cq_shutdown;; when (daemon h) (daemon_loop fuel)
  end.

Definition run {R} (fuel : nat) : M (st async) R () :=
  a ← get_own (fun a => a);
  let g := this (dev a) in
  ext (Grpc_serve (address g +:+ ":" +:+ pretty (port g))%string);;
  set_own (fun a =>
    mk_async (dev a) (calls a) (next_call a) true (Some (mk_handler true))
      (read_block_handler a) (get_stat_handler a) (reset_stat_handler a));;
  exec WriteBlockCallData fuel.

Definition destroy {R} (fuel : nat) : M (st async) R () :=
  a ← get_own (fun a => a);
  if negb (server a) then stop_ UB_null
  else
    ext Grpc_shutdown;;
    shutdown (write_block_handler a) fuel;;
    shutdown (read_block_handler a) fuel;;
    shutdown (get_stat_handler a) fuel;;
    shutdown (reset_stat_handler a) fuel.
End AsyncServer.

(** ** What is pending at the completion queue *)

Inductive pend := Request_op | Finish_op.

#[export] Instance pend_eq_dec : EqDecision pend.
Proof. solve_decision. Defined.

Fixpoint pending (h : history) : gmap nat pend :=
  match h with
  | [] => ∅
  | existT e r :: h =>
      match e as e' return reply e' -> gmap nat pend with
      | Grpc_request_write t => fun _ => <[t := Request_op]> (pending h)
      | Grpc_finish t _ _ => fun _ => <[t := Finish_op]> (pending h)
      | Cq_next => fun r => match r with
                            | Some (t, _, _) => delete t (pending h)
                            | None => pending h
                            end
      | _ => fun _ => pending h
      end r
  end.

(** The answers that were sent, newest first, and the number of requests that
    arrived. *)
Definition answer_of (e : entry) : option (Status * BlockReply) :=
  match e with
  | existT (Grpc_finish _ st r) _ => Some (st, r)
  | _ => None
  end.
Definition answers (h : history) : list (Status * BlockReply) := omap answer_of h.

Definition arrival_of (e : entry) : option BlockRequest :=
  match e with
  | existT Cq_next (Some (_, _, r)) => r
  | _ => None
  end.
Definition arrivals (h : history) : list BlockRequest := omap arrival_of h.

Definition is_shutdown (e : entry) : bool :=
  match e with existT Grpc_shutdown _ => true | _ => false end.
Definition shut (h : history) : bool := existsb is_shutdown h.

(** The operations that completed without [ok], by their tags. *)
Definition failure_of (e : entry) : option nat :=
  match e with
  | existT Cq_next (Some (t, false, _)) => Some t
  | _ => None
  end.
Definition failures (h : history) : list nat := omap failure_of h.

(** The completion queue as gRPC documents it: [Next] returns the tag of one of
    the pending operations.  A request completes with [ok], and brings its
    message, unless the server has been shut down.  The sending of an answer
    completes with [ok] or without: without where the call is already dead, that
    is cancelled by the client or past its deadline. *)
Class QueueLaws {PF : Platform} : Prop := {
  next_pending : forall h, pending h <> ∅ ->
    exists t p ok r,
      pending h !! t = Some p /\ world h Cq_next = Some (t, ok, r) /\
      match p with
      | Request_op => ok = negb (shut h) /\ (shut h = false -> is_Some r)
      | Finish_op => r = None
      end;
}.

(** ** Statements that leave the queue alone *)

Definition quiet (e : entry) : bool :=
  match projT1 e with
  | Grpc_request_write _ | Grpc_finish _ _ _ | Grpc_shutdown | Cq_next | Cq_shutdown => false
  | _ => true
  end.

Definition ended {R A} (o : outcome R A) : Prop :=
  match o with Val _ | Stop _ => True | Ret _ | NoFuel => False end.

(** [emits n m]: [m] ends, makes no call that concerns the queue and gives the
    device at most [n] commands. *)
Definition emits {P R A} (n : nat) (m : M (st P) R A) : Prop := forall s,
  wp m (fun o s' => ended o /\ exists l, log s' = l ++ log s /\
          Forall quiet l /\ (length (commands l) <= n)%nat) s.

Section emits.
Context {PF : Platform} {P R : Type}.

Lemma emits_silent {A} (m : M (st P) R A) :
  (forall s, wp m (fun o s' => ended o /\ log s' = log s) s) -> emits 0 m.
Proof.
  intros H s. eapply wp_mono; [| apply H]. intros o s' [H1 H2]. split; [done |].
  exists []. cbn. rewrite H2. auto.
Qed.

Lemma emits_bind {A B} n k (m : M (st P) R A) (f : A -> M (st P) R B) :
  emits n m -> (forall a, emits k (f a)) -> emits (n + k) (m ≫= f).
Proof.
  intros Hm Hf s. apply wp_bind. eapply wp_mono; [| apply Hm].
  intros o s1 (Ho & l & E & Hq & Hl). destruct o as [a | r | u |];
    [| done | by split; [| exists l; split_and!; [| | lia]] | done].
  eapply wp_mono; [| apply Hf]. intros o s2 (Ho2 & l2 & E2 & Hq2 & Hl2).
  split; [done |]. exists (l2 ++ l). rewrite E2, E, app_assoc. split; [done |].
  split; [by apply Forall_app |]. unfold commands in *. rewrite omap_app, length_app. lia.
Qed.

Lemma emits_ext e n :
  (forall r, quiet (e ~> r)) -> (forall r, (length (commands [e ~> r]) <= n)%nat) ->
  emits n (ext (P := P) (R := R) e).
Proof.
  intros Hq Hn s. apply wp_ext. intros r _. cbn [log]. split; [done |].
  exists [e ~> r]. auto.
Qed.

Lemma emits_mret {A} (a : A) : emits 0 (mret a : M (st P) R A).
Proof. by apply emits_silent. Qed.
Lemma emits_stop {A} u : emits 0 (stop_ u : M (st P) R A).
Proof. by apply emits_silent. Qed.
Lemma emits_get {A} (f : P -> A) : emits 0 (get_own f : M (st P) R A).
Proof. by apply emits_silent. Qed.
Lemma emits_set (f : P -> P) : emits 0 (set_own f : M (st P) R ()).
Proof. by apply emits_silent. Qed.
Lemma emits_with_heap f : emits 0 (with_heap f : M (st P) R ()).
Proof. by apply emits_silent. Qed.
Lemma emits_read_init {A} (o : option A) : emits 0 (read_init o : M (st P) R A).
Proof. destruct o; [apply emits_mret | apply emits_stop]. Qed.
Lemma emits_int_ret z : emits 0 (int_ret z : M (st P) R Z).
Proof. unfold int_ret. destruct (in_int z); [apply emits_mret | apply emits_stop]. Qed.
Lemma emits_int_div a b : emits 0 (int_div a b : M (st P) R Z).
Proof. unfold int_div. destruct (b =? 0); [apply emits_stop | apply emits_int_ret]. Qed.
Lemma emits_int_rem a b : emits 0 (int_rem a b : M (st P) R Z).
Proof.
  unfold int_rem. destruct (b =? 0); [apply emits_stop |].
  destruct (_ && _); [apply emits_stop | apply emits_mret].
Qed.
Lemma emits_block_at p : emits 0 (block_at p : M (st P) R _).
Proof.
  apply emits_silent. intros s. unfold wp, block_at.
  destruct p as [l |]; [destruct (blocks (heap s) !! l) |]; done.
Qed.
Lemma emits_fresh n : emits 0 (fresh_block n : M (st P) R _).
Proof. by apply emits_silent. Qed.
End emits.

Create HintDb emits.
#[export] Hint Resolve emits_mret emits_stop emits_get emits_set emits_with_heap emits_read_init
  emits_int_ret emits_int_div emits_int_rem emits_block_at emits_fresh : emits.
#[export] Hint Extern 1 (emits ?n (ext ?e)) =>
  (refine (emits_ext e n _ _); [intros; exact I | intros; cbn; lia]) : emits.

(** A statement that is written out and gives the device nothing. *)
Ltac emits0 :=
  repeat match goal with
  | |- emits 0 (match ?x with _ => _ end) => destruct x
  | |- emits 0 (if ?x then _ else _) => destruct x
  | |- emits 0 (_ ≫= _) => apply (emits_bind 0 0); [| intros ?; cbn beta iota zeta]
  | |- emits 0 _ => solve [auto with emits]
  end.

Section device.
Context {PF : Platform} {R : Type}.

Lemma emits_geometry size lbs : emits 0 (io_geometry (R := R) (S := st blk) size lbs).
Proof. unfold io_geometry. emits0. Qed.

Lemma emits_get_args o : emits 0 (get_args (R := R) o).
Proof. unfold get_args. emits0. Qed.
Hint Resolve emits_geometry emits_get_args : emits.

Lemma emits_prepare o r : emits 0 (prepare (R := R) o r).
Proof. unfold prepare, static_args. emits0. Qed.

Lemma emits_fill o r n : emits 0 (fill (R := R) o r n).
Proof. unfold fill, new_array, memcpy. cbn zeta. emits0.
Qed.

Lemma emits_submit o : emits 1 (submit (R := R) o).
Proof.
  unfold submit.
  apply (emits_bind 0 1); [auto with emits | intros start].
  apply (emits_bind 0 1); [auto with emits | intros a].
  apply (emits_bind 0 1); [auto with emits | intros [l b]].
  apply (emits_bind 1 0); [| intros; emits0].
  destruct o; [apply (emits_bind 1 0); [| intros []; emits0] |]; auto with emits.
Qed.

Lemma emits_finish o r t err : emits 0 (finish (R := R) o r t err).
Proof. unfold finish, release. emits0. Qed.

(** A handler gives the device at most one command. *)
Lemma emits_handle o r : emits 1 (handle (R := R) o r).
Proof.
  unfold handle.
  apply (emits_bind 0 1); [apply emits_prepare | intros [t n]].
  apply (emits_bind 0 1); [apply emits_fill | intros _].
  apply (emits_bind 1 0); [apply emits_submit | intros err; apply emits_finish].
Qed.
End device.

(** ** The invariant of the daemon *)

Definition pend_of (c : CallData) : pend :=
  match status c with FINISH => Finish_op | _ => Request_op end.

Definition served (k : call_class) : Prop := k = WriteBlockCallData \/ k = ReadBlockCallData.

(** Each live object has one operation pending and no other is pending; one
    object, of class [k], waits for a request and the others for their answer to
    have been sent. *)
Record inv (sd : bool) (k : call_class) (m : gmap nat CallData) (n : nat) (h : history) : Prop := {
  inv_pending : pending h = pend_of <$> m;
  inv_shut : shut h = sd;
  inv_fresh : forall t, (n <= t)%nat -> m !! t = None;
  inv_wait : exists w r, m !! w = Some (mk_call k PROCESS r) /\
    forall t c, t <> w -> m !! t = Some c -> status c = FINISH /\ served (class_of c);
}.

Lemma pending_quiet l h : Forall quiet l -> pending (l ++ h) = pending h.
Proof. induction 1 as [| [e r] l H _ IH]; [done |]. destruct e; try done; exact IH. Qed.
Lemma answers_quiet l h : Forall quiet l -> answers (l ++ h) = answers h.
Proof. induction 1 as [| [e r] l H _ IH]; [done |]. destruct e; try done; exact IH. Qed.
Lemma arrivals_quiet l h : Forall quiet l -> arrivals (l ++ h) = arrivals h.
Proof. induction 1 as [| [e r] l H _ IH]; [done |]. destruct e; try done; exact IH. Qed.
Lemma failures_quiet l h : Forall quiet l -> failures (l ++ h) = failures h.
Proof. induction 1 as [| [e r] l H _ IH]; [done |]. destruct e; try done; exact IH. Qed.
Lemma shut_quiet l h : Forall quiet l -> shut (l ++ h) = shut h.
Proof. induction 1 as [| [e r] l H _ IH]; [done |]. destruct e; try done; exact IH. Qed.

(** The objects after a request [r] for [t] was taken: its answer is under way
    and [n] waits for the next one. *)
Definition taken (t n : nat) (k : call_class) (r : BlockRequest) (m : gmap nat CallData) :=
  <[t := mk_call k FINISH r]> (<[n := mk_call WriteBlockCallData PROCESS BlockRequest_default]> m).

Section invariant.
Context (sd : bool) (k : call_class) (m : gmap nat CallData) (n : nat) (h : history).
Hypothesis I : inv sd k m n h.

Lemma inv_known t p : pending h !! t = Some p -> exists c, m !! t = Some c /\ p = pend_of c.
Proof. rewrite (inv_pending _ _ _ _ _ I), lookup_fmap_Some. intros (c & <- & H). eauto. Qed.

Lemma inv_busy : pending h <> ∅.
Proof.
  destruct (inv_wait _ _ _ _ _ I) as (w & r & Hw & _). rewrite (inv_pending _ _ _ _ _ I).
  intros E%fmap_empty_inv. by rewrite E in Hw.
Qed.

(** Taking a request. *)
Lemma inv_taken t r0 r l st rep u1 u2 :
  served k -> m !! t = Some (mk_call k PROCESS r0) -> Forall quiet l ->
  inv sd WriteBlockCallData (taken t n k r m) (S n)
    (Grpc_finish t st rep ~> u1 :: l ++ Grpc_request_write n ~> u2 ::
     Cq_next ~> Some (t, true, Some r) :: h).
Proof.
  intros Hk Ht Hl. assert (m !! n = None) as Hn by (apply (inv_fresh _ _ _ _ _ I); lia).
  assert (t <> n) as Htn by congruence.
  split.
  - cbn. rewrite pending_quiet by done. cbn. rewrite (inv_pending _ _ _ _ _ I).
    apply map_eq. intros i. unfold taken. rewrite lookup_fmap.
    destruct (decide (i = t)) as [-> |]; [by simplify_map_eq |].
    destruct (decide (i = n)) as [-> |]; [by simplify_map_eq |].
    by rewrite !lookup_insert_ne, lookup_delete_ne, lookup_fmap by done.
  - change (shut (l ++ Grpc_request_write n ~> u2 ::
                  Cq_next ~> Some (t, true, Some r) :: h) = sd).
    rewrite shut_quiet by done. exact (inv_shut _ _ _ _ _ I).
  - intros i Hi. unfold taken. assert (i <> t).
    { intros ->. rewrite (inv_fresh _ _ _ _ _ I) in Ht by lia. done. }
    rewrite !lookup_insert_ne by lia. apply (inv_fresh _ _ _ _ _ I). lia.
  - exists n, BlockRequest_default. unfold taken. rewrite lookup_insert_ne by done.
    rewrite lookup_insert_eq. split; [done |]. intros i c Hi.
    destruct (decide (i = t)) as [-> |]; [rewrite lookup_insert_eq; by intros [= <-] |].
    rewrite !lookup_insert_ne by done. intros Hc.
    destruct (inv_wait _ _ _ _ _ I) as (w & r' & Hw & Hrest).
    apply (Hrest i c); [| done]. intros ->.
    destruct (decide (t = w)) as [-> | Hne]; [done |].
    destruct (Hrest t _ Hne Ht) as [[=] _].
Qed.

(** Retiring an object whose answer has been sent. *)
Lemma inv_retired t c :
  m !! t = Some c -> status c = FINISH ->
  inv sd k (delete t m) n (Cq_next ~> Some (t, true, None) :: h).
Proof.
  intros Ht Hc. split.
  - cbn. by rewrite (inv_pending _ _ _ _ _ I), fmap_delete.
  - exact (inv_shut _ _ _ _ _ I).
  - intros i Hi. apply lookup_delete_None. right. by apply (inv_fresh _ _ _ _ _ I).
  - destruct (inv_wait _ _ _ _ _ I) as (w & r & Hw & Hrest). exists w, r.
    assert (t <> w) by (intros ->; rewrite Ht in Hw; by simplify_eq).
    rewrite lookup_delete_ne by done. split; [done |].
    intros i c' Hi [_ Hc']%lookup_delete_Some. by eapply Hrest.
Qed.
End invariant.

(** [taken] is what the assignments of a [proceed] make. *)
Lemma taken_eq t n k r r0 (m : gmap nat CallData) :
  m !! t = Some (mk_call k PROCESS r0) -> t <> n ->
  alter (fun c => mk_call (class_of c) FINISH (request c)) t
    (alter (fun c => mk_call (class_of c) PROCESS (request c)) n
      (<[n := mk_call WriteBlockCallData CREATE BlockRequest_default]>
        (alter (fun c => mk_call (class_of c) (status c) r) t m))) = taken t n k r m.
Proof.
  intros Ht Hn. apply map_eq. intros i. unfold taken.
  destruct (decide (i = t)) as [-> | Hit];
    [rewrite lookup_alter_eq, lookup_alter_ne, lookup_insert_ne, lookup_alter_eq, lookup_insert_eq, Ht
       by done; done |].
  rewrite lookup_alter_ne by done.
  destruct (decide (i = n)) as [-> | Hin];
    [by rewrite lookup_alter_eq, lookup_insert_eq, lookup_insert_ne, lookup_insert_eq by done |].
  by rewrite lookup_alter_ne, !lookup_insert_ne, lookup_alter_ne by done.
Qed.

Section step.
Context {PF : Platform} {QL : QueueLaws} {R : Type}.

(** What one round of the daemon does to the objects [m], the next address [n]
    and the history [h]. *)
Definition round (k : call_class) (m : gmap nat CallData) (n : nat) (h : history)
    (o : outcome R ()) (s' : st async) : Prop :=
  match o with
  | Val _ => failures (log s') = failures h /\
      ((exists t c, m !! t = Some c /\ status c = FINISH /\
         inv false k (calls (own s')) (next_call (own s')) (log s') /\
         calls (own s') = delete t m /\
         answers (log s') = answers h /\ arrivals (log s') = arrivals h /\
         commands (log s') = commands h) \/
      (exists t r0 r x, m !! t = Some (mk_call k PROCESS r0) /\
         inv false WriteBlockCallData (calls (own s')) (next_call (own s')) (log s') /\
         calls (own s') = taken t n k r m /\
         answers (log s') = x :: answers h /\ arrivals (log s') = r :: arrivals h /\
         (k = WriteBlockCallData ->
            x = (OK, {| end_block := 114514 |}) /\ commands (log s') = commands h) /\
         (length (commands (log s')) <= 1 + length (commands h))%nat))
  | Stop u =>
      u = Gpr_abort /\ m = calls (own s') /\ n = next_call (own s') /\
        (exists t c, m !! t = Some c /\ status c = FINISH /\ log s' = Cq_next ~> Some (t, false, None) :: h) \/
      k = ReadBlockCallData /\ (length (commands (log s')) <= 1 + length (commands h))%nat
  | _ => False
  end.

Lemma commands_app l h : commands (l ++ h) = commands l ++ commands h.
Proof. apply omap_app. Qed.
Lemma answers_finish t st r u h : answers (Grpc_finish t st r ~> u :: h) = (st, r) :: answers h.
Proof. done. Qed.
Lemma arrivals_finish t st r u h : arrivals (Grpc_finish t st r ~> u :: h) = arrivals h.
Proof. done. Qed.
Lemma commands_finish t st r u h : commands (Grpc_finish t st r ~> u :: h) = commands h.
Proof. done. Qed.

Lemma commands_next x h : commands (Cq_next ~> x :: h) = commands h.
Proof. done. Qed.

(** Taking a request, by a write object and by a read object. *)
Lemma round_write t r0 r (s : st async) :
  inv false WriteBlockCallData (calls (own s)) (next_call (own s)) (log s) ->
  calls (own s) !! t = Some (mk_call WriteBlockCallData PROCESS r0) ->
  wp (set_own (set_request t (Some r));; proceed t)
    (round WriteBlockCallData (calls (own s)) (next_call (own s)) (log s))
    (mk_st (own s) (heap s) (Cq_next ~> Some (t, true, Some r) :: log s)).
Proof.
  intros I Ht. pose proof (inv_fresh _ _ _ _ _ I (next_call (own s)) ltac:(lia)) as Hn.
  assert (t <> next_call (own s)) as Htn by congruence.
  wp_steps. unfold proceed. wp_steps. cbn [calls set_request with_calls].
  rewrite lookup_alter_eq, Ht. cbn [fmap option_fmap option_map class_of status].
  unfold proceed_Write. cbn [status]. unfold new_CallData, proceed_CREATE. wp_steps.
  split; [done |]. right. exists t, r0, r, (OK, {| end_block := 114514 |}). cbn [own calls next_call log set_status with_calls
    set_request]. rewrite (taken_eq t _ _ r _ _ Ht Htn). split; [done |].
  split; [by eapply (inv_taken _ _ _ _ _ I t r0 r []); [left | |] |].
  split_and!; try done. exact (Nat.le_succ_diag_r _).
Qed.

Lemma round_read t r0 r (s : st async) :
  inv false ReadBlockCallData (calls (own s)) (next_call (own s)) (log s) ->
  calls (own s) !! t = Some (mk_call ReadBlockCallData PROCESS r0) ->
  wp (set_own (set_request t (Some r));; proceed t)
    (round ReadBlockCallData (calls (own s)) (next_call (own s)) (log s))
    (mk_st (own s) (heap s) (Cq_next ~> Some (t, true, Some r) :: log s)).
Proof.
  intros I Ht. pose proof (inv_fresh _ _ _ _ _ I (next_call (own s)) ltac:(lia)) as Hn.
  assert (t <> next_call (own s)) as Htn by congruence.
  wp_steps. unfold proceed. wp_steps. cbn [calls set_request with_calls].
  rewrite lookup_alter_eq, Ht. cbn [fmap option_fmap option_map class_of status].
  unfold proceed_Read. cbn [status request]. unfold new_CallData, proceed_CREATE. wp_steps.
  apply wp_zoom. eapply wp_mono; [| apply (emits_handle (R := R) Read r)].
  cbn [own heap log]. intros o s' (Ho & l & El & Hq & Hl).
  assert (length (commands (log s')) <= 1 + length (commands (log s)))%nat as Hc
    by (rewrite El, commands_app, length_app; by apply Nat.add_le_mono).
  destruct o as [[sta rep] | | |]; [| done | by cbn; auto | done].
  wp_steps. split; [change (failures (log s') = failures (log s)); by rewrite El, failures_quiet |].
  right. exists t, r0, r, (sta, rep).
  cbn [own calls next_call log set_status with_calls with_dev set_request].
  rewrite (taken_eq t _ _ r _ _ Ht Htn), answers_finish, arrivals_finish, commands_finish.
  split; [done |]. rewrite El, answers_quiet, arrivals_quiet by done.
  split; [by eapply inv_taken; [| right | |] |].
  split_and!; try done. rewrite <- El. exact Hc.
Qed.

Lemma round_retire sd k t c (s : st async) (Q : outcome R () -> st async -> Prop) :
  inv sd k (calls (own s)) (next_call (own s)) (log s) -> served k ->
  calls (own s) !! t = Some c -> status c = FINISH ->
  (forall s', calls (own s') = delete t (calls (own s)) ->
     inv sd k (calls (own s')) (next_call (own s')) (log s') ->
     log s' = Cq_next ~> Some (t, true, None) :: log s -> Q (Val ()) s') ->
  wp (set_own (set_request t None);; proceed t) Q
    (mk_st (own s) (heap s) (Cq_next ~> Some (t, true, None) :: log s)).
Proof.
  intros I Hk Ht Hc HQ. wp_steps. unfold proceed. wp_steps. cbn [set_request]. rewrite Ht.
  assert (served (class_of c)) as [E | E].
  { destruct (inv_wait _ _ _ _ _ I) as (w & r & Hw & Hrest).
    destruct (decide (t = w)) as [-> |]; [by simplify_map_eq | by eapply Hrest]. }
  all: rewrite E; unfold proceed_Write, proceed_Read, delete_CallData; rewrite Hc; wp_steps;
    apply HQ; cbn [own log with_calls calls next_call]; [done | | done];
    by eapply inv_retired.
Qed.

Lemma daemon_step_spec k (s : st async) :
  served k -> inv false k (calls (own s)) (next_call (own s)) (log s) ->
  wp (daemon_step (R := R)) (round k (calls (own s)) (next_call (own s)) (log s)) s.
Proof.
  intros Hk I. destruct (next_pending (log s) (inv_busy _ _ _ _ _ I)) as (t & p & ok & r & Hp & Hn & Hr).
  rewrite (inv_shut _ _ _ _ _ I) in Hr. cbn [negb] in Hr.
  destruct (inv_known _ _ _ _ _ I t p Hp) as (c & Hc & ->).
  unfold daemon_step. apply wp_bind, (wp_ext Cq_next). rewrite Hn. intros _ ->. cbn beta iota.
  destruct (status c) eqn:Es; unfold pend_of in Hr; rewrite Es in Hr.
  3: { subst r. destruct ok; cbn [negb]; [| apply wp_stop; left; by eauto 10].
       apply (round_retire false k t c); [exact I | exact Hk | exact Hc | exact Es |].
       intros s' E1 I' E2. unfold round. rewrite E2 in I' |- *. split; [done |]. left. exists t, c. done. }
  all: destruct Hr as [-> Hr]; cbn [negb].
  all: destruct (inv_wait _ _ _ _ _ I) as (w & r0 & Hw & Hrest);
    destruct (decide (t = w)) as [-> | Hne];
    [| destruct (Hrest t c Hne Hc) as [E _]; congruence];
    rewrite Hw in Hc; injection Hc as <-; try discriminate.
  destruct (Hr eq_refl) as [r' ->].
  destruct Hk as [-> | ->]; [by eapply round_write | by eapply round_read].
Qed.

(** The first object of a handler. *)
Lemma new_CallData_inv k (s : st async) (Q : outcome R nat -> st async -> Prop) :
  served k -> calls (own s) = ∅ -> pending (log s) = ∅ -> shut (log s) = false ->
  (forall t s', size (calls (own s')) = 1%nat ->
     inv false k (calls (own s')) (next_call (own s')) (log s') ->
     log s' = Grpc_request_write t ~> tt :: log s -> Q (Val t) s') ->
  wp (new_CallData (R := R) k) Q s.
Proof.
  intros Hk Hc Hp Hs HQ. unfold new_CallData, proceed_CREATE. wp_steps.
  assert (forall (x : call_class) (A : Type) (a b : A), served x ->
    match x with WriteBlockCallData | ReadBlockCallData => a | _ => b end = a) as Hm
    by (intros ???? [-> | ->]; done).
  rewrite Hm by done. wp_steps. destruct r. apply HQ; cbn [own calls next_call log set_status with_calls].
  all: rewrite ?Hc, ?insert_empty, ?alter_singleton_eq; try done.
  - apply map_size_singleton.
  - split.
    + cbn. by rewrite Hp, insert_empty, map_fmap_singleton.
    + exact Hs.
    + intros t Ht. apply lookup_singleton_ne. lia.
    + exists (next_call (own s)), BlockRequest_default. split; [apply lookup_singleton_eq |].
      intros t c Hne. rewrite lookup_singleton_ne by done. done.
Qed.
End step.

(** The daemon of a write handler from any of its rounds: [n] requests arrived
    and were answered, no operation failed. *)
Definition served_all (n : nat) (s s' : st async) : Prop :=
  inv false WriteBlockCallData (calls (own s')) (next_call (own s')) (log s') /\
  answers (log s') = replicate n (OK, {| end_block := 114514 |}) ++ answers (log s) /\
  length (arrivals (log s')) = (n + length (arrivals (log s)))%nat /\
  commands (log s') = commands (log s) /\ failures (log s') = failures (log s).

(** So it was until the answer to a call turned out to have failed. *)
Definition served_until_failure (n : nat) (s s' : st async) : Prop :=
  exists t c l, log s' = Cq_next ~> Some (t, false, None) :: l /\
    calls (own s') !! t = Some c /\ status c = FINISH /\
    served_all n s (mk_st (own s') (heap s') l).

Section loops.
Context {PF : Platform} {QL : QueueLaws} {R : Type}.

Lemma size_taken k sd m n h t r0 r :
  inv sd k m n h -> m !! t = Some (mk_call k PROCESS r0) -> size (taken t n k r m) = S (size m).
Proof.
  intros I Ht. unfold taken. assert (m !! n = None) by (apply (inv_fresh _ _ _ _ _ I); lia).
  rewrite map_size_insert_Some; [by rewrite map_size_insert_None |].
  rewrite lookup_insert_ne by congruence. by eexists.
Qed.

Lemma served_all_trans n1 n2 s1 s2 s3 :
  served_all n1 s1 s2 -> served_all n2 s2 s3 -> served_all (n2 + n1) s1 s3.
Proof.
  intros (_ & A1 & A2 & A3 & A4) (B0 & B1 & B2 & B3 & B4). split; [done |].
  rewrite B1, A1, B2, A2, B3, A3, B4, A4, replicate_add, <- app_assoc. split_and!; try done. lia.
Qed.

(** One round, seen from outside. *)
Lemma write_round (s : st async) :
  inv false WriteBlockCallData (calls (own s)) (next_call (own s)) (log s) ->
  wp (daemon_step (R := R)) (fun o s' => match o with
    | Val _ => exists k, served_all k s s' /\
        (size (calls (own s')) + 1 = size (calls (own s)) + 2 * k)%nat
    | Stop u => u = Gpr_abort /\ served_until_failure 0 s s'
    | _ => False
    end) s.
Proof.
  intros I. eapply wp_mono; [| apply (daemon_step_spec (R := R) _ s (or_introl eq_refl) I)].
  intros [[] | | u |] s' H; cbn in H; [| done | | done].
  - destruct H as (Hx & [(t & c & Ht & Hc & I1 & E1 & Ha & Hr & Hm) |
                 (t & r0 & r & x & Ht & I1 & E1 & Ha & Hr & Hw & _)]).
    + exists O. split; [by unfold served_all; rewrite Ha, Hr, Hm, Hx |]. rewrite E1.
      pose proof (map_size_delete_Some t (calls (own s)) (ex_intro _ _ Ht)).
      assert (size (calls (own s)) <> 0%nat) by (apply map_size_ne_0_lookup; by exists t, c). lia.
    + exists 1%nat. destruct (Hw eq_refl) as [-> Hm]. split; [by unfold served_all; rewrite Ha, Hr, Hm, Hx |].
      rewrite E1, (size_taken _ _ _ _ _ _ _ _ I Ht). lia.
  - destruct H as [(-> & E1 & E2 & t & c & Ht & Hc & El) | [H _]]; [| done].
    split; [done |]. exists t, c, (log s). rewrite <- E1. unfold served_all. cbn [own log]. by rewrite <- E1, <- E2.
Qed.

Lemma write_loop fuel (s : st async) :
  inv false WriteBlockCallData (calls (own s)) (next_call (own s)) (log s) ->
  wp (daemon_loop (R := R) fuel) (fun o s' => exists n,
    o = NoFuel /\ served_all n s s' /\ (size (calls (own s')) + fuel = size (calls (own s)) + 2 * n)%nat \/
    o = Stop Gpr_abort /\ served_until_failure n s s') s.
Proof.
  revert s. induction fuel as [| fuel IH]; intros s I; cbn [daemon_loop].
  { apply wp_nofuel. exists 0%nat. left. unfold served_all. split_and!; [done.. | lia]. }
  apply wp_bind. eapply wp_mono; [| by apply write_round]. intros [[] | | u |] s1 H; [| done | | done].
  - destruct H as (k & H1 & Hsz). eapply wp_mono; [| apply IH, H1]. intros o s' (n & [(-> & H2 & Hsz') | [-> H2]]).
    + exists (n + k)%nat. left. split; [done |]. split; [by eapply served_all_trans | lia].
    + exists (n + k)%nat. right. split; [done |]. destruct H2 as (t & c & l & E & Ht & Hc & H2).
      exists t, c, l. split_and!; [done.. |]. by eapply served_all_trans.
  - destruct H as [-> H]. exists 0%nat. by right.
Qed.

(** The device commands of a handler, whatever its class. *)
Lemma loop_commands k fuel (s : st async) :
  served k -> inv false k (calls (own s)) (next_call (own s)) (log s) ->
  wp (daemon_loop (R := R) fuel) (fun _ s' =>
    length (commands (log s')) <= (if decide (k = ReadBlockCallData) then 1 else 0) +
      length (commands (log s)))%nat s.
Proof.
  revert k s. induction fuel as [| fuel IH]; intros k s Hk I; cbn [daemon_loop].
  { apply wp_nofuel. case_decide; lia. }
  apply wp_bind. eapply wp_mono; [| by apply (daemon_step_spec (R := R) k s)].
  intros [[] | | |] s1 H; cbn in H; [| done | | done].
  2: { destruct H as [(_ & _ & _ & t & c & _ & _ & ->) | [-> H]]; [rewrite commands_next; case_decide; lia |].
       rewrite decide_True by done. lia. }
  destruct H as [_ [(t & c & Ht & Hc & I1 & E1 & _ & _ & Hm) |
                 (t & r0 & r & x & Ht & I1 & E1 & _ & _ & Hw & Hm)]].
  - eapply wp_mono; [| by apply (IH k)]. cbn. rewrite Hm. done.
  - eapply wp_mono; [| apply (IH WriteBlockCallData); [by left | done]].
    intros o s'. cbn beta. rewrite decide_False by done.
    destruct Hk as [-> | ->]; [destruct (Hw eq_refl) as [_ ->]; rewrite decide_False by done; lia |].
    rewrite decide_True by done. lia.
Qed.

(** After the shutdown: the answers that are under way complete, then the
    object that waits for a request gets its operation back with [ok] false. *)
Lemma loop_after_shutdown fuel k (s : st async) :
  served k -> inv true k (calls (own s)) (next_call (own s)) (log s) ->
  (size (calls (own s)) <= fuel)%nat ->
  wp (daemon_loop (R := R) fuel) (fun o _ => o = Stop Gpr_abort) s.
Proof.
  intros Hk. revert s. induction fuel as [| fuel IH]; intros s I Hf.
  { destruct (inv_wait _ _ _ _ _ I) as (w & r & Hw & _).
    assert (size (calls (own s)) <> 0%nat) by (apply map_size_ne_0_lookup; by eexists _, _). lia. }
  destruct (next_pending (log s) (inv_busy _ _ _ _ _ I)) as (t & p & ok & r & Hp & Hn & Hr).
  rewrite (inv_shut _ _ _ _ _ I) in Hr. cbn [negb] in Hr.
  destruct (inv_known _ _ _ _ _ I t p Hp) as (c & Hc & ->).
  cbn [daemon_loop]. apply wp_bind. unfold daemon_step.
  apply wp_bind, (wp_ext Cq_next). rewrite Hn. intros _ ->. cbn beta iota.
  destruct (status c) eqn:Es; unfold pend_of in Hr; rewrite Es in Hr;
    [by destruct Hr as [-> _]; apply wp_stop.. |].
  subst r. destruct ok; cbn [negb]; [| by apply wp_stop]. apply (round_retire true k t c); [exact I | exact Hk | exact Hc | exact Es |].
  intros s' E1 I' _. apply IH; [done |]. rewrite E1.
  pose proof (map_size_delete_Some t (calls (own s)) (ex_intro _ _ Hc)). lia.
Qed.
End loops.

(** ** Theorems *)

Section theorems.
Context {PF : Platform} {R : Type}.

(** C14: The daemon of [WriteBlock] serves until a call dies.  At every point of
    its run each of the [n] requests that arrived has been answered once (with OK
    and block 114514), exactly one object waits for the next request, no object was
    used after its deletion, and the device was given no command at all: no data
    is ever written.  As long as every answer is sent with [ok] the run goes on, with
    the waiting object and those whose answers are under way the only ones left.
    The first answer whose call was dead (cancelled, or past its deadline) fails
    [GPR_ASSERT(ok)] and aborts the process: nothing else ends the daemon. *)
Theorem write_daemon_serves {QL : QueueLaws} fuel (s : st async) :
  calls (own s) = ∅ -> pending (log s) = ∅ -> shut (log s) = false ->
  exists o n s', exec (R := R) WriteBlockCallData fuel s = (o, s') /\
    (o = NoFuel /\ served_all n s s' /\ (size (calls (own s')) + fuel = 1 + 2 * n)%nat \/
     o = Stop Gpr_abort /\ served_until_failure n s s').
Proof.
  intros Hc Hp Hs. enough (wp (exec (R := R) WriteBlockCallData fuel) (fun o s' => exists n,
     o = NoFuel /\ served_all n s s' /\ (size (calls (own s')) + fuel = 1 + 2 * n)%nat \/
     o = Stop Gpr_abort /\ served_until_failure n s s') s) as H.
  { unfold wp in H. destruct (exec _ _ s) as [o s']. destruct H as [n H]. by exists o, n, s'. }
  unfold exec. apply wp_bind, new_CallData_inv; [by left | done.. |].
  intros t s1 Hsz I El. eapply wp_mono; [| by apply (write_loop (R := R) fuel s1)].
  intros o s' [n H]. exists n. rewrite Hsz in H. unfold served_until_failure, served_all in *. by rewrite El in H.
Qed.

(** A [ReadBlock] handler would read the device for its first request only:
    [proceed] of a read re-arms the queue with a write object, so over any
    number of completions at most one command reaches the device. *)
Theorem read_daemon_reads_once {QL : QueueLaws} fuel (s : st async) :
  calls (own s) = ∅ -> pending (log s) = ∅ -> shut (log s) = false ->
  forall o s', exec (R := R) ReadBlockCallData fuel s = (o, s') ->
    (length (commands (log s')) <= 1 + length (commands (log s)))%nat.
Proof.
  intros Hc Hp Hs. apply (wp_run _ (fun _ s' =>
    (length (commands (log s')) <= 1 + length (commands (log s)))%nat)).
  unfold exec. apply wp_bind, new_CallData_inv; [by right | done.. |].
  intros t s1 _ I El. eapply wp_mono; [| apply (loop_commands (R := R) ReadBlockCallData); [by right | done]].
  intros o s'. cbn beta. rewrite decide_True by done. by rewrite El.
Qed.

(** C39: Destroying a server whose write handler is running aborts the process:
    the shutdown gives the waiting object its operation back with [ok] false,
    which [GPR_ASSERT(ok)] does not accept. *)
Theorem destroy_aborts {QL : QueueLaws} fuel (s : st async) :
  server (own s) = true -> write_block_handler (own s) = Some (mk_handler true) ->
  inv false WriteBlockCallData (calls (own s)) (next_call (own s)) (log s) ->
  (size (calls (own s)) <= fuel)%nat ->
  exists s', destroy (R := R) fuel s = (Stop Gpr_abort, s').
Proof.
  intros Hs Hw I Hf.
  assert (wp (destroy (R := R) fuel) (fun o _ => o = Stop Gpr_abort /\ True) s) as H.
  { unfold destroy. wp_steps. rewrite Hs, Hw. cbn [negb]. wp_steps. unfold shutdown at 1.
    cbn [daemon when]. wp_steps. eapply wp_mono.
    2: { apply (loop_after_shutdown (R := R) fuel WriteBlockCallData); cbn [own log]; [by left | | done].
         destruct I as [I1 I2 I3 I4]. by split. }
    by intros o s' ->. }
  apply wp_ex in H as (s' & E & _). eauto.
Qed.

(** The destructor never completes, in any environment, on an object whose
    [read_block_handler] is null, as [construct] and [run] leave it: it calls
    [shutdown] through that pointer, if the join before it ends at all. *)
Theorem destroy_never_returns fuel (s : st async) :
  read_block_handler (own s) = None ->
  forall o s', destroy (R := R) fuel s = (o, s') -> o <> Val ().
Proof.
  intros Hr. apply (wp_run _ (fun o _ => o <> Val ())). unfold destroy. wp_steps.
  destruct (server (own s)); cbn [negb]; [| by apply wp_stop]. wp_steps.
  rewrite Hr. unfold wp at 1. destruct (shutdown _ _ _) as [[] s']; [| done..].
  by wp_steps.
Qed.
End theorems.

(** ** Instances *)

(** A queue that completes the first pending operation it finds; requests bring
    the block 3; where [dead], every call is cancelled before it is answered. *)
Definition small_request : BlockRequest :=
  {| br_size := 4; br_start_block := 3; br_data := [x61; x62; x63; x64] |}.

Definition queue_with (dead : bool) : Platform := platform_of (fun h e =>
  match e with
  | Cq_next =>
      match map_to_list (pending h) with
      | [] => None
      | (t, p) :: _ =>
          Some (t, match p with Request_op => negb (shut h) | Finish_op => negb dead end,
                match p with Request_op => Some small_request | Finish_op => None end)
      end
  | e => default_reply e
  end).

#[export] Instance queue_with_laws dead : QueueLaws (PF := queue_with dead).
Proof.
  split. intros h Hne. cbn [queue_with platform_of world].
  destruct (map_to_list (pending h)) as [| [t p] l] eqn:E; [by apply map_to_list_empty_iff in E |].
  eexists t, p, _, _. split_and!; [| reflexivity | by destruct p].
  apply elem_of_map_to_list. rewrite E. apply list_elem_of_here.
Qed.

Definition new_server : st async :=
  mk_st (mk_async (mk_blk sample_server None None) ∅ 0 false None None None None) heap_empty [].

Abbreviation queue_env := (queue_with false).

Lemma write_daemon_serves_witness :
  exists o n s',
    exec (PF := queue_env) (R := Empty_set) WriteBlockCallData 4 new_server = (o, s') /\
    (o = NoFuel /\ served_all n new_server s' /\ (size (calls (own s')) + 4 = 1 + 2 * n)%nat \/
     o = Stop Gpr_abort /\ served_until_failure n new_server s').
Proof.
  exact (write_daemon_serves (PF := queue_env) (R := Empty_set) 4 new_server
    eq_refl eq_refl eq_refl).
Defined.

(** Both ends of the run occur. *)
Example daemon_goes_on : (exec (PF := queue_env) (R := Empty_set) WriteBlockCallData 8 new_server).1 = NoFuel.
Proof. vm_compute. reflexivity. Qed.

Example cancelled_call_aborts :
  (exec (PF := queue_with true) (R := Empty_set) WriteBlockCallData 8 new_server).1 = Stop Gpr_abort.
Proof. vm_compute. reflexivity. Qed.

Lemma read_daemon_reads_once_witness :
  exists o s', exec (PF := queue_env) (R := Empty_set) ReadBlockCallData 6 new_server = (o, s') /\
    (length (commands (log s')) <= 1)%nat.
Proof.
  destruct (exec (PF := queue_env) (R := Empty_set) ReadBlockCallData 6 new_server) as [o s'] eqn:E.
  exists o, s'. split; [reflexivity |].
  exact (read_daemon_reads_once (PF := queue_env) (R := Empty_set) 6 new_server
    eq_refl eq_refl eq_refl o s' E).
Defined.

(** A server whose daemon waits for its first request. *)
Definition waiting_server : st async :=
  mk_st (mk_async (mk_blk sample_server None None)
      {[ 0%nat := mk_call WriteBlockCallData PROCESS BlockRequest_default ]} 1 true
      (Some (mk_handler true)) None None None) heap_empty [Grpc_request_write 0 ~> tt].

Lemma waiting_server_inv :
  inv false WriteBlockCallData (calls (own waiting_server)) 1 (log waiting_server).
Proof.
  split; [done | done | |].
  - intros t Ht. apply lookup_singleton_ne. lia.
  - exists 0%nat, BlockRequest_default. split; [done |].
    intros t c Ht Hc. cbn in Hc. by apply lookup_singleton_Some in Hc as [<- _].
Qed.

Lemma destroy_aborts_witness :
  exists s', destroy (PF := queue_env) (R := Empty_set) 3 waiting_server = (Stop Gpr_abort, s').
Proof.
  exact (destroy_aborts (PF := queue_env) (R := Empty_set) 3 waiting_server
    eq_refl eq_refl waiting_server_inv ltac:(vm_compute; lia)).
Defined.
