(* ===== verification/Worker.v ===== *)
(** * The benchmark's worker (src/src/benchmark.cc, the io_uring part)

    [do_io_io_uring] is the body of the one worker thread: it keeps an io_uring
    submission queue filled with writes of [bs] bytes that walk over the test
    file, until the run time is over.  The options are the program's globals;
    the state is the [io_worker].  Each loop has a [fuel] of its own; a theorem
    that speaks of the end of a run says which fuel is enough, and the others
    hold whatever the fuel. *)

From S2P Require Import Prelude Proto Env.

Definition KB : Z := 1024.
Definition MB : Z := 1024 * 1024.
Definition GB : Z := 1024 * 1024 * 1024.
Definition PAGESIZE : Z := 4096.
Definition POLL_BATCH : Z := 16.
Definition RDMA_REAP_FREQ : Z := 16.

(** The global options. *)
Record options := mk_options {
  bs : Z;                      (* unsigned long *)
  io_uring_batch_submit : Z;   (* unsigned *)
  rdma_batch_submit : Z;       (* unsigned *)
  test_file : string;
  file_size : Z;               (* unsigned long *)
  io_uring_queue_depth : Z;    (* int *)
  rdma_queue_depth : Z;        (* int *)
  runtime : Z;                 (* unsigned, seconds *)
  client : bool;
  user_rdma : bool;
  host : string;
  base_port : Z;
  event : bool;
}.

Record rdma_rmt_buf := mk_rmt { rmt_addr : Z; rmt_size : Z; rmt_rkey : Z }.

(** A memory region: the pointer, and what it points to. *)
Record ibv_mr := mk_mr { mr_ptr : Z; mr_lkey : Z; mr_rkey : Z }.

(** The RDMA members; a pointer is a handle, 0 the null pointer. *)
Record rdma_stuff := mk_rdma {
  cm_id : Z;
  cm_listen_id : Z;
  comp_channel : Z;
  cm_channel : Z;
  cq : Z;
  pd : Z;
  qp : Z;
  rmt_buf : rdma_rmt_buf;
  data_pool : Z;
  data_pool_size : Z;
  data_pool_mr : ibv_mr;
}.

Record io_worker := mk_worker {
  worker_id : Z;
  io_uring_sqe_queued : Z;        (* unsigned *)
  rdma_wr_posted : Z;             (* unsigned long, and so are the next four *)
  cur_offset : Z;
  io_completed : Z;
  free_io_units_io_uring : Z;
  free_io_units_rdma : Z;
  tid : Z;
  fd : Z;
  stopped : bool;
  start_time : Z;
  rdma : rdma_stuff;
}.

Definition set_fd (x : Z) (w : io_worker) : io_worker :=
  mk_worker (worker_id w) (io_uring_sqe_queued w) (rdma_wr_posted w) (cur_offset w)
    (io_completed w) (free_io_units_io_uring w) (free_io_units_rdma w) (tid w) x (stopped w)
    (start_time w) (rdma w).

Definition set_start (x : Z) (w : io_worker) : io_worker :=
  mk_worker (worker_id w) (io_uring_sqe_queued w) (rdma_wr_posted w) (cur_offset w)
    (io_completed w) (free_io_units_io_uring w) (free_io_units_rdma w) (tid w) (fd w) (stopped w)
    x (rdma w).

Definition set_stopped (w : io_worker) : io_worker :=
  mk_worker (worker_id w) (io_uring_sqe_queued w) (rdma_wr_posted w) (cur_offset w)
    (io_completed w) (free_io_units_io_uring w) (free_io_units_rdma w) (tid w) (fd w) true
    (start_time w) (rdma w).

Definition set_tid (x : Z) (w : io_worker) : io_worker :=
  mk_worker (worker_id w) (io_uring_sqe_queued w) (rdma_wr_posted w) (cur_offset w)
    (io_completed w) (free_io_units_io_uring w) (free_io_units_rdma w) x (fd w) (stopped w)
    (start_time w) (rdma w).

(** [io_uring_sqe_queued], [cur_offset], [io_completed] and
    [free_io_units_io_uring] after an update. *)
Definition set_io (q c n f : Z) (w : io_worker) : io_worker :=
  mk_worker (worker_id w) q (rdma_wr_posted w) c n f (free_io_units_rdma w) (tid w) (fd w)
    (stopped w) (start_time w) (rdma w).

(** [cur_offset] after a write was prepared. *)
Definition next_offset (g : options) (c : Z) : Z :=
  let c := u64 (c + bs g) in
  if u64 (c + bs g) >=? file_size g then 0 else c.

(** A write was prepared, was submitted, was completed. *)
Definition prepared (g : options) (w : io_worker) : io_worker :=
  set_io (u32 (io_uring_sqe_queued w + 1)) (next_offset g (cur_offset w)) (io_completed w)
    (u64 (free_io_units_io_uring w - 1)) w.
Definition submitted (n : Z) (w : io_worker) : io_worker :=
  set_io (u32 (io_uring_sqe_queued w - n)) (cur_offset w) (io_completed w)
    (free_io_units_io_uring w) w.
Definition completed (w : io_worker) : io_worker :=
  set_io (io_uring_sqe_queued w) (cur_offset w) (u64 (io_completed w + 1))
    (u64 (free_io_units_io_uring w + 1)) w.

Section Worker.
Context {PF : Platform} (g : options).

Definition set_worker_cpu {R} (cpu : Z) : M (st io_worker) R Z :=
  t ← get_own tid;
  r ← ext (Pthread_setaffinity t cpu);
  mret (if r =? 0 then 0 else 1).

Definition runtime_exceeded {P R} (start : Z) : M (st P) R bool :=
  now ← ext Clock_now;
  mret (Z.quot (now - start) 1000000000 >? runtime g).

(** Both loops of [reap_io_uring_cq]: the completions that are visible, then
    again while fewer than [min] were reaped. *)
Fixpoint reap_loop (fuel : nat) (reaped min : Z) : M (st io_worker) Z Z :=
  match fuel with
  | O => nofuel
  | S fuel =>
      cqe ← ext Uring_peek_cqe;
      match cqe with
      | Some res =>
          if res <? 0 then return_ (-1)
          else
            ext Uring_cqe_seen;;
            set_own completed;;
            reap_loop fuel (u32 (reaped + 1)) min
      | None => if reaped <? u32 min then reap_loop fuel reaped min else mret (i32 reaped)
      end
  end.

Definition reap_io_uring_cq {R} (fuel : nat) (min : Z) : M (st io_worker) R Z :=
  call (reap_loop fuel 0 min).

(** [if (reap_io_uring_cq(worker, min) < 0) goto err;]. *)
Definition reap_or_exit {R} (fuel : nat) (min : Z) : M (st io_worker) R () :=
  r ← reap_io_uring_cq fuel min;
  when (r <? 0) (stop_ Thread_exit).

(** The loop around [io_uring_get_sqe]. *)
Fixpoint get_sqe {R} (fuel : nat) : M (st io_worker) R () :=
  match fuel with
  | O => nofuel
  | S fuel' =>
      sqe ← ext Uring_get_sqe;
      if (sqe : bool) then mret () else reap_or_exit fuel 0;; get_sqe fuel'
  end.

(** [while (worker->io_uring_sqe_queued != 0)]. *)
Fixpoint submit_all {R} (fuel : nat) : M (st io_worker) R () :=
  q ← get_own io_uring_sqe_queued;
  if q =? 0 then mret ()
  else
    match fuel with
    | O => nofuel
    | S fuel' =>
        ret ← ext Uring_submit;
        (if ret >? 0 then set_own (submitted ret) else reap_or_exit fuel 0);;
        submit_all fuel'
    end.

(** The body of the main loop. *)
Definition issue {R} (fuel : nat) (data_buffer : loc) : M (st io_worker) R () :=
  get_sqe fuel;;
  w ← get_own (fun w => w);
  ext (Uring_prep_writev (fd w) (Z.of_nat data_buffer) (bs g) (cur_offset w));;
  set_own (prepared g);;
  q ← get_own io_uring_sqe_queued;
  when (q =? io_uring_batch_submit g) (submit_all fuel);;
  f ← get_own free_io_units_io_uring;
  when (f =? 0) (reap_or_exit fuel 1).

Fixpoint issue_loop {R} (fuel : nat) (data_buffer : loc) : M (st io_worker) R () :=
  match fuel with
  | O => nofuel
  | S fuel' =>
      start ← get_own start_time;
      over ← runtime_exceeded start;
      if (over : bool) then mret () else issue fuel data_buffer;; issue_loop fuel' data_buffer
  end.

(** [memalign(PAGESIZE, bs)], null on failure. *)
Definition memalign {P R} (alignment size : Z) : M (st P) R (option loc) :=
  '(_, p) ← posix_memalign alignment size; mret p.

(** Opening the test file, giving it its size and creating the ring, the
    same in [do_io_io_uring] and [do_io_user_rdma]. *)
Definition open_test_file {R} : M (st io_worker) R () :=
  f ← ext (Sys_open (test_file g) [O_DIRECT; O_WRONLY; O_CREAT]);
  set_own (set_fd f);;
  when (f <? 0) (stop_ Thread_exit);;
  '(r, st_size) ← ext (Sys_fstat f);
  when (negb (r =? 0)) (stop_ Thread_exit);;
  when (negb (u64 st_size =? file_size g))
    (r ← ext (Sys_fallocate f (i64 (file_size g)));
     when (negb (r =? 0)) (stop_ Thread_exit));;
  r ← ext (Uring_init (u32 (io_uring_queue_depth g)));
  when (negb (r =? 0)) (stop_ Thread_exit).

Definition do_io_io_uring {R} (fuel : nat) : M (st io_worker) R () :=
  open_test_file;;
  data_buffer ← memalign PAGESIZE (bs g);
  match data_buffer with
  | None => stop_ Thread_exit
  | Some data_buffer =>
      now ← ext Clock_now;
      set_own (set_start now);;
      issue_loop fuel data_buffer;;
      set_own set_stopped
  end.

(** [malloc] and [memset(worker, 0, sizeof(worker))], which clears
    the 8 bytes of a pointer: [worker_id] and the padding after it.  [garbage]
    is what the allocator left in the block. *)
Definition launch_worker {R} (garbage : io_worker) (cpu : Z)
  : M (st io_worker) R bool :=
  r ← ext (Alloc None 1);
  if negb (r =? 0) then stop_ UB_null
  else
    set_own (fun _ =>
      let d := rdma garbage in
      mk_worker 0 (io_uring_sqe_queued garbage) 0 (cur_offset garbage) (io_completed garbage)
        (u64 (io_uring_queue_depth g)) (u64 (rdma_queue_depth g)) (tid garbage) (fd garbage)
        false (start_time garbage)
        (if client g then d
         else mk_rdma (cm_id d) (cm_listen_id d) (comp_channel d) (cm_channel d) (cq d) (pd d)
                (qp d) (rmt_buf d) (data_pool d) (32 * 1024 * 1024) (data_pool_mr d)));;
    '(_, t) ← ext (Pthread_create (if user_rdma g then "do_io_user_rdma" else "do_io_io_uring"));
    set_own (set_tid t);;
    r ← set_worker_cpu cpu;
    mret (r =? 0).                                   (* false: freed, NULL *)

(** One sample of [calculate_stats]: [None] where it goes round again without
    printing, else the number printed as thousands of operations a second. *)
Definition stats_sample (io_completed now start_time : Z) : option Z :=
  let io_completed := u32 io_completed in
  let duration_ms := u32 (Z.quot (now - start_time) 1000000) in
  if (io_completed =? 0) || (duration_ms =? 0) then None
  else Some (io_completed / duration_ms).

End Worker.

(** ** The command line *)

(** What argparse yields: one value per option. *)
Record arguments := mk_arguments {
  a_bs : Z; a_file : string; a_iouring_qd : Z; a_rdma_qd : Z; a_runtime : Z; a_filesize : Z;
  a_iouring_batch_submit : Z; a_rdma_batch_submit : Z; a_client : bool; a_host : string;
  a_port : Z; a_user_rdma : bool; a_event : bool;
}.

Definition default_arguments : arguments := {|
  a_bs := 4; a_file := "/mnt/test"; a_iouring_qd := 128; a_rdma_qd := 128; a_runtime := 30;
  a_filesize := 10; a_iouring_batch_submit := 32; a_rdma_batch_submit := 32; a_client := false;
  a_host := "10.10.1.2"; a_port := 9876; a_user_rdma := false; a_event := false |}.

(** [parse_args]: [parsed] is what argparse made of the arguments, [None] its
    exception; the globals are set on success. *)
Definition parse_args (argc : Z) (parsed : option arguments) : Z * option options :=
  if argc =? 1 then (1, None)
  else
    match parsed with
    | None => (1, None)
    | Some a =>
        (0, Some (mk_options (u32 (u32 (a_bs a) * KB)) (u32 (a_iouring_batch_submit a))
                   (u32 (a_rdma_batch_submit a)) (a_file a) (u64 (u64 (a_filesize a) * GB))
                   (a_iouring_qd a) (a_rdma_qd a) (u32 (a_runtime a)) (a_client a)
                   (a_user_rdma a) (a_host a) (a_port a) (a_event a)))
    end.

(** ** The traffic with the ring *)

Definition offset_of (e : entry) : option Z :=
  match e with existT (Uring_prep_writev _ _ _ o) _ => Some o | _ => None end.
(** The file offsets of the writes that were prepared, newest first. *)
Definition offsets (h : history) : list Z := omap offset_of h.

Definition n_prepared (h : history) : Z := Z.of_nat (length (offsets h)).

(** The result of a submission; [Uring_submit_writev] is the submission of an
    [iovec] that is not the writer's own ([Rdma]). *)
Definition moved (e : entry) : option Z :=
  match e with
  | existT Uring_submit r => Some r
  | existT (Uring_submit_writev _) r => Some r
  | _ => None
  end.

Fixpoint n_submitted (h : history) : Z :=
  match h with
  | [] => 0
  | existT Uring_submit r :: h => n_submitted h + Z.max 0 r
  | existT (Uring_submit_writev _) r :: h => n_submitted h + Z.max 0 r
  | _ :: h => n_submitted h
  end.

Fixpoint n_seen (h : history) : Z :=
  match h with
  | [] => 0
  | existT Uring_cqe_seen _ :: h => n_seen h + 1
  | _ :: h => n_seen h
  end.

(** Writes that wait in the submission queue, and writes the kernel has. *)
Definition queued (h : history) : Z := n_prepared h - n_submitted h.
Definition inflight (h : history) : Z := n_submitted h - n_seen h.

(** Entries that do not concern the rings' contents. *)
Definition inert (e : entry) : bool :=
  match projT1 e with
  | Uring_prep_writev _ _ _ _ | Uring_submit | Uring_submit_writev _ | Uring_cqe_seen => false
  | _ => true
  end.

Definition same_io (w w' : io_worker) : Prop :=
  io_uring_sqe_queued w' = io_uring_sqe_queued w /\ cur_offset w' = cur_offset w /\
  io_completed w' = io_completed w /\ free_io_units_io_uring w' = free_io_units_io_uring w.

(** ** The worker as a state machine *)

Inductive io_step (g : options) : io_worker * history -> io_worker * history -> Prop :=
| step_assign w w' h : same_io w w' -> io_step g (w, h) (w', h)
| step_inert w h e : inert e -> io_step g (w, h) (w, e :: h)
| step_prepare w h f p u :
    io_step g (w, h)
      (prepared g w, Uring_prep_writev f p (bs g) (cur_offset w) ~> u :: h)
| step_submit w h e n : moved e = Some n -> 0 < n -> io_step g (w, h) (submitted n w, e :: h)
| step_busy w h e n : moved e = Some n -> n <= 0 -> io_step g (w, h) (w, e :: h)
| step_complete w h u : io_step g (w, h) (completed w, Uring_cqe_seen ~> u :: h).

(** [look] finds the worker in the state of a thread. *)
Definition refines_by {P R A} (look : P -> io_worker) (g : options) (m : M (st P) R A) : Prop :=
  forall s, wp m (fun _ s' => rtc (io_step g) (look (own s), log s) (look (own s'), log s')) s.

Abbreviation refines g m := (refines_by (fun w : io_worker => w) g m).

Section refinement.
Context {PF : Platform} {P R : Type} (look : P -> io_worker) (g : options).

Lemma refines_id {A} (m : M (st P) R A) :
  (forall s, wp m (fun _ s' => own s' = own s /\ log s' = log s) s) -> refines_by look g m.
Proof. intros H s. eapply wp_mono; [| apply H]. cbn. intros o s' [-> ->]. constructor. Qed.

Lemma refines_bind {A B} (m : M (st P) R A) (f : A -> M (st P) R B) :
  refines_by look g m -> (forall a, refines_by look g (f a)) -> refines_by look g (m ≫= f).
Proof.
  intros Hm Hf s. apply wp_bind. eapply wp_mono; [| apply Hm]. intros o s1 H1.
  destruct o as [a | | |]; [| done..].
  eapply wp_mono; [| apply Hf]. cbn. intros o s2 H2. by etrans.
Qed.

Lemma refines_mret {A} (a : A) : refines_by look g (mret a : M (st P) R A).
Proof. by apply refines_id. Qed.
Lemma refines_return {A} (r : R) : refines_by look g (return_ r : M (st P) R A).
Proof. by apply refines_id. Qed.
Lemma refines_stop {A} u : refines_by look g (stop_ u : M (st P) R A).
Proof. by apply refines_id. Qed.
Lemma refines_nofuel {A} : refines_by look g (nofuel : M (st P) R A).
Proof. by apply refines_id. Qed.
Lemma refines_get {A} (f : P -> A) : refines_by look g (get_own f : M (st P) R A).
Proof. by apply refines_id. Qed.

Lemma refines_call {R'} (body : M (st P) R R) :
  refines_by look g body -> refines_by look g (call body : M (st P) R' R).
Proof. intros H s. apply wp_call. eapply wp_mono; [| apply H]. by intros [] s'. Qed.

Lemma refines_ext e : (forall r, inert (e ~> r)) -> refines_by look g (ext (P := P) (R := R) e).
Proof. intros H s. apply wp_ext. intros r _. apply rtc_once. by constructor. Qed.

Lemma refines_set (f : P -> P) :
  (forall x, same_io (look x) (look (f x))) -> refines_by look g (set_own (R := R) f).
Proof. intros H s. apply wp_set_own. apply rtc_once. by constructor. Qed.

Lemma refines_fresh n : refines_by look g (fresh_block (P := P) (R := R) n).
Proof. by apply refines_id. Qed.

Lemma refines_when b (m : M (st P) R ()) : refines_by look g m -> refines_by look g (when b m).
Proof. destruct b; [done | intros _; apply refines_mret]. Qed.
End refinement.

Create HintDb refine.
#[export] Hint Resolve refines_bind refines_mret refines_return refines_stop refines_nofuel
  refines_get refines_call refines_fresh refines_when : refine.
#[export] Hint Extern 1 (refines_by ?l ?g (ext ?e)) =>
  (refine (refines_ext l g e _); intros; exact I) : refine.
#[export] Hint Extern 1 (refines_by _ _ (set_own _)) =>
  (apply refines_set; intros []; by unfold same_io) : refine.

(** A statement that is written out. *)
Ltac refine_go :=
  repeat match goal with
  | |- refines_by _ _ (match ?x with _ => _ end) => destruct x
  | |- refines_by _ _ (if ?x then _ else _) => destruct x
  | |- refines_by _ _ (_ ≫= _) => apply refines_bind; [| intros ?; cbn beta iota]
  | |- refines_by _ _ _ => solve [auto with refine]
  | |- refines_by _ _ (when _ _) => apply refines_when
  | |- refines_by _ _ (call _) => apply refines_call
  end.

Section worker_refinement.
Context {PF : Platform} (g : options) {R : Type}.

Lemma refines_reap_loop fuel reaped min : refines g (reap_loop fuel reaped min).
Proof.
  revert reaped. induction fuel as [| fuel IH]; intros reaped; cbn [reap_loop]; [refine_go |].
  apply refines_bind; [refine_go |]. intros [res |]; [| destruct (reaped <? u32 min); refine_go; apply IH].
  destruct (res <? 0); [refine_go |]. intros s. wp_steps.
  eapply wp_mono; [| apply IH]. cbn. intros o s' H.
  eapply rtc_l; [apply step_complete | exact H].
Qed.
Hint Resolve refines_reap_loop : refine.

Lemma refines_reap fuel min : refines g (reap_io_uring_cq (R := R) fuel min).
Proof. unfold reap_io_uring_cq. refine_go. Qed.
Hint Resolve refines_reap : refine.

Lemma refines_reap_or_exit fuel min : refines g (reap_or_exit (R := R) fuel min).
Proof. unfold reap_or_exit. refine_go. Qed.
Hint Resolve refines_reap_or_exit : refine.

Lemma refines_get_sqe fuel : refines g (get_sqe (R := R) fuel).
Proof. induction fuel as [| fuel IH]; cbn [get_sqe]; refine_go. Qed.

Lemma refines_submit_all fuel : refines g (submit_all (R := R) fuel).
Proof.
  induction fuel as [| fuel IH]; cbn [submit_all];
    (apply refines_bind; [refine_go |]; intros q; destruct (q =? 0); [refine_go |]); [refine_go |].
  intros s. apply wp_bind, (wp_ext Uring_submit). intros r _. cbn beta iota.
  apply wp_bind. destruct (r >? 0) eqn:Hr; bool_hyps.
  - wp_steps. eapply wp_mono; [| apply IH]. cbn. intros o s' H.
    eapply rtc_l; [| exact H]. by apply (step_submit _ _ _ (Uring_submit ~> r) r).
  - eapply wp_mono; [| apply refines_reap_or_exit]. cbn. intros o s1 H1.
    assert (rtc (io_step g) (own s, log s) (own s1, log s1)) as H1'
      by (eapply rtc_l; [| exact H1]; by apply (step_busy _ _ _ (Uring_submit ~> r) r)).
    destruct o; [| done..]. eapply wp_mono; [| apply IH]. cbn. intros o s' H. by etrans.
Qed.
Hint Resolve refines_get_sqe refines_submit_all : refine.

Lemma refines_issue fuel p : refines g (issue (R := R) g fuel p).
Proof.
  unfold issue. apply refines_bind; [refine_go | intros _]. intros s. wp_steps.
  eapply wp_mono; [| apply refines_when, refines_submit_all]. cbn [own log]. intros o s1 H1.
  assert (rtc (io_step g) (own s, log s) (own s1, log s1)) as H1'
    by (eapply rtc_l; [by apply step_prepare | exact H1]).
  destruct o; [| done..]. cbn beta iota. wp_steps.
  eapply wp_mono; [| apply refines_when, refines_reap_or_exit]. cbn. intros o s' H. by etrans.
Qed.
Hint Resolve refines_issue : refine.

Lemma refines_issue_loop fuel p : refines g (issue_loop (R := R) g fuel p).
Proof.
  induction fuel as [| fuel IH]; cbn [issue_loop]; unfold runtime_exceeded; refine_go; apply IH.
Qed.
Hint Resolve refines_issue_loop : refine.

Lemma refines_open_test_file : refines g (open_test_file (R := R) g).
Proof. unfold open_test_file. refine_go. Qed.

Lemma refines_do_io fuel : refines g (do_io_io_uring (R := R) g fuel).
Proof.
  unfold do_io_io_uring, memalign, posix_memalign.
  apply refines_bind; [apply refines_open_test_file | intros _]. refine_go.
Qed.
End worker_refinement.

(** ** Invariants of the state machine, by induction on its steps *)

(** The length of the walk over the file, in writes. *)
Definition cycle (g : options) : Z := Z.max 1 ((file_size g - 1) / bs g).

(** Where the [i]-th write goes when the walk starts at 0. *)
Definition nth_offset (g : options) (i : Z) : Z := i mod cycle g * bs g.

(** Options without wrap-around in [next_offset]. *)
Definition options_ok (g : options) : Prop :=
  0 < bs g /\ 0 <= file_size g /\ file_size g + 2 * bs g < 2 ^ 64.

Lemma cycle_pos g : 1 <= cycle g.
Proof. unfold cycle. lia. Qed.

Lemma cycle_bound g i :
  options_ok g -> 0 <= i < cycle g -> i = 0 \/ (i + 1) * bs g < file_size g.
Proof.
  intros (Hb & Hf & _) Hi. unfold cycle in Hi.
  pose proof (Z.mul_div_le (file_size g - 1) (bs g) Hb). nia.
Qed.

Lemma next_offset_nth g i :
  options_ok g -> 0 <= i -> next_offset g (nth_offset g i) = nth_offset g (i + 1).
Proof.
  intros Hg Hi. pose proof Hg as (Hb & Hf & Hw). pose proof (cycle_pos g) as Hc.
  unfold nth_offset. rewrite <- (Zplus_mod_idemp_l i 1).
  pose proof (Z.mod_pos_bound i (cycle g) ltac:(lia)) as Hr.
  set (r := i mod cycle g) in *. destruct (cycle_bound g r Hg Hr) as [Hr0 | Hr1].
  all: unfold next_offset; rewrite (u64_id (r * bs g + bs g)) by nia; rewrite u64_id by nia.
  all: destruct (_ >=? _) eqn:E; bool_hyps.
  all: try (assert (r + 1 = cycle g) as -> by
    (unfold cycle in *; pose proof (Z.div_lt_upper_bound (file_size g - 1) (bs g) (r + 2) Hb); nia);
    rewrite Z.mod_same by lia; lia).
  all: assert (r + 1 < cycle g) by
    (unfold cycle in *; pose proof (Z.div_le_lower_bound (file_size g - 1) (bs g) (r + 2) Hb); nia);
    rewrite Z.mod_small by lia; lia.
Qed.

Definition walk (g : options) (n : nat) : list Z :=
  reverse ((fun i => nth_offset g (Z.of_nat i)) <$> seq 0 n).

Lemma walk_S g n : walk g (S n) = nth_offset g (Z.of_nat n) :: walk g n.
Proof. unfold walk. by rewrite seq_S, fmap_app, reverse_app. Qed.

Lemma elem_of_walk g n x : x ∈ walk g n -> exists i, 0 <= i < Z.of_nat n /\ x = nth_offset g i.
Proof.
  unfold walk. rewrite elem_of_reverse, list_elem_of_fmap. intros (i & -> & Hi).
  apply elem_of_seq in Hi. exists (Z.of_nat i). split; [lia | done].
Qed.

Lemma offsets_cons e h : offsets (e :: h) = match offset_of e with
                                           | Some o => o :: offsets h
                                           | None => offsets h
                                           end.
Proof. unfold offsets. cbn. by destruct (offset_of e). Qed.

Lemma inert_offsets e h : inert e -> offsets (e :: h) = offsets h.
Proof. rewrite offsets_cons. by destruct e as [[] r]. Qed.
Lemma inert_submitted e h : inert e -> n_submitted (e :: h) = n_submitted h.
Proof. by destruct e as [[] r]. Qed.
Lemma inert_seen e h : inert e -> n_seen (e :: h) = n_seen h.
Proof. by destruct e as [[] r]. Qed.

(** Submissions. *)
Lemma moved_offsets e n h : moved e = Some n -> offsets (e :: h) = offsets h.
Proof. by destruct e as [[] r]. Qed.
Lemma moved_submitted e n h : moved e = Some n -> n_submitted (e :: h) = n_submitted h + Z.max 0 n.
Proof. by destruct e as [[] r]; intros [= <-]. Qed.
Lemma moved_seen e n h : moved e = Some n -> n_seen (e :: h) = n_seen h.
Proof. by destruct e as [[] r]. Qed.
Lemma moved_prepared e n h : moved e = Some n -> n_prepared (e :: h) = n_prepared h.
Proof. intros H. unfold n_prepared. by rewrite (moved_offsets e n). Qed.

Section machine.
Context (g : options).

(** The walk, from a state whose next offset is that of write [k]. *)
Lemma io_steps_walk x y k :
  options_ok g -> rtc (io_step g) x y ->
  cur_offset x.1 = nth_offset g (Z.of_nat k) -> forall l, offsets x.2 = walk g k ++ l ->
  exists n, offsets y.2 = walk g n ++ l /\ cur_offset y.1 = nth_offset g (Z.of_nat n).
Proof.
  intros Hg H Hc l Hl. revert k Hc Hl.
  induction H as [x | x y z Hxy _ IH]; intros k Hc Hl; [by exists k |].
  destruct Hxy as [w w' h Hs | w h e He | w h f p u | w h e n He Hn | w h e n He Hn | w h u];
    cbn [fst snd] in *.
  - apply (IH k); [| done]. destruct Hs as (_ & -> & _). exact Hc.
  - apply (IH k); [done |]. by rewrite inert_offsets.
  - apply (IH (S k)).
    + cbn. rewrite Hc, next_offset_nth by (done || lia). f_equal. lia.
    + rewrite offsets_cons. cbn [offset_of]. rewrite Hl, Hc, walk_S. done.
  - apply (IH k); [done |]. by rewrite (moved_offsets e n).
  - apply (IH k); [done |]. by rewrite (moved_offsets e n).
  - by apply (IH k).
Qed.

(** The walk of a worker that starts at offset 0. *)
Lemma io_steps_walk_0 x y :
  options_ok g -> rtc (io_step g) x y -> cur_offset x.1 = 0 ->
  exists n, offsets y.2 = walk g n ++ offsets x.2 /\ cur_offset y.1 = nth_offset g (Z.of_nat n).
Proof.
  intros Hg H Hc. apply (io_steps_walk _ _ 0 Hg H); [| done]. rewrite Hc.
  unfold nth_offset. by rewrite Z.mod_0_l by (pose proof (cycle_pos g); lia).
Qed.

(** The writes of that walk, and the last block of the file. *)
Lemma io_steps_last_block x y k :
  options_ok g -> file_size g = k * bs g -> 2 <= k ->
  cur_offset x.1 = 0 -> offsets x.2 = [] -> rtc (io_step g) x y ->
  forall off, off ∈ offsets y.2 -> 0 <= off /\ off + bs g <= (k - 1) * bs g.
Proof.
  intros Hg Hk H2 Hc Hl Hs off Hoff.
  destruct (io_steps_walk_0 x y Hg Hs Hc) as (n & E & _).
  rewrite E, Hl, app_nil_r in Hoff. apply elem_of_walk in Hoff as (i & Hi & ->).
  pose proof Hg as (Hb & _ & _). pose proof (cycle_pos g).
  pose proof (Z.mod_pos_bound i (cycle g) ltac:(lia)) as Hm. unfold nth_offset.
  set (r := i mod cycle g) in *.
  destruct (cycle_bound g r Hg Hm) as [Hr | Hr]; [rewrite Hr; nia |].
  assert (r + 1 < k) by (rewrite Hk in Hr; nia). nia.
Qed.

(** The books: counters of the worker and counts of calls agree. *)
Definition books (x : io_worker * history) : Z * Z * Z :=
  (u64 (free_io_units_io_uring x.1 + n_prepared x.2 - n_seen x.2),
   u32 (io_uring_sqe_queued x.1 + n_submitted x.2 - n_prepared x.2),
   u64 (io_completed x.1 - n_seen x.2)).

Lemma triple_eq (a b c a' b' c' : Z) : a = a' -> b = b' -> c = c' -> (a, b, c) = (a', b', c').
Proof. by intros -> -> ->. Qed.
Lemma u64_add a b : u64 (u64 a + b) = u64 (a + b).
Proof. unfold u64. by rewrite Zplus_mod_idemp_l. Qed.
Lemma u32_add a b : u32 (u32 a + b) = u32 (a + b).
Proof. unfold u32. by rewrite Zplus_mod_idemp_l. Qed.

Lemma n_prepared_cons e h :
  n_prepared (e :: h) = n_prepared h + match offset_of e with Some _ => 1 | None => 0 end.
Proof. unfold n_prepared. rewrite offsets_cons. destruct (offset_of e); cbn; lia. Qed.

Local Ltac books_cbn := cbn [offset_of n_submitted n_seen free_io_units_io_uring
  io_uring_sqe_queued io_completed prepared submitted completed set_io].

Lemma io_step_books x y : io_step g x y -> books y = books x.
Proof.
  destruct 1 as [w w' h Hs | w h e He | w h f p u | w h e n He Hn | w h e n He Hn | w h u];
    unfold books; cbn [fst snd].
  - destruct Hs as (-> & _ & -> & ->). done.
  - unfold n_prepared. by rewrite inert_offsets, inert_submitted, inert_seen.
  - rewrite n_prepared_cons. books_cbn.
    rewrite <- !Z.add_sub_assoc, u64_add, u32_add. by apply triple_eq; f_equal; lia.
  - rewrite (moved_prepared e n), (moved_submitted e n), (moved_seen e n) by done. books_cbn.
    rewrite <- !Z.add_sub_assoc, u32_add. by apply triple_eq; f_equal; lia.
  - rewrite (moved_prepared e n), (moved_submitted e n), (moved_seen e n) by done.
    by apply triple_eq; f_equal; lia.
  - rewrite n_prepared_cons. books_cbn.
    unfold Z.sub. rewrite <- !Z.add_assoc, !u64_add. by apply triple_eq; f_equal; lia.
Qed.

Lemma io_steps_books x y : rtc (io_step g) x y -> books y = books x.
Proof. induction 1 as [| x y z H _ IH]; [done |]. by rewrite IH, (io_step_books x y). Qed.

Lemma next_offset_u64 c : 0 <= next_offset g c < 2 ^ 64.
Proof. unfold next_offset. destruct (_ >=? _); [lia | apply u64_range]. Qed.

(** The counters of the worker are values of their C types. *)
Definition io_typed (w : io_worker) : Prop :=
  0 <= io_uring_sqe_queued w < 2 ^ 32 /\ 0 <= cur_offset w < 2 ^ 64 /\
  0 <= io_completed w < 2 ^ 64 /\ 0 <= free_io_units_io_uring w < 2 ^ 64.

Lemma io_step_typed x y : io_step g x y -> io_typed (fst x) -> io_typed (fst y).
Proof.
  destruct 1 as [w w' h (Hq & Hc & Hn & Hf) | | | | |]; cbn [fst]; auto;
    intros (? & ? & ? & ?); unfold io_typed, prepared, submitted, completed;
    books_cbn; cbn [cur_offset set_io];
    rewrite ?Hq, ?Hc, ?Hn, ?Hf; refine (conj _ (conj _ (conj _ _)));
    auto using u32_range, u64_range, next_offset_u64.
Qed.

Lemma io_steps_typed x y : rtc (io_step g) x y -> io_typed (fst x) -> io_typed (fst y).
Proof. induction 1; eauto using io_step_typed. Qed.

(** Between two points of a run the counters have moved by the calls in between:
    [io_uring_sqe_queued] by the writes prepared less those submitted,
    [free_io_units_io_uring] by the completions less the writes prepared,
    [io_completed] by the completions, each in its own width. *)
Record counted (w : io_worker) (h : history) (w' : io_worker) (h' : history) : Prop := {
  ct_queued : io_uring_sqe_queued w' =
    (io_uring_sqe_queued w + (n_prepared h' - n_prepared h) - (n_submitted h' - n_submitted h)) mod 2 ^ 32;
  ct_free : free_io_units_io_uring w' =
    (free_io_units_io_uring w + (n_seen h' - n_seen h) - (n_prepared h' - n_prepared h)) mod 2 ^ 64;
  ct_completed : io_completed w' = (io_completed w + (n_seen h' - n_seen h)) mod 2 ^ 64;
}.

(** A counter that is right up to a known difference, modulo its width. *)
Lemma mod_shift m a b p q : 0 <= a < m -> (a + p) mod m = (b + q) mod m -> a = (b + q - p) mod m.
Proof.
  intros Ha E. replace a with (a mod m) by (by apply Z.mod_small).
  replace a with ((a + p) - p) at 1 by lia. by rewrite Zminus_mod, E, <- Zminus_mod.
Qed.

Lemma io_steps_counted x y : rtc (io_step g) x y -> io_typed x.1 -> counted x.1 x.2 y.1 y.2.
Proof.
  intros H Ht. pose proof (io_steps_typed _ _ H Ht) as (Hq & _ & Hn & Hf).
  pose proof (io_steps_books _ _ H) as B. unfold books, u64, u32 in B. injection B as B1 B2 B3.
  unfold Z.sub in B1, B2, B3. rewrite <- !Z.add_assoc in B1, B2. split.
  - apply mod_shift in B2; [| done]. rewrite B2. f_equal. lia.
  - apply mod_shift in B1; [| done]. rewrite B1. f_equal. lia.
  - apply mod_shift in B3; [| done]. rewrite B3. f_equal. lia.
Qed.
End machine.

(** ** The ring, as liburing documents it *)

Definition is_reading (e : entry) : bool :=
  match e with existT Clock_now _ => true | _ => false end.
(** How often the clock was read. *)
Definition readings (h : history) : nat := length (filter is_reading h).

(** What a submission could move. *)
Definition waiting (h : history) (e : ev) : Z :=
  match e with Uring_submit_writev q => Z.of_nat (length q) | _ => queued h end.

(** A call that moved nothing although there was something to move, and one
    that did. *)
Definition is_stall (h : history) (e : entry) : bool :=
  match e with
  | existT Uring_submit r => (r <=? 0) && (0 <? queued h)
  | existT (Uring_submit_writev q) r => (r <=? 0) && (0 <? Z.of_nat (length q))
  | existT Uring_peek_cqe None => 0 <? inflight h
  | _ => false
  end.
Definition is_progress (e : entry) : bool :=
  match e with
  | existT Uring_submit r => 0 <? r
  | existT (Uring_submit_writev _) r => 0 <? r
  | existT Uring_cqe_seen _ => true
  | _ => false
  end.

(** Stalls since the last progress. *)
Fixpoint stall_run (h : history) : nat :=
  match h with
  | [] => O
  | e :: h => if is_progress e then O else if is_stall h e then S (stall_run h) else stall_run h
  end.

(** A completion is the completion of a submitted write. *)
Class RingCompletes {PF : Platform} : Prop := {
  completion_of : forall h r, world h Uring_peek_cqe = Some r -> 0 < inflight h;
}.

(** A ring of depth [d] has room for [d] entries, takes no more than there are,
    and moves nothing at most [b] times in a row. *)
Class RingLaws {PF : Platform} (d : Z) (b : nat) : Prop := {
  ring_completes :: RingCompletes;
  sqe_room : forall h, queued h < d -> world h Uring_get_sqe = true;
  submit_most : forall h, 0 <= queued h -> world h Uring_submit <= queued h;
  submit_writev_most : forall h q, world h (Uring_submit_writev q) <= Z.of_nat (length q);
  few_ring_stalls : forall h e, is_stall h (e ~> world h e) = true -> (stall_run h < b)%nat;
}.

(** Each reading of the clock takes [pace] nanoseconds or more. *)
Definition clock_pace {PF : Platform} (pace : Z) : Prop := forall l h,
  let t := world h Clock_now in
  t + pace * Z.of_nat (readings l) <= world (l ++ Clock_now ~> t :: h) Clock_now.

(** How often the clock is read before the run time is over. *)
Definition readings_needed (g : options) (pace : Z) : nat :=
  Z.to_nat ((runtime g + 1) * 1000000000 / pace + 1).

Lemma clock_runs_out {PF : Platform} g pace now h l :
  clock_pace pace -> 0 < pace -> 0 <= runtime g -> now = world h Clock_now ->
  (readings_needed g pace <= readings l)%nat ->
  runtime g < Z.quot (world (l ++ Clock_now ~> now :: h) Clock_now - now) 1000000000.
Proof.
  intros Hpace Hp Hrun -> Hl. unfold readings_needed in Hl.
  assert (0 <= (runtime g + 1) * 1000000000 / pace) by (apply Z.div_pos; lia).
  pose proof (Hpace l h) as Hc. cbn zeta in Hc.
  pose proof (Z.mul_succ_div_gt ((runtime g + 1) * 1000000000) pace ltac:(lia)).
  assert ((runtime g + 1) * 1000000000 < pace * Z.of_nat (readings l)) by nia.
  rewrite Z_quot_div by lia.
  enough (runtime g + 1 <= (world (l ++ Clock_now ~> world h Clock_now :: h) Clock_now -
    world h Clock_now) / 1000000000) by lia.
  apply Z.div_le_lower_bound; lia.
Qed.

(** The counters of the worker and the ring agree, and nothing has wrapped. *)
Record ring_inv (d : Z) (w : io_worker) (h : history) : Prop := {
  ri_depth : 0 < d <= INT_MAX;
  ri_queued : io_uring_sqe_queued w = queued h;
  ri_free : free_io_units_io_uring w = d - queued h - inflight h;
  ri_pos : 0 <= queued h /\ 0 <= inflight h /\ 0 <= free_io_units_io_uring w;
}.

Section ring.
Context {PF : Platform} {d : Z} {b : nat} {RL : RingLaws d b} {R : Type}.

(** What the kernel still has to do, stalls included. *)
Definition budget (h : history) : Z :=
  (2 * queued h + inflight h) * (Z.of_nat b + 1) + (Z.of_nat b - Z.of_nat (stall_run h)).

(** [s'] comes after [s], with no more work than before and no reading of the
    clock between. *)
Definition later (s s' : st io_worker) : Prop :=
  start_time (own s') = start_time (own s) /\ budget (log s') <= budget (log s) /\
  (stall_run (log s') <= b)%nat /\
  exists l, log s' = l ++ log s /\ readings l = 0%nat.

Lemma later_refl s : (stall_run (log s) <= b)%nat -> later s s.
Proof. intros H. split_and!; [done | lia | done |]. by exists []. Qed.

Lemma readings_app l l' : readings (l ++ l') = (readings l + readings l')%nat.
Proof. unfold readings. by rewrite filter_app, length_app. Qed.

Lemma later_trans s1 s2 s3 : later s1 s2 -> later s2 s3 -> later s1 s3.
Proof.
  intros (A1 & A2 & A3 & l & A4 & A5) (B1 & B2 & B3 & l' & B4 & B5).
  split_and!; [congruence | lia | done |]. exists (l' ++ l).
  rewrite B4, A4, app_assoc, readings_app, A5, B5. done.
Qed.

Lemma queued_inert e h : inert e -> queued (e :: h) = queued h.
Proof. intros H. unfold queued, n_prepared. by rewrite inert_offsets, inert_submitted. Qed.
Lemma inflight_inert e h : inert e -> inflight (e :: h) = inflight h.
Proof. intros H. unfold inflight. by rewrite inert_submitted, inert_seen. Qed.

Lemma queued_moved e n h : moved e = Some n -> queued (e :: h) = queued h - Z.max 0 n.
Proof. intros H. unfold queued. rewrite (moved_prepared e n), (moved_submitted e n) by done. lia. Qed.
Lemma inflight_moved e n h : moved e = Some n -> inflight (e :: h) = inflight h + Z.max 0 n.
Proof. intros H. unfold inflight. rewrite (moved_submitted e n), (moved_seen e n) by done. lia. Qed.
Lemma moved_progress e n : moved e = Some n -> is_progress e = (0 <? n).
Proof. by destruct e as [[] r]; intros [= <-]. Qed.
Lemma moved_stall e n h : moved e = Some n -> is_stall h e = (n <=? 0) && (0 <? waiting h (projT1 e)).
Proof. by destruct e as [[] r]; intros [= <-]. Qed.
Lemma moved_reading e n : moved e = Some n -> readings [e] = O.
Proof. by destruct e as [[] r]. Qed.
Lemma queued_seen u h : queued (Uring_cqe_seen ~> u :: h) = queued h.
Proof. unfold queued. rewrite n_prepared_cons. cbn [n_submitted offset_of]. lia. Qed.
Lemma inflight_seen u h : inflight (Uring_cqe_seen ~> u :: h) = inflight h - 1.
Proof. unfold inflight. cbn [n_submitted n_seen]. lia. Qed.
Lemma queued_prep f p n o u h : queued (Uring_prep_writev f p n o ~> u :: h) = queued h + 1.
Proof. unfold queued. rewrite n_prepared_cons. cbn [n_submitted offset_of]. lia. Qed.
Lemma inflight_prep f p n o u h : inflight (Uring_prep_writev f p n o ~> u :: h) = inflight h.
Proof. unfold inflight. cbn [n_submitted n_seen]. lia. Qed.

Lemma stall_run_step h e :
  (stall_run h <= b)%nat ->
  (stall_run (e ~> world h e :: h) <= b)%nat /\
  (is_progress (e ~> world h e) = false -> (stall_run h <= stall_run (e ~> world h e :: h))%nat) /\
  (is_progress (e ~> world h e) = false -> is_stall h (e ~> world h e) = true ->
     stall_run (e ~> world h e :: h) = S (stall_run h)).
Proof.
  intros Hb. cbn [stall_run]. destruct (is_progress (e ~> world h e)); [split_and!; [lia | done..] |].
  destruct (is_stall h (e ~> world h e)) eqn:E; [| split_and!; [done | lia | done]].
  pose proof (few_ring_stalls h e E). split_and!; [lia | lia | done].
Qed.

(** A call that is neither a prepare, a submit nor a completion. *)
Lemma later_inert s e :
  inert (e ~> world (log s) e) -> is_reading (e ~> world (log s) e) = false ->
  (stall_run (log s) <= b)%nat ->
  later s (mk_st (own s) (heap s) (e ~> world (log s) e :: log s)).
Proof.
  intros He Hr Hb. destruct (stall_run_step (log s) e Hb) as (H1 & H2 & _).
  split_and!; cbn [own log]; [done | | done |].
  - unfold budget. rewrite queued_inert, inflight_inert by done.
    assert (is_progress (e ~> world (log s) e) = false) as Hp.
    { revert He. generalize (world (log s) e). destruct e; try done. }
    specialize (H2 Hp). lia.
  - exists [e ~> world (log s) e]. split; [done |]. unfold readings. rewrite filter_cons, Hr.
    by case_decide.
Qed.

Lemma ring_inv_inert w h e : inert e -> ring_inv d w h -> ring_inv d w (e :: h).
Proof. intros He [? ? ? ?]. split; rewrite ?queued_inert, ?inflight_inert by done; done. Qed.

(** A completion. *)
Lemma seen_step (s : st io_worker) u :
  ring_inv d (own s) (log s) -> (stall_run (log s) <= b)%nat -> 0 < inflight (log s) ->
  let s' := mk_st (completed (own s)) (heap s) (Uring_cqe_seen ~> u :: log s) in
  ring_inv d (own s') (log s') /\ later s s' /\ budget (log s') < budget (log s) /\
  queued (log s') = queued (log s) /\ inflight (log s') = inflight (log s) - 1 /\
  free_io_units_io_uring (own s') = free_io_units_io_uring (own s) + 1.
Proof.
  intros [Hd Hq Hfr (Hq0 & Hi0 & Hf0)] Hb Hi s'. unfold INT_MAX in Hd.
  assert (budget (log s') < budget (log s)) as Hbud.
  { unfold budget. subst s'. cbn [log stall_run is_progress].
    rewrite queued_seen, inflight_seen. nia. }
  assert (free_io_units_io_uring (own s') = free_io_units_io_uring (own s) + 1) as Hfree.
  { subst s'. cbn. rewrite u64_id; lia. }
  subst s'. cbn [log own] in *.
  split_and!; rewrite ?queued_seen, ?inflight_seen; try done.
  - split; rewrite ?queued_seen, ?inflight_seen; cbn [own]; [done | done | lia | lia].
  - split_and!; cbn [own log]; [done | lia | cbn; lia |]. by exists [Uring_cqe_seen ~> u].
Qed.

Lemma later_seen_inert s e s' :
  later (mk_st (own s) (heap s) (e ~> world (log s) e :: log s)) s' ->
  inert (e ~> world (log s) e) -> is_reading (e ~> world (log s) e) = false ->
  (stall_run (log s) <= b)%nat -> later s s'.
Proof. intros H He Hr Hb. eapply later_trans; [by apply later_inert | exact H]. Qed.

Lemma reap_loop_spec fuel reaped min (s : st io_worker) :
  ring_inv d (own s) (log s) -> (stall_run (log s) <= b)%nat ->
  budget (log s) < Z.of_nat fuel ->
  0 <= reaped <= free_io_units_io_uring (own s) ->
  min = 0 \/ min = 1 /\ 0 < inflight (log s) + reaped ->
  wp (reap_loop fuel reaped min) (fun o s' =>
    ring_inv d (own s') (log s') /\ later s s' /\ queued (log s') = queued (log s) /\
    match o with
    | Val r => 0 <= r /\ (min = 1 -> 0 < free_io_units_io_uring (own s'))
    | Ret r => r = -1
    | _ => False
    end) s.
Proof.
  revert reaped s. induction fuel as [| fuel IH]; intros reaped s I Hb Hf Hr Hm.
  { destruct I as [? ? ? (? & ? & _)]. unfold budget in Hf. nia. }
  pose proof I as [Hd _ Hfr (Hq0 & Hi0 & Hf0)]. unfold INT_MAX in Hd.
  cbn [reap_loop]. apply wp_bind, (wp_ext Uring_peek_cqe). intros c Hw. cbn beta iota.
  assert (inert (Uring_peek_cqe ~> c)) as Hin by done.
  pose proof (stall_run_step (log s) Uring_peek_cqe Hb) as (Hb1 & _ & Hb3).
  pose proof (later_inert s Uring_peek_cqe ltac:(done) eq_refl Hb) as Hl.
  pose proof (ring_inv_inert _ _ _ Hin I) as I1.
  rewrite <- Hw in Hb1, Hb3, Hl.
  set (s1 := mk_st (own s) (heap s) (Uring_peek_cqe ~> c :: log s)) in *.
  assert (budget (log s1) <= budget (log s)) as Hb4 by apply Hl.
  assert (queued (log s1) = queued (log s)) as Q1 by by apply queued_inert.
  assert (inflight (log s1) = inflight (log s)) as Q2 by by apply inflight_inert.
  destruct c as [res |].
  - pose proof (completion_of (log s) res (eq_sym Hw)) as Hinf.
    destruct (res <? 0); [by wp_steps |]. wp_steps.
    destruct (seen_step s1 r I1 Hb1 ltac:(lia)) as (I2 & L2 & B2 & P1 & P2 & P3).
    change (mk_st _ _ _) with (mk_st (completed (own s1)) (heap s1) (Uring_cqe_seen ~> r :: log s1)).
    set (s2 := mk_st (completed (own s1)) _ _) in *.
    change (own s1) with (own s) in P3. rewrite u32_id by lia.
    eapply wp_mono; [| apply (IH (reaped + 1)); [exact I2 | apply L2 | lia | lia | lia]].
    intros o s' (H1 & H2 & H3 & H4). split; [done |].
    split; [eapply later_trans; [exact Hl |]; by eapply later_trans |].
    split; [lia | done].
  - destruct (reaped <? u32 min) eqn:E; bool_hyps.
    + destruct Hm as [-> | [-> Hm]]; rewrite u32_id in E by lia; [lia |].
      assert (is_stall (log s) (Uring_peek_cqe ~> None) = true) as Es by (apply Z.ltb_lt; lia).
      specialize (Hb3 eq_refl Es).
      assert (budget (log s1) < budget (log s)) as Hb5.
      { unfold budget. rewrite Q1, Q2. cbn [log s1] in Hb3 |- *. rewrite Hb3. lia. }
      eapply wp_mono; [| apply (IH reaped); [exact I1 | exact Hb1 | lia | done | lia]].
      intros o s' (H1 & H2 & H3 & H4). split; [done |].
      split; [by eapply later_trans | split; [congruence | done]].
    + wp_steps. rewrite i32_id by lia. split; [exact I1 |]. split; [exact Hl |].
      split; [exact Q1 |]. split; [lia |]. cbn [own s1]. intros ->. rewrite u32_id in E by lia. lia.
Qed.

Lemma budget_bound w h : ring_inv d w h -> budget h <= 2 * d * (Z.of_nat b + 1) + Z.of_nat b.
Proof. intros [Hd ? ? (? & ? & ?)]. unfold budget. nia. Qed.

Lemma reap_or_exit_spec fuel min (s : st io_worker) :
  ring_inv d (own s) (log s) -> (stall_run (log s) <= b)%nat ->
  budget (log s) < Z.of_nat fuel ->
  min = 0 \/ min = 1 /\ 0 < inflight (log s) ->
  wp (reap_or_exit (R := R) fuel min) (fun o s' =>
    ring_inv d (own s') (log s') /\ later s s' /\ queued (log s') = queued (log s) /\
    (o = Stop Thread_exit \/
     o = Val () /\ (min = 1 -> 0 < free_io_units_io_uring (own s')))) s.
Proof.
  intros I Hb Hf Hm. unfold reap_or_exit, reap_io_uring_cq. apply wp_bind, wp_call.
  pose proof I as [_ _ _ (_ & _ & Hf0)].
  eapply wp_mono; [| apply reap_loop_spec; [exact I | exact Hb | exact Hf | lia | lia]].
  intros o s' (H1 & H2 & H3 & H4). destruct o as [r | r | |]; [| | done | done].
  - destruct H4 as [Hr H4]. rewrite (proj2 (Z.ltb_ge r 0)) by lia. unfold when. wp_steps. auto 10.
  - subst r. cbn. wp_steps. auto 10.
Qed.

(** A successful submission. *)
Lemma submit_step (s : st io_worker) e n :
  moved e = Some n ->
  ring_inv d (own s) (log s) -> (stall_run (log s) <= b)%nat -> 0 < n <= queued (log s) ->
  let s' := mk_st (submitted n (own s)) (heap s) (e :: log s) in
  ring_inv d (own s') (log s') /\ later s s' /\ budget (log s') < budget (log s) /\
  queued (log s') = queued (log s) - n.
Proof.
  intros He [Hd Hq Hfr (Hq0 & Hi0 & Hf0)] Hb Hn s'. unfold INT_MAX in Hd.
  assert (queued (log s') = queued (log s) - n) as Q
    by (subst s'; cbn [log]; rewrite (queued_moved e n) by done; lia).
  assert (inflight (log s') = inflight (log s) + n) as Q2
    by (subst s'; cbn [log]; rewrite (inflight_moved e n) by done; lia).
  assert (stall_run (log s') = 0%nat) as E.
  { subst s'. cbn [log stall_run]. by rewrite (moved_progress e n), (proj2 (Z.ltb_lt 0 n)) by (done || lia). }
  assert (budget (log s') < budget (log s)) as Hbud by (unfold budget; rewrite Q, Q2, E; nia).
  split_and!; [| | done | done].
  - split; rewrite ?Q, ?Q2; subst s'; cbn [own submitted set_io io_uring_sqe_queued free_io_units_io_uring];
      [done | | lia | lia]. rewrite u32_id by lia. lia.
  - split_and!; [done | lia | lia |]. exists [e]. split; [done |]. by apply (moved_reading e n).
Qed.

(** A failed one. *)
Lemma busy_step (s : st io_worker) e n :
  moved (e ~> world (log s) e) = Some n ->
  ring_inv d (own s) (log s) -> (stall_run (log s) <= b)%nat -> n <= 0 < waiting (log s) e -> 0 < queued (log s) ->
  let s' := mk_st (own s) (heap s) (e ~> world (log s) e :: log s) in
  ring_inv d (own s') (log s') /\ later s s' /\ budget (log s') < budget (log s) /\
  queued (log s') = queued (log s).
Proof.
  intros He [Hd Hq Hfr (Hq0 & Hi0 & Hf0)] Hb Hn Hn' s'.
  destruct (stall_run_step (log s) e Hb) as (Hb1 & _ & Hb3).
  assert (is_progress (e ~> world (log s) e) = false) as Hp
    by (rewrite (moved_progress _ n) by done; apply Z.ltb_ge; lia).
  assert (is_stall (log s) (e ~> world (log s) e) = true) as Hs.
  { rewrite (moved_stall _ n) by done.
    cbn [projT1]. by rewrite (proj2 (Z.leb_le n 0)), (proj2 (Z.ltb_lt 0 (waiting (log s) e))) by lia. }
  specialize (Hb3 Hp Hs).
  assert (queued (log s') = queued (log s)) as Q
    by (subst s'; cbn [log]; rewrite (queued_moved _ n) by done; lia).
  assert (inflight (log s') = inflight (log s)) as Q2
    by (subst s'; cbn [log]; rewrite (inflight_moved _ n) by done; lia).
  assert (budget (log s') < budget (log s)) as Hbud.
  { unfold budget. rewrite Q, Q2. subst s'. cbn [log]. rewrite Hb3. lia. }
  split_and!; [| | done | done].
  - split; rewrite ?Q, ?Q2; done.
  - split_and!; [done | lia | done |]. exists [e ~> world (log s) e]. split; [done |].
    by apply (moved_reading _ n).
Qed.

Lemma submit_all_spec fuel (s : st io_worker) :
  ring_inv d (own s) (log s) -> (stall_run (log s) <= b)%nat ->
  budget (log s) < Z.of_nat fuel ->
  wp (submit_all (R := R) fuel) (fun o s' =>
    ring_inv d (own s') (log s') /\ later s s' /\
    (o = Stop Thread_exit \/ o = Val () /\ queued (log s') = 0)) s.
Proof.
  revert s. induction fuel as [| fuel IH]; intros s I Hb Hf.
  { destruct I as [? ? ? (? & ? & _)]. unfold budget in Hf. nia. }
  pose proof I as [_ Hq _ (Hq0 & _ & _)].
  cbn [submit_all]. wp_steps. rewrite Hq. destruct (queued (log s) =? 0) eqn:E; bool_hyps.
  { wp_steps. split; [done |]. split; [by apply later_refl |]. by right. }
  apply wp_bind, (wp_ext Uring_submit). intros n Hw. cbn beta iota.
  pose proof (submit_most (log s) Hq0) as Hmost. rewrite <- Hw in Hmost.
  apply wp_bind. destruct (n >? 0) eqn:En; bool_hyps.
  - destruct (submit_step s (Uring_submit ~> n) n eq_refl I Hb ltac:(lia)) as (I1 & L1 & B1 & _). wp_steps.
    eapply wp_mono; [| apply IH; [exact I1 | apply L1 | lia]].
    intros o s' (H1 & H2 & H3). split; [done |]. split; [by eapply later_trans | done].
  - pose proof (busy_step s Uring_submit n) as Hbusy. cbn zeta in Hbusy. rewrite <- Hw in Hbusy.
    destruct (Hbusy eq_refl I Hb ltac:(cbn [waiting]; lia) ltac:(lia)) as (I1 & L1 & B1 & _).
    eapply wp_mono; [| apply reap_or_exit_spec; [exact I1 | apply L1 | lia | by left]].
    intros o s2 (I2 & L2 & _ & H). pose proof (later_trans _ _ _ L1 L2) as L.
    destruct H as [-> | [-> _]]; [by auto |].
    eapply wp_mono; [| apply IH; [exact I2 | apply L2 |]].
    + intros o s' (H1 & H2 & H3). split; [done |]. split; [by eapply later_trans | done].
    + destruct L2 as (_ & ? & _). lia.
Qed.

(** [s'] comes after [s] without a reading of the clock. *)
Definition after (s s' : st io_worker) : Prop :=
  start_time (own s') = start_time (own s) /\ (stall_run (log s') <= b)%nat /\
  exists l, log s' = l ++ log s /\ readings l = 0%nat.

Lemma later_after s s' : later s s' -> after s s'.
Proof. by intros (H1 & _ & H2 & H3). Qed.

Lemma after_trans s1 s2 s3 : after s1 s2 -> after s2 s3 -> after s1 s3.
Proof.
  intros (A1 & A3 & l & A4 & A5) (B1 & B3 & l' & B4 & B5).
  split_and!; [congruence | done |]. exists (l' ++ l).
  rewrite B4, A4, app_assoc, readings_app, A5, B5. done.
Qed.

Context (g : options).
Hypothesis depth_d : io_uring_queue_depth g = d.
Hypothesis batch_ok : 1 <= io_uring_batch_submit g <= d.

Definition bound : Z := 2 * d * (Z.of_nat b + 1) + Z.of_nat b.

Lemma bound_pos : 0 <= bound.
Proof. unfold bound. nia. Qed.

(** The state at the head of the main loop. *)
Definition at_head (s : st io_worker) : Prop :=
  ring_inv d (own s) (log s) /\ (stall_run (log s) <= b)%nat /\
  queued (log s) < io_uring_batch_submit g /\ 0 < free_io_units_io_uring (own s).

Lemma prepare_step (s : st io_worker) f p u :
  at_head s ->
  let s' := mk_st (prepared g (own s)) (heap s)
    (Uring_prep_writev f p (bs g) (cur_offset (own s)) ~> u :: log s) in
  ring_inv d (own s') (log s') /\ after s s' /\ queued (log s') = queued (log s) + 1.
Proof.
  intros ([Hd Hq Hfr (Hq0 & Hi0 & Hf0)] & Hb & Hqb & Hf) s'. unfold INT_MAX in Hd.
  subst s'. cbn [log own]. rewrite queued_prep. split_and!; [| | done].
  - split; rewrite ?queued_prep, ?inflight_prep; cbn; [done | | |].
    + rewrite u32_id; lia.
    + rewrite u64_id; lia.
    + rewrite u64_id; lia.
  - split_and!; cbn [own log]; [done | done |].
    by exists [Uring_prep_writev f p (bs g) (cur_offset (own s)) ~> u].
Qed.

Lemma issue_spec fuel p (s : st io_worker) :
  at_head s -> bound < Z.of_nat fuel ->
  wp (issue (R := R) g fuel p) (fun o s' =>
    after s s' /\ (o = Stop Thread_exit \/ o = Val () /\ at_head s')) s.
Proof.
  intros Hh Hf. pose proof Hh as (I & Hb & Hqb & Hf0). unfold issue.
  apply wp_bind. destruct fuel as [| fuel]; [pose proof bound_pos; lia |]. cbn [get_sqe].
  apply wp_bind, (wp_ext Uring_get_sqe). intros sqe ->. cbn beta iota.
  pose proof (later_inert s Uring_get_sqe ltac:(done) eq_refl Hb) as L0.
  rewrite sqe_room in L0 |- * by lia. wp_steps.
  set (s0 := mk_st (own s) (heap s) (Uring_get_sqe ~> true :: log s)) in *.
  assert (at_head s0) as Hh0.
  { split; [by apply ring_inv_inert |]. split; [apply L0 |]. split; [| done].
    unfold s0. cbn [log]. by rewrite queued_inert. }
  destruct (prepare_step s0 (fd (own s)) (Z.of_nat p) r Hh0) as (I1 & A1 & Q1).
  set (s1 := mk_st (prepared g (own s0)) _ _) in *. fold s1.
  pose proof (after_trans _ _ _ (later_after _ _ L0) A1) as A01.
  assert (queued (log s0) = queued (log s)) as Q0 by by apply queued_inert.
  assert (wp (when (io_uring_sqe_queued (own s1) =? io_uring_batch_submit g) (submit_all (S fuel)))
    (fun o s' => ring_inv d (own s') (log s') /\ after s s' /\
      (o = @Stop R () Thread_exit \/ o = Val () /\ queued (log s') < io_uring_batch_submit g)) s1)
    as Hsub.
  { rewrite (ri_queued _ _ _ I1). destruct (_ =? _) eqn:E; bool_hyps; unfold when.
    - pose proof (budget_bound _ _ I1). unfold bound in Hf.
      eapply wp_mono; [| apply submit_all_spec; [exact I1 | apply A01 | lia]].
      intros o s2 (I2 & L2 & Hz). split; [done |].
      split; [eapply after_trans; [exact A01 | by apply later_after] |].
      destruct Hz as [-> | [-> Hz]]; [by left | right; split; [done | lia]].
    - wp_steps. split; [done |]. split; [done |]. right. split; [done | lia]. }
  revert Hsub. apply wp_mono. intros o s2 (I2 & A2 & [-> | [-> Q2]]); [by split; [| left] |].
  wp_steps. pose proof (budget_bound _ _ I2) as B2. unfold bound in Hf.
  destruct (free_io_units_io_uring (own s2) =? 0) eqn:E; bool_hyps; unfold when.
  - pose proof I2 as [_ _ Hfr _].
    eapply wp_mono; [| apply reap_or_exit_spec; [exact I2 | apply A2 | lia | right; lia]].
    intros o s3 (I3 & L3 & Q3 & Hz). pose proof (after_trans _ _ _ A2 (later_after _ _ L3)) as A3.
    split; [done |]. destruct Hz as [-> | [-> Hz]]; [by left | right].
    split; [done |]. split; [done |]. split; [apply A3 |]. split; [lia | by apply Hz].
  - wp_steps. split; [done |]. right. split; [done |]. split; [done |]. split; [apply A2 |].
    pose proof I2 as [_ _ _ (_ & _ & Hz)]. split; [done | lia].
Qed.

Lemma issue_loop_spec fuel p T h0 (s : st io_worker) l :
  (forall l, (T <= readings l)%nat ->
     runtime g < Z.quot (world (l ++ h0) Clock_now - start_time (own s)) 1000000000) ->
  at_head s -> log s = l ++ h0 -> Z.of_nat (T - readings l) + bound < Z.of_nat fuel ->
  wp (issue_loop (R := R) g fuel p) (fun o s' =>
    o = Stop Thread_exit \/ o = Val () /\ ring_inv d (own s') (log s')) s.
Proof.
  revert s l. induction fuel as [| fuel IH]; intros s l Hdl Hh El Hf;
    [pose proof bound_pos; lia |].
  pose proof Hh as (I & Hb & Hqb & Hf0).
  cbn [issue_loop]. unfold runtime_exceeded. wp_steps. rename r into now, Hw into Hnow.
  destruct (_ >? runtime g) eqn:E; bool_hyps.
  { wp_steps. right. split; [done |]. by apply ring_inv_inert. }
  assert (readings l < T)%nat as Hlt.
  { destruct (decide (T <= readings l)%nat) as [H |]; [| lia].
    specialize (Hdl l H). rewrite <- El, <- Hnow in Hdl. lia. }
  set (s1 := mk_st (own s) (heap s) (Clock_now ~> now :: log s)).
  assert (at_head s1) as Hh1.
  { split; [by apply ring_inv_inert |]. cbn [log s1 own]. rewrite queued_inert by done. done. }
  apply wp_bind. eapply wp_mono; [| apply issue_spec; [exact Hh1 | lia]].
  intros o s2 ((S2 & _ & l' & E2 & R2) & [-> | [-> Hh2]]); [by left |].
  apply (IH s2 (l' ++ Clock_now ~> now :: l)); [by rewrite S2 | done | |].
  - rewrite E2. cbn [log s1]. by rewrite El, <- app_assoc.
  - rewrite readings_app, R2. change (readings (Clock_now ~> now :: l)) with (S (readings l)). lia.
Qed.

Lemma at_head_inert (s : st io_worker) e hp w :
  at_head s -> inert (e ~> world (log s) e) -> same_io (own s) w ->
  at_head (mk_st w hp (e ~> world (log s) e :: log s)).
Proof.
  intros (I & Hb & Hq & Hf) He (E1 & E2 & E3 & E4).
  destruct (ring_inv_inert _ _ (e ~> world (log s) e) He I) as [I1 I2 I3 I4].
  split; [| split; [by apply stall_run_step | split]]; cbn [own log].
  - split; rewrite ?E1, ?E4; done.
  - by rewrite queued_inert.
  - by rewrite E4.
Qed.

Lemma at_head_own s w : at_head s -> same_io (own s) w -> at_head (mk_st w (heap s) (log s)).
Proof.
  intros ([I1 I2 I3 I4] & Hb & Hq & Hf) (E1 & E2 & E3 & E4).
  split; [split; cbn [own log]; rewrite ?E1, ?E4; done |]. cbn [own log]. by rewrite E4.
Qed.

(** One call or assignment before the main loop. *)
Lemma wp_setup_ext {A} e (f : reply e -> M (st io_worker) R A) Q (s : st io_worker) :
  at_head s -> (forall r, inert (e ~> r)) ->
  (forall s', at_head s' -> wp (f (world (log s) e)) Q s') ->
  wp (ext e ≫= f) Q s.
Proof.
  intros Hh He H. apply wp_bind, wp_ext. intros r ->. apply H. by apply at_head_inert.
Qed.

Lemma wp_setup_set {A} (k : io_worker -> io_worker) (f : () -> M (st io_worker) R A) Q s :
  at_head s -> same_io (own s) (k (own s)) ->
  (forall s', at_head s' -> wp (f ()) Q s') ->
  wp (set_own k ≫= f) Q s.
Proof. intros Hh Hk H. apply wp_bind, wp_set_own. apply H. by apply at_head_own. Qed.

Lemma wp_exit_or b' (f : () -> M (st io_worker) R ()) (Q : outcome R () -> st io_worker -> Prop) s :
  at_head s -> Q (Stop Thread_exit) s -> wp (f ()) Q s ->
  wp (when b' (stop_ Thread_exit) ≫= f) Q s.
Proof. intros Hh H1 H2. apply wp_bind. destruct b'; by unfold when; wp_steps. Qed.

Local Ltac setup_ext :=
  match goal with |- wp (mbind ?f (ext ?e)) _ _ => apply (wp_setup_ext e f); [done | done |] end.

Lemma open_test_file_spec (s : st io_worker) :
  at_head s ->
  wp (open_test_file (R := R) g) (fun o s' =>
    o = Stop Thread_exit \/ o = Val () /\ at_head s') s.
Proof.
  intros Hh. unfold open_test_file.
  setup_ext. intros s1 H1. generalize (world (log s) (Sys_open
    (test_file g) [O_DIRECT; O_WRONLY; O_CREAT])). intros f.
  apply wp_setup_set; [done | done |]. intros s2 H2.
  apply wp_exit_or; [done | by left |].
  setup_ext. intros s3 H3.
  destruct (world (log s2) (Sys_fstat f)) as [r st_size].
  apply wp_exit_or; [done | by left |].
  assert (forall s, at_head s -> wp (r0 ← ext (Uring_init (u32 (io_uring_queue_depth g)));
    when (negb (r0 =? 0)) (stop_ Thread_exit)) (fun o s' =>
    o = @Stop R () Thread_exit \/ o = Val () /\ at_head s') s) as Hlast.
  { intros s4 H4. setup_ext. intros s5 H5.
    destruct (negb _); unfold when; wp_steps; [by left | by right]. }
  apply wp_bind. destruct (negb (u64 st_size =? file_size g)); unfold when at 1.
  - setup_ext. intros s4 H4.
    destruct (negb _); unfold when at 1; [apply wp_stop; by left | by apply wp_ret, Hlast].
  - by apply wp_ret, Hlast.
Qed.
End ring.

Section thread_end.
Context {PF : Platform} {R : Type}.

(** The state a thread starts in: nothing queued, nothing in flight. *)
Lemma at_head_start g d b (s : st io_worker) :
  0 < d <= INT_MAX -> 1 <= io_uring_batch_submit g ->
  io_uring_sqe_queued (own s) = 0 -> free_io_units_io_uring (own s) = d ->
  queued (log s) = 0 -> inflight (log s) = 0 -> stall_run (log s) = O ->
  at_head (d := d) (b := b) g s.
Proof.
  intros Hd Hb Hq Hf H1 H2 H3. unfold at_head. rewrite H1, H3.
  split_and!; [| lia | lia | lia]. split; rewrite ?H1, ?H2; [done | done | lia | lia].
Qed.

Lemma do_io_ends g d b {RL : RingLaws d b} pace fuel (s : st io_worker) :
  1 <= io_uring_batch_submit g <= d ->
  clock_pace pace -> 0 < pace -> 0 <= runtime g -> at_head (d := d) (b := b) g s ->
  Z.of_nat (readings_needed g pace) + bound (d := d) (b := b) < Z.of_nat fuel ->
  wp (do_io_io_uring (R := R) g fuel) (fun o s' => o = Stop Thread_exit \/
    o = Val () /\ stopped (own s') = true /\ ring_inv d (own s') (log s')) s.
Proof.
  intros Hbat Hpace Hp Hrun H0 Hfuel.
  unfold do_io_io_uring, memalign, posix_memalign. apply wp_bind.
  eapply wp_mono; [| by apply (open_test_file_spec (R := R) g)].
  intros o s1 [-> | [-> H1]]; [by left |].
  apply wp_bind, wp_bind.
  apply (wp_setup_ext (R := R) g (Alloc (Some PAGESIZE) (bs g))); [done | done |].
  intros s2 H2. cbn beta. destruct (_ =? 0); [| wp_steps; by left].
  apply wp_bind, wp_fresh_block. cbn beta iota. wp_steps.
  assert (forall hp, at_head (d := d) (b := b) g
    (mk_st (set_start r (own s2)) hp (Clock_now ~> r :: log s2))) as H3
    by (intros hp'; rewrite Hw; by apply at_head_inert).
  eapply wp_mono; [| apply (issue_loop_spec (d := d) (b := b) g) with (T := readings_needed g pace)
    (l := []) (h0 := Clock_now ~> r :: log s2); [exact Hbat | | apply H3 | done |]].
  - intros o s3 [-> | [-> I3]]; [by left |]. wp_steps. right. split; [done |]. split; [done |].
    destruct I3. by split.
  - intros l Hl. by apply (clock_runs_out g pace r (log s2) l).
  - change (readings []) with 0%nat. lia.
Qed.

End thread_end.

(** ** A batch that is never reached *)

Definition is_submit (e : entry) : bool :=
  match e with existT Uring_submit _ => true | _ => false end.
Definition submits (h : history) : nat := length (filter is_submit h).

Section starvation.
Context {PF : Platform} {RC : RingCompletes} (g : options) (q0 d : Z) {R : Type}.
Hypothesis depth_d : 0 < d <= INT_MAX.
Hypothesis never : forall i, 1 <= i <= d -> u32 (q0 + i) <> io_uring_batch_submit g.

(** Nothing was submitted; what was prepared is in the queue. *)
Record starved (s : st io_worker) : Prop := {
  sv_submits : submits (log s) = 0%nat;
  sv_submitted : n_submitted (log s) = 0;
  sv_seen : n_seen (log s) = 0;
  sv_queued : io_uring_sqe_queued (own s) = u32 (q0 + n_prepared (log s));
  sv_free : free_io_units_io_uring (own s) = d - n_prepared (log s);
  sv_bound : n_prepared (log s) <= d;
}.

Lemma starved_inert s w hp e r :
  starved s -> inert (e ~> r) -> same_io (own s) w ->
  starved (mk_st w hp (e ~> r :: log s)).
Proof.
  intros [] He (E1 & _ & _ & E4).
  split; cbn [own log]; rewrite ?E1, ?E4, ?inert_submitted, ?inert_seen by done;
    unfold n_prepared; rewrite ?inert_offsets by done; try done.
  destruct e; try done.
Qed.

Lemma starved_own s w hp : starved s -> same_io (own s) w -> starved (mk_st w hp (log s)).
Proof. intros [] (E1 & _ & _ & E4). split; cbn [own log]; rewrite ?E1, ?E4; done. Qed.

Lemma starved_reap fuel reaped min (s : st io_worker) :
  starved s ->
  wp (reap_loop fuel reaped min) (fun o s' => starved s' /\ n_prepared (log s') = n_prepared (log s) /\
    (o = NoFuel \/ (reaped <? u32 min) = false /\ o = Val (i32 reaped))) s.
Proof.
  revert s. induction fuel as [| fuel IH]; intros s Hs; cbn [reap_loop].
  { apply wp_nofuel. by auto. }
  apply wp_bind, (wp_ext Uring_peek_cqe). intros c Hw. cbn beta iota.
  destruct c as [res |].
  { pose proof (completion_of _ _ (eq_sym Hw)) as H. destruct Hs as [_ H1 H2 _ _ _].
    unfold inflight in H. lia. }
  assert (starved (mk_st (own s) (heap s) (Uring_peek_cqe ~> None :: log s))) as Hs'
    by by apply starved_inert.
  destruct (reaped <? u32 min).
  - eapply wp_mono; [| by apply IH]. cbn [log].
    unfold n_prepared. intros o s' H. rewrite inert_offsets in H by done. exact H.
  - wp_steps. split; [done |]. split; [unfold n_prepared; by rewrite inert_offsets | by right].
Qed.

Lemma starved_reap_or_exit fuel min (s : st io_worker) :
  starved s ->
  wp (reap_or_exit (R := R) fuel min) (fun o s' => starved s' /\
    n_prepared (log s') = n_prepared (log s) /\
    (o = NoFuel \/ u32 min = 0 /\ o = Val ())) s.
Proof.
  intros Hs. unfold reap_or_exit, reap_io_uring_cq. apply wp_bind, wp_call.
  eapply wp_mono; [| by apply starved_reap]. intros o s' (H1 & H2 & [-> | [H3 ->]]); [by auto |].
  change (i32 0 <? 0) with false. unfold when. wp_steps. bool_hyps.
  pose proof (u32_range min). split; [done |]. split; [done |]. right. split; [lia | done].
Qed.

Lemma starved_get_sqe fuel (s : st io_worker) :
  starved s ->
  wp (get_sqe (R := R) fuel) (fun o s' => starved s' /\
    n_prepared (log s') = n_prepared (log s) /\ (o = NoFuel \/ o = Val ())) s.
Proof.
  revert s. induction fuel as [| fuel IH]; intros s Hs; cbn [get_sqe]; [apply wp_nofuel; by auto |].
  apply wp_bind, (wp_ext Uring_get_sqe). intros sqe _. cbn beta iota.
  set (s1 := mk_st (own s) (heap s) (Uring_get_sqe ~> sqe :: log s)).
  assert (starved s1) as Hs1 by by apply starved_inert.
  assert (n_prepared (log s1) = n_prepared (log s)) as E
    by (unfold n_prepared; cbn [log s1]; by rewrite inert_offsets).
  destruct sqe; [wp_steps; by auto |].
  apply wp_bind. eapply wp_mono; [| by apply starved_reap_or_exit].
  intros o s2 (H1 & H2 & [-> | [_ ->]]); [split; [done |]; split; [congruence | by left] |].
  eapply wp_mono; [| by apply IH]. intros o s3 (H3 & H4 & H5).
  split; [done |]. split; [congruence | done].
Qed.

Lemma starved_issue fuel p (s : st io_worker) :
  starved s -> 0 < free_io_units_io_uring (own s) ->
  wp (issue (R := R) g fuel p) (fun o s' => starved s' /\
    (o = NoFuel \/ o = Val () /\ 0 < free_io_units_io_uring (own s'))) s.
Proof.
  intros Hs Hf. unfold issue. apply wp_bind.
  eapply wp_mono; [| by apply starved_get_sqe]. intros o s1 (H1 & H2 & [-> | ->]); [by auto |].
  wp_steps. pose proof Hs as [_ _ _ _ F0 _]. pose proof H1 as [S1 S2 S3 S4 S5 S6].
  unfold INT_MAX in *.
  set (h := _ :: log s1).
  assert (n_prepared h = n_prepared (log s1) + 1) as E
    by (subst h; rewrite n_prepared_cons; cbn [offset_of]; lia).
  assert (0 <= n_prepared (log s1)) by (unfold n_prepared; lia).
  set (s2 := mk_st (prepared g (own s1)) _ h).
  assert (starved s2) as Hs2.
  { split; subst s2; cbn [own log]; rewrite ?E; [done | done | done | | | lia]; cbn.
    - rewrite S4, u32_add. f_equal. lia.
    - rewrite S5, u64_id; lia. }
  change (prepared g (own s1)) with (own s2).
  assert ((io_uring_sqe_queued (own s2) =? io_uring_batch_submit g) = false) as ->.
  { apply Z.eqb_neq. rewrite (sv_queued _ Hs2). apply never. subst s2. cbn [log]. lia. }
  unfold when at 1. wp_steps. change (prepared g (own s1)) with (own s2).
  destruct (free_io_units_io_uring (own s2) =? 0) eqn:E0; bool_hyps; unfold when.
  - eapply wp_mono; [| by apply starved_reap_or_exit].
    intros o s3 (H3 & _ & [-> | [[=] _]]). by auto.
  - wp_steps. split; [done |]. right. split; [done |].
    pose proof Hs2 as [_ _ _ _ S5' S6']. lia.
Qed.

Lemma starved_issue_loop fuel p (s : st io_worker) :
  starved s -> 0 < free_io_units_io_uring (own s) ->
  wp (issue_loop (R := R) g fuel p) (fun _ s' => starved s') s.
Proof.
  revert s. induction fuel as [| fuel IH]; intros s Hs Hf; cbn [issue_loop]; [by apply wp_nofuel |].
  unfold runtime_exceeded. wp_steps.
  set (s1 := mk_st (own s) (heap s) (Clock_now ~> r :: log s)).
  assert (starved s1) as Hs1 by by apply starved_inert.
  destruct (_ >? _); [by wp_steps |].
  apply wp_bind. eapply wp_mono; [| by apply starved_issue].
  intros o s2 (H1 & [-> | [-> H2]]); [done |]. by apply IH.
Qed.

(** Before the main loop. *)
Definition fresh (s : st io_worker) : Prop := starved s /\ 0 < free_io_units_io_uring (own s).

Lemma fresh_ext {A} e (f : reply e -> M (st io_worker) R A) (Q : outcome R A -> st io_worker -> Prop) s :
  fresh s -> (forall r, inert (e ~> r)) ->
  (forall r s', fresh s' -> wp (f r) Q s') -> wp (ext e ≫= f) Q s.
Proof.
  intros [Hs Hf] He H. apply wp_bind, wp_ext. intros r _. apply H.
  by split; [apply starved_inert |].
Qed.

Lemma fresh_set {A} (k : io_worker -> io_worker) (f : () -> M (st io_worker) R A) Q s :
  fresh s -> same_io (own s) (k (own s)) ->
  (forall s', fresh s' -> wp (f ()) Q s') -> wp (set_own k ≫= f) Q s.
Proof.
  intros [Hs Hf] Hk H. apply wp_bind, wp_set_own, H. split; [by apply starved_own |].
  destruct Hk as (_ & _ & _ & E). cbn [own]. by rewrite E.
Qed.

Lemma fresh_exit b (f : () -> M (st io_worker) R ()) (Q : outcome R () -> st io_worker -> Prop) s :
  fresh s -> Q (Stop Thread_exit) s -> wp (f ()) Q s ->
  wp (when b (stop_ Thread_exit) ≫= f) Q s.
Proof. intros Hh H1 H2. apply wp_bind. destruct b; by unfold when; wp_steps. Qed.

Local Ltac fresh_ext :=
  match goal with |- wp (mbind ?f (ext ?e)) _ _ => apply (fresh_ext e f); [done | done |] end.

Lemma fresh_open_test_file (s : st io_worker) :
  fresh s ->
  wp (open_test_file (R := R) g) (fun o s' => fresh s' /\ o <> NoFuel) s.
Proof.
  intros Hh. unfold open_test_file.
  fresh_ext. intros f s1 H1.
  apply fresh_set; [done | done |]. intros s2 H2.
  apply fresh_exit; [done | by split |].
  fresh_ext. intros [r st_size] s3 H3.
  apply fresh_exit; [done | by split |].
  assert (forall s, fresh s -> wp (r0 ← ext (Uring_init (u32 (io_uring_queue_depth g)));
    when (negb (r0 =? 0)) (stop_ Thread_exit)) (fun o s' => fresh s' /\ o <> @NoFuel R ()) s) as Hlast.
  { intros s4 H4. fresh_ext. intros x s5 H5.
    destruct (negb _); unfold when; by wp_steps. }
  apply wp_bind. destruct (negb (u64 st_size =? file_size g)); unfold when at 1.
  - fresh_ext. intros x s4 H4.
    destruct (negb _); unfold when at 1; [by apply wp_stop | by apply wp_ret, Hlast].
  - by apply wp_ret, Hlast.
Qed.

Lemma starved_do_io fuel (s : st io_worker) :
  fresh s -> wp (do_io_io_uring (R := R) g fuel) (fun _ s' => starved s') s.
Proof.
  intros Hs. unfold do_io_io_uring, memalign, posix_memalign. apply wp_bind.
  eapply wp_mono; [| by apply fresh_open_test_file].
  intros o s1 [H1 H2]. destruct o; [| by apply H1..].
  apply wp_bind, wp_bind. fresh_ext. intros r s2 [H3 H4]. cbn beta.
  destruct (r =? 0); wp_steps; [| done].
  eapply wp_mono; [| apply starved_issue_loop; [by apply starved_inert | done]].
  intros o s3 H5. destruct o; [| done..]. wp_steps. by apply starved_own.
Qed.
End starvation.

(** ** Theorems *)

Section theorems.
Context {PF : Platform} (g : options) {R : Type}.

(** C18: The worker's books are kept.  Whatever the kernel answers and however
    the run ends, [io_uring_sqe_queued] has changed by the writes prepared less
    those the kernel has taken, [free_io_units_io_uring] by the completions
    taken off the ring less the writes prepared, and [io_completed] by these
    completions, modulo the width of each counter. *)
Theorem do_io_keeps_books fuel (s : st io_worker) o s' :
  io_typed (own s) -> do_io_io_uring (R := R) g fuel s = (o, s') ->
  counted (own s) (log s) (own s') (log s').
Proof.
  intros Ht H.
  exact (io_steps_counted g (own s, log s) (own s', log s') (wp_run _ _ _ (refines_do_io g fuel s) _ _ H) Ht).
Qed.

(** C29: Where the writes go.  From a worker whose offset is 0, and for options
    with [bs > 0] and [file_size + 2 * bs < 2 ^ 64], the [i]-th write of any run
    goes to [i mod cycle * bs] with [cycle = max 1 ((file_size - 1) / bs)]; the
    offset the worker keeps is that of its next write. *)
Theorem do_io_offsets fuel (s : st io_worker) o s' :
  options_ok g -> cur_offset (own s) = 0 ->
  do_io_io_uring (R := R) g fuel s = (o, s') ->
  exists n, offsets (log s') = walk g n ++ offsets (log s) /\
    cur_offset (own s') = nth_offset g (Z.of_nat n).
Proof.
  intros Hg Hc H. pose proof (wp_run _ _ _ (refines_do_io g fuel s) _ _ H) as Hs.
  exact (io_steps_walk_0 g _ _ Hg Hs Hc).
Qed.

(** C27: Take a worker whose offset is 0 at the start ([launch_worker] does not
    see to that) and a file of [k >= 2] blocks of [bs] bytes, [file_size =
    k * bs].  Every write stays inside the test file, and its last block is
    never written: the test [>=] that wraps the offset is one block early. *)
Theorem last_block_never_written fuel (s : st io_worker) o s' k :
  options_ok g -> file_size g = k * bs g -> 2 <= k ->
  cur_offset (own s) = 0 -> offsets (log s) = [] ->
  do_io_io_uring (R := R) g fuel s = (o, s') ->
  forall off, off ∈ offsets (log s') -> 0 <= off /\ off + bs g <= (k - 1) * bs g.
Proof.
  intros Hg Hk H2 Hc Hl H.
  exact (io_steps_last_block g (own s, log s) (own s', log s') k Hg Hk H2 Hc Hl
    (wp_run _ _ _ (refines_do_io g fuel s) _ _ H)).
Qed.

(** C9: The io_uring benchmark ends when its batch is not larger than the queue and
    its worker starts with [io_uring_sqe_queued = 0] and all [d] units free (the
    first is what the allocator left, see [launch_worker_keeps_garbage]; without
    it or with a larger batch nothing is ever submitted, see
    [large_batch_never_submits]).  On a ring that makes progress after at most [b]
    idle calls and a clock that advances, [do_io_io_uring] ends for every large
    enough [fuel], by returning with [stopped] set or by [pthread_exit] on an
    error.  When it returns, no more than the queue depth is outstanding, and
    [io_uring_sqe_queued] and [free_io_units_io_uring] are exactly the
    prepared writes the kernel has not taken and the units left: neither has
    wrapped. *)
Theorem do_io_terminates d b {RL : RingLaws d b} pace fuel (w : io_worker) hp :
  io_uring_queue_depth g = d -> 0 < d <= INT_MAX ->
  1 <= io_uring_batch_submit g <= d ->
  clock_pace pace -> 0 < pace -> 0 <= runtime g ->
  io_uring_sqe_queued w = 0 -> free_io_units_io_uring w = d ->
  (runtime g + 1) * 1000000000 / pace + 1 + bound (d := d) (b := b) < Z.of_nat fuel ->
  exists o s', do_io_io_uring (R := R) g fuel (mk_st w hp []) = (o, s') /\
    (o = Stop Thread_exit \/
     o = Val () /\ stopped (own s') = true /\ ring_inv d (own s') (log s')).
Proof.
  intros Hd Hdr Hbat Hpace Hp Hrun Hq Hf Hfuel.
  assert (at_head (d := d) (b := b) g (mk_st w hp [])) as H0 by (apply at_head_start; done || lia).
  pose proof (do_io_ends (R := R) g d b pace fuel (mk_st w hp []) Hbat Hpace Hp Hrun H0) as H.
  assert (0 <= (runtime g + 1) * 1000000000 / pace) by (apply Z.div_pos; lia).
  specialize (H ltac:(unfold readings_needed; lia)).
  unfold wp in H; destruct (do_io_io_uring g fuel _) as [o s']; eauto.
Qed.

(** A batch larger than the queue is never submitted: if no value the counter
    takes on the way to a full queue equals the batch size (for example because
    the batch is larger than the queue depth, or because the counter started
    from garbage), then on every run, however long, not one write is submitted
    and at most [d] are prepared. *)
Theorem large_batch_never_submits {RC : RingCompletes} d fuel (w : io_worker) hp o s' :
  0 < d <= INT_MAX -> free_io_units_io_uring w = d ->
  0 <= io_uring_sqe_queued w < 2 ^ 32 ->
  (forall i, 1 <= i <= d -> u32 (io_uring_sqe_queued w + i) <> io_uring_batch_submit g) ->
  do_io_io_uring (R := R) g fuel (mk_st w hp []) = (o, s') ->
  submits (log s') = 0%nat /\ n_prepared (log s') <= d.
Proof.
  intros Hd Hf Hq Hn. apply (wp_run _ (fun _ s' => submits (log s') = 0%nat /\ n_prepared (log s') <= d)).
  eapply wp_mono; [| apply (starved_do_io (R := R) g (io_uring_sqe_queued w) d Hd Hn)].
  - by intros o1 s1 [].
  - split; [| cbn; lia]. split; cbn [own log]; change (n_prepared []) with 0; try done;
      rewrite ?Z.add_0_r, ?u32_id; lia.
Qed.

(** [launch_worker] clears 8 bytes of the block it allocated instead of
    all: the worker starts at whatever offset, number of queued entries and
    number of completions the allocator left there. *)
Theorem launch_worker_keeps_garbage garbage cpu (s : st io_worker) ok s' :
  launch_worker (R := R) g garbage cpu s = (Val ok, s') ->
  let w := own s' in
  worker_id w = 0 /\ stopped w = false /\ rdma_wr_posted w = 0 /\
  free_io_units_io_uring w = u64 (io_uring_queue_depth g) /\
  free_io_units_rdma w = u64 (rdma_queue_depth g) /\
  cur_offset w = cur_offset garbage /\ io_uring_sqe_queued w = io_uring_sqe_queued garbage /\
  io_completed w = io_completed garbage.
Proof.
  intros H. refine (wp_run (launch_worker (R := R) g garbage cpu) (fun o s' => o = Val ok ->
    worker_id (own s') = 0 /\ _) s _ _ _ H eq_refl).
  unfold launch_worker. wp_steps. destruct (negb _); [by wp_steps |].
  wp_steps. destruct r0 as [x t]. unfold set_worker_cpu. wp_steps. by intros _.
Qed.

(** The command line is read exactly for block sizes from 1 KB up to
    4 GB (exclusive) and file sizes up to 2^31 GB, and then the offsets do not
    wrap; a block size that is larger by 2^22 KB is read as the same one. *)
Theorem parse_args_exact argc a :
  argc <> 1 -> 0 < a_bs a < 2 ^ 22 -> 0 <= a_filesize a < 2 ^ 31 ->
  exists g, parse_args argc (Some a) = (0, Some g) /\ options_ok g /\
    bs g = a_bs a * 1024 /\ file_size g = a_filesize a * 2 ^ 30 /\
    io_uring_queue_depth g = a_iouring_qd a /\
    parse_args argc (Some (mk_arguments (2 ^ 22 + a_bs a) (a_file a) (a_iouring_qd a) (a_rdma_qd a)
      (a_runtime a) (a_filesize a) (a_iouring_batch_submit a) (a_rdma_batch_submit a)
      (a_client a) (a_host a) (a_port a) (a_user_rdma a) (a_event a))) = (0, Some g).
Proof.
  intros Ha Hb Hf. unfold parse_args. rewrite (proj2 (Z.eqb_neq argc 1)) by done.
  eexists. split; [reflexivity |]. cbn [bs file_size io_uring_queue_depth a_bs a_filesize].
  unfold options_ok, KB, GB. cbn [bs file_size].
  rewrite (u32_id (a_bs a)), (u32_id (a_bs a * 1024)), (u64_id (a_filesize a)), u64_id by lia.
  split_and!; try lia; try done. do 2 f_equal.
  cbn [a_iouring_batch_submit a_rdma_batch_submit a_file a_iouring_qd a_rdma_qd a_runtime a_client
    a_user_rdma a_host a_port a_event]. f_equal.
  rewrite (u32_id (2 ^ 22 + a_bs a)) by lia.
  replace ((2 ^ 22 + a_bs a) * 1024) with (a_bs a * 1024 + 1 * 2 ^ 32) by lia.
  unfold u32. rewrite Z_mod_plus_full. apply Z.mod_small. lia.
Qed.
End theorems.

(** ** Instances *)

(** A ring that takes and completes everything at once, on a machine whose clock
    advances two seconds between readings. *)
Definition fast_ring : Platform := platform_of (fun h e =>
  match e with
  | Sys_open _ _ => 5
  | Clock_now => 2000000000 * Z.of_nat (readings h)
  | Uring_submit => queued h
  | Uring_submit_writev q => Z.of_nat (length q)
  | Uring_peek_cqe => if 0 <? inflight h then Some 0 else None
  | Pthread_create _ => (0, 77)
  | e => default_reply e
  end).

#[export] Instance fast_ring_laws d : RingLaws (PF := fast_ring) d 0.
Proof.
  split.
  - split. intros h r. cbn. destruct (0 <? inflight h) eqn:E; bool_hyps; [done | discriminate].
  - done.
  - intros h _. cbn. lia.
  - intros h q. cbn. lia.
  - intros h e. destruct e; cbn; try discriminate.
    + intros [H1 H2]%andb_true_iff. bool_hyps. lia.
    + destruct (0 <? inflight h); discriminate.
    + intros [H1 H2]%andb_true_iff. bool_hyps. lia.
Qed.

Lemma fast_ring_pace : clock_pace (PF := fast_ring) 2000000000.
Proof.
  intros l h. cbn. unfold readings. rewrite filter_app, length_app.
  rewrite filter_cons_True by done. cbn [length]. lia.
Qed.

(** Writes of 4 KB to a file of 16 KB, submitted in pairs, for 0 seconds. *)
Definition small_options (batch : Z) : options :=
  mk_options 4096 batch 32 "/mnt/test" 16384 4 128 0 false false "10.10.1.2" 9876 false.

Definition no_rdma : rdma_stuff := mk_rdma 0 0 0 0 0 0 0 (mk_rmt 0 0 0) 0 0 (mk_mr 0 0 0).
Definition fresh_worker : io_worker := mk_worker 0 0 0 0 0 4 128 0 0 false 0 no_rdma.
Definition fresh_state : st io_worker := mk_st fresh_worker heap_empty [].

Lemma small_options_ok batch : options_ok (small_options batch).
Proof. unfold options_ok, small_options. cbn. lia. Qed.

Lemma do_io_terminates_witness :
  exists o s',
    do_io_io_uring (PF := fast_ring) (R := Empty_set) (small_options 2) 20 fresh_state = (o, s') /\
    (o = Stop Thread_exit \/
     o = Val () /\ stopped (own s') = true /\ ring_inv 4 (own s') (log s')).
Proof.
  exact (do_io_terminates (PF := fast_ring) (small_options 2) (R := Empty_set) 4 0 2000000000 20
    fresh_worker heap_empty eq_refl ltac:(done) ltac:(done) fast_ring_pace eq_refl ltac:(done)
    eq_refl eq_refl ltac:(done)).
Defined.

(** The run of the next instances, on a clock that stands still: it is
    cut after [fuel] rounds. *)
Definition slow_clock : Platform := platform_of (fun h e =>
  match e with
  | Uring_submit => queued h
  | Uring_peek_cqe => if 0 <? inflight h then Some 0 else None
  | e => default_reply e
  end).

#[export] Instance slow_clock_completes : RingCompletes (PF := slow_clock).
Proof.
  split. intros h r. cbn. destruct (0 <? inflight h) eqn:E; bool_hyps; [done | discriminate].
Qed.

Lemma do_io_keeps_books_witness :
  exists o s', do_io_io_uring (PF := slow_clock) (R := Empty_set) (small_options 2) 12 fresh_state =
      (o, s') /\ counted fresh_worker [] (own s') (log s').
Proof.
  assert (io_typed (own fresh_state)) as H by (unfold io_typed; cbn; lia).
  destruct
    (do_io_io_uring (PF := slow_clock) (R := Empty_set) (small_options 2) 12 fresh_state)
    as [o s'] eqn:E.
  exists o, s'. split; [exact eq_refl |].
  exact (do_io_keeps_books (PF := slow_clock) (small_options 2) (R := Empty_set) 12
    fresh_state o s' H E).
Defined.

Lemma do_io_offsets_witness :
  exists o s' n, do_io_io_uring (PF := slow_clock) (R := Empty_set) (small_options 2) 12 fresh_state =
      (o, s') /\ offsets (log s') = walk (small_options 2) n ++ [] /\
    cur_offset (own s') = nth_offset (small_options 2) (Z.of_nat n).
Proof.
  destruct
    (do_io_io_uring (PF := slow_clock) (R := Empty_set) (small_options 2) 12 fresh_state)
    as [o s'] eqn:E.
  exists o, s'.
  destruct (do_io_offsets (PF := slow_clock) (small_options 2) (R := Empty_set) 12
    fresh_state o s'
    (small_options_ok 2) eq_refl E) as (n & H).
  exists n. split; [exact eq_refl | exact H].
Defined.

Lemma last_block_never_written_witness :
  exists o s', do_io_io_uring (PF := slow_clock) (R := Empty_set) (small_options 2) 12 fresh_state =
      (o, s') /\
    forall off, off ∈ offsets (log s') -> 0 <= off /\ off + 4096 <= 12288.
Proof.
  assert (2 <= 4) as Hk by done.
  destruct
    (do_io_io_uring (PF := slow_clock) (R := Empty_set) (small_options 2) 12 fresh_state)
    as [o s'] eqn:E.
  exists o, s'. split; [exact eq_refl |].
  exact (last_block_never_written (PF := slow_clock) (small_options 2) (R := Empty_set) 12
    fresh_state o s' 4
    (small_options_ok 2) eq_refl Hk eq_refl eq_refl E).
Defined.

Lemma large_batch_never_submits_witness :
  exists o s', do_io_io_uring (PF := slow_clock) (R := Empty_set) (small_options 5) 12
      (mk_st fresh_worker heap_empty []) = (o, s') /\ submits (log s') = 0%nat /\ n_prepared (log s') <= 4.
Proof.
  assert (0 < 4 <= INT_MAX) as H1 by done.
  assert (0 <= io_uring_sqe_queued fresh_worker < 2 ^ 32) as H2 by done.
  assert (forall i, 1 <= i <= 4 -> u32 (io_uring_sqe_queued fresh_worker + i) <>
            io_uring_batch_submit (small_options 5)) as H3.
  { intros i Hi. cbn [io_uring_sqe_queued fresh_worker io_uring_batch_submit small_options].
    rewrite u32_id by lia. lia. }
  destruct
    (do_io_io_uring (PF := slow_clock) (R := Empty_set) (small_options 5) 12
      (mk_st fresh_worker heap_empty [])) as [o s'] eqn:E.
  exists o, s'. split; [exact eq_refl |].
  exact (large_batch_never_submits (PF := slow_clock) (small_options 5) (R := Empty_set) 4 12
    fresh_worker heap_empty o s' H1 eq_refl H2 H3 E).
Defined.

Lemma launch_worker_keeps_garbage_witness :
  exists ok s',
    launch_worker (PF := fast_ring) (R := Empty_set) (small_options 2)
      (set_io 9 123 7 0 fresh_worker) 0 fresh_state = (Val ok, s') /\
    cur_offset (own s') = 123.
Proof.
  destruct (launch_worker (PF := fast_ring) (R := Empty_set) (small_options 2)
      (set_io 9 123 7 0 fresh_worker) 0 fresh_state) as [[ok | r | u |] s'] eqn:E;
    [| vm_compute in E; discriminate E..].
  exists ok, s'. split; [exact eq_refl |].
  destruct (launch_worker_keeps_garbage (PF := fast_ring) (small_options 2) (R := Empty_set)
    (set_io 9 123 7 0 fresh_worker) 0 fresh_state ok s' E) as (_ & _ & _ & _ & _ & H & _).
  exact H.
Defined.

Lemma parse_args_exact_witness :
  exists g, parse_args 2 (Some default_arguments) = (0, Some g) /\ options_ok g /\
    bs g = 4096 /\ file_size g = 10 * 2 ^ 30.
Proof.
  destruct (parse_args_exact 2 default_arguments ltac:(done) ltac:(done) ltac:(done))
    as (g & H1 & H2 & H3 & H4 & _).
  exists g. split; [exact H1 |]. split; [exact H2 |]. split; [exact H3 | exact H4].
Defined.
