(* ===== verification/FileServer.v ===== *)
(** * The file server, synchronous handlers (src/src/file_target.cc)

    A client streams messages that each carry a file name and one buffer of
    data; the handlers append the buffers to files.  [main] keeps the server on
    its stack, so the integer members are indeterminate until [SetParameters]
    has run.  A stream handler's [fuel] bounds the messages it reads. *)

From S2P Require Import Prelude Proto Env BlockServer.

Record file_times := mk_times {
  time_on_allocation : Z;
  time_on_rw : Z;
  time_total : Z;
  time_on_open : Z;
}.

Record GRPCFileServerSync := mk_files {
  address : string;
  port : Z;
  queue_depth : option Z;
  poll_threshold : option Z;
  times : file_times;
  buffer_size : option Z;     (* size_t *)
  blk_size : option Z;
  N : option Z;
  fn : option Z;
  dummy : Z;                  (* atomic_int *)
}.

(** The constructor. *)
Definition construct (addr : string) (port : Z) : GRPCFileServerSync :=
  mk_files addr port None None (mk_times 0 0 0 0) None None None None 0.

Definition set_times (t : file_times) (g : GRPCFileServerSync) : GRPCFileServerSync :=
  mk_files (address g) (port g) (queue_depth g) (poll_threshold g) t (buffer_size g)
    (blk_size g) (N g) (fn g) (dummy g).

Definition spend (alloc rw total open : Z) (g : GRPCFileServerSync) : GRPCFileServerSync :=
  let t := times g in
  set_times (mk_times (time_on_allocation t + alloc) (time_on_rw t + rw) (time_total t + total)
               (time_on_open t + open)) g.

Definition FileReply_default : FileReply := {| stats := "" |}.

Section FileServer.
Context {PF : Platform} {R : Type}.

Definition run : M (st GRPCFileServerSync) R Z :=
  g ← get_own (fun g => g);
  ext (Grpc_serve (address g +:+ ":" +:+ pretty (port g))%string);;
  mret 0.

Definition SetParameters (params : Parameters) : M (st GRPCFileServerSync) R Status :=
  set_own (fun g =>
    mk_files (address g) (port g) (Some (p_queue_depth params)) (Some (p_poll_threshold params))
      (times g) (Some (u64 (p_buffer_size params))) (Some (p_blk_size params))
      (Some (p_n params)) (Some (p_nfiles params)) (dummy g));;
  mret OK.

(** [posix_memalign(&buffer, blk_size, buffer_size)]. *)
Definition new_buffer {R} : M (st GRPCFileServerSync) R (Z * option loc) :=
  blk ← get_own blk_size; blk ← read_init blk;
  size ← get_own buffer_size; size ← read_init size;
  posix_memalign (u64 blk) size.

(** [memcpy(buffer, request.data().data(), buffer_size)]. *)
Definition copy_data {R} (buffer : option loc) (request : FileRequest)
  : M (st GRPCFileServerSync) R () :=
  size ← get_own buffer_size; size ← read_init size;
  memcpy buffer (c_str (fr_data request)) size.

(** [write(fd, buffer, buffer_size)]; the buffer is [buffer_size] long. *)
Definition write_buffer {R} (fd : Z) (buffer : option loc) : M (st GRPCFileServerSync) R Z :=
  '(_, b) ← block_at buffer;
  ext (Sys_write fd b).

Definition timed (start : Z) (f : Z -> GRPCFileServerSync -> GRPCFileServerSync) {R}
  : M (st GRPCFileServerSync) R () :=
  now ← ext Clock_now; set_own (f (now - start)).

(** One round of [AppendOneLargeFile]: the body of its [do] and the [Read]
    of its condition, which is yielded. *)
Definition large_round (fd : Z) (request : FileRequest)
  : M (st GRPCFileServerSync) Status (option FileRequest) :=
  allocation_start ← ext Clock_now;
  '(err, buffer) ← new_buffer;
  if negb (err =? 0) then return_ (UNKNOWN "posix_memalign failed") else
  copy_data buffer request;;
  timed allocation_start (fun t => spend t 0 0 0);;
  rw_start ← ext Clock_now;
  err ← write_buffer fd buffer;
  timed rw_start (fun t => spend 0 t 0 0);;
  if i32 err <? 0 then return_ (UNKNOWN "write data failed") else
  _ ← ext (Stream_write FileReply_default);
  ext Stream_read.

Fixpoint large_loop (fuel : nat) (fd : Z) (request : FileRequest)
  : M (st GRPCFileServerSync) Status () :=
  match fuel with
  | O => nofuel
  | S fuel =>
      next ← large_round fd request;
      match next with
      | Some request => large_loop fuel fd request
      | None => mret ()
      end
  end.

Definition AppendOneLargeFile (fuel : nat) : M (st GRPCFileServerSync) R Status :=
  call (
    first ← ext Stream_read;
    let request := default FileRequest_default first in
    fd ← ext (Sys_open (filename request) [O_APPEND; O_DIRECT; O_WRONLY; O_CREAT; O_TRUNC]);
    large_loop fuel fd request;;
    _ ← ext (Sys_close fd);
    mret OK).

(** One round of [AppendManySmallFiles], for the message that was read. *)
Definition small_round (request : FileRequest) : M (st GRPCFileServerSync) Status () :=
  open_start ← ext Clock_now;
  fd ← ext (Sys_open (filename request) [O_APPEND; O_DIRECT; O_WRONLY; O_CREAT]);
  timed open_start (fun t => spend 0 0 0 t);;
  if fd <? 0 then return_ (UNKNOWN "open file failed") else
  allocation_start ← ext Clock_now;
  '(err, buffer) ← new_buffer;
  if negb (err =? 0) then return_ (UNKNOWN "posix_memalign failed") else
  copy_data buffer request;;
  timed allocation_start (fun t => spend t 0 0 0);;
  rw_start ← ext Clock_now;
  written ← write_buffer fd buffer;
  size ← get_own buffer_size; size ← read_init size;
  if negb (u64 written =? size) then return_ (UNKNOWN "write data failed") else
  timed rw_start (fun t => spend 0 t 0 0);;
  r ← ext (Sys_close fd);
  if negb (r =? 0) then return_ (UNKNOWN "close fd failed") else
  _ ← ext (Stream_write FileReply_default);
  mret ().

Fixpoint small_loop (fuel : nat) : M (st GRPCFileServerSync) Status () :=
  match fuel with
  | O => nofuel
  | S fuel =>
      next ← ext Stream_read;
      match next with
      | None => mret ()
      | Some request => small_round request;; small_loop fuel
      end
  end.

Definition AppendManySmallFiles (fuel : nat) : M (st GRPCFileServerSync) R Status :=
  call (
    total_start ← ext Clock_now;
    small_loop fuel;;
    timed total_start (fun t => spend 0 0 t 0);;
    mret OK).

Definition GetStat : M (st GRPCFileServerSync) R (Status * StatReply) :=
  t ← get_own times;
  let ss :=
    ("time on allocation is " +:+ pretty (milliseconds (time_on_allocation t)) +:+
     " ms" +:+ LF +:+ "time on writes is " +:+ pretty (milliseconds (time_on_rw t)) +:+
     " ms" +:+ LF +:+ "time on open files is " +:+ pretty (milliseconds (time_on_open t)) +:+
     " ms" +:+ LF +:+ "total time on server is " +:+ pretty (milliseconds (time_total t)) +:+
     " ms" +:+ LF)%string in
  mret (OK, {| stat := ss |}).

Definition ResetStat : M (st GRPCFileServerSync) R (Status * StatReply) :=
  set_own (set_times (mk_times 0 0 0 0));;
  mret (OK, {| stat := "" |}).
End FileServer.

(** ** What a handler did *)

Definition message_of (e : entry) : option FileRequest :=
  match e with existT Stream_read r => r | _ => None end.
(** The messages received, newest first. *)
Definition messages (h : history) : list FileRequest := omap message_of h.

Definition is_ack (e : entry) : bool :=
  match e with existT (Stream_write _) _ => true | _ => false end.
Definition acks (h : history) : nat := length (filter is_ack h).

(** The system calls on files, newest first. *)
Definition is_file_call (e : entry) : bool :=
  match projT1 e with
  | Sys_open _ _ | Sys_close _ | Sys_write _ _ => true
  | _ => false
  end.
Definition file_calls (h : history) : history := filter is_file_call h.

(** The bytes a handler hands to [write] for a message. *)
Definition payload (size : Z) (m : FileRequest) : list mbyte :=
  take (Z.to_nat size) (c_str (fr_data m)).

(** A message [memcpy] may read [size] bytes of: the string's terminating zero
    counts. *)
Definition long_enough (size : Z) (m : FileRequest) : bool :=
  size <=? Z.of_nat (length (fr_data m)) + 1.

Lemma payload_length size m :
  0 <= size -> long_enough size m = true -> length (payload size m) = Z.to_nat size.
Proof.
  intros H0 H. unfold long_enough in H. bool_hyps. unfold payload, c_str.
  rewrite length_take, length_app, length_fmap. cbn. lia.
Qed.

Lemma messages_cons e h :
  messages (e :: h) = match message_of e with Some m => m :: messages h | None => messages h end.
Proof. unfold messages. cbn. by destruct (message_of e). Qed.
Lemma file_calls_cons e h :
  file_calls (e :: h) = if is_file_call e then e :: file_calls h else file_calls h.
Proof. unfold file_calls. rewrite filter_cons. destruct (is_file_call e); by case_decide. Qed.
Lemma acks_cons e h : acks (e :: h) = if is_ack e then S (acks h) else acks h.
Proof. unfold acks. rewrite filter_cons. destruct (is_ack e); by case_decide. Qed.

Lemma omap_cons_none {A B} (f : A -> option B) x l : f x = None -> omap f (x :: l) = omap f l.
Proof. cbn. by intros ->. Qed.

(** Reads a trace off a history that is written out. *)
Ltac trace := rewrite ?messages_cons, ?file_calls_cons, ?acks_cons; cbn [message_of is_file_call is_ack projT1].

Definition same_settings (g g' : GRPCFileServerSync) : Prop :=
  buffer_size g' = buffer_size g /\ blk_size g' = blk_size g /\ N g' = N g /\ fn g' = fn g /\
  queue_depth g' = queue_depth g.

(** A block was allocated and filled. *)
Definition heap_filled (b : list mbyte) (h : heap_t) : heap_t :=
  mk_heap (<[next_loc h := b]> (blocks h)) (S (next_loc h)).

Section buffers.
Context {PF : Platform} {R : Type}.

(** Allocation and copy, every outcome. *)
Lemma wp_copy_fresh size request (s : st GRPCFileServerSync)
    (Q : outcome R () -> st GRPCFileServerSync -> Prop) :
  buffer_size (own s) = Some size -> 0 <= size ->
  (long_enough size request = true ->
     Q (Val ()) (mk_st (own s) (heap_filled (payload size request) (heap s)) (log s))) ->
  (long_enough size request = false ->
     Q (Stop UB_oob) (mk_st (own s) (heap_alloc size (heap s)).2 (log s))) ->
  wp (copy_data (Some (next_loc (heap s))) request) Q
    (mk_st (own s) (heap_alloc size (heap s)).2 (log s)).
Proof.
  intros Hsz H0 Hok Hbad. unfold copy_data. wp_steps. rewrite Hsz. wp_steps.
  unfold long_enough in *.
  destruct (size <=? Z.of_nat (length (fr_data request)) + 1) eqn:E; bool_hyps.
  - eapply wp_memcpy; cbn [heap]; [apply heap_alloc_lookup | rewrite c_str_length; lia |
      rewrite length_replicate; lia |].
    specialize (Hok eq_refl). cbn [own log].
    rewrite drop_ge by (rewrite length_replicate; lia). rewrite app_nil_r.
    unfold heap_store, heap_filled in *. cbn. rewrite insert_insert_eq. exact Hok.
  - eapply wp_memcpy_oob; cbn [heap]; [apply heap_alloc_lookup | | by apply Hbad].
    right. rewrite c_str_length. lia.
Qed.

Lemma wp_write_buffer fd l b (s : st GRPCFileServerSync) (Q : outcome R Z -> st GRPCFileServerSync -> Prop) :
  blocks (heap s) !! l = Some b ->
  (forall r, r = world (log s) (Sys_write fd b) ->
    Q (Val r) (mk_st (own s) (heap s) (Sys_write fd b ~> r :: log s))) ->
  wp (write_buffer fd (Some l)) Q s.
Proof.
  intros Hb H. unfold write_buffer. apply wp_bind, (wp_block_at _ b); [done |]. cbn beta iota.
  apply (wp_ext (Sys_write fd b)). exact H.
Qed.

(** [new_buffer]: an error and no buffer, or a fresh one. *)
Lemma wp_new_buffer size blk (s : st GRPCFileServerSync)
    (Q : outcome R (Z * option loc) -> st GRPCFileServerSync -> Prop) :
  buffer_size (own s) = Some size -> blk_size (own s) = Some blk ->
  (forall r, r = world (log s) (Alloc (Some (u64 blk)) size) ->
    let h := Alloc (Some (u64 blk)) size ~> r :: log s in
    if r =? 0 then Q (Val (r, Some (next_loc (heap s)))) (mk_st (own s) (heap_alloc size (heap s)).2 h)
    else Q (Val (r, None)) (mk_st (own s) (heap s) h)) ->
  wp (new_buffer (R := R)) Q s.
Proof.
  intros Hs Hb H. unfold new_buffer. wp_steps. rewrite Hb. wp_steps. rewrite Hs. wp_steps.
  unfold posix_memalign. wp_steps. specialize (H _ Hw).
  destruct (r =? 0); by wp_steps.
Qed.
End buffers.

Lemma heap_filled_wf b h : heap_wf h -> heap_wf (heap_filled b h).
Proof.
  intros W l [x Hx]. cbn in *. apply lookup_insert_Some in Hx as [[<- _] | [_ Hx]]; [lia |].
  specialize (W l (ex_intro _ _ Hx)). lia.
Qed.
Lemma live_filled b h : heap_wf h -> live (heap_filled b h) = S (live h).
Proof. apply live_insert. Qed.

(** Freeing the new block restores the old blocks. *)
Lemma free_filled b h : heap_wf h -> blocks (heap_free (next_loc h) (heap_filled b h)) = blocks h.
Proof.
  intros W. apply delete_insert_id. by apply heap_alloc_fresh.
Qed.

(** ** AppendOneLargeFile *)

(** From the calls [h0], the messages [ms] were written to [fd] in order, which
    gives the calls [h]. *)
Fixpoint wrote {PF : Platform} (size fd : Z) (ms : list FileRequest) (h h0 : history) : Prop :=
  match ms with
  | [] => h = h0
  | m :: ms => exists h1, let r := world h1 (Sys_write fd (payload size m)) in
      0 <= i32 r /\ wrote size fd ms h (Sys_write fd (payload size m) ~> r :: h0)
  end.

(** An environment in which nothing fails and the client sends [ms]. *)
Record obliging {PF : Platform} (ms : list FileRequest) : Prop := {
  alloc_ok : forall h a n, world h (Alloc a n) = 0;
  write_full : forall h fd b, Z.of_nat (length b) <= INT_MAX ->
    world h (Sys_write fd b) = Z.of_nat (length b);
  open_ok : forall h p f, 0 <= world h (Sys_open p f);
  close_ok : forall h fd, world h (Sys_close fd) = 0;
  stream_of : forall h, world h Stream_read = ms !! length (messages h);
}.

(** The messages still to come, from what [Read] answers. *)
Lemma stream_end {PF : Platform} ms h :
  obliging ms -> None = world h Stream_read -> [] = drop (length (messages h)) ms.
Proof.
  intros Ho E. rewrite (stream_of _ Ho) in E. symmetry in E. apply lookup_ge_None in E.
  by rewrite drop_ge.
Qed.
Lemma stream_next {PF : Platform} ms h m :
  obliging ms -> Some m = world h Stream_read ->
  m :: drop (S (length (messages h))) ms = drop (length (messages h)) ms.
Proof. intros Ho E. rewrite (stream_of _ Ho) in E. symmetry in E. by rewrite (drop_S _ _ _ E). Qed.

Definition large_flags : list open_flag := [O_APPEND; O_DIRECT; O_WRONLY; O_CREAT; O_TRUNC].

Section large.
Context {PF : Platform} (size blk : Z).
Hypothesis size_pos : 0 <= size < 2 ^ 64.

Definition configured (s : st GRPCFileServerSync) : Prop :=
  buffer_size (own s) = Some size /\ blk_size (own s) = Some blk /\ heap_wf (heap s).

(** What one round does, on each of its ways out. *)
Definition large_rounded (fd : Z) (m : FileRequest) (s : st GRPCFileServerSync)
    (o : outcome Status (option FileRequest)) (s' : st GRPCFileServerSync) : Prop :=
  match o with
  | Val next => long_enough size m = true /\ configured s' /\
      wrote size fd [m] (file_calls (log s')) (file_calls (log s)) /\
      acks (log s') = S (acks (log s)) /\ live (heap s') = S (live (heap s)) /\
      exists h, messages h = messages (log s) /\ next = world h Stream_read /\
        messages (log s') = option_list next ++ messages h
  | Ret e =>
      e = UNKNOWN "posix_memalign failed" /\ (exists h, world h (Alloc (Some (u64 blk)) size) <> 0) \/
      e = UNKNOWN "write data failed" /\ (exists h b, length b = Z.to_nat size /\ i32 (world h (Sys_write fd b)) < 0)
  | Stop u => u = UB_oob /\ long_enough size m = false
  | NoFuel => False
  end.

Lemma large_round_spec fd m (s : st GRPCFileServerSync) :
  configured s -> wp (large_round fd m) (large_rounded fd m s) s.
Proof.
  intros (Hs & Hb & W). unfold large_round. wp_steps. apply (wp_new_buffer size blk); [done | done |].
  cbn [heap log own]. intros a Ha. destruct (a =? 0) eqn:Ea; cbn beta iota; cbn [negb].
  2: { wp_steps. left. split; [done |]. bool_hyps. eexists. by rewrite <- Ha. }
  wp_steps. eapply (wp_copy_fresh size m (mk_st (own s) (heap s) _)); [done | lia | | by intros].
  intros Hlong. unfold timed. wp_steps.
  eapply wp_write_buffer; [apply lookup_insert_eq |]. intros w Hw'. wp_steps.
  destruct (i32 w <? 0) eqn:Ew; bool_hyps.
  { wp_steps. right. split; [done |]. eexists _, (payload size m).
    rewrite payload_length by (done || lia). split; [done |]. by rewrite <- Hw'. }
  wp_steps. split; [done |].
  split; [split_and!; [done | done | by apply heap_filled_wf] |].
  split; [eexists; cbn; rewrite <- Hw'; by trace |]. split; [by trace |]. split; [by apply live_filled |].
  eexists. split; [| split; [exact Hw4 |]]; trace; [done |]. by destruct r4.
Qed.

(** A finished loop that started with [m] and took [ms], which is the whole
    stream: every message was long enough, was written once and in order, was
    acknowledged, and kept its buffer. *)
Definition large_done (fd : Z) (m : FileRequest) (s s' : st GRPCFileServerSync) : Prop :=
  exists ms, messages (log s') = reverse ms ++ messages (log s) /\
    Forall (fun m => long_enough size m = true) (m :: ms) /\
    wrote size fd (m :: ms) (file_calls (log s')) (file_calls (log s)) /\
    acks (log s') = (S (length ms) + acks (log s))%nat /\
    live (heap s') = (S (length ms) + live (heap s))%nat /\
    forall l, obliging l -> ms = drop (length (messages (log s))) l.

Lemma large_loop_spec fuel fd m (s : st GRPCFileServerSync) :
  configured s ->
  wp (large_loop fuel fd m) (fun o s' =>
    match o with
    | Val _ => large_done fd m s s' /\ configured s'
    | Ret e => e <> OK
    | _ => True
    end) s.
Proof.
  revert m s. induction fuel as [| fuel IH]; intros m s Hc; cbn [large_loop]; [by wp_steps |].
  apply wp_bind. eapply wp_mono; [| by apply large_round_spec].
  intros o s1 H. destruct o as [next | e | |]; [| | done..].
  2: { by destruct H as [[-> _] | [-> _]]. }
  destruct H as (Hlong & Hc1 & (h1 & Hw & Hf) & Ha & Hl & h & Hm0 & Hn & Hm).
  destruct next as [m' |]; cbn beta iota.
  - eapply wp_mono; [| by apply (IH m')]. intros [[] | | |] s' H; try done.
    destruct H as [(ms & D1 & D2 & D3 & D4 & D5 & D6) C]. split; [| done]. exists (m' :: ms).
    rewrite D1, Hm, Hm0, reverse_cons, <- app_assoc. split; [done |].
    split; [by constructor |]. split; [exists h1; by rewrite Hf in D3 |].
    rewrite D4, D5, Ha, Hl. cbn. split; [lia |]. split; [lia |].
    intros l Ho. rewrite (D6 l Ho), Hm, <- Hm0. by apply stream_next.
  - wp_steps. split; [| done]. exists []. rewrite Hm, Hm0.
    split; [done |]. split; [by repeat constructor |]. split; [by exists h1 |]. split; [done |]. split; [done |].
    intros l Ho. rewrite <- Hm0. by apply stream_end.
Qed.

Definition verdict (ms : list FileRequest) : outcome Status () :=
  if forallb (long_enough size) ms then Val () else Stop UB_oob.

Lemma large_loop_outcome ms fuel fd m (s : st GRPCFileServerSync) :
  size <= INT_MAX -> obliging ms -> configured s -> (length (drop (length (messages (log s))) ms) < fuel)%nat ->
  wp (large_loop fuel fd m) (fun o _ =>
    o = verdict (m :: drop (length (messages (log s))) ms)) s.
Proof.
  intros Hmax Ho. revert m s. induction fuel as [| fuel IH]; intros m s Hc Hf; [lia |].
  cbn [large_loop]. apply wp_bind. eapply wp_mono; [| by apply large_round_spec].
  intros o s1 H. unfold verdict. cbn [forallb]. destruct o as [next | e | u |].
  - destruct H as (-> & Hc1 & _ & _ & _ & h & Hm0 & Hnext & Hm). rewrite Hm0 in Hm.
    rewrite (stream_of _ Ho), Hm0 in Hnext. destruct next as [m' |]; cbn [option_list app] in Hm.
    + symmetry in Hnext. rewrite (drop_S _ _ _ Hnext) in Hf |- *. cbn [length] in Hf.
      eapply wp_mono; [| apply (IH m'); [done | rewrite Hm; cbn; lia]].
      intros o s' ->. rewrite Hm. done.
    + symmetry in Hnext. apply lookup_ge_None in Hnext. rewrite drop_ge by done. by wp_steps.
  - destruct H as [[_ (h & H)] | [_ (h & b & Hb & H)]]; exfalso.
    + by rewrite (alloc_ok _ Ho) in H.
    + unfold INT_MAX in Hmax. rewrite (write_full _ Ho), i32_id in H by (unfold INT_MAX; lia). lia.
  - by destruct H as [-> ->].
  - done.
Qed.
End large.

(** ** AppendManySmallFiles *)

Section small.
Context {PF : Platform} (size blk : Z).
Hypothesis size_pos : 0 <= size < 2 ^ 64.

Definition small_flags : list open_flag := [O_APPEND; O_DIRECT; O_WRONLY; O_CREAT].

(** What a message's round leaves on success: the file was opened, given all
    of the payload, and closed. *)
Fixpoint wrote_files (ms : list FileRequest) (h h0 : history) : Prop :=
  match ms with
  | [] => h = h0
  | m :: ms => exists (fd : Z) h1, let w := world h1 (Sys_write fd (payload size m)) in
      0 <= fd /\ u64 w = size /\
      wrote_files ms h (Sys_close fd ~> 0 :: Sys_write fd (payload size m) ~> w ::
                        Sys_open (filename m) small_flags ~> fd :: h0)
  end.

(** Descriptors opened and not closed. *)
Definition fd_delta (e : entry) : Z :=
  match e with
  | existT (Sys_open _ _) r => if r <? 0 then 0 else 1
  | existT (Sys_close _) _ => -1
  | _ => 0
  end.
Fixpoint open_fds (h : history) : Z :=
  match h with [] => 0 | e :: h => fd_delta e + open_fds h end.

Definition small_rounded (m : FileRequest) (s : st GRPCFileServerSync)
    (o : outcome Status ()) (s' : st GRPCFileServerSync) : Prop :=
  match o with
  | Val _ => long_enough size m = true /\ configured size blk s' /\
      wrote_files [m] (file_calls (log s')) (file_calls (log s)) /\
      acks (log s') = S (acks (log s)) /\ messages (log s') = messages (log s) /\
      live (heap s') = S (live (heap s)) /\ open_fds (log s') = open_fds (log s)
  | Ret e => (size <= INT_MAX -> forall ms, ~ obliging ms) /\
      ((e = UNKNOWN "open file failed" \/ e = UNKNOWN "close fd failed") /\
       open_fds (log s') = open_fds (log s) \/
       (e = UNKNOWN "posix_memalign failed" \/ e = UNKNOWN "write data failed") /\
       open_fds (log s') = 1 + open_fds (log s))
  | Stop u => u = UB_oob /\ long_enough size m = false
  | NoFuel => False
  end.

Lemma small_round_spec m (s : st GRPCFileServerSync) :
  configured size blk s -> wp (small_round m) (small_rounded m s) s.
Proof.
  intros (Hs & Hb & W). unfold small_round, timed. wp_steps.
  destruct (r0 <? 0) eqn:Eo.
  { wp_steps. split.
    - intros Hmax ms Ho. bool_hyps. pose proof (open_ok _ Ho (Clock_now ~> r :: log s) (filename m)
        [O_APPEND; O_DIRECT; O_WRONLY; O_CREAT]). lia.
    - left. split; [by left |]. cbn [log open_fds fd_delta]. rewrite Eo. lia. }
  wp_steps. apply (wp_new_buffer size blk); [done | done |].
  cbn [heap log own]. intros a Ha. destruct (a =? 0) eqn:Ea; cbn beta iota; cbn [negb].
  2: { wp_steps. split.
    - intros Hmax ms Ho. bool_hyps. by rewrite (alloc_ok _ Ho) in Ha.
    - right. split; [by left |]. cbn [log open_fds fd_delta]. rewrite Eo. lia. }
  wp_steps. eapply (wp_copy_fresh size m (mk_st (spend _ _ _ _ _) (heap s) _)); [done | lia | | by intros].
  intros Hlong. wp_steps.
  eapply wp_write_buffer; [apply lookup_insert_eq |]. intros w Hwr. wp_steps.
  cbn [buffer_size spend set_times]. rewrite Hs. wp_steps.
  destruct (u64 w =? size) eqn:Ew; cbn [negb].
  2: { wp_steps. split.
    - intros Hmax ms Ho. bool_hyps. apply Ew. rewrite Hwr, (write_full _ Ho), payload_length by (rewrite ?payload_length by (done || lia); done || lia).
      rewrite u64_id; lia.
    - right. split; [by right |]. cbn [log open_fds fd_delta]. rewrite Eo. lia. }
  wp_steps. destruct (r6 =? 0) eqn:Ec; cbn [negb].
  2: { wp_steps. split.
    - intros Hmax ms Ho. bool_hyps. by rewrite (close_ok _ Ho) in Hw6.
    - left. split; [by right |]. cbn [log open_fds fd_delta]. rewrite Eo. lia. }
  bool_hyps. wp_steps. split; [done |].
  split; [split_and!; [done | done | by apply heap_filled_wf] |].
  split; [eexists r0, _; rewrite <- Hwr; split_and!; [done | done |]; trace; by rewrite Ec |].
  split; [by trace |]. split; [by trace |]. split; [by apply live_filled |].
  cbn [log open_fds fd_delta]. rewrite (proj2 (Z.ltb_ge r0 0)) by done. lia.
Qed.

Lemma wrote_files_app ms1 ms2 h h1 h0 :
  wrote_files ms1 h1 h0 -> wrote_files ms2 h h1 -> wrote_files (ms1 ++ ms2) h h0.
Proof.
  revert h0. induction ms1 as [| m ms1 IH]; cbn; [by intros h0 <- |].
  intros h0 (fd & h2 & ? & ? & H) H2. exists fd, h2. split; [done |]. split; [done |]. by apply IH.
Qed.

(** A loop that took the messages [ms], the whole stream. *)
Definition small_done (ms : list FileRequest) (s s' : st GRPCFileServerSync) : Prop :=
  messages (log s') = reverse ms ++ messages (log s) /\
  Forall (fun m => long_enough size m = true) ms /\
  wrote_files ms (file_calls (log s')) (file_calls (log s)) /\
  acks (log s') = (length ms + acks (log s))%nat /\
  live (heap s') = (length ms + live (heap s))%nat /\
  forall l, obliging l -> ms = drop (length (messages (log s))) l.

Definition balance (e : Status) : Z :=
  if decide (e = UNKNOWN "posix_memalign failed" \/ e = UNKNOWN "write data failed") then 1 else 0.

Lemma small_round_ret m (s s' : st GRPCFileServerSync) e :
  small_rounded m s (Ret e) s' -> e <> OK /\ open_fds (log s') = balance e + open_fds (log s).
Proof.
  unfold balance. intros [_ [[[-> | ->] H] | [[-> | ->] H]]]; (split; [done |]); rewrite H;
    case_decide as D; first [lia | by destruct D | by destruct D; (left + right)].
Qed.

Lemma small_loop_spec fuel (s : st GRPCFileServerSync) :
  configured size blk s ->
  wp (small_loop fuel) (fun o s' =>
    match o with
    | Val _ => (exists ms, small_done ms s s') /\ open_fds (log s') = open_fds (log s)
    | Ret e => e <> OK /\ open_fds (log s') = balance e + open_fds (log s)
    | _ => True
    end) s.
Proof.
  revert s. induction fuel as [| fuel IH]; intros s Hc; cbn [small_loop]; [by wp_steps |].
  wp_steps. set (s0 := mk_st (own s) (heap s) _). assert (configured size blk s0) as Hc0 by done.
  destruct r as [m |].
  2: { wp_steps. split; [| done]. exists []. unfold small_done. subst s0. cbn [log heap]. trace.
       split_and!; try done. intros l Ho. by apply stream_end. }
  apply wp_bind. eapply wp_mono; [| by apply small_round_spec].
  intros o s1 H. destruct o as [[] | e | |]; [| by apply small_round_ret in H | done | done].
  destruct H as (Hl & Hc1 & Hw' & Ha & Hm & Hv & Hf).
  eapply wp_mono; [| by apply IH]. intros [[] | e | |] s2 H; try done.
  - destruct H as [(ms & D1 & D2 & D3 & D4 & D5 & D7) D6]. split; [| by rewrite D6, Hf].
    exists (m :: ms). split; [| split; [by constructor |]; split; [| split; [| split]]].
    + rewrite D1, Hm, reverse_cons, <- app_assoc. subst s0. cbn [log]. by trace.
    + apply (wrote_files_app [m] ms _ (file_calls (log s1))); [| done].
      subst s0. cbn [log] in Hw'. revert Hw'. by trace.
    + rewrite D4, Ha. subst s0. cbn [log length]. trace. lia.
    + rewrite D5, Hv. cbn [length]. subst s0. cbn [heap]. lia.
    + intros l Ho. rewrite (D7 l Ho), Hm. subst s0. cbn [log]. trace. by apply stream_next.
  - destruct H as [H1 H2]. split; [done |]. by rewrite H2, Hf.
Qed.

Lemma small_loop_outcome ms fuel (s : st GRPCFileServerSync) :
  size <= INT_MAX -> obliging ms -> configured size blk s ->
  (length (drop (length (messages (log s))) ms) < fuel)%nat ->
  wp (small_loop fuel) (fun o _ => o = verdict size (drop (length (messages (log s))) ms)) s.
Proof.
  intros Hmax Ho. revert s. induction fuel as [| fuel IH]; intros s Hc Hf; [lia |].
  cbn [small_loop]. wp_steps. rewrite (stream_of _ Ho) in Hw. subst r.
  set (s0 := mk_st (own s) (heap s) _). assert (configured size blk s0) as Hc0 by done.
  destruct (ms !! length (messages (log s))) as [m |] eqn:Em.
  2: { apply lookup_ge_None in Em. rewrite drop_ge by done. by wp_steps. }
  rewrite (drop_S _ _ _ Em) in Hf |- *. cbn [length] in Hf.
  apply wp_bind. eapply wp_mono; [| by apply small_round_spec].
  unfold verdict. cbn [forallb].
  intros o s1 H. destruct o as [[] | e | u |]; [| by destruct H as [H _]; apply (H Hmax) in Ho | by destruct H as [-> ->] | done].
  destruct H as (-> & Hc1 & _ & _ & Hm & _).
  assert (length (messages (log s1)) = S (length (messages (log s)))) as Hlen
    by (rewrite Hm; subst s0; cbn [log]; by trace).
  eapply wp_mono; [| apply IH; [done | rewrite Hlen; lia]].
  intros o s2 ->. by rewrite Hlen.
Qed.
End small.

(** ** Theorems *)

Section theorems.
Context {PF : Platform} {R : Type} (size blk : Z).
Hypothesis size_ok : 0 <= size < 2 ^ 64.
Implicit Types s : st GRPCFileServerSync.

(** C23: [AppendOneLargeFile], whenever it returns OK and whatever the kernel and
    the client did: it opened the file its first message names, wrote the
    [buffer_size]-byte payload of every message once and in the order of arrival
    to that descriptor (none was reported to fail), acknowledged each, closed
    the file, and freed none of the buffers it had allocated, one a message. *)
Theorem AppendOneLargeFile_writes fuel s s' :
  configured size blk s -> AppendOneLargeFile (R := R) fuel s = (Val OK, s') ->
  let first := world (log s) Stream_read in
  let m := default FileRequest_default first in
  exists ms (fd r : Z) h,
    messages (log s') = reverse ms ++ option_list first ++ messages (log s) /\
    Forall (fun m => long_enough size m = true) (m :: ms) /\
    file_calls (log s') = Sys_close fd ~> r :: h /\
    wrote size fd (m :: ms) h (Sys_open (filename m) [O_APPEND; O_DIRECT; O_WRONLY; O_CREAT; O_TRUNC]
      ~> fd :: file_calls (log s)) /\
    acks (log s') = (S (length ms) + acks (log s))%nat /\
    live (heap s') = (S (length ms) + live (heap s))%nat.
Proof.
  intros Hc H first m.
  refine (wp_run (AppendOneLargeFile (R := R) fuel) (fun o s' => o = Val OK -> exists ms fd r h, _) s _ _ _ H eq_refl).
  unfold AppendOneLargeFile. wp_steps. subst r. fold first m.
  eapply wp_mono; [| apply (large_loop_spec size blk size_ok); exact Hc].
  intros [[] | e | |] s1 H1; [| by intros [= ->] | done | done].
  destruct H1 as [(ms & D1 & D2 & D3 & D4 & D5 & _) _]. wp_steps. intros _.
  exists ms, r0, r, (file_calls (log s1)). cbn [log heap] in *. revert D1 D3 D4. trace. intros D1 D3 D4.
  split; [| by split_and!]. rewrite D1. by destruct first.
Qed.

(** In an environment where nothing fails, [AppendOneLargeFile] ends for every
    stream it is sent, and it returns OK exactly when each message has at least
    [buffer_size - 1] bytes of data; else its [memcpy] reads past the end of the
    first shorter one. *)
Theorem AppendOneLargeFile_outcome ms fuel s :
  size <= INT_MAX -> obliging ms -> configured size blk s -> messages (log s) = [] -> ms <> [] ->
  (length ms <= fuel)%nat ->
  exists s', AppendOneLargeFile (R := R) fuel s =
    (if forallb (long_enough size) ms then Val OK else Stop UB_oob, s').
Proof.
  intros Hmax Ho Hc Hm Hne Hf. destruct ms as [| m ms]; [done |].
  assert (wp (AppendOneLargeFile (R := R) fuel) (fun o _ => o = (if forallb (long_enough size) (m :: ms)
    then Val OK else Stop UB_oob) /\ True) s) as H; [| by apply wp_ex in H as (s' & H & _); exists s'].
  unfold AppendOneLargeFile. wp_steps. rewrite (stream_of _ Ho), Hm in Hw. cbn in Hw. subst r.
  cbn [default]. match goal with |- wp _ _ ?s => set (s1 := s) end.
  assert (messages (log s1) = [m]) as Hm1 by (subst s1; cbn [log]; trace; by rewrite Hm).
  eapply wp_mono; [| apply (large_loop_outcome size blk size_ok (m :: ms)); [exact Hmax | exact Ho | exact Hc |]].
  - intros o s2 ->. rewrite Hm1. unfold verdict. change (drop (length [m]) (m :: ms)) with (drop 0 ms). change (id m) with m. rewrite drop_0.
    destruct (forallb (long_enough size) (m :: ms)); by wp_steps.
  - rewrite Hm1. cbn in *. rewrite drop_0. lia.
Qed.

(** C31: [AppendManySmallFiles], whenever it returns OK: for every message, in the
    order of arrival, the named file was opened, given the whole payload in one
    [write] and closed, and the message acknowledged; no descriptor stays open,
    but no buffer is freed. *)
Theorem AppendManySmallFiles_writes fuel s s' :
  configured size blk s -> AppendManySmallFiles (R := R) fuel s = (Val OK, s') ->
  (exists ms, small_done size ms s s') /\ open_fds (log s') = open_fds (log s).
Proof.
  intros Hc H.
  refine (wp_run (AppendManySmallFiles (R := R) fuel) (fun o s' => o = Val OK ->
    (exists ms, small_done size ms s s') /\ open_fds (log s') = open_fds (log s)) s _ _ _ H eq_refl).
  unfold AppendManySmallFiles, timed. wp_steps.
  eapply wp_mono; [| apply (small_loop_spec size blk size_ok); exact Hc].
  intros [[] | e | |] s1 H1; [| by intros [= ->]; destruct H1 | done | done].
  destruct H1 as [(ms & D1 & D2 & D3 & D4 & D5 & D7) D6]. wp_steps. intros _. split.
  - exists ms. cbn [log heap] in *. revert D1 D3 D4 D7. unfold small_done. cbn [log heap]. trace. done.
  - done.
Qed.

(** The descriptors of [AppendManySmallFiles]: on an error it leaves exactly
    one file open when the allocation or the [write] failed, and none when the
    [open] or the [close] did. *)
Theorem small_files_descriptors fuel s e s' :
  configured size blk s -> e <> OK -> AppendManySmallFiles (R := R) fuel s = (Val e, s') ->
  open_fds (log s') = balance e + open_fds (log s).
Proof.
  intros Hc He H.
  refine (wp_run (AppendManySmallFiles (R := R) fuel) (fun o s' => o = Val e ->
    open_fds (log s') = balance e + open_fds (log s)) s _ _ _ H eq_refl).
  unfold AppendManySmallFiles, timed. wp_steps.
  eapply wp_mono; [| apply (small_loop_spec size blk size_ok); exact Hc].
  intros [[] | e' | |] s1 H1; [| by intros [= ->]; destruct H1 | done | done].
  wp_steps. by intros [= <-].
Qed.

(** In an environment where nothing fails, [AppendManySmallFiles] ends for
    every stream, with OK exactly when each message has at least
    [buffer_size - 1] bytes of data. *)
Theorem AppendManySmallFiles_outcome ms fuel s :
  size <= INT_MAX -> obliging ms -> configured size blk s -> messages (log s) = [] -> (length ms < fuel)%nat ->
  exists s', AppendManySmallFiles (R := R) fuel s =
    (if forallb (long_enough size) ms then Val OK else Stop UB_oob, s').
Proof.
  intros Hmax Ho Hc Hm Hf.
  assert (wp (AppendManySmallFiles (R := R) fuel) (fun o _ => o = (if forallb (long_enough size) ms
    then Val OK else Stop UB_oob) /\ True) s) as H; [| by apply wp_ex in H as (s' & H & _); exists s'].
  unfold AppendManySmallFiles, timed. wp_steps. match goal with |- wp _ _ ?s => set (s1 := s) end.
  assert (messages (log s1) = []) as Hm1 by (subst s1; cbn [log]; by trace).
  eapply wp_mono; [| apply (small_loop_outcome size blk size_ok ms); [exact Hmax | exact Ho | exact Hc |]].
  - intros o s2 ->. rewrite Hm1. unfold verdict. rewrite drop_0.
    destruct (forallb (long_enough size) ms); by wp_steps.
  - rewrite Hm1. by rewrite drop_0.
Qed.

(** A handler that is called before [SetParameters] reads members that
    nothing has set. *)
Theorem handlers_need_parameters addr port fuel hp h m :
  world (Clock_now ~> world h Clock_now :: h) Stream_read = Some m ->
  0 <= world (Clock_now ~> world (Stream_read ~> Some m :: Clock_now ~> world h Clock_now :: h) Clock_now ::
          Stream_read ~> Some m :: Clock_now ~> world h Clock_now :: h)
         (Sys_open (filename m) small_flags) ->
  exists s1 s2,
    AppendOneLargeFile (R := R) (S fuel) (mk_st (construct addr port) hp h) = (Stop UB_uninit, s1) /\
    AppendManySmallFiles (R := R) (S fuel) (mk_st (construct addr port) hp h) = (Stop UB_uninit, s2).
Proof.
  intros Hm Ho.
  assert (exists s1, AppendOneLargeFile (R := R) (S fuel) (mk_st (construct addr port) hp h) = (Stop UB_uninit, s1)
    /\ True) as (s1 & E1 & _).
  { apply wp_ex. unfold AppendOneLargeFile. cbn [large_loop]. unfold large_round, new_buffer. by wp_steps. }
  assert (exists s2, AppendManySmallFiles (R := R) (S fuel) (mk_st (construct addr port) hp h) = (Stop UB_uninit, s2)
    /\ True) as (s2 & E2 & _).
  { apply wp_ex. unfold AppendManySmallFiles. cbn [small_loop]. wp_steps. subst r.
    rewrite Hm in Hw0. subst r0. unfold small_round, timed. wp_steps. subst.
    rewrite (proj2 (Z.ltb_ge _ 0)) by exact Ho. unfold new_buffer. by wp_steps. }
  by exists s1, s2.
Qed.

(** The text of [GetStat] determines its four counters in milliseconds. *)
Theorem file_GetStat_injective s1 s2 r s1' s2' :
  GetStat (R := R) s1 = (Val (OK, r), s1') -> GetStat (R := R) s2 = (Val (OK, r), s2') ->
  let t1 := times (own s1) in
  let t2 := times (own s2) in
  milliseconds (time_on_allocation t1) = milliseconds (time_on_allocation t2) /\
  milliseconds (time_on_rw t1) = milliseconds (time_on_rw t2) /\
  milliseconds (time_on_open t1) = milliseconds (time_on_open t2) /\
  milliseconds (time_total t1) = milliseconds (time_total t2).
Proof.
  intros [= E1 _] [= E2 _] t1 t2. rewrite <- E1 in E2. injection E2 as E2. fold t1 t2 in E2.
  apply string_app_cancel, split_ms in E2 as [? E2].
  do 2 apply string_app_cancel in E2. apply split_ms in E2 as [? E2].
  do 2 apply string_app_cancel in E2. apply split_ms in E2 as [? E2].
  do 2 apply string_app_cancel in E2. by apply split_ms in E2 as [? _].
Qed.
End theorems.

(** ** Instances *)

(** An environment in which nothing fails and the client sends [ms]. *)
Definition file_env (ms : list FileRequest) : Platform := platform_of (fun h e =>
  match e with
  | Sys_open _ _ => 7
  | Sys_write _ b => Z.of_nat (length b)
  | Stream_read => ms !! length (messages h)
  | e => default_reply e
  end).

Lemma file_env_obliging ms : obliging (PF := file_env ms) ms.
Proof. by split. Qed.

Definition two_messages : list FileRequest :=
  [{| filename := "/mnt/a"; fr_data := [x61; x62; x63; x64] |};
   {| filename := "/mnt/b"; fr_data := [x65; x66; x67; x68] |}].

(** A server whose buffers are 4 bytes long. *)
Definition set_up : GRPCFileServerSync :=
  mk_files "0.0.0.0" 9876 (Some 8) (Some 0) (mk_times 0 0 0 0) (Some 4) (Some 512) (Some 2) (Some 2) 0.

Definition set_up_state : st GRPCFileServerSync := mk_st set_up heap_empty [].

Lemma set_up_configured : configured 4 512 set_up_state.
Proof. split_and!; [done | done | apply heap_empty_wf]. Qed.

Lemma AppendOneLargeFile_outcome_witness :
  obliging (PF := file_env two_messages) two_messages /\
  exists s', AppendOneLargeFile (PF := file_env two_messages) (R := Empty_set) 3 set_up_state =
    (Val OK, s').
Proof.
  split; [apply file_env_obliging |].
  exact (AppendOneLargeFile_outcome (PF := file_env two_messages) (R := Empty_set) 4 512
    ltac:(lia) two_messages 3 set_up_state ltac:(done) (file_env_obliging _) set_up_configured
    eq_refl ltac:(done) ltac:(cbn; lia)).
Defined.

Lemma AppendManySmallFiles_outcome_witness :
  exists s', AppendManySmallFiles (PF := file_env two_messages) (R := Empty_set) 3 set_up_state =
    (Val OK, s').
Proof.
  exact (AppendManySmallFiles_outcome (PF := file_env two_messages) (R := Empty_set) 4 512
    ltac:(lia) two_messages 3 set_up_state ltac:(done) (file_env_obliging _) set_up_configured
    eq_refl ltac:(cbn; lia)).
Defined.

Lemma AppendOneLargeFile_writes_witness :
  exists s' ms (fd r : Z) h,
    AppendOneLargeFile (PF := file_env two_messages) (R := Empty_set) 3 set_up_state = (Val OK, s') /\
    file_calls (log s') = Sys_close fd ~> r :: h /\
    wrote (PF := file_env two_messages) 4 fd ({| filename := "/mnt/a"; fr_data := [x61; x62; x63; x64] |} :: ms) h
      [Sys_open "/mnt/a" [O_APPEND; O_DIRECT; O_WRONLY; O_CREAT; O_TRUNC] ~> fd].
Proof.
  destruct (AppendOneLargeFile (PF := file_env two_messages) (R := Empty_set) 3 set_up_state)
    as [[[] | | |] s'] eqn:E; try (vm_compute in E; discriminate E).
  destruct (AppendOneLargeFile_writes (PF := file_env two_messages) (R := Empty_set) 4 512
    ltac:(clear; lia) 3 set_up_state s' set_up_configured E) as (ms & fd & r & h & _ & _ & H1 & H2 & _).
  exists s', ms, fd, r, h. split; [exact eq_refl |]. split; [exact H1 | exact H2].
Defined.

Lemma AppendManySmallFiles_writes_witness :
  exists s',
    AppendManySmallFiles (PF := file_env two_messages) (R := Empty_set) 3 set_up_state = (Val OK, s') /\
    (exists ms, small_done (PF := file_env two_messages) 4 ms set_up_state s') /\ open_fds (log s') = 0.
Proof.
  destruct (AppendManySmallFiles (PF := file_env two_messages) (R := Empty_set) 3 set_up_state)
    as [[[] | | |] s'] eqn:E; try (vm_compute in E; discriminate E).
  exists s'. split; [exact eq_refl |].
  exact (AppendManySmallFiles_writes (PF := file_env two_messages) (R := Empty_set) 4 512
    ltac:(clear; lia) 3 set_up_state s' set_up_configured E).
Defined.

(** An environment whose disk is full. *)
Definition full_disk : Platform := platform_of (fun h e =>
  match e with
  | Sys_open _ _ => 7
  | Sys_write _ _ => -1
  | Stream_read => two_messages !! length (messages h)
  | e => default_reply e
  end).

Lemma small_files_descriptors_witness :
  exists s',
    AppendManySmallFiles (PF := full_disk) (R := Empty_set) 3 set_up_state =
      (Val (UNKNOWN "write data failed"), s') /\
    open_fds (log s') = 1.
Proof.
  assert (UNKNOWN "write data failed" <> OK) as Hne by done.
  destruct (AppendManySmallFiles (PF := full_disk) (R := Empty_set) 3 set_up_state)
    as [o s'] eqn:E.
  assert (o = Val (UNKNOWN "write data failed")) as ->
    by (apply (f_equal fst) in E; vm_compute in E; symmetry; exact E).
  exists s'. split; [exact eq_refl |].
  exact (small_files_descriptors (PF := full_disk) (R := Empty_set) 4 512
    ltac:(clear; lia) 3 set_up_state (UNKNOWN "write data failed") s' set_up_configured Hne E).
Defined.

Lemma handlers_need_parameters_witness :
  exists s1 s2,
    AppendOneLargeFile (PF := file_env two_messages) (R := Empty_set) 1
      (mk_st (construct "0.0.0.0" 9876) heap_empty []) = (Stop UB_uninit, s1) /\
    AppendManySmallFiles (PF := file_env two_messages) (R := Empty_set) 1
      (mk_st (construct "0.0.0.0" 9876) heap_empty []) = (Stop UB_uninit, s2).
Proof.
  exact (handlers_need_parameters (PF := file_env two_messages) (R := Empty_set)
    "0.0.0.0" 9876 0 heap_empty [] {| filename := "/mnt/a"; fr_data := [x61; x62; x63; x64] |}
    eq_refl ltac:(done)).
Defined.
