(* ===== verification/FileServerAsync.v ===== *)
(** * The file server, io_uring handlers (src/src/file_target.cc)

    Each of the three handlers starts a thread [cq_thread] that takes a fixed
    number of completions off the ring and frees the buffers they carry, while
    the handler itself reads the stream and submits one write a message.  The
    two threads interleave at every external call of the handler: before it, the
    completion thread makes the number of steps [schedule] says.  Returning
    while the [std::thread] is joinable ends the process. *)

From S2P Require Import Prelude Proto Env BlockServer FileServer.

Record session := mk_session {
  srv : GRPCFileServerSync;
  ring_size : nat;
  slots : gmap nat (option loc);   (* [user_data] each slot of the ring was given last *)
  sq_tail : nat;
  unsent : list sqe;               (* prepared, not yet submitted *)
  cq_left : Z;                     (* rounds [cq_thread] has to go *)
  time_on_copy_uring : Z;
  time_on_open_uring : Z;
  time_total_uring : Z;
  joinable : bool;                 (* [cq_thread] was started and not joined *)
}.

(** Before the ring exists. *)
Definition session_of (g : GRPCFileServerSync) : session := mk_session g 0 ∅ 0 [] 0 0 0 0 false.

Definition set_srv (g : GRPCFileServerSync) (x : session) : session :=
  mk_session g (ring_size x) (slots x) (sq_tail x) (unsent x) (cq_left x)
    (time_on_copy_uring x) (time_on_open_uring x) (time_total_uring x) (joinable x).
Definition set_ring (n : nat) (x : session) : session :=
  mk_session (srv x) n ∅ 0 [] (cq_left x)
    (time_on_copy_uring x) (time_on_open_uring x) (time_total_uring x) (joinable x).
Definition set_left (n : Z) (x : session) : session :=
  mk_session (srv x) (ring_size x) (slots x) (sq_tail x) (unsent x) n
    (time_on_copy_uring x) (time_on_open_uring x) (time_total_uring x) (joinable x).
Definition set_queue (sl : gmap nat (option loc)) (t : nat) (q : list sqe) (x : session) : session :=
  mk_session (srv x) (ring_size x) sl t q (cq_left x)
    (time_on_copy_uring x) (time_on_open_uring x) (time_total_uring x) (joinable x).
Definition spend_uring (copy open total : Z) (x : session) : session :=
  mk_session (srv x) (ring_size x) (slots x) (sq_tail x) (unsent x) (cq_left x)
    (time_on_copy_uring x + copy) (time_on_open_uring x + open) (time_total_uring x + total)
    (joinable x).
Definition set_joinable (j : bool) (x : session) : session :=
  mk_session (srv x) (ring_size x) (slots x) (sq_tail x) (unsent x) (cq_left x)
    (time_on_copy_uring x) (time_on_open_uring x) (time_total_uring x) j.

Section FileServerAsync.
Context {PF : Platform} {R : Type}.

(** One round of [cq_thread]; nothing happens while it waits in
    [io_uring_wait_cqe]. *)
Definition cq_step {R} : M (st session) R () :=
  n ← get_own cq_left;
  if n <=? 0 then mret ()
  else
    cqe ← ext Uring_wait_cqe;
    match cqe with
    | None => mret ()
    | Some (ret, res, data) =>
        if ret <? 0 then set_own (set_left 0)
        else
          release data;;
          ext Uring_cqe_seen;;
          set_own (fun x => set_left (cq_left x - 1) x)
    end.

Fixpoint cq_run {R} (n : nat) : M (st session) R () :=
  match n with O => mret () | S n => cq_step;; cq_run n end.

(** A point where the other thread may run. *)
Definition yield {R} : M (st session) R () := fun s => cq_run (schedule (log s)) s.

Definition ext_y {R} (e : ev) : M (st session) R (reply e) := yield;; ext e.

(** [cq_thread.join()]: the thread runs to its end. *)
Fixpoint cq_rest {R} (fuel : nat) : M (st session) R () :=
  n ← get_own cq_left;
  if n <=? 0 then mret ()
  else match fuel with O => nofuel | S fuel => cq_step;; cq_rest fuel end.

Definition join {R} (fuel : nat) : M (st session) R () :=
  cq_rest fuel;;
  set_own (set_joinable false).

(** The destructor of [cq_thread], and a [return] in its scope. *)
Definition destroy_thread {R} : M (st session) R () :=
  j ← get_own joinable;
  when j (stop_ Std_terminate).

Definition leave {A} (e : Status) : M (st session) Status A :=
  destroy_thread;;
  return_ e.

Definition with_srv {R A} (m : M (st GRPCFileServerSync) R A) : M (st session) R A :=
  zoom srv set_srv m.

(** The ring and the thread: [rounds] of [N] in [cq_thread]. *)
Definition start (rounds : Z -> M (st session) Status Z) : M (st session) Status () :=
  depth ← get_own (fun x => queue_depth (srv x)); depth ← read_init depth;
  ret ← ext (Uring_init (u32 depth));
  if negb (ret =? 0) then return_ (UNKNOWN "io_uring_queue_init_params failed") else
  set_own (set_ring (sq_entries (u32 depth)));;
  n ← get_own (fun x => N (srv x)); n ← read_init n;
  n ← rounds n;
  set_own (fun x => set_joinable true (set_left n x)).

(** [io_uring_get_sqe]: the slot. *)
Definition get_slot {R} : M (st session) R (option nat) :=
  ok ← ext_y Uring_get_sqe;
  if (ok : bool) then
    x ← get_own (fun x => x);
    set_own (set_queue (slots x) (S (sq_tail x)) (unsent x));;
    mret (Some (sq_tail x `mod` ring_size x)%nat)
  else mret None.

(** [io_uring_prep_write] and [io_uring_sqe_set_data]. *)
Definition prep_write {R} (slot : nat) (fd : Z) (buffer : option loc) (link : bool)
  : M (st session) R () :=
  '(l, b) ← block_at buffer;
  set_own (fun x => set_queue (<[slot := Some l]> (slots x)) (sq_tail x)
    (unsent x ++ [mk_sqe (Op_write fd l b 0) (Some l) link]) x).

(** [io_uring_prep_close]; the code sets no user data. *)
Definition prep_close {R} (slot : nat) (fd : Z) : M (st session) R () :=
  set_own (fun x =>
    let data := if prep_clears then None else default None (slots x !! slot) in
    set_queue (<[slot := data]> (slots x)) (sq_tail x)
      (unsent x ++ [mk_sqe (Op_close fd) data false]) x).

(** [io_uring_submit], its result ignored. *)
Definition submit {R} : M (st session) R () :=
  yield;;
  q ← get_own unsent;
  n ← ext (Uring_enter q);
  set_own (fun x => set_queue (slots x) (sq_tail x) (drop (Z.to_nat n) (unsent x)) x).

(** Allocation and copy of a message's data. *)
Definition fill_buffer (request : FileRequest) : M (st session) Status (option loc) :=
  copy_start ← ext_y Clock_now;
  '(err, buffer) ← with_srv new_buffer;
  if negb (err =? 0) then leave (UNKNOWN "posix_memalign failed") else
  with_srv (copy_data buffer request);;
  now ← ext_y Clock_now;
  set_own (spend_uring (now - copy_start) 0 0);;
  mret buffer.

(** A round of [AppendOneLargeFileAsync] and of [AppendOneLargeFileAsyncExpr]
    up to [io_uring_submit]; [target] is the expression for the descriptor. *)
Definition append (target : M (st session) Status Z) (request : FileRequest)
  : M (st session) Status () :=
  slot ← get_slot;
  match slot with
  | None => leave (UNKNOWN "io_uring_get_sqe failed")
  | Some slot =>
      buffer ← fill_buffer request;
      fd ← target;
      prep_write slot fd buffer false;;
      submit
  end.

Fixpoint large_async_loop (fuel : nat) (fd : Z) (request : FileRequest) : M (st session) Status () :=
  match fuel with
  | O => nofuel
  | S fuel =>
      append (mret fd) request;;
      next ← ext_y Stream_read;
      match next with
      | Some request => large_async_loop fuel fd request
      | None => mret ()
      end
  end.

(** The text both large handlers end with. *)
Definition large_stats (x : session) : FileReply :=
  {| stats := ("time on copy is " +:+ pretty (milliseconds (time_on_copy_uring x)) +:+
     " ms" +:+ LF +:+ "total time on server is " +:+ pretty (milliseconds (time_total_uring x)) +:+
     " ms" +:+ LF)%string |}.

Definition AppendOneLargeFileAsync (fuel : nat) : M (st session) R Status :=
  call (
    total_start ← ext Clock_now;
    start (fun n => mret n);;
    first ← ext_y Stream_read;
    let request := default FileRequest_default first in
    fd ← ext_y (Sys_open (filename request) [O_APPEND; O_DIRECT; O_WRONLY; O_CREAT]);
    if fd <? 0 then leave (UNKNOWN "close fd failed") else
    large_async_loop fuel fd request;;
    join fuel;;
    ext Uring_exit;;
    _ ← ext (Sys_close fd);
    now ← ext Clock_now;
    set_own (spend_uring 0 0 (now - total_start));;
    x ← get_own (fun x => x);
    _ ← ext (Stream_write (large_stats x));
    destroy_thread;;
    mret OK).

(** [int nonce = dummy++], the file names and the descriptors. *)
Definition next_nonce : M (st session) Status Z :=
  n ← get_own (fun x => dummy (srv x));
  set_own (fun x => let g := srv x in
    set_srv (mk_files (address g) (port g) (queue_depth g) (poll_threshold g) (times g)
      (buffer_size g) (blk_size g) (N g) (fn g) (i32 (n + 1))) x);;
  mret n.

Definition expr_name (nonce i : Z) : string :=
  ("/mnt/large-file-" +:+ pretty nonce +:+ "-" +:+ pretty i)%string.

Fixpoint open_files (nonce : Z) (i : nat) (todo : nat) : M (st session) Status (list Z) :=
  match todo with
  | O => mret []
  | S todo =>
      fd ← ext_y (Sys_open (expr_name nonce (Z.of_nat i)) [O_APPEND; O_DIRECT; O_WRONLY; O_CREAT]);
      if fd <? 0 then leave (UNKNOWN "close fd failed") else
      fds ← open_files nonce (S i) todo;
      mret (fd :: fds)
  end.

(** [fds[n++ % fn]]. *)
Definition next_file (fds : list Z) (nfiles n : Z) : M (st session) Status Z :=
  i ← int_rem n nfiles;
  _ ← int_ret (n + 1);
  match fds !! Z.to_nat i with
  | None => stop_ UB_oob
  | Some fd => mret fd
  end.

(** The [while] of the handler; [n] counts messages. *)
Fixpoint expr_loop (fuel : nat) (fds : list Z) (nfiles n : Z) : M (st session) Status () :=
  match fuel with
  | O => nofuel
  | S fuel =>
      next ← ext_y Stream_read;
      match next with
      | None => mret ()
      | Some request =>
          append (next_file fds nfiles n) request;;
          expr_loop fuel fds nfiles (n + 1)
      end
  end.

Fixpoint close_files (fds : list Z) : M (st session) Status () :=
  match fds with
  | [] => mret ()
  | fd :: fds => _ ← ext (Sys_close fd); close_files fds
  end.

Definition AppendOneLargeFileAsyncExpr (fuel : nat) : M (st session) R Status :=
  call (
    total_start ← ext Clock_now;
    start (fun n => mret n);;
    nfiles ← get_own (fun x => fn (srv x)); nfiles ← read_init nfiles;
    if nfiles <? 0 then stop_ UB_oob else             (* int fds[fn] *)
    nonce ← next_nonce;
    fds ← open_files nonce 0 (Z.to_nat nfiles);
    expr_loop fuel fds nfiles 0;;
    join fuel;;
    ext Uring_exit;;
    close_files fds;;
    now ← ext Clock_now;
    set_own (spend_uring 0 0 (now - total_start));;
    x ← get_own (fun x => x);
    _ ← ext (Stream_write (large_stats x));
    destroy_thread;;
    mret OK).

(** [while (!sqe) sqe = io_uring_get_sqe(&ring)]. *)
Fixpoint get_slot_loop (fuel : nat) : M (st session) Status nat :=
  match fuel with
  | O => nofuel
  | S fuel =>
      slot ← get_slot;
      match slot with Some slot => mret slot | None => get_slot_loop fuel end
  end.

(** A round of [AppendManySmallFilesAsync] up to [io_uring_submit]. *)
Definition append_small (fuel : nat) (request : FileRequest) : M (st session) Status () :=
  open_start ← ext_y Clock_now;
  fd ← ext_y (Sys_open (filename request) [O_APPEND; O_DIRECT; O_WRONLY; O_CREAT]);
  if fd <? 0 then leave (UNKNOWN "close fd failed") else
  now ← ext_y Clock_now;
  set_own (spend_uring 0 (now - open_start) 0);;
  slot ← get_slot_loop fuel;
  buffer ← fill_buffer request;
  prep_write slot fd buffer true;;
  slot ← get_slot_loop fuel;
  prep_close slot fd;;
  submit.

Fixpoint small_async_loop (fuel : nat) (request : FileRequest) : M (st session) Status () :=
  match fuel with
  | O => nofuel
  | S fuel' =>
      append_small fuel request;;
      next ← ext_y Stream_read;
      match next with
      | Some request => small_async_loop fuel' request
      | None => mret ()
      end
  end.

Definition small_stats (x : session) : FileReply :=
  {| stats := ("time on copy is " +:+ pretty (milliseconds (time_on_copy_uring x)) +:+
     " ms" +:+ LF +:+ "time on open files is " +:+ pretty (milliseconds (time_on_open_uring x)) +:+
     " ms" +:+ LF +:+ "total time on server is " +:+ pretty (milliseconds (time_total_uring x)) +:+
     " ms" +:+ LF)%string |}.

Definition AppendManySmallFilesAsync (fuel : nat) : M (st session) R Status :=
  call (
    total_start ← ext Clock_now;
    start (fun n => int_ret (2 * n));;
    first ← ext_y Stream_read;
    let request := default FileRequest_default first in
    small_async_loop fuel request;;
    join fuel;;
    ext Uring_exit;;
    now ← ext Clock_now;
    set_own (spend_uring 0 0 (now - total_start));;
    x ← get_own (fun x => x);
    _ ← ext (Stream_write (small_stats x));
    destroy_thread;;
    mret OK).
End FileServerAsync.

(** ** The kernel's side of the ring *)

Fixpoint remove1 (x : option loc) (l : list (option loc)) : list (option loc) :=
  match l with
  | [] => []
  | y :: l => if decide (x = y) then l else y :: remove1 x l
  end.

(** The completion that [io_uring_wait_cqe] has returned last. *)
Fixpoint waited (h : history) : option (option loc) :=
  match h with
  | [] => None
  | existT e r :: h =>
      match e as e' return reply e' -> option (option loc) with
      | Uring_wait_cqe => fun c =>
          match c with
          | Some (ret, _, d) => if ret <? 0 then waited h else Some d
          | None => waited h
          end
      | _ => fun _ => waited h
      end r
  end.

(** The user data of the operations that were submitted and not reaped: a
    completion stays in the ring until [io_uring_cqe_seen]. *)
Fixpoint in_kernel (h : history) : list (option loc) :=
  match h with
  | [] => []
  | existT e r :: h =>
      match e as e' return reply e' -> list (option loc) with
      | Uring_enter q => fun n => in_kernel h ++ (user_data <$> take (Z.to_nat n) q)
      | Uring_cqe_seen => fun _ =>
          match waited h with
          | Some d => remove1 d (in_kernel h)
          | None => in_kernel h
          end
      | _ => fun _ => in_kernel h
      end r
  end.

(** All operations that were submitted, in order. *)
Fixpoint submitted_ops (h : history) : list sqe_op :=
  match h with
  | [] => []
  | existT e r :: h =>
      match e as e' return reply e' -> list sqe_op with
      | Uring_enter q => fun n => submitted_ops h ++ (operation <$> take (Z.to_nat n) q)
      | _ => fun _ => submitted_ops h
      end r
  end.

(** A ring that has room, takes what is submitted, and completes it. *)
Record serving {PF : Platform} : Prop := {
  init_ok : forall h d, world h (Uring_init d) = 0;
  room : forall h, world h Uring_get_sqe = true;
  enter_all : forall h q, world h (Uring_enter q) = Z.of_nat (length q);
  wait_one : forall h,
    match world h Uring_wait_cqe with
    | None => in_kernel h = []
    | Some (ret, _, d) => ret = 0 /\ d ∈ in_kernel h
    end;
}.

(** Buffers among user data. *)
Definition buffers (l : list (option loc)) : list loc := omap id l.

Lemma length_remove1 x l : x ∈ l -> S (length (remove1 x l)) = length l.
Proof.
  induction l as [| y l IH]; cbn; [by intros ?%elem_of_nil |].
  intros Hx. case_decide as D; [done |]. cbn. f_equal. apply IH.
  apply elem_of_cons in Hx as [-> | Hx]; done.
Qed.

Lemma buffers_remove1_None l : buffers (remove1 None l) = buffers l.
Proof.
  unfold buffers. induction l as [| y l IH]; [done |]. cbn [remove1].
  case_decide as D; [by subst |]. cbn. by rewrite IH.
Qed.

Lemma elem_of_buffers x l : x ∈ buffers l <-> Some x ∈ l.
Proof.
  unfold buffers. rewrite list_elem_of_omap. split.
  - intros (y & Hy & E). cbn in E. by subst.
  - intros H. by exists (Some x).
Qed.

Lemma buffers_remove1_Some x l :
  NoDup (buffers l) -> Some x ∈ l ->
  NoDup (buffers (remove1 (Some x) l)) /\
  forall y, y ∈ buffers (remove1 (Some x) l) <-> y ∈ buffers l /\ y <> x.
Proof.
  unfold buffers. induction l as [| [z |] l IH]; intros Hd Hx; [by apply elem_of_nil in Hx | |].
  - cbn in Hd |- *. apply NoDup_cons in Hd as [Hz Hd]. case_decide as D.
    + injection D as ->. split; [done |]. intros y. rewrite elem_of_cons. naive_solver.
    + apply elem_of_cons in Hx as [Hx | Hx]; [done |]. destruct (IH Hd Hx) as [H1 H2]. cbn. split.
      * apply NoDup_cons. split; [| done]. rewrite H2. naive_solver.
      * intros y. rewrite !elem_of_cons, H2. split; [| naive_solver].
        intros [-> | [? ?]]; [split; [by left | congruence] | split; [by right | done]].
  - cbn in Hd |- *. case_decide as D; [done |].
    apply elem_of_cons in Hx as [Hx | Hx]; [done |]. by apply IH.
Qed.

(** ** The invariant of the two threads

    [base]: the blocks that were there before; [extra]: buffers that are filled
    and not yet submitted; [k]: operations submitted so far; [total]: the rounds
    [cq_thread] was given. *)

Record ginv (base : gmap loc (list mbyte)) (extra : list loc) (total : Z) (k : nat)
    (s : st session) : Prop := {
  gi_count : cq_left (own s) = total - Z.of_nat k + Z.of_nat (length (in_kernel (log s)));
  gi_total : (length (in_kernel (log s)) <= k)%nat /\ 0 <= cq_left (own s);
  gi_nodup : NoDup (extra ++ buffers (in_kernel (log s)));
  gi_in : forall l, l ∈ extra ++ buffers (in_kernel (log s)) ->
    base !! l = None /\ is_Some (blocks (heap s) !! l);
  gi_out : forall l, l ∉ extra ++ buffers (in_kernel (log s)) ->
    blocks (heap s) !! l = base !! l;
  gi_wf : heap_wf (heap s);
}.

(** What the completion thread leaves alone. *)
Record calm (s s' : st session) : Prop := {
  calm_own : own s' = set_left (cq_left (own s')) (own s);
  calm_messages : messages (log s') = messages (log s);
  calm_ops : submitted_ops (log s') = submitted_ops (log s);
  calm_next : next_loc (heap s') = next_loc (heap s);
  calm_blocks : forall l b, blocks (heap s') !! l = Some b -> blocks (heap s) !! l = Some b;
}.

Lemma calm_refl s : calm s s.
Proof. split; try done. by destruct s as [[]]. Qed.

Lemma calm_trans s1 s2 s3 : calm s1 s2 -> calm s2 s3 -> calm s1 s3.
Proof.
  intros [A1 A2 A3 A4 A5] [B1 B2 B3 B4 B5]. split; try congruence; [| auto].
  rewrite B1. rewrite A1. by destruct s1 as [[]].
Qed.

Section threads.
Context {PF : Platform} (SV : serving) (base : gmap loc (list mbyte)) (total : Z) {R : Type}.

(** A completion is reaped: its buffer is allocated and goes. *)
Lemma cq_step_spec extra k (s : st session) :
  ginv base extra total k s ->
  wp (cq_step (R := R)) (fun o s' => o = Val () /\ ginv base extra total k s' /\ calm s s' /\
    (forall l, l ∈ extra -> blocks (heap s') !! l = blocks (heap s) !! l) /\
    (cq_left (own s') = cq_left (own s) - 1 \/
     cq_left (own s') = cq_left (own s) /\ (cq_left (own s) <= 0 \/ in_kernel (log s') = []))) s.
Proof.
  intros I. unfold cq_step. wp_steps. destruct (cq_left (own s) <=? 0) eqn:E; bool_hyps.
  { wp_steps. split; [done |]. split; [done |]. split; [apply calm_refl |]. auto. }
  wp_steps. pose proof (wait_one SV (log s)) as Hone. rewrite <- Hw in Hone.
  destruct r as [[[ret res] d] |].
  2: { wp_steps. split; [done |]. split; [by destruct I; split |].
       split; [split; try done; by destruct s as [[]] |]. auto. }
  destruct Hone as [-> Hd]. cbn [Z.ltb Z.compare].
  destruct I as [I1 I2 I3 I4 I5 I6].
  set (h1 := Uring_wait_cqe ~> _ :: log s).
  pose proof (length_remove1 _ _ Hd) as Hlen.
  destruct d as [l |].
  - pose proof (proj2 (elem_of_buffers l _) Hd) as Hl.
    apply NoDup_app in I3 as (N1 & N2 & N3).
    destruct (buffers_remove1_Some l _ N3 Hd) as [M1 M2]. 
    destruct (I4 l) as [Hb0 [b Hb]]; [apply elem_of_app; by right |].
    assert (l ∉ extra) as Hle by (intros H; by apply (N2 l)).
    wp_steps. apply (wp_release l b); [done |]. wp_steps.
    split; [done |]. split; [split; cbn [own log heap] | split; [split; try done |]].
    + cbn [cq_left set_left]. change (in_kernel (_ :: h1)) with (remove1 (Some l) (in_kernel (log s))). lia.
    + cbn [cq_left set_left]. change (in_kernel (_ :: h1)) with (remove1 (Some l) (in_kernel (log s))). lia.
    + change (in_kernel (_ :: h1)) with (remove1 (Some l) (in_kernel (log s))). apply NoDup_app. split; [done |].
      split; [| done]. intros x Hx Hx'. apply M2 in Hx' as [Hx' _]. by apply (N2 x).
    + change (in_kernel (_ :: h1)) with (remove1 (Some l) (in_kernel (log s))). intros x Hx.
      assert (x <> l /\ x ∈ extra ++ buffers (in_kernel (log s))) as [Hxl Hx'].
      { apply elem_of_app in Hx as [Hx | Hx].
        - split; [by intros -> | apply elem_of_app; by left].
        - apply M2 in Hx as [Hx ?]. split; [done | apply elem_of_app; by right]. }
      destruct (I4 x Hx') as [? ?]. split; [done |]. cbn. by rewrite lookup_delete_ne.
    + change (in_kernel (_ :: h1)) with (remove1 (Some l) (in_kernel (log s))). intros x Hx. cbn.
      destruct (decide (x = l)) as [-> | Hxl]; [by rewrite lookup_delete_eq |].
      rewrite lookup_delete_ne by done. apply I5. rewrite elem_of_app in Hx |- *.
      rewrite M2 in Hx. naive_solver.
    + by apply heap_free_wf.
    + cbn [heap heap_free blocks]. intros x y Hx. by apply lookup_delete_Some in Hx as [_ ?].
    + split; [| left; done]. intros x Hx. cbn. apply lookup_delete_ne. by intros ->.
  - wp_steps. unfold release. wp_steps.
    pose proof (buffers_remove1_None (in_kernel (log s))) as M.
    split; [done |]. split; [split; cbn [own log heap] | split; [split; try done |]];
      change (in_kernel (_ :: h1)) with (remove1 None (in_kernel (log s))); rewrite ?M; try done.
    + cbn [cq_left set_left]. lia.
    + cbn [cq_left set_left]. lia.
    + split; [done | by left].
Qed.

(** The state [s'] after some rounds of the completion thread. *)
Definition ran (extra : list loc) (k : nat) (s s' : st session) : Prop :=
  ginv base extra total k s' /\ calm s s' /\
  (forall l, l ∈ extra -> blocks (heap s') !! l = blocks (heap s) !! l).

Lemma ran_trans extra k s1 s2 s3 : ran extra k s1 s2 -> ran extra k s2 s3 -> ran extra k s1 s3.
Proof.
  intros (A1 & A2 & A3) (B1 & B2 & B3). split; [done |]. split; [by eapply calm_trans |].
  intros l Hl. by rewrite B3, A3.
Qed.

Lemma ran_refl extra k s : ginv base extra total k s -> ran extra k s s.
Proof. intros I. split; [done |]. split; [apply calm_refl | done]. Qed.

Lemma cq_run_spec n extra k (s : st session) :
  ginv base extra total k s ->
  wp (cq_run (R := R) n) (fun o s' => o = Val () /\ ran extra k s s') s.
Proof.
  revert s. induction n as [| n IH]; intros s I; cbn [cq_run].
  { wp_steps. split; [done | by apply ran_refl]. }
  apply wp_bind. eapply wp_mono; [| by apply (cq_step_spec extra k)].
  intros o s1 (-> & I1 & C1 & X1 & _).
  eapply wp_mono; [| by apply IH]. intros o s2 (-> & H). split; [done |].
  eapply ran_trans; [| exact H]. by split.
Qed.

Lemma wp_yield extra k (Q : outcome R () -> st session -> Prop) (s : st session) :
  ginv base extra total k s -> (forall s', ran extra k s s' -> Q (Val ()) s') -> wp yield Q s.
Proof.
  intros I H. change (wp (cq_run (schedule (log s))) Q s).
  eapply wp_mono; [| by apply cq_run_spec]. intros o s' [-> Hs']. by apply H.
Qed.

(** Joining a thread that was promised at most the submitted operations: it
    takes its [total] completions and leaves the others. *)
Lemma join_spec fuel k (s : st session) :
  ginv base [] total k s -> total <= Z.of_nat k -> cq_left (own s) <= Z.of_nat fuel ->
  wp (cq_rest (R := R) fuel) (fun o s' => o = Val () /\ ran [] k s s' /\
    Z.of_nat (length (in_kernel (log s'))) = Z.of_nat k - total) s.
Proof.
  revert s. induction fuel as [| fuel IH]; intros s I Hk Hf; cbn [cq_rest]; wp_steps;
    pose proof (gi_count _ _ _ _ _ I) as Hc; pose proof (gi_total _ _ _ _ _ I) as [_ Hl0];
    destruct (cq_left (own s) <=? 0) eqn:E; bool_hyps; try lia.
  1, 2: wp_steps; split; [done |]; split; [by apply ran_refl | lia].
  apply wp_bind. eapply wp_mono; [| by apply (cq_step_spec [] k)].
  intros o s1 (-> & I1 & C1 & X1 & Hl).
  pose proof (gi_count _ _ _ _ _ I1) as Hc1.
  assert (cq_left (own s1) = cq_left (own s) - 1) as Hdec.
  { destruct Hl as [Hl | (Hl & [Hl' | Hl'])]; [done | lia |]. rewrite Hl' in Hc1. cbn in Hc1. lia. }
  eapply wp_mono; [| apply IH; [done | done | lia]]. intros o s2 (-> & H & H').
  split; [done |]. split; [| done]. eapply ran_trans; [| exact H]. by split.
Qed.

(** Joining a thread that was promised more operations than were submitted
    never ends. *)
Lemma join_hangs fuel k (s : st session) :
  ginv base [] total k s -> Z.of_nat k < total ->
  wp (cq_rest (R := R) fuel) (fun o _ => o = NoFuel) s.
Proof.
  revert s. induction fuel as [| fuel IH]; intros s I Hk; cbn [cq_rest]; wp_steps;
    pose proof (gi_count _ _ _ _ _ I) as Hc; rewrite (proj2 (Z.leb_gt _ _)) by lia; [by wp_steps |].
  apply wp_bind. eapply wp_mono; [| by apply (cq_step_spec [] k)].
  intros o s1 (-> & I1 & _). by apply IH.
Qed.
End threads.

(** ** The handler's thread *)

(** What the handler's own steps are about. *)
Definition view (s : st session) :=
  (srv (own s), ring_size (own s), slots (own s), sq_tail (own s), unsent (own s),
   messages (log s), submitted_ops (log s)).

Lemma calm_view s s' : calm s s' -> view s' = view s.
Proof. intros [A1 A2 A3 _ _]. unfold view. rewrite A1, A2, A3. done. Qed.

(** A call that neither enters the ring nor reads the stream. *)
Definition side_call (e : ev) : bool :=
  match e with Uring_enter _ | Uring_wait_cqe | Uring_cqe_seen | Stream_read => false | _ => true end.

Lemma in_kernel_side e r h : side_call e = true -> in_kernel (e ~> r :: h) = in_kernel h.
Proof. by destruct e. Qed.

Lemma view_side w hp e r (s : st session) :
  side_call e = true ->
  view (mk_st w hp (e ~> r :: log s)) =
  (srv w, ring_size w, slots w, sq_tail w, unsent w, messages (log s), submitted_ops (log s)).
Proof. unfold view. cbn [own log]. rewrite messages_cons. by destruct e. Qed.

Section main.
Context {PF : Platform} (SV : serving) (base : gmap loc (list mbyte)) (total : Z) {R : Type}.
Context (ms : list FileRequest) (OB : obliging ms) (size blk : Z).
Hypothesis size_ok : 0 <= size < 2 ^ 64.

Lemma ginv_change extra k s s' :
  ginv base extra total k s -> cq_left (own s') = cq_left (own s) ->
  in_kernel (log s') = in_kernel (log s) -> heap s' = heap s -> ginv base extra total k s'.
Proof. intros [] E1 E2 E3. split; rewrite ?E1, ?E2, ?E3; done. Qed.

Lemma wp_ext_y extra k e (Q : outcome R (reply e) -> st session -> Prop) s :
  ginv base extra total k s -> side_call e = true ->
  (forall s', ginv base extra total k s' -> view s' = view s ->
     (forall l, l ∈ extra -> blocks (heap s') !! l = blocks (heap s) !! l) ->
     forall r h, r = world h e -> Q (Val r) s') ->
  wp (ext_y e) Q s.
Proof.
  intros I He H. unfold ext_y. apply wp_bind. eapply (wp_yield SV base total); [exact I |].
  intros s1 (I1 & C1 & X1). apply wp_ext. intros r Hr.
  apply (H (mk_st (own s1) (heap s1) (e ~> r :: log s1))) with (h := log s1); [| | done | done].
  - by eapply ginv_change; [exact I1 | | by apply in_kernel_side |].
  - rewrite view_side by done. rewrite <- (calm_view _ _ C1). done.
Qed.

Lemma wp_with_srv {A} (m : M (st GRPCFileServerSync) R A) Q (s : st session) :
  wp m (fun o s' => Q o (mk_st (set_srv (own s') (own s)) (heap s') (log s')))
    (mk_st (srv (own s)) (heap s) (log s)) ->
  wp (with_srv m) Q s.
Proof. apply wp_zoom. Qed.

Definition ready_srv (s : st session) : Prop :=
  buffer_size (srv (own s)) = Some size /\ blk_size (srv (own s)) = Some blk.

Lemma view_srv s s' : view s' = view s -> srv (own s') = srv (own s).
Proof. by intros [=]. Qed.

(** A fresh buffer becomes one of the handler's. *)
Lemma ginv_fresh k b (s : st session) w h :
  ginv base [] total k s -> cq_left w = cq_left (own s) -> in_kernel h = in_kernel (log s) ->
  ginv base [next_loc (heap s)] total k (mk_st w (heap_filled b (heap s)) h).
Proof.
  intros [I1 I2 I3 I4 I5 I6] E1 E2.
  pose proof (heap_alloc_fresh _ I6) as Hfr.
  assert (next_loc (heap s) ∉ buffers (in_kernel (log s))) as Hn.
  { intros Hin. destruct (I4 _ Hin) as [_ [x Hx]]. congruence. }
  split; cbn [own log heap]; rewrite ?E1, ?E2; try done.
  - apply NoDup_app. split; [apply NoDup_singleton |]. split; [| done].
    by intros x ->%list_elem_of_singleton.
  - intros l [->%list_elem_of_singleton | Hl]%elem_of_app; cbn.
    + rewrite lookup_insert_eq. split; [| done]. rewrite <- (I5 _ Hn). exact Hfr.
    + assert (l <> next_loc (heap s)) by (intros E; apply Hn; by rewrite <- E).
      rewrite lookup_insert_ne by done. by apply I4.
  - intros l Hl. cbn. apply not_elem_of_app in Hl as [Hl1 Hl2].
    rewrite lookup_insert_ne; [by apply I5 |]. intros E. apply Hl1. rewrite E. by left.
  - by apply heap_filled_wf.
Qed.
End main.

Section fill.
Context {PF : Platform} (SV : serving) (base : gmap loc (list mbyte)) (total : Z).
Context (ms : list FileRequest) (OB : obliging ms) (size blk : Z).
Hypothesis size_ok : 0 <= size < 2 ^ 64.

Lemma fill_buffer_spec m k (s : st session) :
  ginv base [] total k s -> ready_srv size blk s ->
  wp (fill_buffer m) (fun o s' =>
    if long_enough size m
    then exists l, o = Val (Some l) /\ ginv base [l] total k s' /\ view s' = view s /\
           blocks (heap s') !! l = Some (payload size m)
    else o = Stop UB_oob) s.
Proof.
  intros I [Hs Hb]. unfold fill_buffer. apply wp_bind.
  apply (wp_ext_y SV base total [] k Clock_now); [done | done |].
  intros s1 I1 V1 _ r h _. apply wp_bind, wp_with_srv.
  pose proof (view_srv _ _ V1) as Hsrv.
  apply (wp_new_buffer size blk); cbn [own]; [by rewrite Hsrv | by rewrite Hsrv |].
  cbn [own heap log]. intros a Ha. rewrite (alloc_ok _ OB) in Ha. subst a. cbn [Z.eqb negb].
  apply wp_bind, wp_with_srv. cbn [own heap log].
  set (s2 := mk_st (srv (own s1)) (heap s1) (Alloc (Some (u64 blk)) size ~> 0 :: log s1)).
  apply (wp_copy_fresh size m s2); cbn [own s2]; [by rewrite Hsrv | lia | |]; intros ->; [| done].
  cbn [own heap log s2].
  set (s3 := mk_st _ _ _).
  assert (ginv base [next_loc (heap s1)] total k s3) as I3 by by apply ginv_fresh.
  assert (view s3 = view s) as V3.
  { change (view s1 = view s). exact V1. }
  assert (blocks (heap s3) !! next_loc (heap s1) = Some (payload size m)) as B3
    by apply lookup_insert_eq.
  apply wp_bind. apply (wp_ext_y SV base total [next_loc (heap s1)] k Clock_now); [exact I3 | done |].
  intros s4 I4 V4 X4 now h4 _. wp_steps. exists (next_loc (heap s1)). split; [done |].
  split; [by eapply ginv_change |]. split; [transitivity (view s4); [done | congruence] |].
  cbn [heap]. rewrite X4 by by left. exact B3.
Qed.

(** [prep_write] puts the write in the queue. *)
Lemma wp_prep_write {R} slot fd l b link (s : st session) (Q : outcome R () -> st session -> Prop) :
  blocks (heap s) !! l = Some b ->
  Q (Val ()) (mk_st (set_queue (<[slot := Some l]> (slots (own s))) (sq_tail (own s))
    (unsent (own s) ++ [mk_sqe (Op_write fd l b 0) (Some l) link]) (own s)) (heap s) (log s)) ->
  wp (prep_write slot fd (Some l) link) Q s.
Proof.
  intros Hb H. unfold prep_write. apply wp_bind, (wp_block_at _ b); [done |]. cbn beta iota.
  by apply wp_set_own.
Qed.

(** [submit] hands the whole queue to the kernel. *)
Lemma submit_spec {R} extra k (s : st session) :
  ginv base extra total k s ->
  extra = buffers (user_data <$> unsent (own s)) ->
  wp (submit (R := R)) (fun o s' => o = Val () /\
    ginv base [] total (k + length (unsent (own s))) s' /\
    view s' = (srv (own s), ring_size (own s), slots (own s), sq_tail (own s), [],
               messages (log s), submitted_ops (log s) ++ (operation <$> unsent (own s)))) s.
Proof.
  intros I Hx. unfold submit. apply wp_bind. eapply (wp_yield SV base total); [exact I |].
  intros s1 (I1 & C1 & X1). pose proof (calm_view _ _ C1) as V1. injection V1 as V1 V2 V3 V4 V5 V6 V7.
  wp_steps. rewrite (enter_all SV) in Hw. subst r. rewrite V5.
  set (q := unsent (own s)) in *.
  assert (in_kernel (Uring_enter q ~> Z.of_nat (length q) :: log s1) =
          in_kernel (log s1) ++ (user_data <$> q)) as Hin.
  { cbn [in_kernel]. by rewrite Nat2Z.id, firstn_all. }
  assert (buffers (in_kernel (log s1) ++ (user_data <$> q)) = buffers (in_kernel (log s1)) ++ extra) as Hb
    by (rewrite Hx; apply omap_app).
  destruct I1 as [J1 J2 J3 J4 J5 J6].
  split; [done |]. split; [split; cbn [own log heap]; rewrite ?Hin, ?Hb |].
  - cbn [cq_left set_queue]. rewrite length_app, length_fmap. lia.
  - cbn [cq_left set_queue]. rewrite length_app, length_fmap. lia.
  - cbn [app]. by rewrite (Permutation_app_comm _ extra).
  - intros l Hl. apply J4. cbn [app] in Hl. rewrite elem_of_app in Hl |- *. tauto.
  - intros l Hl. apply J5. cbn [app] in Hl. rewrite elem_of_app in Hl |- *. tauto.
  - done.
  - unfold view. cbn [own log srv ring_size slots sq_tail unsent set_queue submitted_ops].
    rewrite messages_cons. cbn [message_of].
    by rewrite V1, V2, V3, V4, V6, V7, !Nat2Z.id, firstn_all, drop_all.
Qed.

Lemma get_slot_spec {R} extra k (s : st session) :
  ginv base extra total k s ->
  wp (get_slot (R := R)) (fun o s' =>
    o = Val (Some (sq_tail (own s) `mod` ring_size (own s))%nat) /\ ginv base extra total k s' /\
    view s' = (srv (own s), ring_size (own s), slots (own s), S (sq_tail (own s)), unsent (own s),
               messages (log s), submitted_ops (log s))) s.
Proof.
  intros I. unfold get_slot. apply wp_bind.
  apply (wp_ext_y SV base total extra k Uring_get_sqe); [done | done |].
  intros s1 I1 V1 _ r h Hr. rewrite (room SV) in Hr. subst r. wp_steps.
  injection V1 as V1 V2 V3 V4 V5 V6 V7. rewrite V2, V4. split; [done |].
  split; [by eapply ginv_change |].
  unfold view. cbn [own log srv ring_size slots sq_tail unsent set_queue].
  by rewrite V1, V2, V3, V5, V6, V7.
Qed.
End fill.

Section append.
Context {PF : Platform} (SV : serving) (base : gmap loc (list mbyte)) (total : Z).
Context (ms : list FileRequest) (OB : obliging ms) (size blk : Z).
Hypothesis size_ok : 0 <= size < 2 ^ 64.

(** Between two rounds of a handler: nothing is held back, and the operations
    of the [k / per] messages so far have been submitted. *)
Record between (k : nat) (s : st session) : Prop := {
  bw_inv : ginv base [] total k s;
  bw_unsent : unsent (own s) = [];
  bw_srv : ready_srv size blk s;
}.

Lemma append_spec target fd m k (s : st session) :
  between k s -> (forall s, target s = (Val fd, s)) ->
  wp (append target m) (fun o s' =>
    if long_enough size m
    then o = Val () /\ between (S k) s' /\ srv (own s') = srv (own s) /\
         messages (log s') = messages (log s) /\
         exists l, submitted_ops (log s') = submitted_ops (log s) ++ [Op_write fd l (payload size m) 0]
    else o = Stop UB_oob) s.
Proof.
  intros [I Hu Hs] Ht. unfold append. apply wp_bind.
  eapply wp_mono; [| by apply (get_slot_spec SV base total)].
  intros o s1 (-> & I1 & V1). cbn beta iota. injection V1 as V1 V2 V3 V4 V5 V6 V7.
  apply wp_bind. eapply wp_mono; [| apply (fill_buffer_spec SV base total ms OB size blk size_ok m k s1 I1);
    unfold ready_srv; rewrite V1; exact Hs].
  intros o s2 H. destruct (long_enough size m); [| by subst o].
  destruct H as (l & -> & I2 & W & B). cbn beta iota. injection W as W1 W2 W3 W4 W5 W6 W7.
  apply wp_bind. unfold wp at 1. rewrite Ht.
  apply wp_bind. eapply wp_prep_write; [exact B |]. rewrite W5, V5, Hu. cbn [app].
  set (s3 := mk_st (set_queue _ _ _ _) _ _).
  assert (ginv base [l] total k s3) as I3 by by eapply ginv_change.
  eapply wp_mono; [| eapply submit_spec with (extra := [l]) (k := k) (total := total); [exact SV | exact size_ok | exact I3 | done]].
  intros o s4 (-> & I4 & V). cbn [own log s3 srv ring_size slots sq_tail unsent set_queue length fmap
    list_fmap operation] in V, I4. injection V as X1 X2 X3 X4 X5 X6 X7.
  replace (k + 1)%nat with (S k) in I4 by lia. split; [done |].
  split; [split; [done | done | unfold ready_srv; by rewrite X1, W1, V1] |].
  split; [by rewrite X1, W1 |]. split; [by rewrite X6, W6 |]. exists l. by rewrite X7, W7, V7.
Qed.
End append.

(** The operations [ops] write the payloads of [l], in order, to the files [fd]
    gives each of them. *)
Definition writes_of (size : Z) (fds : list Z) (l : list FileRequest) (ops : list sqe_op) : Prop :=
  Forall2 (fun x op => exists b, op = Op_write x.1 b (payload size x.2) 0) (zip fds l) ops.

Section handlers.
Context {PF : Platform} (SV : serving) (base : gmap loc (list mbyte)) (total : Z).
Context (ms : list FileRequest) (OB : obliging ms) (size blk : Z).
Hypothesis size_ok : 0 <= size < 2 ^ 64.

Abbreviation between := (between base total size blk).

Lemma between_change k s s' :
  between k s -> cq_left (own s') = cq_left (own s) -> in_kernel (log s') = in_kernel (log s) ->
  heap s' = heap s -> unsent (own s') = unsent (own s) -> srv (own s') = srv (own s) -> between k s'.
Proof.
  intros [I U S] E1 E2 E3 E4 E5. split; [by eapply ginv_change | by rewrite E4 |].
  unfold ready_srv. by rewrite E5.
Qed.

(** The messages still to come. *)
Definition rest (s : st session) : list FileRequest := drop (length (messages (log s))) ms.

Lemma wp_read_y {R} k (Q : outcome R (option FileRequest) -> st session -> Prop) s :
  between k s ->
  (forall s', between k s' -> own s' = set_left (cq_left (own s')) (own s) ->
     submitted_ops (log s') = submitted_ops (log s) ->
     match rest s with
     | [] => rest s' = [] -> Q (Val None) s'
     | m :: l => rest s' = l -> Q (Val (Some m)) s'
     end) ->
  wp (ext_y Stream_read) Q s.
Proof.
  intros B H. unfold ext_y. apply wp_bind. eapply (wp_yield SV base total); [apply B |].
  intros s1 (I1 & C1 & _). pose proof (calm_view _ _ C1) as V. injection V as V1 V2 V3 V4 V5 V6 V7.
  apply (wp_ext Stream_read). intros r Hr. rewrite (stream_of _ OB), V6 in Hr. subst r.
  set (s2 := mk_st _ _ _). specialize (H s2).
  assert (between k s2) as B2.
  { split; [by eapply ginv_change | cbn; by rewrite V5, (bw_unsent _ _ _ _ _ _ B) |].
    unfold ready_srv. cbn. rewrite V1. apply B. }
  specialize (H B2 (calm_own _ _ C1) V7). unfold rest in *.
  destruct (ms !! length (messages (log s))) as [m |] eqn:Em.
  - rewrite (drop_S _ _ _ Em) in H. apply H. cbn [log s2]. rewrite messages_cons.
    cbn [message_of length]. by rewrite V6.
  - apply lookup_ge_None in Em. rewrite drop_ge in H by done. apply H.
    apply drop_ge. cbn [log s2]. rewrite messages_cons. cbn [message_of]. by rewrite V6.
Qed.

Lemma large_async_loop_spec fuel fd m k (s : st session) :
  between k s -> (length (rest s) < fuel)%nat ->
  wp (large_async_loop fuel fd m) (fun o s' =>
    if forallb (long_enough size) (m :: rest s)
    then o = Val () /\ between (k + S (length (rest s))) s' /\
         exists ops, submitted_ops (log s') = submitted_ops (log s) ++ ops /\
           writes_of size (replicate (S (length (rest s))) fd) (m :: rest s) ops
    else o = Stop UB_oob) s.
Proof.
  revert m k s. induction fuel as [| fuel IH]; intros m k s B Hf; [lia |].
  cbn [large_async_loop forallb]. apply wp_bind.
  eapply wp_mono; [| apply (append_spec SV base total ms OB size blk size_ok) with (fd := fd); [exact B | done]].
  intros o s1 H. destruct (long_enough size m); [| by subst o].
  destruct H as (-> & B1 & S1 & M1 & l & O1). cbn [andb].
  assert (rest s1 = rest s) as R1 by (unfold rest; by rewrite M1).
  apply wp_bind, (wp_read_y (S k)); [exact B1 |]. intros s2 B2 S2 O2. rewrite R1.
  destruct (rest s) as [| m' tl] eqn:Er; intros R2.
  - wp_steps. cbn. split; [done |]. replace (k + 1)%nat with (S k) by lia. split; [done |].
    exists [Op_write fd l (payload size m) 0]. rewrite O2, O1. split; [done |].
    repeat constructor. by exists l.
  - cbn beta iota. cbn [length] in Hf.
    eapply wp_mono; [| apply (IH m' (S k)); [exact B2 | rewrite R2; lia]].
    intros o s3 H. rewrite R2 in H. destruct (forallb (long_enough size) (m' :: tl)); [| done].
    destruct H as (-> & B3 & ops & O3 & W3). split; [done |].
    replace (k + S (length (m' :: tl)))%nat with (S k + S (length tl))%nat by (cbn; lia).
    split; [done |]. exists (Op_write fd l (payload size m) 0 :: ops).
    rewrite O3, O2, O1, <- app_assoc. split; [done |]. constructor; [by exists l | exact W3].
Qed.

(** What is left when the handler has joined its thread: [left] operations
    nobody has waited for, whose buffers are still allocated; apart from these
    the memory is as before. *)
Record remains (left : Z) (s : st session) : Prop := {
  se_left : Z.of_nat (length (in_kernel (log s))) = left;
  se_nodup : NoDup (buffers (in_kernel (log s)));
  se_leaked : forall l, l ∈ buffers (in_kernel (log s)) ->
    base !! l = None /\ is_Some (blocks (heap s) !! l);
  se_memory : forall l, l ∉ buffers (in_kernel (log s)) -> blocks (heap s) !! l = base !! l;
}.

Lemma remains_none s : remains 0 s -> in_kernel (log s) = [] /\ blocks (heap s) = base.
Proof.
  intros [L _ _ M]. assert (in_kernel (log s) = []) as E by (apply nil_length_inv; lia).
  split; [done |]. apply map_eq. intros l. apply M. rewrite E. apply not_elem_of_nil.
Qed.

Lemma remains_change left s s' :
  remains left s -> in_kernel (log s') = in_kernel (log s) -> blocks (heap s') = blocks (heap s) ->
  remains left s'.
Proof. intros [] E1 E2. split; rewrite ?E1, ?E2; done. Qed.

(** After the join and the calls that follow it. *)
Lemma between_joined fuel (s : st session) k :
  between k s -> total <= Z.of_nat k -> total <= Z.of_nat fuel ->
  wp (join (R := Status) fuel) (fun o s' => o = Val () /\ remains (Z.of_nat k - total) s' /\
    submitted_ops (log s') = submitted_ops (log s) /\ joinable (own s') = false) s.
Proof.
  intros [I U S] Hk Hf. pose proof I as [I1 I2 I3 I4 I5 I6].
  unfold join. apply wp_bind. eapply wp_mono; [| apply (join_spec SV base total fuel k s I Hk)].
  - intros o s' (-> & (J & C & _) & E). wp_steps. split; [done |]. split; [| split; [apply C | done]].
    destruct J as [_ _ J3 J4 J5 _]. by split.
  - lia.
Qed.

(** A handler's first steps: a new ring and the thread. *)
Lemma start_spec rounds n qd (s : st session) :
  base = blocks (heap s) -> heap_wf (heap s) -> in_kernel (log s) = [] ->
  0 <= total -> N (srv (own s)) = Some n -> queue_depth (srv (own s)) = Some qd ->
  (forall s, rounds n s = (Val total, s)) -> ready_srv size blk s ->
  wp (start rounds) (fun o s' => o = Val () /\ between 0 s' /\
    view s' = (srv (own s), sq_entries (u32 qd), ∅, 0%nat, [], messages (log s), submitted_ops (log s))) s.
Proof.
  intros Hb W Hk Ht Hn Hq Hr Hs. unfold start. wp_steps. rewrite Hq. wp_steps.
  rewrite (init_ok SV) in Hw. subst r. cbn [Z.eqb negb]. wp_steps.
  cbn [srv set_ring]. rewrite Hn. wp_steps. unfold wp at 1. rewrite Hr. wp_steps.
  set (s1 := mk_st _ _ _).
  assert (in_kernel (log s1) = []) as Hk1 by (cbn [log s1 in_kernel]; exact Hk).
  split; [done |]. split; [| done]. split; [split; rewrite ?Hk1; cbn | done | done].
  - lia.
  - lia.
  - constructor.
  - by intros l ?%elem_of_nil.
  - by rewrite Hb.
  - done.
Qed.

Lemma rest_messages (s s' : st session) : messages (log s') = messages (log s) -> rest s' = rest s.
Proof. unfold rest. by intros ->. Qed.

(** A call between rounds that the ring does not see. *)
Lemma wp_side_y {R} k e (Q : outcome R (reply e) -> st session -> Prop) s :
  between k s -> side_call e = true ->
  (forall s' h, between k s' -> view s' = view s -> Q (Val (world h e)) s') ->
  wp (ext_y e) Q s.
Proof.
  intros B He H. apply (wp_ext_y SV base total [] k e); [apply B | done |].
  intros s1 I1 V1 _ r h ->. apply H; [| exact V1]. injection V1 as V1 V2 V3 V4 V5 V6 V7.
  split; [done | by rewrite V5, (bw_unsent _ _ _ _ _ _ B) |].
  unfold ready_srv. rewrite V1. apply B.
Qed.

(** The round robin of [AppendOneLargeFileAsyncExpr]. *)
Definition robin (fds : list Z) (n len : nat) : list Z :=
  (fun j => default 0 (fds !! (j `mod` length fds)%nat)) <$> seq n len.

Lemma expr_loop_spec fuel fds n k (s : st session) :
  between k s -> (length (rest s) < fuel)%nat -> (0 < length fds)%nat -> Z.of_nat (length fds) <= INT_MAX ->
  Z.of_nat n + Z.of_nat (length (rest s)) <= INT_MAX ->
  wp (expr_loop fuel fds (Z.of_nat (length fds)) (Z.of_nat n)) (fun o s' =>
    if forallb (long_enough size) (rest s)
    then o = Val () /\ between (k + length (rest s)) s' /\
         exists ops, submitted_ops (log s') = submitted_ops (log s) ++ ops /\
           writes_of size (robin fds n (length (rest s))) (rest s) ops
    else o = Stop UB_oob) s.
Proof.
  revert n k s. induction fuel as [| fuel IH]; intros n k s B Hf Hfd Hmax Hn; [lia |].
  cbn [expr_loop]. apply wp_bind, (wp_read_y k); [exact B |]. intros s1 B1 S1 O1.
  destruct (rest s) as [| m tl] eqn:Er; intros R1; cbn beta iota.
  { wp_steps. cbn. split; [done |]. rewrite Nat.add_0_r. split; [done |]. exists [].
    rewrite app_nil_r. split; [done | constructor]. }
  cbn [length] in *. unfold INT_MAX in *.
  pose proof (Nat.mod_upper_bound n (length fds) ltac:(lia)) as Hmod.
  destruct (lookup_lt_is_Some_2 fds _ Hmod) as [fd Efd].
  assert (forall s : st session, next_file fds (Z.of_nat (length fds)) (Z.of_nat n) s = (Val fd, s)) as Ht.
  { intros s0. unfold next_file, int_rem, int_ret. rewrite (proj2 (Z.eqb_neq _ 0)) by lia.
    rewrite (proj2 (Z.eqb_neq _ INT_MIN)) by (unfold INT_MIN; lia). cbn [andb].
    rewrite (proj2 (in_int_spec _)) by lia.
    rewrite Z_rem_mod, <- Nat2Z.inj_mod by lia. apply wp_eq. wp_steps.
    rewrite Nat2Z.id, Efd. by wp_steps. }
  apply wp_bind. cbn [forallb].
  eapply wp_mono; [| apply (append_spec SV base total ms OB size blk size_ok) with (fd := fd); [exact B1 | exact Ht]].
  intros o s2 H. destruct (long_enough size m); [| by subst o].
  destruct H as (-> & B2 & S2 & M2 & l & O2). cbn [andb].
  pose proof (rest_messages _ _ M2) as R2. rewrite R1 in R2.
  replace (Z.of_nat n + 1) with (Z.of_nat (S n)) by lia.
  eapply wp_mono; [| apply (IH (S n) (S k)); [exact B2 | rewrite ?R2; lia..]].
  intros o s3 H. rewrite R2 in H. destruct (forallb (long_enough size) tl); [| done].
  destruct H as (-> & B3 & ops & O3 & W3). split; [done |].
  replace (k + S (length tl))%nat with (S k + length tl)%nat by lia. split; [done |].
  exists (Op_write fd l (payload size m) 0 :: ops). rewrite O3, O2, O1, <- app_assoc.
  split; [done |]. constructor; [| exact W3]. exists l. cbn [fst snd]. by rewrite Efd.
Qed.

(** The slots of the ring are used in pairs, and those with an odd number never
    get user data. *)
Record paired (s : st session) : Prop := {
  pr_tail : exists j, sq_tail (own s) = (2 * j)%nat;
  pr_slots : forall i, default None (slots (own s) !! (2 * i + 1)%nat) = None;
  pr_ring : exists r, ring_size (own s) = (2 * S r)%nat;
}.

Lemma even_slot j r : exists i, ((2 * j) `mod` (2 * S r) = 2 * i)%nat.
Proof. exists (j `mod` S r)%nat. by rewrite Nat.Div0.mul_mod_distr_l by lia. Qed.

Lemma odd_slot j r : exists i, (S (2 * j) `mod` (2 * S r) = 2 * i + 1)%nat.
Proof.
  exists (j `mod` S r)%nat.
  pose proof (Nat.div_mod_eq j (S r)) as H. pose proof (Nat.mod_upper_bound j (S r)) as H'.
  symmetry. apply (Nat.mod_unique _ _ (j / S r)); nia.
Qed.

Lemma get_slot_loop_spec extra fuel k (s : st session) :
  ginv base extra total k s ->
  wp (get_slot_loop (S fuel)) (fun o s' =>
    o = Val (sq_tail (own s) `mod` ring_size (own s))%nat /\ ginv base extra total k s' /\
    view s' = (srv (own s), ring_size (own s), slots (own s), S (sq_tail (own s)), unsent (own s),
               messages (log s), submitted_ops (log s))) s.
Proof.
  intros I. cbn [get_slot_loop]. apply wp_bind.
  eapply wp_mono; [| by apply (get_slot_spec SV base total)].
  intros o s1 (-> & I1 & V1). by wp_steps.
Qed.

(** The user data of the close entry: none. *)
Lemma close_data (sl : gmap nat (option loc)) e i' l :
  (forall n, e <> 2 * n + 1)%nat ->
  (forall i, default None (sl !! (2 * i + 1)%nat) = None) ->
  let sl' := <[e := Some l]> sl in
  let d := if prep_clears then None else default None (sl' !! (2 * i' + 1)%nat) in
  d = None /\ forall n, default None (<[(2 * i' + 1)%nat := d]> sl' !! (2 * n + 1)%nat) = None.
Proof.
  intros He Hs sl' d.
  assert (forall n, default None (sl' !! (2 * n + 1)%nat) = None) as Hs'.
  { intros n. subst sl'. rewrite lookup_insert_ne by apply He. apply Hs. }
  assert (d = None) as Hd by (subst d; destruct prep_clears; [done | apply Hs']).
  split; [done |]. intros n. destruct (decide (2 * i' + 1 = 2 * n + 1)%nat) as [-> | Hne];
    [by rewrite lookup_insert_eq | rewrite lookup_insert_ne by done; apply Hs'].
Qed.

(** The second half of a round: the queue gets the write and the close, and
    the kernel both. *)
Lemma append_small_tail fuel fd m l k (s : st session) :
  ginv base [l] total k s -> ready_srv size blk s -> unsent (own s) = [] ->
  blocks (heap s) !! l = Some (payload size m) ->
  (exists j r, sq_tail (own s) = S (2 * j) /\ ring_size (own s) = (2 * S r)%nat) ->
  (forall i, default None (slots (own s) !! (2 * i + 1)%nat) = None) ->
  wp (prep_write ((sq_tail (own s) - 1) `mod` ring_size (own s)) fd (Some l) true;;
      slot ← get_slot_loop (S fuel);
      prep_close slot fd;;
      submit) (fun o s' => o = Val () /\ between (k + 2) s' /\ paired s' /\
        messages (log s') = messages (log s) /\
        submitted_ops (log s') = submitted_ops (log s) ++ [Op_write fd l (payload size m) 0; Op_close fd]) s.
Proof.
  intros I Hs Hu Bl (j & r & Hj & Hr) Hodd. rewrite Hj, Hr.
  replace (S (2 * j) - 1)%nat with (2 * j)%nat by lia.
  destruct (even_slot j r) as [i Hi]. destruct (odd_slot j r) as [i' Hi'].
  rewrite Hi. assert (forall n, 2 * i <> 2 * n + 1)%nat as He by lia. generalize dependent (2 * i)%nat.
  intros e _ He.
  apply wp_bind. eapply wp_prep_write; [exact Bl |]. rewrite Hu. cbn [app].
  set (s1 := mk_st _ _ _). assert (ginv base [l] total k s1) as I1 by by eapply ginv_change.
  apply wp_bind. eapply wp_mono; [| by apply (get_slot_loop_spec [l] fuel k s1)].
  intros o s2 (-> & I2 & V). injection V as V1 V2 V3 V4 V5 V6 V7. cbn beta iota.
  cbn [own s1 set_queue sq_tail ring_size]. rewrite Hj, Hr, Hi'.
  destruct (close_data (slots (own s)) e i' l He Hodd) as [Hd Hodd'].
  unfold prep_close. wp_steps. rewrite V3, Hd. rewrite Hd in Hodd'.
  set (s3 := mk_st _ _ _). assert (ginv base [l] total k s3) as I3 by by eapply ginv_change.
  assert (unsent (own s3) = [mk_sqe (Op_write fd l (payload size m) 0) (Some l) true;
    mk_sqe (Op_close fd) None false]) as U3 by (cbn; by rewrite V5).
  eapply wp_mono; [| eapply submit_spec with (extra := [l]) (k := k) (total := total);
    [exact SV | exact size_ok | exact I3 | by rewrite U3]].
  intros o s4 (-> & I4 & W). rewrite U3 in W, I4. injection W as W1 W2 W3 W4 W5 W6 W7.
  split; [done |]. split; [split; [exact I4 | done | unfold ready_srv; by rewrite W1, V1] |].
  split; [split; [| | exists r; by rewrite W2, V2] |].
  - exists (S j). rewrite W4, V4, Hj. lia.
  - intros n. rewrite W3. apply Hodd'.
  - split; [by rewrite W6, V6 | by rewrite W7, V7].
Qed.

Lemma append_small_spec fuel m k (s : st session) :
  between k s -> paired s ->
  wp (append_small (S fuel) m) (fun o s' =>
    if long_enough size m
    then o = Val () /\ between (k + 2) s' /\ paired s' /\ messages (log s') = messages (log s) /\
         exists fd b h, fd = world h (Sys_open (filename m) small_flags) /\ submitted_ops (log s') =
           submitted_ops (log s) ++ [Op_write fd b (payload size m) 0; Op_close fd]
    else o = Stop UB_oob) s.
Proof.
  intros B P. unfold append_small.
  apply wp_bind, (wp_side_y k Clock_now); [exact B | done |]. intros s1 h1 B1 V1.
  apply wp_bind, (wp_side_y k (Sys_open _ _)); [exact B1 | done |]. intros s2 h2 B2 V2. cbn beta.
  pose proof (open_ok _ OB h2 (filename m) [O_APPEND; O_DIRECT; O_WRONLY; O_CREAT]) as Hfd.
  set (fd := world h2 _) in *. rewrite (proj2 (Z.ltb_ge fd 0)) by exact Hfd.
  apply wp_bind, (wp_side_y k Clock_now); [exact B2 | done |]. intros s3 h3 B3 V3. cbn beta.
  wp_steps. set (s4 := mk_st _ _ _).
  assert (between k s4) as B4 by by eapply between_change.
  assert (view s4 = view s) as V4
    by (change (view s3 = view s); congruence).
  eapply wp_mono; [| apply (get_slot_loop_spec [] fuel k s4), B4].
  intros o s5 (-> & I5 & V5). injection V5 as V51 V52 V53 V54 V55 V56 V57.
  injection V4 as V41 V42 V43 V44 V45 V46 V47. cbn beta iota.
  apply wp_bind. eapply wp_mono; [| apply (fill_buffer_spec SV base total ms OB size blk size_ok m k s5 I5);
    unfold ready_srv; rewrite V51; apply B4].
  intros o s6 H. destruct (long_enough size m); [| by subst o].
  destruct H as (l & -> & I6 & V6 & Bl). injection V6 as V61 V62 V63 V64 V65 V66 V67. cbn beta iota.
  destruct P as [[j Hj] Hodd [r Hr]].
  assert (sq_tail (own s4) = (sq_tail (own s6) - 1)%nat /\ ring_size (own s4) = ring_size (own s6))
    as [-> ->] by (split; [rewrite V64, V54 | rewrite V62, V52]; cbn; lia).
  eapply wp_mono; [| apply (append_small_tail fuel fd m l k s6)];
    [| done | unfold ready_srv; rewrite V61, V51; apply B4 | rewrite V65, V55; apply B4 | done | |].
  - intros o s7 (-> & B7 & P7 & M7 & O7). split; [done |]. split; [done |]. split; [done |].
    split; [congruence |]. exists fd, l, h2. split; [done |]. by rewrite O7, V67, V57, V47.
  - exists j, r. split; [by rewrite V64, V54, V44, Hj | by rewrite V62, V52, V42].
  - intros i. by rewrite V63, V53, V43.
Qed.

(** The operations of the small files: each message's file is written and
    closed. *)
Fixpoint wrote_small (l : list FileRequest) (ops : list sqe_op) : Prop :=
  match l with
  | [] => ops = []
  | m :: l => exists fd b h tl, fd = world h (Sys_open (filename m) small_flags) /\
      ops = Op_write fd b (payload size m) 0 :: Op_close fd :: tl /\ wrote_small l tl
  end.

Lemma small_async_loop_spec fuel m k (s : st session) :
  between k s -> paired s -> (length (rest s) < fuel)%nat ->
  wp (small_async_loop fuel m) (fun o s' =>
    if forallb (long_enough size) (m :: rest s)
    then o = Val () /\ between (k + 2 * S (length (rest s))) s' /\
         exists ops, submitted_ops (log s') = submitted_ops (log s) ++ ops /\
           wrote_small (m :: rest s) ops
    else o = Stop UB_oob) s.
Proof.
  revert m k s. induction fuel as [| fuel IH]; intros m k s B P Hf; [lia |].
  cbn [small_async_loop forallb]. apply wp_bind.
  eapply wp_mono; [| apply append_small_spec; [exact B | exact P]].
  intros o s1 H. destruct (long_enough size m); [| by subst o].
  destruct H as (-> & B1 & P1 & M1 & fd & b & h & Hfd & O1). cbn [andb].
  pose proof (rest_messages _ _ M1) as R1.
  apply wp_bind, (wp_read_y (k + 2)); [exact B1 |]. intros s2 B2 S2 O2. rewrite R1.
  assert (paired s2) as P2 by (destruct P1; split; rewrite S2; done).
  destruct (rest s) as [| m' tl] eqn:Er; intros R2.
  - wp_steps. cbn. split; [done |]. split; [done |].
    exists [Op_write fd b (payload size m) 0; Op_close fd]. rewrite O2, O1. split; [done |].
    by exists fd, b, h, [].
  - cbn beta iota. cbn [length] in Hf.
    eapply wp_mono; [| apply (IH m' (k + 2)%nat); [exact B2 | exact P2 | rewrite R2; lia]].
    intros o s3 H. rewrite R2 in H. destruct (forallb (long_enough size) (m' :: tl)); [| done].
    destruct H as (-> & B3 & ops & O3 & W3). split; [done |].
    replace (k + 2 * S (length (m' :: tl)))%nat with (k + 2 + 2 * S (length tl))%nat by (cbn; lia).
    split; [done |]. exists (Op_write fd b (payload size m) 0 :: Op_close fd :: ops).
    rewrite O3, O2, O1, <- app_assoc. split; [done |]. by exists fd, b, h, ops.
Qed.

(** The join, in both cases. *)
Lemma join_outcome fuel (s : st session) k :
  between k s -> total <= Z.of_nat fuel ->
  wp (join (R := Status) fuel) (fun o s' =>
    if total <=? Z.of_nat k
    then o = Val () /\ remains (Z.of_nat k - total) s' /\
      submitted_ops (log s') = submitted_ops (log s) /\ joinable (own s') = false
    else o = NoFuel) s.
Proof.
  intros B Hf. destruct (total <=? Z.of_nat k) eqn:E; bool_hyps.
  - by apply (between_joined fuel s k).
  - unfold join. apply wp_bind. eapply wp_mono; [| apply (join_hangs SV base total fuel k s); [apply B | lia]].
    by intros o s' ->.
Qed.
End handlers.

(** The calls after the join, and the destructor. *)
Ltac finish_handler J :=
  wp_steps; unfold destroy_thread; wp_steps; cbn [joinable spend_uring]; rewrite J; cbn [when]; wp_steps.

Section expr.
Context {PF : Platform} (SV : serving) (base : gmap loc (list mbyte)) (total : Z).
Context (ms : list FileRequest) (OB : obliging ms) (size blk : Z).

(** The descriptors [fds] are those of the files numbered from [i]. *)
Fixpoint opened (nonce : Z) (i : nat) (fds : list Z) : Prop :=
  match fds with
  | [] => True
  | fd :: fds =>
      (exists h, fd = world h (Sys_open (expr_name nonce (Z.of_nat i)) small_flags)) /\
      opened nonce (S i) fds
  end.

Lemma open_files_spec nonce i todo (s : st session) :
  between base total size blk 0 s ->
  wp (open_files nonce i todo) (fun o s' => exists fds, o = Val fds /\ length fds = todo /\
    opened nonce i fds /\ between base total size blk 0 s' /\ view s' = view s) s.
Proof.
  revert i s. induction todo as [| todo IH]; intros i s B; cbn [open_files].
  { wp_steps. by exists []. }
  apply wp_bind, (wp_side_y SV base total size blk 0 (Sys_open _ _)); [exact B | done |].
  intros s1 h B1 V1. cbn beta. fold small_flags. set (fd := world h _).
  pose proof (open_ok _ OB h (expr_name nonce (Z.of_nat i)) small_flags) as Hfd. fold fd in Hfd.
  rewrite (proj2 (Z.ltb_ge fd 0)) by exact Hfd. apply wp_bind.
  eapply wp_mono; [| by apply (IH (S i))]. intros o s2 (fds & -> & L & O & B2 & V2). wp_steps.
  exists (fd :: fds). split; [done |]. split; [by cbn; rewrite L |].
  split; [split; [by exists h | done] |]. split; [done | congruence].
Qed.

Lemma close_files_spec fds (s : st session) :
  wp (close_files fds) (fun o s' => o = Val () /\ own s' = own s /\ heap s' = heap s /\
    submitted_ops (log s') = submitted_ops (log s) /\ in_kernel (log s') = in_kernel (log s)) s.
Proof.
  revert s. induction fds as [| fd fds IH]; intros s; cbn [close_files]; [by wp_steps |].
  wp_steps. eapply wp_mono; [| apply IH]. by intros o s' (-> & -> & -> & -> & ->).
Qed.
End expr.

(** ** Early returns *)

(** [m] does not return early, or only with a status in [P]. *)
Definition returns_only {S A} (P : Status -> Prop) (m : M S Status A) : Prop := forall s,
  wp m (fun o _ => forall e, o = Ret e -> P e) s.

Section returns.
Context {PF : Platform} {T : Type} (P : Status -> Prop).

Lemma ro_bind {S A B} (m : M S Status A) (f : A -> M S Status B) :
  returns_only P m -> (forall a, returns_only P (f a)) -> returns_only P (m ≫= f).
Proof.
  intros Hm Hf s. apply wp_bind. eapply wp_mono; [| apply Hm]. intros o s1 H.
  destruct o as [a | r | |]; [apply Hf | by intros e [= <-]; apply H | done | done].
Qed.
Lemma ro_mret {S A} (a : A) : returns_only P (mret a : M S Status A).
Proof. by intros s e. Qed.
Lemma ro_stop {S A} u : returns_only P (stop_ u : M S Status A).
Proof. by intros s e. Qed.
Lemma ro_nofuel {S A} : returns_only P (nofuel : M S Status A).
Proof. by intros s e. Qed.
Lemma ro_return {S A} e : P e -> returns_only P (return_ e : M S Status A).
Proof. by intros H s e' [= <-]. Qed.
Lemma ro_ext e : returns_only P (ext (P := T) e).
Proof. by intros s e'. Qed.
Lemma ro_get {A} (f : T -> A) : returns_only P (get_own f).
Proof. by intros s e'. Qed.
Lemma ro_set (f : T -> T) : returns_only P (set_own f).
Proof. by intros s e'. Qed.
Lemma ro_heap f : returns_only P (with_heap (P := T) f).
Proof. by intros s e'. Qed.
Lemma ro_fresh n : returns_only P (fresh_block (P := T) n).
Proof. by intros s e'. Qed.
Lemma ro_read {S A} (o : option A) : returns_only P (read_init o : M S Status A).
Proof. destruct o; [apply ro_mret | apply ro_stop]. Qed.
Lemma ro_int_ret {S} z : returns_only P (int_ret z : M S Status Z).
Proof. unfold int_ret. destruct (in_int z); [apply ro_mret | apply ro_stop]. Qed.
Lemma ro_int_rem {S} a b : returns_only P (int_rem a b : M S Status Z).
Proof. unfold int_rem. repeat case_match; first [apply ro_mret | apply ro_stop]. Qed.
Lemma ro_block_at p : returns_only P (block_at (P := T) p).
Proof.
  intros s. unfold wp, block_at. destruct p as [l |]; [destruct (blocks (heap s) !! l) |]; by intros e.
Qed.
Lemma ro_zoom {U A} (get : U -> T) put (m : M (st T) Status A) :
  returns_only P m -> returns_only P (zoom get put m).
Proof. intros H s. apply wp_zoom. eapply wp_mono; [| apply H]. done. Qed.
End returns.

Create HintDb ro.
#[export] Hint Resolve ro_mret ro_stop ro_nofuel ro_return ro_ext ro_get ro_set ro_heap ro_fresh
  ro_read ro_int_ret ro_int_rem ro_block_at ro_zoom : ro.

#[export] Hint Extern 1 (returns_only _ (ext ?e)) => exact (ro_ext _ e) : ro.

Ltac ro_go :=
  repeat match goal with
  | |- returns_only _ (match ?x with _ => _ end) => destruct x
  | |- returns_only _ (_ ≫= _) => apply ro_bind; [| intros ?; cbn beta iota zeta]
  | |- returns_only _ _ => solve [auto with ro]
  end.

Section early.
Context {PF : Platform}.

(** An early return is not OK. *)
Definition early (e : Status) : Prop := e <> OK.

Lemma ro_weaken {S A} (P P' : Status -> Prop) (m : M S Status A) :
  (forall e, P e -> P' e) -> returns_only P m -> returns_only P' m.
Proof. intros H Hm s. eapply wp_mono; [| apply Hm]. intros o s' Ho e He. by apply H, Ho. Qed.

Lemma ro_cq_step : returns_only early cq_step.
Proof. unfold cq_step, release. ro_go. Qed.
Lemma ro_cq_run n : returns_only early (cq_run n).
Proof. induction n as [| n IH]; cbn [cq_run]; [apply ro_mret |]. apply ro_bind; [apply ro_cq_step | done]. Qed.
Lemma ro_yield : returns_only early yield.
Proof. intros s. apply (ro_cq_run (schedule (log s)) s). Qed.
Hint Resolve ro_cq_step ro_yield : ro.
Lemma ro_ext_y e : returns_only early (ext_y e).
Proof. unfold ext_y. ro_go. Qed.
Hint Extern 1 (returns_only early (ext_y ?e)) => exact (ro_ext_y e) : ro.
Lemma ro_join fuel : returns_only early (join fuel).
Proof.
  unfold join. apply ro_bind; [| intros _; ro_go].
  induction fuel as [| fuel IH]; cbn [cq_rest]; (apply ro_bind; [ro_go | intros n; destruct (n <=? 0); ro_go]).
Qed.
Lemma ro_destroy : returns_only early destroy_thread.
Proof. unfold destroy_thread. apply ro_bind; [ro_go | intros []; [apply ro_stop | apply ro_mret]]. Qed.
Lemma ro_leave {A} m : returns_only early (leave (A := A) (UNKNOWN m)).
Proof. apply ro_bind; [apply ro_destroy | intros _; by apply ro_return]. Qed.
Hint Resolve ro_destroy ro_leave : ro.
Lemma ro_get_slot : returns_only early get_slot.
Proof. unfold get_slot. ro_go. Qed.
Hint Resolve ro_get_slot ro_join : ro.
Lemma ro_new_buffer : returns_only early new_buffer.
Proof. unfold new_buffer, posix_memalign. ro_go. Qed.
Lemma ro_copy_data p m : returns_only early (copy_data p m).
Proof. unfold copy_data, memcpy. ro_go. Qed.
Hint Resolve ro_new_buffer ro_copy_data : ro.
Lemma ro_fill m : returns_only early (fill_buffer m).
Proof. unfold fill_buffer, with_srv. ro_go. Qed.
Lemma ro_prep_write {slot fd p b} : returns_only early (prep_write slot fd p b).
Proof. unfold prep_write. ro_go. Qed.
Lemma ro_prep_close {slot fd} : returns_only early (prep_close slot fd).
Proof. unfold prep_close. ro_go. Qed.
Lemma ro_submit : returns_only early submit.
Proof. unfold submit. ro_go. Qed.
Hint Resolve ro_fill ro_prep_write ro_prep_close ro_submit : ro.
Lemma ro_append target m : returns_only early target -> returns_only early (append target m).
Proof. intros H. unfold append. ro_go. Qed.
Hint Resolve ro_append : ro.
Lemma ro_large fuel fd m : returns_only early (large_async_loop fuel fd m).
Proof. revert m. induction fuel as [| fuel IH]; intros m; cbn [large_async_loop]; ro_go. Qed.
Lemma ro_next_file fds nf n : returns_only early (next_file fds nf n).
Proof. unfold next_file. ro_go. Qed.
Hint Resolve ro_next_file ro_large : ro.
Lemma ro_expr fuel fds nf n : returns_only early (expr_loop fuel fds nf n).
Proof. revert n. induction fuel as [| fuel IH]; intros n; cbn [expr_loop]; ro_go. Qed.
Lemma ro_open_files nonce i todo : returns_only early (open_files nonce i todo).
Proof. revert i. induction todo as [| todo IH]; intros i; cbn [open_files]; ro_go. Qed.
Lemma ro_close_files fds : returns_only early (close_files fds).
Proof. induction fds as [| fd fds IH]; cbn [close_files]; ro_go. Qed.
Lemma ro_next_nonce : returns_only early next_nonce.
Proof. unfold next_nonce. ro_go. Qed.
Hint Resolve ro_expr ro_open_files ro_close_files ro_next_nonce : ro.
Lemma ro_slot_loop fuel : returns_only early (get_slot_loop fuel).
Proof. induction fuel as [| fuel IH]; cbn [get_slot_loop]; ro_go. Qed.
Hint Resolve ro_slot_loop : ro.
Lemma ro_append_small fuel m : returns_only early (append_small fuel m).
Proof. unfold append_small. ro_go. Qed.
Hint Resolve ro_append_small : ro.
Lemma ro_small fuel m : returns_only early (small_async_loop fuel m).
Proof. revert m. induction fuel as [| fuel IH]; intros m; cbn [small_async_loop]; ro_go. Qed.
Hint Resolve ro_small : ro.
Lemma ro_start rounds :
  (forall n, returns_only early (rounds n)) -> returns_only early (start rounds).
Proof. intros H. unfold start. ro_go; by apply ro_return. Qed.
End early.
#[export] Hint Resolve ro_destroy ro_leave : ro.

(** ** What a failed call does to a handler

    The failures a handler answers with an early return: of [open], of the
    allocation and, where [strict], of [io_uring_get_sqe] (the handler of small
    files tries that again). *)
Definition mishap (strict : bool) (e : entry) : bool :=
  match e with
  | existT (Sys_open _ _) fd => fd <? 0
  | existT (Alloc _ _) r => negb (r =? 0)
  | existT Uring_get_sqe ok => strict && negb ok
  | _ => false
  end.

Create HintDb careful.

Section careful.
Context {PF : Platform} (strict : bool).

(** The calls between [s] and [s'], and whether one of them was a mishap. *)
Definition saw {T} (s s' : st T) (b : bool) : Prop :=
  exists l, log s' = l ++ log s /\ existsb (mishap strict) l = b.

Lemma saw_same {T} (s s' : st T) b : log s' = log s -> b = false -> saw s s' b.
Proof. intros E ->. by exists []. Qed.
Lemma saw_refl {T} (s : st T) h o : saw s (mk_st o h (log s)) false.
Proof. by exists []. Qed.
Lemma saw_trans {T} (s1 s2 s3 : st T) b : saw s1 s2 false -> saw s2 s3 b -> saw s1 s3 b.
Proof.
  intros (l & E & H) (l' & E' & <-). exists (l' ++ l). by rewrite E', E, app_assoc, existsb_app, H, orb_false_r.
Qed.
Lemma saw_one {T} (s : st T) e o h : saw s (mk_st o h (e :: log s)) (mishap strict e).
Proof. exists [e]. by rewrite <- (orb_false_r (mishap strict e)). Qed.

(** [m] never returns early, keeps the thread as [look] sees it, and the process
    is terminated in it iff it has seen a mishap. *)
Definition careful {T A} (look : T -> bool) (j : bool) (m : M (st T) Status A) : Prop := forall s,
  look (own s) = j ->
  wp m (fun o s' => look (own s') = j /\ match o with
    | Val _ | NoFuel => saw s s' false
    | Ret _ => False
    | Stop u => saw s s' (bool_decide (u = Std_terminate))
    end) s.

Section basic.
Context {T : Type} (look : T -> bool) (j : bool).

Lemma careful_bind {A B} (m : M (st T) Status A) (f : A -> M (st T) Status B) :
  careful look j m -> (forall a, careful look j (f a)) -> careful look j (m ≫= f).
Proof.
  intros Hm Hf s Hs. apply wp_bind. eapply wp_mono; [| by apply Hm].
  intros [a | | |] s1 [H1 H2]; [| done..]. eapply wp_mono; [| by apply Hf].
  intros o s2 [H3 H4]. split; [done |]. destruct o; try done; by eapply saw_trans.
Qed.
Lemma careful_mret {A} (a : A) : careful look j (mret a).
Proof. intros [o h l] Hs. split; [done | apply saw_refl]. Qed.
Lemma careful_stop {A} u : u <> Std_terminate -> careful look j (stop_ u : M (st T) Status A).
Proof. intros Hu [o h l] Hs. split; [done |]. rewrite bool_decide_eq_false_2 by done. apply saw_refl. Qed.
Lemma careful_nofuel {A} : careful look j (nofuel : M (st T) Status A).
Proof. intros [o h l] Hs. split; [done | apply saw_refl]. Qed.
Lemma careful_get {A} (f : T -> A) : careful look j (get_own f).
Proof. intros [o h l] Hs. split; [done | apply saw_refl]. Qed.
Lemma careful_set (f : T -> T) : (forall x, look (f x) = look x) -> careful look j (set_own f).
Proof. intros H [o h l] Hs. split; [by rewrite <- Hs; apply H | apply saw_refl]. Qed.
Lemma careful_ext e : (forall r, mishap strict (e ~> r) = false) -> careful look j (ext e).
Proof.
  intros H s Hs. apply wp_ext. intros r _. split; [done |]. rewrite <- (H r). apply saw_one.
Qed.
Lemma careful_heap f : careful look j (with_heap f).
Proof. intros [o h l] Hs. split; [done | apply saw_refl]. Qed.
Lemma careful_block_at p : careful look j (block_at p).
Proof.
  intros [o h l] Hs. unfold wp, block_at. destruct p as [x |]; [destruct (blocks _ !! x) |];
    (split; [done |]; apply saw_refl).
Qed.
End basic.

Hint Resolve careful_mret careful_nofuel careful_get careful_heap careful_block_at : careful.

Ltac careful_go :=
  repeat match goal with
  | |- careful _ _ (match ?x with _ => _ end) => destruct x
  | |- careful _ _ (if ?x then _ else _) => destruct x
  | |- careful _ _ (_ ≫= _) => apply careful_bind; [| intros ?; cbn beta iota zeta]
  | |- careful ?l ?j (ext ?e) => refine (careful_ext l j e _); intros ?; reflexivity
  | |- careful ?l ?j (set_own ?f) => refine (careful_set l j f _); intros ?; reflexivity
  | |- careful _ _ (stop_ _) => apply careful_stop; discriminate
  | |- careful _ _ _ => solve [auto with careful]
  end.

Lemma careful_read {T A} (look : T -> bool) j (o : option A) : careful look j (read_init o).
Proof. unfold read_init. careful_go. Qed.
Lemma careful_int_ret {T} (look : T -> bool) j z : careful look j (int_ret z).
Proof. unfold int_ret. careful_go. Qed.
Lemma careful_int_rem {T} (look : T -> bool) j a b : careful look j (int_rem a b).
Proof. unfold int_rem. careful_go. Qed.
Lemma careful_release {T} (look : T -> bool) j p : careful look j (release p).
Proof. unfold release. careful_go. Qed.
Hint Resolve careful_read careful_int_ret careful_int_rem careful_release : careful.

Lemma careful_srv {A} j (m : M (st GRPCFileServerSync) Status A) :
  careful (fun _ => j) j m -> careful joinable j (with_srv m).
Proof. intros H [x h l] Hs. apply wp_zoom. eapply wp_mono; [| by apply H]. by intros o s' [_ H2]. Qed.

Lemma careful_copy_data j p m : careful joinable j (with_srv (copy_data p m)).
Proof. apply careful_srv. unfold copy_data, memcpy. careful_go. Qed.
Hint Resolve careful_copy_data : careful.

Abbreviation running m := (careful joinable true m).

Lemma careful_cq_step j : careful joinable j cq_step.
Proof. unfold cq_step. careful_go. Qed.
Hint Resolve careful_cq_step : careful.
Lemma careful_yield : running yield.
Proof.
  assert (forall n, running (cq_run n)) as H by (intros n; induction n; cbn [cq_run]; careful_go).
  intros s. apply H.
Qed.
Lemma careful_rest fuel : running (cq_rest fuel).
Proof. induction fuel as [| fuel IH]; cbn [cq_rest]; careful_go. Qed.
Hint Resolve careful_yield careful_rest : careful.
Lemma careful_ext_y e : (forall r, mishap strict (e ~> r) = false) -> running (ext_y e).
Proof. intros H. unfold ext_y. careful_go. by apply careful_ext. Qed.
Hint Extern 1 (careful joinable true (ext_y ?e)) => refine (careful_ext_y e _); intros ?; reflexivity : careful.

(** A statement whose failure ends the process. *)
Lemma careful_or_leave {A B} (m : M (st session) Status A) (bad : A -> bool) e (f : A -> M (st session) Status B) :
  (forall s, joinable (own s) = true -> wp m (fun o s' => joinable (own s') = true /\ match o with
     | Val a => saw s s' (bad a) | NoFuel => saw s s' false | Ret _ => False
     | Stop u => saw s s' (bool_decide (u = Std_terminate)) end) s) ->
  (forall a, bad a = true -> f a = leave e) -> (forall a, bad a = false -> running (f a)) ->
  running (m ≫= f).
Proof.
  intros Hm He Hf s Hs. apply wp_bind. eapply wp_mono; [| by apply Hm].
  intros [a | | |] s1 [H1 H2]; [| done..]. destruct (bad a) eqn:E.
  - rewrite He by done. unfold leave, destroy_thread. wp_steps. rewrite H1. cbn [when]. by wp_steps.
  - eapply wp_mono; [| by apply Hf]. intros o s2 [H3 H4]. split; [done |].
    destruct o; try done; by eapply saw_trans.
Qed.

Lemma careful_open {B} name flags e (f : Z -> M (st session) Status B) :
  (forall fd, running (f fd)) ->
  running (fd ← ext_y (Sys_open name flags); if fd <? 0 then leave e else f fd).
Proof.
  intros Hf. apply (careful_or_leave _ (fun fd => fd <? 0) e); [| by intros fd -> | by intros fd ->].
  intros s Hs. unfold ext_y. apply wp_bind. eapply wp_mono; [| by apply careful_yield].
  intros [a | | |] s1 [H1 H2]; [| done..]. apply (wp_ext (Sys_open name flags)). intros fd _. split; [done |].
  eapply saw_trans; [exact H2 | apply saw_one].
Qed.

Lemma careful_fill m : running (fill_buffer m).
Proof.
  unfold fill_buffer. apply careful_bind; [auto with careful | intros t].
  apply (careful_or_leave _ (fun p => negb (p.1 =? 0)) (UNKNOWN "posix_memalign failed"));
    [| by intros [err p] E; cbn in *; rewrite E | intros [err p] E; cbn in E; rewrite E; careful_go].
  intros s Hs. apply wp_zoom. unfold new_buffer, posix_memalign.
  wp_steps. destruct (blk_size (srv (own s))) as [b |]; wp_steps; [| by split; [| apply saw_same]].
  destruct (buffer_size (srv (own s))) as [n |]; wp_steps; [| by split; [| apply saw_same]].
  destruct (r =? 0) eqn:E; wp_steps; (split; [done |]); cbn [fst]; rewrite ?E;
    exists [Alloc (Some (u64 b)) n ~> r]; (split; [done |]); cbn; by rewrite E.
Qed.
Hint Resolve careful_fill : careful.

Lemma careful_prep_write slot fd p b : running (prep_write slot fd p b).
Proof. unfold prep_write. careful_go. Qed.
Lemma careful_prep_close slot fd : running (prep_close slot fd).
Proof. unfold prep_close. careful_go. Qed.
Lemma careful_submit : running submit.
Proof. unfold submit. careful_go. Qed.
Hint Resolve careful_prep_write careful_prep_close careful_submit : careful.

Lemma careful_next_file fds nf n : running (next_file fds nf n).
Proof. unfold next_file. careful_go. Qed.
Lemma careful_next_nonce : running next_nonce.
Proof. unfold next_nonce. careful_go. Qed.
Hint Resolve careful_next_file careful_next_nonce : careful.

Lemma careful_open_files nonce i todo : running (open_files nonce i todo).
Proof.
  revert i. induction todo as [| todo IH]; intros i; cbn [open_files]; [careful_go |].
  apply careful_open. intros fd. careful_go.
Qed.
Hint Resolve careful_open_files : careful.

(** The handlers of large files give up without a slot. *)
Section strict.
Hypothesis strict_on : strict = true.

Lemma careful_append target m : running target -> running (append target m).
Proof.
  intros Ht. unfold append.
  apply (careful_or_leave _ (fun slot => bool_decide (slot = None)) (UNKNOWN "io_uring_get_sqe failed"));
    [| by intros [] ? | intros [slot |] ?; [careful_go | done]].
  intros s Hs. unfold get_slot, ext_y. apply wp_bind, wp_bind.
  eapply wp_mono; [| by apply careful_yield]. intros [a | | |] s1 [H1 H2]; [| done..].
  apply (wp_ext Uring_get_sqe). intros ok _. cbn beta iota.
  destruct ok; wp_steps; (split; [done |]); (eapply saw_trans; [exact H2 |]);
    eexists [_]; (split; [reflexivity |]); cbn; by rewrite strict_on.
Qed.
Hint Resolve careful_append : careful.

Lemma careful_large fuel fd m : running (large_async_loop fuel fd m).
Proof. revert m. induction fuel as [| fuel IH]; intros m; cbn [large_async_loop]; careful_go. Qed.
Lemma careful_expr fuel fds nf n : running (expr_loop fuel fds nf n).
Proof. revert n. induction fuel as [| fuel IH]; intros n; cbn [expr_loop]; careful_go. Qed.
End strict.

(** That of small files tries again. *)
Section lenient.
Hypothesis strict_off : strict = false.

Lemma careful_slot_loop fuel : running (get_slot_loop fuel).
Proof.
  induction fuel as [| fuel IH]; cbn [get_slot_loop]; unfold get_slot; careful_go.
  refine (careful_ext_y Uring_get_sqe _). intros r. cbn. by rewrite strict_off.
Qed.
Hint Resolve careful_slot_loop : careful.

Lemma careful_append_small fuel m : running (append_small fuel m).
Proof.
  unfold append_small. apply careful_bind; [auto with careful | intros t]. apply careful_open. intros fd.
  careful_go.
Qed.
Hint Resolve careful_append_small : careful.

Lemma careful_small fuel m : running (small_async_loop fuel m).
Proof. revert m. induction fuel as [| fuel IH]; intros m; cbn [small_async_loop]; careful_go. Qed.
End lenient.

(** *** A whole handler *)

Definition init_failed (e : entry) : bool :=
  match e with existT (Uring_init _) r => negb (r =? 0) | _ => false end.

(** How a handler may end that was called in [s], whose thread was not yet there. *)
Definition loud {T} (s : st T) (o : outcome Status Status) (s' : st session) : Prop :=
  exists l, log s' = l ++ log s /\
  match o with
  | Val e => e = OK /\ joinable (own s') = false /\ existsb (mishap strict) l = false
  | Ret e => e = UNKNOWN "io_uring_queue_init_params failed" /\ existsb init_failed l = true /\
      existsb (mishap strict) l = false
  | Stop u => existsb (mishap strict) l = bool_decide (u = Std_terminate)
  | NoFuel => existsb (mishap strict) l = false
  end.

Lemma loud_after {T U} (s : st T) (s1 : st U) o s' :
  (exists l, log s1 = l ++ log s /\ existsb (mishap strict) l = false) -> loud s1 o s' -> loud s o s'.
Proof.
  intros (l & E & H) (l' & E' & H'). exists (l' ++ l). rewrite E', E, app_assoc, !existsb_app, H, !orb_false_r.
  split; [done |]. destruct o; try done. destruct H' as (? & -> & ?). by rewrite orb_true_l.
Qed.

(** From a point where the thread is there ([j]) or not. *)
Definition ends_loud (j : bool) (m : M (st session) Status Status) : Prop := forall s,
  joinable (own s) = j -> wp m (loud s) s.

Lemma loud_bind {A} j (m : M (st session) Status A) f :
  careful joinable j m -> (forall a, ends_loud j (f a)) -> ends_loud j (m ≫= f).
Proof.
  intros Hm Hf s Hs. apply wp_bind. eapply wp_mono; [| by apply Hm].
  intros [a | | |] s1 [H1 H2]; [| done | exact H2..].
  eapply wp_mono; [| by apply Hf]. intros o s2 H. by eapply loud_after.
Qed.

Lemma loud_join fuel f : (forall a, ends_loud false (f a)) -> ends_loud true (join fuel ≫= f).
Proof.
  intros Hf s Hs. apply wp_bind. unfold join. apply wp_bind.
  eapply wp_mono; [| by apply careful_rest]. intros [a | | |] s1 [H1 H2]; [| done | exact H2..].
  wp_steps. eapply wp_mono; [| by apply Hf]. intros o s2 H. by eapply loud_after; [| exact H].
Qed.

Lemma loud_open name flags e f :
  (forall fd, ends_loud true (f fd)) ->
  ends_loud true (fd ← ext_y (Sys_open name flags); if fd <? 0 then leave e else f fd).
Proof.
  intros Hf s Hs. unfold ext_y. apply wp_bind, wp_bind. eapply wp_mono; [| by apply careful_yield].
  intros [a | | |] s1 [H1 H2]; [| done | exact H2..]. apply (wp_ext (Sys_open name flags)). intros fd _.
  destruct (fd <? 0) eqn:E.
  - unfold leave, destroy_thread. wp_steps. rewrite H1. cbn [when]. wp_steps.
    destruct H2 as (l & El & H2). exists (Sys_open name flags ~> fd :: l). cbn. by rewrite El, E.
  - eapply wp_mono; [| by apply Hf]. intros o s2 H. eapply loud_after; [| exact H]. cbn [log].
    destruct H2 as (l & El & H2). exists (Sys_open name flags ~> fd :: l). cbn. by rewrite El, E, H2.
Qed.

Lemma loud_ok : ends_loud false (destroy_thread;; mret OK).
Proof. intros s Hs. unfold destroy_thread. wp_steps. rewrite Hs. cbn [when]. wp_steps. by exists []. Qed.

Lemma loud_stop j u : u <> Std_terminate -> ends_loud j (stop_ u).
Proof. intros Hu s _. exists []. by rewrite bool_decide_eq_false_2. Qed.

Lemma loud_start rounds f :
  (forall n, careful joinable false (rounds n)) -> (forall a, ends_loud true (f a)) ->
  ends_loud false (start rounds ≫= f).
Proof.
  intros Hr Hf s Hs. apply wp_bind. unfold start. wp_steps.
  destruct (queue_depth (srv (own s))) as [qd |]; wp_steps; [| by exists []].
  destruct (r =? 0) eqn:E; cbn [negb]; wp_steps.
  2: { exists [Uring_init (u32 qd) ~> r]. cbn. by rewrite E. }
  cbn [srv set_ring]. destruct (N (srv (own s))) as [n |]; wp_steps; [| by exists [Uring_init (u32 qd) ~> r]].
  eapply wp_mono; [| by apply Hr]. intros o s1 [H1 H2].
  assert (forall b, saw (mk_st (set_ring (sq_entries (u32 qd)) (own s)) (heap s) (Uring_init (u32 qd) ~> r :: log s)) s1 b ->
    exists l, log s1 = l ++ log s /\ existsb (mishap strict) l = b) as Hx.
  { intros b' (l & El & Hl). exists (l ++ [Uring_init (u32 qd) ~> r]). cbn [log] in El.
    by rewrite El, <- app_assoc, existsb_app, Hl, orb_false_r. }
  destruct o as [a | | |]; [| done | by apply Hx..]. wp_steps.
  eapply wp_mono; [| by apply Hf]. intros o s2 H. eapply loud_after; [by apply Hx | exact H].
Qed.
End careful.

#[local] Hint Resolve careful_mret careful_nofuel careful_get careful_read careful_int_ret : careful.
#[local] Hint Resolve careful_large careful_expr careful_small careful_open_files careful_next_nonce : careful.
#[local] Hint Extern 1 (careful _ joinable true (ext_y ?e)) =>
  refine (careful_ext_y _ e _); intros ?; reflexivity : careful.
#[local] Hint Extern 1 (careful _ _ _ (ext ?e)) => refine (careful_ext _ _ _ e _); intros ?; reflexivity : careful.
#[local] Hint Extern 1 (careful _ _ _ (set_own ?f)) => refine (careful_set _ _ _ f _); intros ?; reflexivity : careful.

Ltac loud_go :=
  repeat match goal with
  | |- ends_loud _ false (start _ ≫= _) => apply loud_start; [intros ?; auto with careful | intros ?]
  | |- ends_loud _ true (join _ ≫= _) => apply loud_join; intros ?
  | |- ends_loud _ false (destroy_thread ≫= _) => apply loud_ok
  | |- ends_loud _ true (ext_y (Sys_open _ _) ≫= _) => apply loud_open; intros ?
  | |- ends_loud _ _ (_ ≫= _) => apply loud_bind; [solve [auto with careful] | intros ?; cbn zeta]
  | |- ends_loud _ _ (if _ then stop_ _ else _) => case_match; [by apply loud_stop |]
  end.

(** The three handlers; those of large files are strict. *)
Definition handler_run {PF : Platform} {R} (strict : bool) fuel s (r : outcome R Status * st session) : Prop :=
  if strict
  then AppendOneLargeFileAsync fuel s = r \/ AppendOneLargeFileAsyncExpr fuel s = r
  else AppendManySmallFilesAsync fuel s = r.

Lemma handlers_loud {PF : Platform} {R} strict fuel (s : st session) o s' :
  joinable (own s) = false -> handler_run (R := R) strict fuel s (o, s') ->
  exists body o', call (R' := R) body s = (o, s') /\ body s = (o', s') /\ loud strict s o' s'.
Proof.
  intros Hs H.
  assert (forall body, ends_loud strict false body -> call (R' := R) body s = (o, s') ->
    exists body o', call (R' := R) body s = (o, s') /\ body s = (o', s') /\ loud strict s o' s') as Hb.
  { intros body Hl E. exists body. specialize (Hl s Hs). unfold wp in Hl. unfold call in *.
    destruct (body s) as [o' s1]. exists o'. destruct o'; injection E as <- <-; done. }
  assert (forall fds, careful strict joinable false (close_files fds)) as Hc.
  { intros fds. induction fds as [| fd fds IH]; cbn [close_files]; [apply careful_mret |].
    apply careful_bind; [by apply careful_ext | done]. }
  unfold handler_run in H. destruct strict; [destruct H as [H | H] |]; revert H; apply Hb; loud_go.
Qed.

(** ** Theorems *)

Section theorems.
Context {PF : Platform} {R : Type} (size blk : Z).
Hypothesis size_ok : 0 <= size < 2 ^ 64.

(** A call of a handler on a server with parameters [n] and [qd]. *)
Record called (n qd : Z) (s : st session) : Prop := {
  cd_own : exists g, own s = session_of g /\ buffer_size g = Some size /\ blk_size g = Some blk /\
    N g = Some n /\ queue_depth g = Some qd;
  cd_heap : heap_wf (heap s);
  cd_messages : messages (log s) = [];
  cd_kernel : in_kernel (log s) = [];
  cd_ops : submitted_ops (log s) = [];
}.

Lemma called_start total n qd rounds (ms : list FileRequest) (SV : serving) (s : st session) r
    (Q : outcome Status () -> st session -> Prop) :
  called n qd s -> 0 <= total -> (forall s, rounds n s = (Val total, s)) ->
  (forall s', between (blocks (heap s)) total size blk 0 s' -> rest ms s' = ms ->
     submitted_ops (log s') = [] ->
     (exists g, srv (own s') = g /\ own s = session_of g) ->
     sq_tail (own s') = 0%nat -> slots (own s') = ∅ -> ring_size (own s') = sq_entries (u32 qd) ->
     Q (Val ()) s') ->
  wp (start rounds) Q (mk_st (own s) (heap s) (Clock_now ~> r :: log s)).
Proof.
  intros [(g & Hg & G1 & G2 & G3 & G4) W Hm Hk Ho] Ht Hr H.
  eapply wp_mono; [| apply (start_spec SV (blocks (heap s)) total size blk rounds n qd)];
    cbn [own heap log]; try done; try (rewrite Hg; done).
  intros o s' (-> & B & V). injection V as V1 V2 V3 V4 V5 V6 V7. apply H; try done.
  - unfold rest. rewrite V6. change (drop (length (messages (log s))) ms = ms). by rewrite Hm.
  - by rewrite V7.
  - exists g. split; [by rewrite V1, Hg | done].
Qed.

(** The run of [AppendOneLargeFileAsync]; the client's file uses it too. *)
Lemma large_async_run m ms n qd fuel (s : st session) :
  serving -> obliging (m :: ms) -> called n qd s ->
  0 <= n <= Z.of_nat fuel -> Z.of_nat (length (m :: ms)) <= Z.of_nat fuel ->
  exists o s', AppendOneLargeFileAsync (R := R) fuel s = (o, s') /\
    if forallb (long_enough size) (m :: ms)
    then if n <=? Z.of_nat (length (m :: ms))
         then o = Val OK /\
              (exists h, let fd := world h (Sys_open (filename m) small_flags) in
                 writes_of size (replicate (length (m :: ms)) fd) (m :: ms) (submitted_ops (log s'))) /\
              remains (blocks (heap s)) (Z.of_nat (length (m :: ms)) - n) s' /\
              (n = Z.of_nat (length (m :: ms)) ->
               in_kernel (log s') = [] /\ blocks (heap s') = blocks (heap s))
         else o = NoFuel
    else o = Stop UB_oob.
Proof.
  intros SV OB C Hn Hfuel. cbn [length] in Hfuel.
  match goal with |- exists o s', _ /\ @?P o s' => assert (wp (AppendOneLargeFileAsync (R := R) fuel) P s) as H end;
    [| unfold wp in H; destruct (AppendOneLargeFileAsync fuel s) as [o s']; by exists o, s'].
  unfold AppendOneLargeFileAsync. apply wp_call, wp_bind, (wp_ext Clock_now). intros r0 _. cbn beta iota.
  apply wp_bind, (called_start n n qd (fun n => mret n) (m :: ms) SV s); [done | lia | done |].
  intros s1 B1 R1 O1 _ _ _ _.
  set (base := blocks (heap s)) in *.
  apply wp_bind, (wp_read_y SV base n (m :: ms) OB size blk 0); [exact B1 |]. intros s2 B2 _ O2.
  rewrite R1. intros R2. cbn [default].
  apply wp_bind, (wp_side_y SV base n size blk 0 (Sys_open _ _)); [exact B2 | done |]. intros s3 h B3 V3. cbn beta.
  fold small_flags. set (fd := world h _). pose proof (open_ok _ OB h (filename m) small_flags) as Hfd. fold fd in Hfd.
  rewrite (proj2 (Z.ltb_ge fd 0)) by exact Hfd. injection V3 as V31 V32 V33 V34 V35 V36 V37.
  assert (rest (m :: ms) s3 = ms) as R3 by (by rewrite (rest_messages (m :: ms) s2 s3)).
  apply wp_bind. eapply wp_mono; [| apply (large_async_loop_spec SV base n (m :: ms) OB size blk size_ok fuel fd m 0 s3);
    [exact B3 | rewrite R3; lia]].
  intros o s4 H. rewrite R3 in H. destruct (forallb (long_enough size) (m :: ms)); [| by subst o].
  destruct H as (-> & B4 & ops & O4 & W4). cbn [plus] in B4.
  apply wp_bind. eapply wp_mono; [| apply (join_outcome SV base n size blk fuel s4 _ B4); lia].
  intros o s5 H. cbn [length]. destruct (n <=? _) eqn:En; [| by subst o].
  destruct H as (-> & K5 & O5 & J5). finish_handler J5. split; [done |]. split.
  { exists h. cbn [submitted_ops]. fold fd. rewrite O5, O4, V37, O2, O1. exact W4. }
  eapply remains_change in K5; [split; [exact K5 |] | done..].
  intros E. rewrite E, Z.sub_diag in K5. exact (remains_none _ _ K5).
Qed.

(** C2: [AppendOneLargeFileAsync] against every interleaving with its completion
    thread, on a ring that serves and with a client that sends the messages
    [m :: ms], each of at least [buffer_size - 1] bytes.  If the parameter [n >= 0]
    is at most the number of messages it returns OK, having submitted one write
    for each message, in order, with its payload, to the file the first one
    names.  The thread has waited for [n] of the writes: with [n] equal to the
    number of messages all of them are completed and every buffer has been freed
    exactly once; with a smaller [n] the others were never waited for, and
    their buffers are leaked.  With a larger [n] it never returns.  A shorter
    message is read past its end. *)
Theorem AppendOneLargeFileAsync_outcome m ms n qd fuel (s : st session) :
  serving -> obliging (m :: ms) -> called n qd s ->
  0 <= n <= Z.of_nat fuel -> Z.of_nat (length (m :: ms)) <= Z.of_nat fuel ->
  exists o s', AppendOneLargeFileAsync (R := R) fuel s = (o, s') /\
    if forallb (long_enough size) (m :: ms)
    then if n <=? Z.of_nat (length (m :: ms))
         then o = Val OK /\
              (exists h, let fd := world h (Sys_open (filename m) small_flags) in
                 writes_of size (replicate (length (m :: ms)) fd) (m :: ms) (submitted_ops (log s'))) /\
              remains (blocks (heap s)) (Z.of_nat (length (m :: ms)) - n) s' /\
              (n = Z.of_nat (length (m :: ms)) ->
               in_kernel (log s') = [] /\ blocks (heap s') = blocks (heap s))
         else o = NoFuel
    else o = Stop UB_oob.
Proof. apply large_async_run. Qed.

(** The run of [AppendManySmallFilesAsync]. *)
Lemma small_async_run m ms n qd half fuel (s : st session) :
  serving -> obliging (m :: ms) -> called n qd s ->
  sq_entries (u32 qd) = (2 * S half)%nat ->
  0 <= n -> 2 * n <= INT_MAX -> 2 * n <= Z.of_nat fuel -> Z.of_nat (length (m :: ms)) <= Z.of_nat fuel ->
  exists o s', AppendManySmallFilesAsync (R := R) fuel s = (o, s') /\
    if forallb (long_enough size) (m :: ms)
    then if n <=? Z.of_nat (length (m :: ms))
         then o = Val OK /\ wrote_small size (m :: ms) (submitted_ops (log s')) /\
              remains (blocks (heap s)) (2 * Z.of_nat (length (m :: ms)) - 2 * n) s' /\
              (n = Z.of_nat (length (m :: ms)) ->
               in_kernel (log s') = [] /\ blocks (heap s') = blocks (heap s))
         else o = NoFuel
    else o = Stop UB_oob.
Proof.
  intros SV OB C Hring Hn Hmax Hfuel Hfuel'. cbn [length] in Hfuel'.
  match goal with |- exists o s', _ /\ @?P o s' => assert (wp (AppendManySmallFilesAsync (R := R) fuel) P s) as H end;
    [| unfold wp in H; destruct (AppendManySmallFilesAsync fuel s) as [o s']; by exists o, s'].
  unfold AppendManySmallFilesAsync. apply wp_call, wp_bind, (wp_ext Clock_now). intros r0 _. cbn beta iota.
  apply wp_bind, (called_start (2 * n) n qd (fun n => int_ret (2 * n)) (m :: ms) SV s);
    [done | lia | |].
  { intros s0. unfold int_ret. rewrite (proj2 (in_int_spec _)); [done | unfold INT_MAX in Hmax; lia]. }
  intros s1 B1 R1 O1 _ T1 L1 Z1.
  set (base := blocks (heap s)) in *.
  apply wp_bind, (wp_read_y SV base (2 * n) (m :: ms) OB size blk 0); [exact B1 |]. intros s2 B2 S2 O2.
  rewrite R1. intros R2. cbn [default].
  assert (paired s2) as P2.
  { split; rewrite S2; cbn; [by exists 0%nat | by rewrite L1 | exists half; by rewrite Z1]. }
  apply wp_bind. eapply wp_mono; [| apply (small_async_loop_spec SV base (2 * n) (m :: ms) OB size blk size_ok fuel m 0 s2);
    [exact B2 | exact P2 | rewrite R2; lia]].
  intros o s4 H. rewrite R2 in H. destruct (forallb (long_enough size) (m :: ms)); [| by subst o].
  destruct H as (-> & B4 & ops & O4 & W4). cbn [plus] in B4.
  apply wp_bind. eapply wp_mono; [| apply (join_outcome SV base (2 * n) size blk fuel s4 _ B4); lia].
  intros o s5 H. cbn [length]. replace (n <=? Z.of_nat (S (length ms))) with
    (2 * n <=? Z.of_nat (2 * S (length ms))) by (apply eq_true_iff_eq; rewrite !Z.leb_le; lia).
  destruct (2 * n <=? _) eqn:En; [| by subst o].
  destruct H as (-> & K5 & O5 & J5). finish_handler J5. split; [done |].
  split; [cbn [submitted_ops]; by rewrite O5, O4, O2, O1 |].
  replace (Z.of_nat (2 * S (length ms)) - 2 * n) with (2 * Z.of_nat (S (length ms)) - 2 * n) in K5 by lia.
  eapply remains_change in K5; [split; [exact K5 |] | done..].
  intros E. rewrite E, Z.sub_diag in K5. exact (remains_none _ _ K5).
Qed.

(** C20: [AppendManySmallFilesAsync] against every interleaving, for every even
    ring size and messages that are long enough.  If the parameter [n >= 0] is at most
    the number of messages it returns OK, and for each message, in order, the
    write and the close of its file were submitted.  The thread has waited for
    [2 * n] of these operations: with [n] equal to the number of messages all of
    them are completed and every buffer has been freed exactly once, although
    the close entries are given no user data: they always lie in slots that
    never had any; with a smaller [n] the others were never waited for and their
    buffers are leaked.  With a larger [n] it never returns. *)
Theorem AppendManySmallFilesAsync_outcome m ms n qd half fuel (s : st session) :
  serving -> obliging (m :: ms) -> called n qd s ->
  sq_entries (u32 qd) = (2 * S half)%nat ->
  0 <= n -> 2 * n <= INT_MAX -> 2 * n <= Z.of_nat fuel -> Z.of_nat (length (m :: ms)) <= Z.of_nat fuel ->
  exists o s', AppendManySmallFilesAsync (R := R) fuel s = (o, s') /\
    if forallb (long_enough size) (m :: ms)
    then if n <=? Z.of_nat (length (m :: ms))
         then o = Val OK /\ wrote_small size (m :: ms) (submitted_ops (log s')) /\
              remains (blocks (heap s)) (2 * Z.of_nat (length (m :: ms)) - 2 * n) s' /\
              (n = Z.of_nat (length (m :: ms)) ->
               in_kernel (log s') = [] /\ blocks (heap s') = blocks (heap s))
         else o = NoFuel
    else o = Stop UB_oob.
Proof. apply small_async_run. Qed.

(** The run of [AppendOneLargeFileAsyncExpr]. *)
Lemma expr_async_run ms n qd nfiles fuel (s : st session) :
  serving -> obliging ms -> called n qd s -> fn (srv (own s)) = Some nfiles ->
  0 < nfiles <= INT_MAX -> 0 <= n < Z.of_nat fuel ->
  Z.of_nat (length ms) <= INT_MAX -> Z.of_nat (length ms) < Z.of_nat fuel ->
  exists o s', AppendOneLargeFileAsyncExpr (R := R) fuel s = (o, s') /\
    if forallb (long_enough size) ms
    then if n <=? Z.of_nat (length ms)
         then o = Val OK /\
              (exists fds, Z.of_nat (length fds) = nfiles /\ opened (dummy (srv (own s))) 0 fds /\
                 writes_of size (robin fds 0 (length ms)) ms (submitted_ops (log s'))) /\
              remains (blocks (heap s)) (Z.of_nat (length ms) - n) s' /\
              (n = Z.of_nat (length ms) ->
               in_kernel (log s') = [] /\ blocks (heap s') = blocks (heap s))
         else o = NoFuel
    else o = Stop UB_oob.
Proof.
  intros SV OB C Hfn Hnf Hn Hmax Hfuel'.
  match goal with |- exists o s', _ /\ @?P o s' => assert (wp (AppendOneLargeFileAsyncExpr (R := R) fuel) P s) as H end;
    [| unfold wp in H; destruct (AppendOneLargeFileAsyncExpr fuel s) as [o s']; by exists o, s'].
  unfold AppendOneLargeFileAsyncExpr. apply wp_call, wp_bind, (wp_ext Clock_now). intros r0 _. cbn beta iota.
  apply wp_bind, (called_start n n qd (fun n => mret n) ms SV s); [done | lia | done |].
  intros s1 B1 R1 O1 (g & G1 & G2) _ _ _.
  set (base := blocks (heap s)) in *.
  rewrite G2 in Hfn |- *. cbn [srv session_of] in Hfn |- *.
  apply wp_bind, wp_get_own. rewrite G1, Hfn. cbn beta. apply wp_bind, wp_read_some. cbn beta iota.
  rewrite (proj2 (Z.ltb_ge nfiles 0)) by lia.
  unfold next_nonce. wp_steps. rewrite G1. set (s2 := mk_st _ _ _).
  assert (between base n size blk 0 s2) as B2.
  { destruct B1 as [I U [S1' S2']]. split; [by eapply ginv_change | done |].
    unfold ready_srv. cbn. rewrite <- G1. done. }
  assert (rest ms s2 = ms) as R2 by (rewrite <- R1 at 2; by apply rest_messages).
  eapply wp_mono; [| apply (open_files_spec SV base n ms OB size blk _ 0 (Z.to_nat nfiles) s2 B2)].
  intros o s3 (fds & -> & L3 & OP & B3 & V3). injection V3 as V31 V32 V33 V34 V35 V36 V37. cbn beta iota.
  assert (rest ms s3 = ms) as R3 by (rewrite <- R2 at 2; by apply rest_messages).
  replace nfiles with (Z.of_nat (length fds)) by lia.
  apply wp_bind. eapply wp_mono; [| apply (expr_loop_spec SV base n ms OB size blk size_ok fuel fds 0 0 s3);
    [exact B3 | rewrite ?R3; lia..]].
  intros o s4 H. rewrite R3 in H. destruct (forallb (long_enough size) ms); [| by subst o].
  destruct H as (-> & B4 & ops & O4 & W4). cbn [plus] in B4.
  apply wp_bind. eapply wp_mono; [| apply (join_outcome SV base n size blk fuel s4 _ B4); lia].
  intros o s5 H. destruct (n <=? _) eqn:En; [| by subst o].
  destruct H as (-> & K5 & O5 & J5). wp_steps.
  eapply wp_mono; [| apply close_files_spec]. intros o s6 (-> & Es6 & H6 & O6 & K6). cbn [own] in Es6.
  rewrite <- Es6 in J5. finish_handler J5. split; [done |].
  cbn [heap log submitted_ops in_kernel] in H6, O6, K6 |- *. split.
  { exists fds. split; [lia |]. split; [exact OP |].
    rewrite O6, O5, O4, V37. cbn [log s2]. rewrite O1. exact W4. }
  match goal with |- remains _ _ ?s' /\ _ => assert (remains base (Z.of_nat (length ms) - n) s') as K7 end.
  { eapply remains_change; [exact K5 | exact K6 | cbn [heap]; by rewrite H6]. }
  split; [exact K7 |]. intros E. rewrite E, Z.sub_diag in K7. exact (remains_none _ _ K7).
Qed.

(** [AppendOneLargeFileAsyncExpr] spreads the messages over its [nfiles]
    files in turn: the [j]-th message goes to the file of the current number
    with index [j mod nfiles]; it returns OK if the parameter [n] is at most the number
    of messages, and has freed every buffer if it is equal to it. *)
Theorem AppendOneLargeFileAsyncExpr_outcome ms n qd nfiles fuel (s : st session) :
  serving -> obliging ms -> called n qd s -> fn (srv (own s)) = Some nfiles ->
  0 < nfiles <= INT_MAX -> 0 <= n < Z.of_nat fuel ->
  Z.of_nat (length ms) <= INT_MAX -> Z.of_nat (length ms) < Z.of_nat fuel ->
  exists o s', AppendOneLargeFileAsyncExpr (R := R) fuel s = (o, s') /\
    if forallb (long_enough size) ms
    then if n <=? Z.of_nat (length ms)
         then o = Val OK /\
              (exists fds, Z.of_nat (length fds) = nfiles /\ opened (dummy (srv (own s))) 0 fds /\
                 writes_of size (robin fds 0 (length ms)) ms (submitted_ops (log s'))) /\
              remains (blocks (heap s)) (Z.of_nat (length ms) - n) s' /\
              (n = Z.of_nat (length ms) ->
               in_kernel (log s') = [] /\ blocks (heap s') = blocks (heap s))
         else o = NoFuel
    else o = Stop UB_oob.
Proof. apply expr_async_run. Qed.

(** Two runs of the experiment never share a file: the names are different
    for different nonces or indices. *)
Theorem expr_names_distinct nonce nonce' i i' :
  0 <= nonce -> 0 <= nonce' -> 0 <= i -> 0 <= i' ->
  expr_name nonce i = expr_name nonce' i' -> nonce = nonce' /\ i = i'.
Proof.
  intros H1 H2 H3 H4 E. unfold expr_name in E. apply string_app_cancel in E.
  destruct (split_at_char DASH (pretty nonce) (pretty nonce') (pretty i) (pretty i')) as [E1 E2];
    [by apply pretty_Z_nonneg_dash | by apply pretty_Z_nonneg_dash | exact E |].
  split; by apply pretty_Z_inj.
Qed.

End theorems.

(** ** Instances *)

(** A ring that completes operations in order, and a completion thread that makes
    one step whenever it may. *)
Definition async_world (ms : list FileRequest) (h : history) (e : ev) : reply e :=
  match e with
  | Sys_open _ _ => 7
  | Sys_write _ b => Z.of_nat (length b)
  | Stream_read => ms !! length (messages h)
  | Uring_enter q => Z.of_nat (length q)
  | Uring_wait_cqe => match in_kernel h with [] => None | d :: _ => Some (0, 4, d) end
  | e => default_reply e
  end.

Definition async_env (ms : list FileRequest) : Platform :=
  let p := platform_of (async_world ms) in {|
    world := async_world ms;
    nlb_width := 16;
    NVME_DEFAULT_IOCTL_TIMEOUT := @NVME_DEFAULT_IOCTL_TIMEOUT p;
    ENVME_CONNECT_RESOLVE := @ENVME_CONNECT_RESOLVE p;
    nvme_errno_to_string := @nvme_errno_to_string p;
    std_strerror := @std_strerror p;
    EINTR := @EINTR p;
    schedule := fun _ => 1%nat;
    sq_entries := Z.to_nat;
    prep_clears := false;
    empty_literal := @empty_literal p;
  |}.

Lemma async_env_obliging ms : obliging (PF := async_env ms) ms.
Proof. by split. Qed.

Lemma async_env_serving ms : serving (PF := async_env ms).
Proof.
  split; try done. intros h. cbn. destruct (in_kernel h); [done |].
  split; [done | apply list_elem_of_here].
Qed.

Definition two_called_state : st session := mk_st (session_of set_up) heap_empty [].

Lemma two_called : called 4 512 2 8 two_called_state.
Proof.
  split; [| apply heap_empty_wf | done..]. by exists set_up.
Qed.

(** The same server with the parameter 1. *)
Definition set_up_one : GRPCFileServerSync :=
  mk_files (address set_up) (port set_up) (queue_depth set_up) (poll_threshold set_up) (times set_up)
    (buffer_size set_up) (blk_size set_up) (Some 1) (fn set_up) (dummy set_up).

Definition one_called_state : st session := mk_st (session_of set_up_one) heap_empty [].

Lemma one_called : called 4 512 1 8 one_called_state.
Proof.
  split; [| apply heap_empty_wf | done..]. by exists set_up_one.
Qed.

(** With the parameter 2 both writes are waited for; with the parameter 1 the
    second one, and its buffer, stay. *)
Lemma AppendOneLargeFileAsync_outcome_witness :
  (exists o s',
    AppendOneLargeFileAsync (PF := async_env two_messages) (R := Empty_set) 9 two_called_state = (o, s') /\
    o = Val OK /\
    (exists h, let fd := world (Platform := async_env two_messages) h (Sys_open "/mnt/a" small_flags) in
      writes_of 4 [fd; fd] two_messages (submitted_ops (log s'))) /\
    in_kernel (log s') = [] /\ blocks (heap s') = ∅) /\
  (exists o s',
    AppendOneLargeFileAsync (PF := async_env two_messages) (R := Empty_set) 9 one_called_state = (o, s') /\
    o = Val OK /\ remains ∅ 1 s').
Proof.
  split.
  - destruct (AppendOneLargeFileAsync_outcome (PF := async_env two_messages) (R := Empty_set) 4 512
      ltac:(lia) {| filename := "/mnt/a"; fr_data := [x61; x62; x63; x64] |}
      [{| filename := "/mnt/b"; fr_data := [x65; x66; x67; x68] |}] 2 8 9 two_called_state
      (async_env_serving _) (async_env_obliging _) two_called ltac:(lia) ltac:(cbn; lia))
      as (o & s' & E & H1 & H2 & _ & H3).
    exists o, s'. exact (conj E (conj H1 (conj H2 (H3 eq_refl)))).
  - destruct (AppendOneLargeFileAsync_outcome (PF := async_env two_messages) (R := Empty_set) 4 512
      ltac:(lia) {| filename := "/mnt/a"; fr_data := [x61; x62; x63; x64] |}
      [{| filename := "/mnt/b"; fr_data := [x65; x66; x67; x68] |}] 1 8 9 one_called_state
      (async_env_serving _) (async_env_obliging _) one_called ltac:(lia) ltac:(cbn; lia))
      as (o & s' & E & H1 & _ & H2 & _).
    exists o, s'. exact (conj E (conj H1 H2)).
Defined.

Lemma AppendManySmallFilesAsync_outcome_witness :
  (exists o s',
    AppendManySmallFilesAsync (PF := async_env two_messages) (R := Empty_set) 9 two_called_state = (o, s') /\
    o = Val OK /\
    wrote_small (PF := async_env two_messages) 4 two_messages (submitted_ops (log s')) /\
    in_kernel (log s') = [] /\ blocks (heap s') = ∅) /\
  (exists o s',
    AppendManySmallFilesAsync (PF := async_env two_messages) (R := Empty_set) 9 one_called_state = (o, s') /\
    o = Val OK /\ remains ∅ 2 s').
Proof.
  split.
  - destruct (AppendManySmallFilesAsync_outcome (PF := async_env two_messages) (R := Empty_set) 4 512
      ltac:(lia) {| filename := "/mnt/a"; fr_data := [x61; x62; x63; x64] |}
      [{| filename := "/mnt/b"; fr_data := [x65; x66; x67; x68] |}] 2 8 3 9 two_called_state
      (async_env_serving _) (async_env_obliging _) two_called eq_refl ltac:(lia) ltac:(done)
      ltac:(lia) ltac:(cbn; lia)) as (o & s' & E & H1 & H2 & _ & H3).
    exists o, s'. exact (conj E (conj H1 (conj H2 (H3 eq_refl)))).
  - destruct (AppendManySmallFilesAsync_outcome (PF := async_env two_messages) (R := Empty_set) 4 512
      ltac:(lia) {| filename := "/mnt/a"; fr_data := [x61; x62; x63; x64] |}
      [{| filename := "/mnt/b"; fr_data := [x65; x66; x67; x68] |}] 1 8 3 9 one_called_state
      (async_env_serving _) (async_env_obliging _) one_called eq_refl ltac:(lia) ltac:(done)
      ltac:(lia) ltac:(cbn; lia)) as (o & s' & E & H1 & _ & H2 & _).
    exists o, s'. exact (conj E (conj H1 H2)).
Defined.

Lemma AppendOneLargeFileAsyncExpr_outcome_witness :
  exists o s',
    AppendOneLargeFileAsyncExpr (PF := async_env two_messages) (R := Empty_set) 9 two_called_state = (o, s') /\
    o = Val OK /\
    (exists fds, Z.of_nat (length fds) = 2 /\ opened (PF := async_env two_messages) 0 0 fds /\
      writes_of 4 (robin fds 0 2) two_messages (submitted_ops (log s'))) /\
    remains ∅ 0 s' /\
    (2 = 2 -> in_kernel (log s') = [] /\ blocks (heap s') = ∅).
Proof.
  exact (AppendOneLargeFileAsyncExpr_outcome (PF := async_env two_messages) (R := Empty_set) 4 512
    ltac:(lia) two_messages 2 8 2 9 two_called_state
    (async_env_serving _) (async_env_obliging _) two_called eq_refl ltac:(done) ltac:(lia)
    ltac:(done) ltac:(cbn; lia)).
Defined.

Lemma expr_names_distinct_witness :
  expr_name 3 14 = expr_name 3 14 /\ 3 = 3 /\ 14 = 14.
Proof.
  split; [done |].
  exact (expr_names_distinct 3 3 14 14 ltac:(done) ltac:(done) ltac:(done) ltac:(done) eq_refl).
Defined.

(** An environment without rings. *)
Definition no_rings : Platform := platform_of (fun h e =>
  match e with Uring_init _ => -1 | e => default_reply e end).

(** Nothing can be opened. *)
Definition no_files : Platform := platform_of (fun h e =>
  match e with Sys_open _ _ => -1 | e => world (Platform := async_env two_messages) h e end).


Example no_ring_is_reported :
  (AppendOneLargeFileAsync (PF := no_rings) (R := Empty_set) 3 two_called_state).1 =
    Val (UNKNOWN "io_uring_queue_init_params failed").
Proof. vm_compute. reflexivity. Qed.
