(* ===== verification/FileService.v ===== *)
(** * The file server as a whole (src/src/file_target.cc)

    [FileServer] and [FileServerAsync] hold the handlers; here they are one
    service: a server object that is constructed, listens and answers one call
    after the other.  (Calls that overlap share of it the parameters, which only
    [SetParameters] writes, the counters of time and the atomic [dummy].) *)

From S2P Require Import Prelude Proto Env BlockServer FileServer FileServerAsync.

(** ** The service *)

(** The methods of [File::Service]. *)
Inductive rpc :=
| Rpc_SetParameters (params : Parameters)
| Rpc_AppendOneLargeFile
| Rpc_AppendManySmallFiles
| Rpc_AppendOneLargeFileAsync
| Rpc_AppendOneLargeFileAsyncExpr
| Rpc_AppendManySmallFilesAsync
| Rpc_GetStat
| Rpc_ResetStat.

Section Service.
Context {PF : Platform}.

(** The ring, the thread and the counters of a handler are its locals. *)
Definition with_session {R A} (m : M (st session) R A) : M (st GRPCFileServerSync) R A :=
  zoom session_of (fun x _ => srv x) m.

Definition answer {R} (fuel : nat) (c : rpc) : M (st GRPCFileServerSync) R Status :=
  match c with
  | Rpc_SetParameters p => SetParameters p
  | Rpc_AppendOneLargeFile => AppendOneLargeFile fuel
  | Rpc_AppendManySmallFiles => AppendManySmallFiles fuel
  | Rpc_AppendOneLargeFileAsync => with_session (AppendOneLargeFileAsync fuel)
  | Rpc_AppendOneLargeFileAsyncExpr => with_session (AppendOneLargeFileAsyncExpr fuel)
  | Rpc_AppendManySmallFilesAsync => with_session (AppendManySmallFilesAsync fuel)
  | Rpc_GetStat => r ← GetStat; mret r.1
  | Rpc_ResetStat => r ← ResetStat; mret r.1
  end.

(** The calls that arrive, and the statuses they are answered with. *)
Fixpoint serve {R} (fuel : nat) (calls : list rpc) : M (st GRPCFileServerSync) R (list Status) :=
  match calls with
  | [] => mret []
  | c :: calls =>
      status ← answer fuel c;
      more ← serve fuel calls;
      mret (status :: more)
  end.

(** [main]: the calls are answered while [run] waits. *)
Definition main {R} (fuel : nat) (calls : list rpc) : M (st GRPCFileServerSync) R (list Status) :=
  set_own (fun _ => construct "0.0.0.0" 9876);;
  _ ← run;
  serve fuel calls.
End Service.

(** ** What the handlers leave alone

    [keeps look m]: on a server whose parameters have been set, with a positive
    number of files, [m] changes neither them nor the address and never reads an
    indeterminate member or divides by zero. *)

Definition fixed_part (g : GRPCFileServerSync) :=
  (address g, port g, queue_depth g, poll_threshold g, buffer_size g, blk_size g, N g, fn g).

Definition has_params (g : GRPCFileServerSync) : Prop :=
  is_Some (queue_depth g) /\ is_Some (buffer_size g) /\ is_Some (blk_size g) /\ is_Some (N g) /\
  exists n, fn g = Some n /\ 0 < n.

Definition no_bad_read {R A} (o : outcome R A) : Prop :=
  match o with Stop UB_uninit | Stop UB_div0 => False | _ => True end.

Definition keeps {P R A} (look : P -> GRPCFileServerSync) (m : M (st P) R A) : Prop := forall s,
  has_params (look (own s)) ->
  wp m (fun o s' => fixed_part (look (own s')) = fixed_part (look (own s)) /\ no_bad_read o) s.

Lemma has_params_fixed g g' : fixed_part g' = fixed_part g -> has_params g -> has_params g'.
Proof. unfold fixed_part, has_params. by intros [= _ _ -> _ -> -> -> ->]. Qed.

Section keeps.
Context {PF : Platform} {P R : Type} (look : P -> GRPCFileServerSync).

Lemma keeps_same {A} (m : M (st P) R A) :
  (forall s, wp m (fun o s' => own s' = own s /\ no_bad_read o) s) -> keeps look m.
Proof. intros H s _. eapply wp_mono; [| apply H]. by intros o s' [-> ?]. Qed.

Lemma keeps_bind {A B} (m : M (st P) R A) (f : A -> M (st P) R B) :
  keeps look m -> (forall a, keeps look (f a)) -> keeps look (m ≫= f).
Proof.
  intros Hm Hf s Hs. apply wp_bind. eapply wp_mono; [| by apply Hm].
  intros o s1 [E1 N1]. destruct o as [a | | |]; [| by split..].
  eapply wp_mono; [| apply Hf; by eapply has_params_fixed]. intros o s2 [E2 N2]. split; [congruence | done].
Qed.

(** A member that is set. *)
Lemma keeps_read {T A} (f : GRPCFileServerSync -> option T) (k : T -> M (st P) R A) :
  (forall g, has_params g -> is_Some (f g)) -> (forall a, keeps look (k a)) ->
  keeps look (a ← get_own (fun x => f (look x)); a ← read_init a; k a).
Proof.
  intros Hf Hk s Hs. apply wp_bind, wp_get_own. cbn beta iota.
  destruct (Hf _ Hs) as [a ->]. apply wp_bind. unfold read_init. apply wp_ret. by apply Hk.
Qed.

Local Ltac quiet := apply keeps_same; intros s; split; [reflexivity | exact I].

Lemma keeps_mret {A} (a : A) : keeps look (mret a : M (st P) R A).
Proof. solve [quiet]. Qed.
Lemma keeps_return {A} (r : R) : keeps look (return_ r : M (st P) R A).
Proof. solve [quiet]. Qed.
Lemma keeps_stop {A} u : no_bad_read (@Stop R A u) -> keeps look (stop_ u : M (st P) R A).
Proof. intros H. apply keeps_same. intros s. by split. Qed.
Lemma keeps_nofuel {A} : keeps look (nofuel : M (st P) R A).
Proof. solve [quiet]. Qed.
Lemma keeps_get {A} (f : P -> A) : keeps look (get_own f : M (st P) R A).
Proof. solve [quiet]. Qed.
Lemma keeps_ext e : keeps look (ext (P := P) (R := R) e).
Proof. solve [quiet]. Qed.
Lemma keeps_heap f : keeps look (with_heap f : M (st P) R ()).
Proof. solve [quiet]. Qed.
Lemma keeps_fresh n : keeps look (fresh_block n : M (st P) R loc).
Proof. solve [quiet]. Qed.
Lemma keeps_int_ret z : keeps look (int_ret z : M (st P) R Z).
Proof. unfold int_ret. destruct (in_int z); [apply keeps_mret | by apply keeps_stop]. Qed.
Lemma keeps_int_rem a b : b <> 0 -> keeps look (int_rem a b : M (st P) R Z).
Proof.
  intros Hb. unfold int_rem. rewrite (proj2 (Z.eqb_neq b 0)) by done.
  destruct (_ && _); [by apply keeps_stop | apply keeps_mret].
Qed.
Lemma keeps_set (f : P -> P) :
  (forall x, fixed_part (look (f x)) = fixed_part (look x)) -> keeps look (set_own f : M (st P) R ()).
Proof. intros H s _. apply wp_set_own. split; [apply H | exact I]. Qed.
Lemma keeps_block_at p : keeps look (block_at p : M (st P) R _).
Proof.
  apply keeps_same. intros s. unfold wp, block_at. destruct p as [l |]; [| done].
  by destruct (blocks (heap s) !! l).
Qed.
Lemma keeps_call {R'} (body : M (st P) R R) : keeps look body -> keeps look (call (R' := R') body).
Proof.
  intros H s Hs. apply wp_call. eapply wp_mono; [| by apply H]. by intros [] s' [E ?].
Qed.
Lemma keeps_when b (m : M (st P) R ()) : keeps look m -> keeps look (when b m).
Proof. intros H. destruct b; [exact H | apply keeps_mret]. Qed.
End keeps.

Lemma keeps_zoom {P Q R A} (look : P -> GRPCFileServerSync) (look' : Q -> GRPCFileServerSync)
    (get : Q -> P) (put : P -> Q -> Q) (m : M (st P) R A) :
  (forall x, look (get x) = look' x) -> (forall p x, look' (put p x) = look p) ->
  keeps look m -> keeps look' (zoom get put m).
Proof.
  intros H1 H2 Hm s Hs. rewrite <- H1 in Hs. apply wp_zoom.
  eapply wp_mono; [| by apply Hm]. cbn [own]. intros o s' [E N]. by rewrite H2, E, H1.
Qed.

Create HintDb keeps.
#[export] Hint Resolve keeps_mret keeps_return keeps_nofuel keeps_get keeps_heap
  keeps_fresh keeps_int_ret keeps_block_at : keeps.
#[export] Hint Extern 1 (keeps _ (stop_ _)) => apply keeps_stop; exact I : keeps.
#[export] Hint Extern 1 (keeps ?l (ext ?e)) => exact (keeps_ext l e) : keeps.
#[export] Hint Extern 1 (keeps _ (set_own _)) => apply keeps_set; intros []; reflexivity : keeps.

Lemma set_queue_depth g : has_params g -> is_Some (queue_depth g).
Proof. by intros (? & _). Qed.
Lemma set_buffer_size g : has_params g -> is_Some (buffer_size g).
Proof. by intros (_ & ? & _). Qed.
Lemma set_blk_size g : has_params g -> is_Some (blk_size g).
Proof. by intros (_ & _ & ? & _). Qed.
Lemma set_N g : has_params g -> is_Some (N g).
Proof. by intros (_ & _ & _ & ? & _). Qed.
#[export] Hint Resolve set_queue_depth set_buffer_size set_blk_size set_N : keeps.

(** A statement that is written out. *)
Ltac keeps_go :=
  repeat match goal with
  | |- keeps _ (match ?x with _ => _ end) => destruct x
  | |- keeps _ (if ?x then _ else _) => destruct x
  | |- keeps ?l (mbind ?f (get_own _)) =>
      apply (keeps_read l); [solve [auto with keeps] | intros ?; cbn beta iota zeta]
  | |- keeps _ (_ ≫= _) => apply keeps_bind; [| intros ?; cbn beta iota zeta]
  | |- keeps _ _ => solve [auto with keeps]
  | |- keeps _ (call _) => apply keeps_call
  | |- keeps _ (when _ _) => apply keeps_when
  end.

(** ** The synchronous handlers *)

Abbreviation id_srv := (fun g : GRPCFileServerSync => g).

Section sync.
Context {PF : Platform} {R : Type}.

Lemma keeps_release {P} (look : P -> GRPCFileServerSync) p :
  keeps look (release p : M (st P) R ()).
Proof. unfold release. keeps_go. Qed.

Lemma keeps_memcpy {P} (look : P -> GRPCFileServerSync) p src n :
  keeps look (memcpy p src n : M (st P) R ()).
Proof. unfold memcpy. keeps_go. Qed.
Hint Resolve keeps_release keeps_memcpy : keeps.

Lemma keeps_new_buffer : keeps id_srv (new_buffer (R := R)).
Proof. unfold new_buffer, posix_memalign. keeps_go. Qed.

Lemma keeps_copy_data buffer request : keeps id_srv (copy_data (R := R) buffer request).
Proof. unfold copy_data. keeps_go. Qed.

Lemma keeps_write_buffer f buffer : keeps id_srv (write_buffer (R := R) f buffer).
Proof. unfold write_buffer. keeps_go. Qed.
End sync.
#[export] Hint Resolve keeps_release keeps_memcpy keeps_new_buffer keeps_copy_data
  keeps_write_buffer : keeps.

Section sync_handlers.
Context {PF : Platform} {R : Type} (fuel : nat).

Lemma keeps_large_loop n f request : keeps id_srv (large_loop n f request).
Proof.
  revert request. induction n as [| n IH]; intros request; cbn [large_loop];
    unfold large_round, timed; keeps_go.
Qed.
Hint Resolve keeps_large_loop : keeps.

Lemma keeps_small_loop n : keeps id_srv (small_loop n).
Proof.
  induction n as [| n IH]; cbn [small_loop]; unfold small_round, timed; keeps_go.
Qed.
Hint Resolve keeps_small_loop : keeps.

Lemma keeps_AppendOneLargeFile : keeps id_srv (AppendOneLargeFile (R := R) fuel).
Proof. unfold AppendOneLargeFile. keeps_go. Qed.

Lemma keeps_AppendManySmallFiles : keeps id_srv (AppendManySmallFiles (R := R) fuel).
Proof. unfold AppendManySmallFiles, timed. keeps_go. Qed.
End sync_handlers.

(** ** The io_uring handlers *)

Section async_handlers.
Context {PF : Platform}.

Lemma keeps_with_srv {R A} (m : M (st GRPCFileServerSync) R A) :
  keeps id_srv m -> keeps srv (with_srv m).
Proof. by apply keeps_zoom. Qed.
Hint Resolve keeps_with_srv : keeps.

Lemma keeps_cq_step {R} : keeps srv (cq_step (R := R)).
Proof.
  unfold cq_step. keeps_go.
Qed.
Hint Resolve keeps_cq_step : keeps.

Lemma keeps_cq_run {R} n : keeps srv (cq_run (R := R) n).
Proof. induction n as [| n IH]; cbn [cq_run]; keeps_go. Qed.

Lemma keeps_yield {R} : keeps srv (yield (R := R)).
Proof. intros s. apply keeps_cq_run. Qed.
Hint Resolve keeps_yield : keeps.

Lemma keeps_ext_y {R} e : keeps srv (ext_y (R := R) e).
Proof. unfold ext_y. keeps_go. Qed.
Hint Extern 1 (keeps srv (ext_y ?e)) => exact (keeps_ext_y e) : keeps.

Lemma keeps_join {R} fuel : keeps srv (join (R := R) fuel).
Proof.
  unfold join. apply keeps_bind; [| intros _; keeps_go].
  induction fuel as [| fuel IH]; cbn [cq_rest]; keeps_go.
Qed.
Hint Resolve keeps_join : keeps.

Lemma keeps_destroy {R} : keeps srv (destroy_thread (R := R)).
Proof. unfold destroy_thread. keeps_go. Qed.
Hint Resolve keeps_destroy : keeps.
Lemma keeps_leave {A} e : keeps srv (leave (A := A) e).
Proof. unfold leave. keeps_go. Qed.
Hint Resolve keeps_leave : keeps.

(** The number of files is positive. *)
Lemma keeps_read_fn {R A} (k : Z -> M (st session) R A) :
  (forall n, 0 < n -> keeps srv (k n)) ->
  keeps srv (n ← get_own (fun x => fn (srv x)); n ← read_init n; k n).
Proof.
  intros Hk s Hs. pose proof Hs as (_ & _ & _ & _ & n & En & Hn). apply wp_bind, wp_get_own.
  cbn beta iota. rewrite En. apply wp_bind. unfold read_init. apply wp_ret. by apply Hk.
Qed.

Lemma keeps_start rounds :
  (forall n, keeps srv (rounds n)) -> keeps srv (start rounds).
Proof. intros H. unfold start. keeps_go. Qed.
Hint Resolve keeps_start : keeps.

Lemma keeps_get_slot {R} : keeps srv (get_slot (R := R)).
Proof. unfold get_slot. keeps_go. Qed.
Lemma keeps_prep_write {R} slot f b link : keeps srv (prep_write (R := R) slot f b link).
Proof. unfold prep_write. keeps_go. Qed.
Lemma keeps_prep_close {R} slot f : keeps srv (prep_close (R := R) slot f).
Proof. unfold prep_close. keeps_go. Qed.
Lemma keeps_submit {R} : keeps srv (submit (R := R)).
Proof. unfold submit. keeps_go. Qed.
Lemma keeps_fill_buffer request : keeps srv (fill_buffer request).
Proof. unfold fill_buffer. keeps_go. Qed.
Hint Resolve keeps_get_slot keeps_prep_write keeps_prep_close keeps_submit keeps_fill_buffer : keeps.

Lemma keeps_append target request : keeps srv target -> keeps srv (append target request).
Proof. intros H. unfold append. keeps_go. Qed.
Hint Resolve keeps_append : keeps.

Lemma keeps_large_async_loop fuel f request : keeps srv (large_async_loop fuel f request).
Proof. revert request. induction fuel as [| fuel IH]; intros request; cbn [large_async_loop]; keeps_go. Qed.
Hint Resolve keeps_large_async_loop : keeps.

Lemma keeps_open_files nonce i todo : keeps srv (open_files nonce i todo).
Proof. revert i. induction todo as [| todo IH]; intros i; cbn [open_files]; keeps_go. Qed.

Lemma keeps_next_file fds nfiles n : 0 < nfiles -> keeps srv (next_file fds nfiles n).
Proof. intros H. unfold next_file. apply keeps_bind; [apply keeps_int_rem; lia | intros i]. keeps_go. Qed.

Lemma keeps_expr_loop fuel fds nfiles n : 0 < nfiles -> keeps srv (expr_loop fuel fds nfiles n).
Proof.
  intros H. revert n. induction fuel as [| fuel IH]; intros n; cbn [expr_loop]; keeps_go.
  by apply keeps_append, keeps_next_file.
Qed.

Lemma keeps_close_files fds : keeps srv (close_files fds).
Proof. induction fds as [| f fds IH]; cbn [close_files]; keeps_go. Qed.

Lemma keeps_next_nonce : keeps srv next_nonce.
Proof. unfold next_nonce. keeps_go. Qed.

Lemma keeps_get_slot_loop fuel : keeps srv (get_slot_loop fuel).
Proof. induction fuel as [| fuel IH]; cbn [get_slot_loop]; keeps_go. Qed.
Hint Resolve keeps_open_files keeps_close_files keeps_next_nonce keeps_get_slot_loop : keeps.

Lemma keeps_small_async_loop fuel request : keeps srv (small_async_loop fuel request).
Proof.
  revert request. induction fuel as [| fuel IH]; intros request; cbn [small_async_loop];
    unfold append_small; keeps_go.
Qed.
Hint Resolve keeps_small_async_loop : keeps.

Lemma keeps_AppendOneLargeFileAsync {R} fuel : keeps srv (AppendOneLargeFileAsync (R := R) fuel).
Proof. unfold AppendOneLargeFileAsync. keeps_go. Qed.

Lemma keeps_AppendManySmallFilesAsync {R} fuel : keeps srv (AppendManySmallFilesAsync (R := R) fuel).
Proof. unfold AppendManySmallFilesAsync. keeps_go. Qed.

Lemma keeps_AppendOneLargeFileAsyncExpr {R} fuel :
  keeps srv (AppendOneLargeFileAsyncExpr (R := R) fuel).
Proof.
  unfold AppendOneLargeFileAsyncExpr. apply keeps_call.
  apply keeps_bind; [auto with keeps | intros start_time]. apply keeps_bind; [auto with keeps | intros _].
  apply keeps_read_fn. intros n Hn. keeps_go. by apply keeps_expr_loop.
Qed.
End async_handlers.

(** ** Theorems *)

(** The members a [SetParameters] sets, on the server [main] constructs. *)
Definition part_of (p : Parameters) :=
  fixed_part (mk_files "0.0.0.0" 9876 (Some (p_queue_depth p)) (Some (p_poll_threshold p))
    (mk_times 0 0 0 0) (Some (u64 (p_buffer_size p))) (Some (p_blk_size p)) (Some (p_n p))
    (Some (p_nfiles p)) 0).

Definition params_in (c : rpc) : option Parameters :=
  match c with Rpc_SetParameters p => Some p | _ => None end.

(** The parameters after the calls. *)
Definition latest (p : Parameters) (calls : list rpc) : Parameters :=
  foldl (fun p c => default p (params_in c)) p calls.

Section theorems.
Context {PF : Platform} {R : Type}.

Lemma keeps_answer fuel c : params_in c = None -> keeps id_srv (answer (R := R) fuel c).
Proof.
  intros Hc. destruct c; try discriminate; cbn [answer].
  - apply keeps_AppendOneLargeFile.
  - apply keeps_AppendManySmallFiles.
  - eapply keeps_zoom; [| | apply keeps_AppendOneLargeFileAsync]; done.
  - eapply keeps_zoom; [| | apply keeps_AppendOneLargeFileAsyncExpr]; done.
  - eapply keeps_zoom; [| | apply keeps_AppendManySmallFilesAsync]; done.
  - unfold GetStat. keeps_go.
  - unfold ResetStat. keeps_go.
Qed.

(** The server holds what [p] set. *)
Definition holds (p : Parameters) (s : st GRPCFileServerSync) : Prop :=
  fixed_part (own s) = part_of p /\ 0 < p_nfiles p.

Lemma holds_params p s : holds p s -> has_params (own s).
Proof. intros [[= _ _ E1 _ E2 E3 E4 E5] Hn]. unfold has_params. rewrite E1, E2, E3, E4, E5. eauto 10. Qed.

Lemma answer_spec fuel c p s :
  (forall q, params_in c = Some q -> 0 < p_nfiles q) -> holds p s ->
  wp (answer (R := R) fuel c) (fun o s' => no_bad_read o /\ holds (default p (params_in c)) s') s.
Proof.
  intros Hq Hp. destruct (params_in c) as [q |] eqn:E.
  - destruct c; try discriminate E. injection E as ->. specialize (Hq q eq_refl).
    destruct Hp as [[= E1 E2 _ _ _ _ _ _] _]. cbn [answer]. unfold SetParameters. wp_steps.
    split; [done |]. split; [| done]. unfold part_of, fixed_part. cbn. by rewrite E1, E2.
  - eapply wp_mono; [| apply (keeps_answer fuel c E); by eapply holds_params].
    intros o s' [Ef Hn]. split; [done |]. destruct Hp as [Hp ?]. split; [by etrans | done].
Qed.

Lemma serve_spec fuel calls p s :
  (forall q, q ∈ omap params_in calls -> 0 < p_nfiles q) -> holds p s ->
  wp (serve (R := R) fuel calls) (fun o s' => no_bad_read o /\
    (exists q, q ∈ p :: omap params_in calls /\ holds q s') /\
    match o with
    | Val l => length l = length calls /\ holds (latest p calls) s'
    | _ => True
    end) s.
Proof.
  revert p s. induction calls as [| c calls IH]; intros p s Hq Hp; cbn [serve].
  { apply wp_ret. split; [done |]. split; [| done]. exists p. split; [set_solver | done]. }
  apply wp_bind. eapply wp_mono; [| apply answer_spec; [| exact Hp]].
  2: { intros q E. apply Hq. cbn. rewrite E. set_solver. }
  intros o s1 [Hn H1]. set (p1 := default p (params_in c)) in *.
  assert (p1 ∈ p :: omap params_in (c :: calls)) as Hin
    by (subst p1; cbn; destruct (params_in c); set_solver).
  destruct o as [status | r | u |]; [| by (split; [done | split; [by exists p1 | done]])..].
  apply wp_bind. eapply wp_mono; [| apply (IH p1); [| exact H1]].
  2: { intros q Hq'. apply Hq. cbn. destruct (params_in c); set_solver. }
  intros o s2 (N2 & (q & Hq2 & H2) & H3).
  assert (q ∈ p :: omap params_in (c :: calls)) as Hin2
    by (subst p1; cbn; destruct (params_in c); cbn in Hq2; set_solver).
  destruct o as [more | r | u |]; [| by (split; [done | split; [by exists q | done]])..].
  apply wp_ret. split; [done |]. split; [by exists q |]. destruct H3 as [Hl H3].
  split; [cbn; by rewrite Hl |]. subst p1. done.
Qed.

(** C32: Once its parameters are set the service keeps them, provided every
    [SetParameters] asks for at least one file.  ([set_target_params] of the
    client does not: it leaves the number at zero, by which
    [AppendOneLargeFileAsyncExpr] divides; the client's experiments set it.)
    Whatever calls it answers after such a [SetParameters], in
    any environment and however the handlers' threads interleave, no handler reads a
    member that was never set or divides by zero, and address and parameters
    stay those of one [SetParameters] call, the latest if every call was
    answered. *)
Theorem service_keeps_parameters fuel p calls (s : st GRPCFileServerSync) o s' :
  0 < p_nfiles p -> (forall q, q ∈ omap params_in calls -> 0 < p_nfiles q) ->
  main (R := R) fuel (Rpc_SetParameters p :: calls) s = (o, s') ->
  no_bad_read o /\
  (exists q, q ∈ p :: omap params_in calls /\ fixed_part (own s') = part_of q) /\
  match o with
  | Val answers => length answers = S (length calls) /\
      fixed_part (own s') = part_of (latest p calls)
  | _ => True
  end.
Proof.
  intros Hp Hq H. refine (wp_run (main (R := R) fuel (Rpc_SetParameters p :: calls)) (fun o s' => _) s _ o s' H).
  unfold main, run. wp_steps. cbn [serve answer]. unfold SetParameters. wp_steps.
  eapply wp_mono; [| apply (serve_spec fuel calls p)]; [| done | split; done].
  intros o1 s1 (N1 & (q & Hin & H1 & _) & H3).
  destruct o1 as [more | r1 | u |]; [| by (split; [done | split; [by exists q | done]])..].
  destruct H3 as (Hl & H3 & _). apply wp_ret. split; [done |]. split; [by exists q |].
  split; [cbn; by rewrite Hl | done].
Qed.

(** Before that, an asynchronous handler reads an indeterminate queue depth. *)
Theorem async_needs_parameters fuel c (s : st GRPCFileServerSync) :
  c ∈ [Rpc_AppendOneLargeFileAsync; Rpc_AppendOneLargeFileAsyncExpr; Rpc_AppendManySmallFilesAsync] ->
  (main (R := R) fuel [c] s).1 = Stop UB_uninit.
Proof. set_unfold. by intros [-> | [-> | [-> | []]]]. Qed.
End theorems.

(** ** Instances *)

Definition two_params : Parameters := Build_Parameters 512 4 8 2000 2 2.
Definition a_session : list rpc :=
  [Rpc_AppendOneLargeFileAsync; Rpc_GetStat; Rpc_ResetStat].
Definition no_server : st GRPCFileServerSync := mk_st (construct "" 0) heap_empty [].

Lemma service_keeps_parameters_witness :
  exists answers s',
    main (PF := async_env two_messages) (R := Empty_set) 9 (Rpc_SetParameters two_params :: a_session)
      no_server = (Val answers, s') /\
    length answers = 4%nat /\ fixed_part (own s') = part_of two_params.
Proof.
  assert (forall q, q ∈ omap params_in a_session -> 0 < p_nfiles q) as Hq
    by (intros q Hq; by apply not_elem_of_nil in Hq).
  assert (0 < p_nfiles two_params) as Hp by done.
  destruct (main (PF := async_env two_messages) (R := Empty_set) 9
    (Rpc_SetParameters two_params :: a_session) no_server) as [o s'] eqn:E.
  assert (exists answers, o = Val answers) as [answers ->].
  { exists (match o with Val l => l | _ => [] end). change o with (fst (o, s')). rewrite <- E.
    vm_compute. reflexivity. }
  exists answers, s'. split; [exact eq_refl |].
  destruct (service_keeps_parameters (PF := async_env two_messages) (R := Empty_set) 9
    two_params a_session no_server (Val answers) s' Hp Hq E) as (_ & _ & H).
  exact H.
Defined.

Lemma async_needs_parameters_witness :
  (main (PF := async_env two_messages) (R := Empty_set) 9 [Rpc_AppendOneLargeFileAsyncExpr] no_server).1
    = Stop UB_uninit.
Proof.
  exact (async_needs_parameters (PF := async_env two_messages) (R := Empty_set) 9
    Rpc_AppendOneLargeFileAsyncExpr no_server ltac:(set_solver)).
Defined.
