(* ===== verification/FileStore.v ===== *)
(** * What the calls do to the files

    An abstract file system, to say what a handler of the file server leaves in
    the files: [append_chunks] is the specification, the [kernel] executes the
    calls of a history as POSIX and io_uring document it.  A submitted operation
    is executed at any later time before its completion is reported, in any
    order but for links; every file is opened for appending, and a write that is
    submitted writes its whole buffer. *)

From S2P Require Import Prelude Proto Env BlockServer FileServer FileServerAsync.

(** ** Appending *)

Abbreviation files := (gmap string (list mbyte)).

(** Bytes for the end of a file. *)
Abbreviation chunk := (string * list mbyte)%type.

Definition append_chunk (fs : files) (c : chunk) : files :=
  <[c.1 := default [] (fs !! c.1) ++ c.2]> fs.
Definition append_chunks : files -> list chunk -> files := foldl append_chunk.

(** What the chunks add to the file [p]. *)
Definition added (p : string) (l : list chunk) : list mbyte :=
  concat (snd <$> filter (fun c => c.1 = p) l).

(** The file [p] once the files [names] exist and [l] was appended. *)
Definition content (base : files) (names : list string) (l : list chunk) (p : string)
  : option (list mbyte) :=
  match base !! p with
  | Some old => Some (old ++ added p l)
  | None => if bool_decide (p ∈ names) then Some (added p l) else None
  end.

Lemma added_app p l l' : added p (l ++ l') = added p l ++ added p l'.
Proof. unfold added. by rewrite filter_app, fmap_app, concat_app. Qed.

Lemma added_one p c : added p [c] = if decide (c.1 = p) then c.2 else [].
Proof. unfold added. rewrite filter_cons. case_decide; cbn; [apply app_nil_r | done]. Qed.

Lemma added_none p l : p ∉ l.*1 -> added p l = [].
Proof.
  intros H. unfold added. replace (filter (fun c => c.1 = p) l) with (@nil chunk); [done |].
  induction l as [| c l IH]; [done |]. cbn in H. apply not_elem_of_cons in H as [H1 H2].
  rewrite filter_cons, decide_False by done. by apply IH.
Qed.

Lemma append_chunk_content base names l fs c p :
  (forall p, fs !! p = content base names l p) -> c.1 ∈ names ->
  append_chunk fs c !! p = content base names (l ++ [c]) p.
Proof.
  intros H Hc. unfold append_chunk. destruct (decide (c.1 = p)) as [<- | Hne].
  - rewrite lookup_insert_eq, H. unfold content. rewrite added_app, added_one, decide_True by done.
    destruct (base !! c.1); cbn; [by rewrite app_assoc |]. by rewrite bool_decide_true.
  - rewrite lookup_insert_ne, H by done. unfold content.
    by rewrite added_app, added_one, decide_False, app_nil_r by done.
Qed.

(** The specification as a function of the file's name. *)
Lemma append_chunks_lookup base l p : append_chunks base l !! p = content base l.*1 l p.
Proof.
  induction l as [| c l IH] using rev_ind.
  { unfold content. cbn. destruct (base !! p); [by rewrite app_nil_r | done]. }
  unfold append_chunks. rewrite foldl_snoc. fold (append_chunks base l).
  unfold append_chunk. destruct (decide (c.1 = p)) as [<- | Hne].
  - rewrite lookup_insert_eq, IH. unfold content. rewrite added_app, added_one, decide_True by done.
    destruct (base !! c.1); cbn; [by rewrite app_assoc |].
    rewrite (bool_decide_true (c.1 ∈ (l ++ [c]).*1)) by (rewrite fmap_app; set_solver).
    case_bool_decide as Hin; [done |]. cbn. by rewrite added_none.
  - rewrite lookup_insert_ne, IH by done. unfold content.
    rewrite added_app, added_one, decide_False, app_nil_r by done.
    destruct (base !! p); [done |]. apply option_eq. intros b. rewrite fmap_app.
    repeat case_bool_decide; set_solver.
Qed.

(** Files that are not named stay; a file that is named once has its bytes at
    the end. *)
Lemma append_chunks_other fs l p : p ∉ l.*1 -> append_chunks fs l !! p = fs !! p.
Proof.
  intros H. rewrite append_chunks_lookup. unfold content. rewrite added_none by done.
  destruct (fs !! p); [by rewrite app_nil_r |]. by rewrite bool_decide_false.
Qed.

Lemma append_chunks_once fs l p b :
  NoDup l.*1 -> (p, b) ∈ l -> append_chunks fs l !! p = Some (default [] (fs !! p) ++ b).
Proof.
  intros Hd (l1 & l2 & ->)%list_elem_of_split. rewrite fmap_app in Hd. cbn in Hd.
  apply NoDup_app in Hd as (_ & H1 & [H2 _]%NoDup_cons).
  assert (added p (l1 ++ (p, b) :: l2) = b) as E.
  { rewrite (cons_middle _ l1), !added_app, added_one, decide_True by done. cbn.
    rewrite (added_none p l2), app_nil_r by done. rewrite added_none; [done |].
    intros Hp. apply (H1 p Hp). by left. }
  rewrite append_chunks_lookup. unfold content. rewrite E.
  destruct (fs !! p); [done |]. rewrite bool_decide_true; [done |]. rewrite fmap_app. set_solver.
Qed.

(** Many times the same bytes. *)
Lemma append_chunks_replicate fs p b n :
  append_chunks fs (replicate (S n) (p, b)) = <[p := default [] (fs !! p) ++ concat (replicate (S n) b)]> fs.
Proof.
  revert fs. induction n as [| n IH]; intros fs.
  - cbn. by rewrite app_nil_r.
  - change (replicate (S (S n)) (p, b)) with ((p, b) :: replicate (S n) (p, b)).
    change (append_chunks fs (_ :: ?l)) with (append_chunks (append_chunk fs (p, b)) l).
    rewrite IH. unfold append_chunk. cbn [fst snd].
    rewrite lookup_insert_eq, insert_insert_eq. change (default [] (Some ?x)) with x. by rewrite <- app_assoc.
Qed.

(** Chunks for the same file are alike. *)
Definition uniform (l : list chunk) : Prop :=
  forall c c', c ∈ l -> c' ∈ l -> c.1 = c'.1 -> c.2 = c'.2.

Lemma alike_permutation {A} (l l' : list A) :
  (forall x y, x ∈ l -> y ∈ l -> x = y) -> l ≡ₚ l' -> l = l'.
Proof.
  intros H P. pose proof (Permutation_length P) as L.
  assert (forall y, y ∈ l' -> y ∈ l) as Hin by (intros y; by rewrite P).
  clear P. revert l' L Hin. induction l as [| x l IH]; intros [| y l'] L Hin; try done. f_equal.
  - apply H; [by left |]. apply Hin. by left.
  - apply IH; [| by injection L | ].
    + intros a b Ha Hb. apply H; by right.
    + intros z Hz. destruct l as [| x' l].
      * destruct l'; [by apply elem_of_nil in Hz | done].
      * assert (z = x') as -> by (apply H; [apply Hin; by right | right; by left]). by left.
Qed.

(** The order of such chunks does not matter. *)
Lemma append_chunks_permutation base l l' :
  uniform l -> l ≡ₚ l' -> append_chunks base l = append_chunks base l'.
Proof.
  intros U P. apply map_eq. intros p. rewrite !append_chunks_lookup. unfold content.
  assert (added p l = added p l') as ->.
  { unfold added. do 2 f_equal. apply alike_permutation; [| by rewrite P].
    intros c c' [E1 H1]%list_elem_of_filter [E2 H2]%list_elem_of_filter.
    destruct c as [n b], c' as [n' b']. cbn in *. subst. f_equal. by apply (U (p, b) (p, b')). }
  destruct (base !! p); [done |]. by rewrite (bool_decide_ext (p ∈ l.*1) (p ∈ l'.*1)) by (by rewrite P).
Qed.

(** The chunks were appended, in some order. *)
Definition any_order (base : files) (chunks : list chunk) (fs : files) : Prop :=
  exists cs, cs ≡ₚ chunks /\ fs = append_chunks base cs.

Lemma any_order_uniform base chunks fs :
  uniform chunks -> any_order base chunks fs -> fs = append_chunks base chunks.
Proof. intros U (cs & P & ->). symmetry. by apply append_chunks_permutation. Qed.

(** The files [names] exist: nothing is appended to them. *)
Definition touch (names : list string) (fs : files) : files :=
  append_chunks fs ((fun p => (p, [])) <$> names).

Lemma added_touch p (names : list string) : added p ((fun p => (p, [])) <$> names) = [].
Proof.
  induction names as [| n names IH]; [done |]. rewrite fmap_cons.
  change ((n, []) :: ?l) with ([(n, []) : chunk] ++ l). rewrite added_app, IH, added_one, app_nil_r.
  by case_decide.
Qed.

Lemma touch_content base names l p :
  (forall c, c ∈ l -> c.1 ∈ names) -> append_chunks (touch names base) l !! p = content base names l p.
Proof.
  intros H. unfold touch, append_chunks at 1 2. rewrite <- foldl_app.
  change (foldl append_chunk base ?l) with (append_chunks base l).
  rewrite append_chunks_lookup. unfold content. rewrite added_app, added_touch. cbn [app].
  destruct (base !! p); [done |]. rewrite fmap_app, <- list_fmap_compose.
  change (fst ∘ (fun p : string => (p, []))) with (@id string). rewrite list_fmap_id.
  rewrite (bool_decide_ext (p ∈ names ++ l.*1) (p ∈ names)); [done |]. rewrite elem_of_app.
  split; [intros [? | (c & -> & Hc)%list_elem_of_fmap] | by left]; [done | by apply H].
Qed.

Lemma touch_perm names names' fs : names ≡ₚ names' -> touch names fs = touch names' fs.
Proof.
  intros P. apply map_eq. intros p.
  change (append_chunks (touch names fs) [] !! p = append_chunks (touch names' fs) [] !! p).
  rewrite !touch_content by (by intros c ?%elem_of_nil). unfold content.
  destruct (fs !! p); [done |]. by rewrite (bool_decide_ext (p ∈ names) (p ∈ names')) by (by rewrite P).
Qed.

(** Files that are appended to need not be there before. *)
Lemma any_order_touch base names chunks fs :
  (forall p, p ∈ names <-> p ∈ chunks.*1) -> any_order (touch names base) chunks fs -> any_order base chunks fs.
Proof.
  intros H (cs & P & ->). exists cs. split; [done |]. apply map_eq. intros p.
  assert (forall q, q ∈ names <-> q ∈ cs.*1) as H' by (intros q; by rewrite H, P).
  rewrite touch_content, append_chunks_lookup.
  - unfold content. destruct (base !! p); [done |]. by rewrite (bool_decide_ext (p ∈ names) (p ∈ cs.*1)).
  - intros c Hc. apply H', list_elem_of_fmap. by exists c.
Qed.

(** ** The kernel *)

(** The files, the open descriptors, the submitted operations that were not
    executed yet, and the user data of those whose completion was not taken. *)
Record kernel := mk_kernel {
  store : files;
  paths : gmap Z string;
  pending : list sqe;
  finished : list (option loc);
}.

Definition append_to (fd : Z) (b : list mbyte) (k : kernel) : kernel :=
  match paths k !! fd with
  | Some p => mk_kernel (append_chunk (store k) (p, b)) (paths k) (pending k) (finished k)
  | None => k
  end.

Definition opened_file (path : string) (truncated : bool) (fd : Z) (k : kernel) : kernel :=
  let old := if truncated then [] else default [] (store k !! path) in
  mk_kernel (<[path := old]> (store k)) (<[fd := path]> (paths k)) (pending k) (finished k).

Definition closed_file (fd : Z) (k : kernel) : kernel :=
  mk_kernel (store k) (delete fd (paths k)) (pending k) (finished k).

(** A call with its reply; [None] where no kernel gives this reply. *)
Definition call_effect (h : history) (e : ev) : reply e -> kernel -> option kernel :=
  match e return reply e -> kernel -> option kernel with
  | Sys_open path flags => fun fd k =>
      if fd <? 0 then Some k
      else if bool_decide (O_APPEND ∈ flags /\ paths k !! fd = None)
      then Some (opened_file path (bool_decide (O_TRUNC ∈ flags)) fd k)
      else None
  | Sys_write fd b => fun r k =>
      if r <? 0 then Some k
      else if bool_decide (is_Some (paths k !! fd) /\ r <= Z.of_nat (length b))
      then Some (append_to fd (take (Z.to_nat r) b) k)
      else None
  | Sys_close fd => fun r k => Some (if r =? 0 then closed_file fd k else k)
  | Uring_enter q => fun n k =>
      Some (mk_kernel (store k) (paths k) (pending k ++ take (Z.to_nat n) q) (finished k))
  | Uring_wait_cqe => fun c k =>
      match c with
      | Some (ret, _, d) => if (ret <? 0) || bool_decide (d ∈ finished k) then Some k else None
      | None => Some k
      end
  | Uring_cqe_seen => fun _ k =>
      Some (match waited h with
            | Some d => mk_kernel (store k) (paths k) (pending k) (remove1 d (finished k))
            | None => k
            end)
  | _ => fun _ k => Some k
  end.

Definition perform (op : sqe_op) (k : kernel) : option kernel :=
  match op with
  | Op_write fd _ b _ => Some (append_to fd b k)
  | Op_close fd => Some (closed_file fd k)
  | Op_write_fixed _ _ _ _ => None                       (* no registered files here *)
  end.

(** One operation is executed: any whose predecessor is not linked to it. *)
Inductive exec : kernel -> kernel -> Prop :=
| exec_one k k' l1 q l2 :
    pending k = l1 ++ q :: l2 ->
    (forall p, list.last l1 = Some p -> linked p = false) ->
    perform (operation q) k = Some k' ->
    exec k (mk_kernel (store k') (paths k') (l1 ++ l2) (user_data q :: finished k)).

(** The kernel [k] after the calls [l] that followed on the history [h0]. *)
Inductive served (h0 : history) (k0 : kernel) : history -> kernel -> Prop :=
| served_start : served h0 k0 [] k0
| served_call l k (x : entry) k' :
    served h0 k0 l k -> call_effect (l ++ h0) (projT1 x) (projT2 x) k = Some k' ->
    served h0 k0 (x :: l) k'
| served_exec l k k' : served h0 k0 l k -> exec k k' -> served h0 k0 l k'.

(** Two kernels that can be run: one executes what it is given at once and in
    order, the other only when it is asked for a completion, the last first. *)
Definition perform_one (l1 : list sqe) (q : sqe) (l2 : list sqe) (k : kernel) : option kernel :=
  if default false (linked <$> list.last l1) then None
  else
    k' ← perform (operation q) k;
    Some (mk_kernel (store k') (paths k') (l1 ++ l2) (user_data q :: finished k)).

Fixpoint perform_all (q : list sqe) (k : kernel) : option kernel :=
  match q with
  | [] => Some k
  | x :: q => k' ← perform_one [] x q k; perform_all q k'
  end.

(** [q] is the queue from its end. *)
Fixpoint perform_back (q : list sqe) (k : kernel) : option kernel :=
  match q with
  | [] => Some k
  | x :: q => k' ← perform_one (reverse q) x [] k; perform_back q k'
  end.

Definition is_wait (e : ev) : bool := match e with Uring_wait_cqe => true | _ => false end.

Fixpoint replay (late : bool) (h0 : history) (l : history) (k0 : kernel) : option kernel :=
  match l with
  | [] => Some k0
  | existT e r :: l =>
      k ← replay late h0 l k0;
      k ← if late && is_wait e then perform_back (reverse (pending k)) k else Some k;
      k ← call_effect (l ++ h0) e r k;
      if late then Some k else perform_all (pending k) k
  end.

Lemma served_one h0 k0 l l1 q l2 k k' :
  pending k = l1 ++ q :: l2 -> perform_one l1 q l2 k = Some k' -> served h0 k0 l k ->
  served h0 k0 l k' /\ pending k' = l1 ++ l2.
Proof.
  intros Hp H Hs. unfold perform_one in H. destruct (default false _) eqn:Hl; [done |].
  destruct (perform (operation q) k) as [k1 |] eqn:E; [| done]. injection H as <-. split; [| done].
  eapply served_exec; [exact Hs |]. apply (exec_one k k1 l1 q l2); [done | | done].
  intros p Ep. by rewrite Ep in Hl.
Qed.

Lemma served_perform_all h0 k0 l q k k' :
  pending k = q -> perform_all q k = Some k' -> served h0 k0 l k -> served h0 k0 l k'.
Proof.
  revert k. induction q as [| x q IH]; intros k Hq H Hs; cbn [perform_all] in H; [by injection H as <- |].
  destruct (perform_one [] x q k) as [k1 |] eqn:E; [| done].
  destruct (served_one h0 k0 l [] x q k k1 Hq E Hs) as [Hs1 Hp1]. by eapply IH.
Qed.

Lemma served_perform_back h0 k0 l q k k' :
  pending k = reverse q -> perform_back q k = Some k' -> served h0 k0 l k -> served h0 k0 l k'.
Proof.
  revert k. induction q as [| x q IH]; intros k Hq H Hs; cbn [perform_back] in H; [by injection H as <- |].
  destruct (perform_one (reverse q) x [] k) as [k1 |] eqn:E; [| done]. rewrite reverse_cons in Hq.
  destruct (served_one h0 k0 l (reverse q) x [] k k1 Hq E Hs) as [Hs1 Hp1].
  rewrite app_nil_r in Hp1. by eapply IH.
Qed.

Lemma replay_served late h0 l k0 k : replay late h0 l k0 = Some k -> served h0 k0 l k.
Proof.
  revert k. induction l as [| [e r] l IH]; intros k; cbn [replay]; [intros [= <-]; constructor |].
  destruct (replay late h0 l k0) as [k1 |]; [| done]. specialize (IH k1 eq_refl).
  cbn [mbind option_bind]. destruct (if late && is_wait e then _ else _) as [k2 |] eqn:E2; [| done].
  assert (served h0 k0 l k2) as H2.
  { destruct (late && is_wait e); [| by injection E2 as <-].
    eapply served_perform_back; [by rewrite reverse_involutive | exact E2 | exact IH]. }
  cbn [mbind option_bind]. destruct (call_effect (l ++ h0) e r k2) as [k3 |] eqn:E3; [| done].
  cbn [mbind option_bind]. assert (served h0 k0 (e ~> r :: l) k3) as H3 by (by econstructor).
  destruct late; [by intros [= <-] |]. intros H. by eapply served_perform_all.
Qed.

(** ** What holds of every kernel that has served a history *)

Definition throughout (h0 : history) (k0 : kernel) (l : history) (P : kernel -> Prop) : Prop :=
  forall k, served h0 k0 l k -> P k.

Definition stable (P : kernel -> Prop) : Prop := forall k k', P k -> exec k k' -> P k'.

Lemma throughout_start h0 k0 (P : kernel -> Prop) : P k0 -> stable P -> throughout h0 k0 [] P.
Proof.
  intros H0 HP k Hs. remember [] as l eqn:El.
  induction Hs as [| l k x k' Hs IH Hc | l k k' Hs IH He]; [done | discriminate |].
  exact (HP _ _ (IH El) He).
Qed.

Lemma throughout_call h0 k0 l x (P P' : kernel -> Prop) :
  throughout h0 k0 l P ->
  (forall k k', P k -> call_effect (l ++ h0) (projT1 x) (projT2 x) k = Some k' -> P' k') ->
  stable P' -> throughout h0 k0 (x :: l) P'.
Proof.
  intros HP Hc HP' k Hs. remember (x :: l) as l' eqn:El.
  induction Hs as [| l1 k1 x1 k1' Hs IH Hx | l1 k1 k1' Hs IH He]; [discriminate | |].
  - injection El as -> ->. eauto.
  - exact (HP' _ _ (IH El) He).
Qed.

Lemma throughout_weaken h0 k0 l (P P' : kernel -> Prop) :
  throughout h0 k0 l P -> (forall k, P k -> P' k) -> throughout h0 k0 l P'.
Proof. intros H Hw k Hs. by apply Hw, H. Qed.

(** A call that is neither about files nor submits operations. *)
Definition quiet (e : entry) : bool :=
  negb (is_file_call e) && match projT1 e with Uring_enter _ => false | _ => true end.

(** ** When nothing is pending *)

(** The kernel has nothing to do, and the files and descriptors satisfy [Q]. *)
Definition settled (Q : files -> gmap Z string -> Prop) (k : kernel) : Prop :=
  pending k = [] /\ Q (store k) (paths k).

Lemma settled_stable Q : stable (settled Q).
Proof. intros k k' [P _] Hx. destruct Hx as [k k' l1 q l2 E]. rewrite P in E. by destruct l1. Qed.

Lemma quiet_effect h x k k' :
  quiet x = true -> call_effect h (projT1 x) (projT2 x) k = Some k' ->
  store k' = store k /\ paths k' = paths k /\ pending k' = pending k.
Proof.
  intros Hq Hc. destruct x as [e r]. cbn in Hc. destruct e; try discriminate Hq; try by injection Hc as <-.
  - injection Hc as <-. by destruct (waited h).
  - destruct r as [[[ret res] d] |]; [| by injection Hc as <-].
    cbn in Hc. case_match; [by injection Hc as <- | done].
Qed.

Lemma settled_quiet h0 k0 l x Q :
  quiet x = true -> throughout h0 k0 l (settled Q) -> throughout h0 k0 (x :: l) (settled Q).
Proof.
  intros Hq H. eapply throughout_call; [exact H | | apply settled_stable].
  intros k k' [P HQ] Hc. destruct (quiet_effect _ _ _ _ Hq Hc) as (E1 & E2 & E3).
  split; [congruence |]. by rewrite E1, E2.
Qed.

Lemma settled_close h0 k0 l fd (Q Q' : files -> gmap Z string -> Prop) :
  throughout h0 k0 l (settled Q) -> (forall fs m, Q fs m -> Q' fs (delete fd m)) ->
  throughout h0 k0 (Sys_close fd ~> 0 :: l) (settled Q').
Proof.
  intros H HQ. eapply throughout_call; [exact H | | apply settled_stable].
  intros k k' [P Hk] [= <-]. split; [done |]. by apply HQ.
Qed.

(** Exactly these files and descriptors; [given], what the kernel's answers have
    shown. *)
Definition just (given : Prop) (fs : files) (m : gmap Z string) : files -> gmap Z string -> Prop :=
  fun fs' m' => given /\ fs' = fs /\ m' = m.

Lemma settled_open h0 k0 l path flags (fd : Z) given fs m :
  0 <= fd -> throughout h0 k0 l (settled (just given fs m)) ->
  let old := if bool_decide (O_TRUNC ∈ flags) then [] else default [] (fs !! path) in
  throughout h0 k0 (Sys_open path flags ~> fd :: l)
    (settled (just (given /\ m !! fd = None) (<[path := old]> fs) (<[fd := path]> m))).
Proof.
  intros Hfd H old. eapply throughout_call; [exact H | | apply settled_stable].
  intros k k' (P & G & E1 & E2) Hc. cbn in Hc. rewrite (proj2 (Z.ltb_ge _ _) Hfd) in Hc.
  case_bool_decide as Hf; [| done]. injection Hc as <-. subst fs m old.
  split; [done |]. by destruct Hf.
Qed.

Lemma settled_write h0 k0 l fd p b given fs m :
  m !! fd = Some p -> throughout h0 k0 l (settled (just given fs m)) ->
  throughout h0 k0 (Sys_write fd b ~> Z.of_nat (length b) :: l)
    (settled (just given (append_chunk fs (p, b)) m)).
Proof.
  intros Hm H. eapply throughout_call; [exact H | | apply settled_stable].
  intros k k' (P & G & E1 & E2) Hc. cbn in Hc. rewrite (proj2 (Z.ltb_ge _ _)) in Hc by lia.
  case_bool_decide; [| done]. injection Hc as <-. unfold append_to. subst fs m.
  by rewrite Nat2Z.id, firstn_all, Hm.
Qed.

Definition no_enter (x : entry) : Prop :=
  match projT1 x with Uring_enter _ => False | _ => True end.

(** Where nothing is submitted, only the system calls on files matter. *)
Lemma served_file_calls h0 k0 l k :
  pending k0 = [] -> Forall no_enter l -> served h0 k0 l k ->
  pending k = [] /\ exists k', served h0 k0 (file_calls l) k' /\ pending k' = [] /\
    store k' = store k /\ paths k' = paths k.
Proof.
  intros P F H. induction H as [| l k [e r] k1 H IH Hc | l k k1 H IH Hx].
  - split; [done |]. exists k0. by split; [constructor |].
  - apply Forall_cons in F as [Fe Fl]. destruct (IH Fl) as (Pk & k' & S & Pk' & E1 & E2).
    rewrite file_calls_cons. destruct (is_file_call (e ~> r)) eqn:Ef.
    + assert (exists k1', call_effect (file_calls l ++ h0) e r k' = Some k1' /\ pending k1' = [] /\
        store k1' = store k1 /\ paths k1' = paths k1 /\ pending k1 = []) as (k1' & C & P1 & S1 & M1 & Q1).
      { destruct k as [fs m pe fi], k' as [fs' m' pe' fi']. cbn in E1, E2, Pk, Pk'. subst.
        cbn in Hc. destruct e; try discriminate Ef; cbn in *.
        - destruct (r <? 0); [injection Hc as <-; by eexists |].
          case_bool_decide; [| done]. injection Hc as <-. by eexists.
        - destruct (r =? 0); injection Hc as <-; by eexists.
        - destruct (r <? 0); [injection Hc as <-; by eexists |].
          case_bool_decide; [| done]. injection Hc as <-. unfold append_to. cbn.
          destruct (m !! fd); by eexists. }
      split; [done |]. exists k1'. split; [| done]. by eapply served_call.
    + assert (quiet (e ~> r) = true) as Hq by (unfold quiet; rewrite Ef; by destruct e).
      destruct (quiet_effect _ (e ~> r) _ _ Hq Hc) as (F1 & F2 & F3).
      split; [congruence |]. exists k'. split; [done |]. split; [done |]. split; congruence.
  - destruct (IH F) as (Pk & _). destruct Hx as [k k' l1 q l2 E]. rewrite Pk in E. by destruct l1.
Qed.

(** Every kernel that starts as [k0] and serves the calls since [h0] ends with
    the descriptors it had, nothing to do, and files with [Q]. *)
Definition leaves (h0 : history) (k0 : kernel) (h : history) (Q : files -> Prop) : Prop :=
  exists l, h = l ++ h0 /\
    forall k, served h0 k0 l k -> pending k = [] /\ paths k = paths k0 /\ Q (store k).

Lemma leaves_weaken h0 k0 h (Q Q' : files -> Prop) :
  leaves h0 k0 h Q -> (forall fs, Q fs -> Q' fs) -> leaves h0 k0 h Q'.
Proof.
  intros (l & E & H) Hw. exists l. split; [done |]. intros k Hk. destruct (H k Hk) as (? & ? & ?). auto.
Qed.

Lemma throughout_file_calls h0 k0 l Q :
  pending k0 = [] -> Forall no_enter l -> throughout h0 k0 (file_calls l) (settled Q) ->
  throughout h0 k0 l (settled Q).
Proof.
  intros P F H k Hs. destruct (served_file_calls h0 k0 l k P F Hs) as (Pk & k' & S & _ & E1 & E2).
  destruct (H k' S) as [_ HQ]. rewrite E1, E2 in HQ. by split.
Qed.

Lemma settled_start h0 k0 :
  pending k0 = [] -> throughout h0 k0 [] (settled (just True (store k0) (paths k0))).
Proof. intros P. apply throughout_start; [by split | apply settled_stable]. Qed.

Lemma settled_leaves h0 k0 l given fs :
  throughout h0 k0 l (settled (just given fs (paths k0))) -> leaves h0 k0 (l ++ h0) (eq fs).
Proof. intros H. exists l. split; [done |]. intros k Hk. by destruct (H k Hk) as (? & _ & -> & ->). Qed.
