(* ===== verification/FileScript.v ===== *)
(** * Scripts of the io_uring handlers

    The shape of the histories that an io_uring handler makes: files are opened
    for appending, then written by submissions of one write, or by a submission
    of one write and a close that it is linked to.  Every kernel that serves such
    a history keeps books from which its files follow once all operations have
    been reaped: [script_settles]. *)

From S2P Require Import Prelude Proto Env BlockServer FileServer FileServerAsync FileStore.

(** ** Completions are taken in pairs of calls *)

(** The user data of the completion that the last call was given. *)
Definition just_waited (h : history) : option (option loc) :=
  match h with
  | existT e r :: _ =>
      match e as e' return reply e' -> option (option loc) with
      | Uring_wait_cqe => fun c =>
          match c with Some (ret, _, d) => if ret <? 0 then None else Some d | None => None end
      | _ => fun _ => None
      end r
  | [] => None
  end.

Definition is_seen (e : entry) : bool :=
  match e with existT Uring_cqe_seen _ => true | _ => false end.

Lemma just_waited_waited h d : just_waited h = Some d -> waited h = Some d.
Proof.
  destruct h as [| [[] r] h]; cbn; try done. destruct r as [[[ret res] d'] |]; [| done].
  destruct (ret <? 0); [done |]. by intros [= ->].
Qed.

(** ** The books of the kernel *)

Definition chunk_of (m : gmap Z string) (q : sqe) : option chunk :=
  match operation q with
  | Op_write fd _ b _ => (fun p => (p, b)) <$> m !! fd
  | _ => None
  end.
Definition waiting (k : kernel) : list chunk := omap (chunk_of (paths k)) (pending k).

(** From the files [base], [names] were opened and [chunks] submitted. *)
Record tracks (base : files) (names : list string) (chunks : list chunk) (h : history)
    (k : kernel) : Prop := {
  tr_store : exists l, (forall p, store k !! p = content base names l p) /\ l ++ waiting k ≡ₚ chunks;
  tr_data : (user_data <$> pending k) ++ finished k ≡ₚ in_kernel h;
  tr_waited : forall d, just_waited h = Some d -> d ∈ finished k;
  tr_names : forall c, c ∈ chunks -> c.1 ∈ names;
}.

Lemma remove1_permutation d l : d ∈ l -> l ≡ₚ d :: remove1 d l.
Proof.
  induction l as [| x l IH]; intros Hd; [by apply elem_of_nil in Hd |]. cbn. case_decide as E.
  - by subst.
  - rewrite Permutation_swap. f_equiv. apply IH. apply elem_of_cons in Hd as [? |]; [by subst | done].
Qed.

Section tracks.
Context (base : files) (names : list string).

Lemma tracks_quiet chunks x h k k' :
  quiet x = true -> (is_seen x = true -> is_Some (just_waited h)) -> tracks base names chunks h k ->
  call_effect h (projT1 x) (projT2 x) k = Some k' ->
  tracks base names chunks (x :: h) k' /\ paths k' = paths k /\ pending k' = pending k.
Proof.
  intros Hq Hseen [[l [H1 H2]] H3 H4 H5] Hc. destruct x as [e r]. cbn in Hc.
  assert (k' = k /\ is_seen (e ~> r) = false /\
      (forall d, just_waited (e ~> r :: h) = Some d -> d ∈ finished k) /\
      in_kernel (e ~> r :: h) = in_kernel h \/ is_seen (e ~> r) = true) as [(-> & _ & Hj & Hk) | Hs].
  { destruct e; try discriminate Hq; try (injection Hc as <-; left; by split_and!); [by right |].
    left. destruct r as [[[ret res] d] |]; cbn in *; [| injection Hc as <-; by split_and!].
    destruct (ret <? 0); cbn in *; [injection Hc as <-; by split_and! |].
    case_bool_decide; [| done]. injection Hc as <-. split_and!; try done. by intros d' [= <-]. }
  - split; [| done]. split; [by exists l | by rewrite Hk | done..].
  - destruct (Hseen Hs) as [d Hd]. destruct e; try discriminate Hs. cbn in Hc.
    rewrite (just_waited_waited _ _ Hd) in Hc. injection Hc as <-. split; [| done].
    split; [by exists l | | done..]. cbn [pending finished in_kernel].
    rewrite (just_waited_waited _ _ Hd). apply (Permutation_cons_inv (a := d)).
    pose proof (H4 _ Hd) as Hf.
    rewrite Permutation_middle, <- (remove1_permutation d (finished k)), H3 by done.
    apply remove1_permutation. rewrite <- H3. set_solver.
Qed.

Lemma chunk_of_paths m m' (q : list sqe) :
  (forall fd l b o x, x ∈ q -> operation x = Op_write fd l b o -> m' !! fd = m !! fd) ->
  omap (chunk_of m') q = omap (chunk_of m) q.
Proof.
  induction q as [| x q IH]; intros H; [done |]. cbn [omap list_omap].
  replace (chunk_of m' x) with (chunk_of m x).
  { rewrite IH; [done |]. intros. eapply H; [by right | done]. }
  unfold chunk_of. destruct (operation x) eqn:E; [| done..].
  by rewrite (H _ _ _ _ x ltac:(by left) E).
Qed.

(** A pending write is executed. *)
Lemma tracks_write chunks h k l1 q l2 fd b bytes o p :
  tracks base names chunks h k -> pending k = l1 ++ q :: l2 -> operation q = Op_write fd b bytes o ->
  paths k !! fd = Some p -> p ∈ names ->
  tracks base names chunks h
    (mk_kernel (append_chunk (store k) (p, bytes)) (paths k) (l1 ++ l2) (user_data q :: finished k)).
Proof.
  intros [[l [H1 H2]] H3 H4 H5] Hp Hq Hfd Hn. split.
  - exists (l ++ [(p, bytes)]). cbn [store]. split.
    + intros x. by apply append_chunk_content.
    + rewrite <- H2. unfold waiting. cbn [paths pending]. rewrite Hp, !omap_app. cbn [omap list_omap].
      unfold chunk_of at 4. rewrite Hq, Hfd. cbn. by rewrite <- app_assoc, <- Permutation_middle.
  - cbn [pending finished]. rewrite <- H3, Hp, !fmap_app. cbn. rewrite <- !app_assoc. f_equiv. cbn.
    by rewrite <- Permutation_middle.
  - cbn [finished]. intros d Hd. right. by apply H4.
  - done.
Qed.

(** A pending close is executed. *)
Lemma tracks_close chunks h k l1 q l2 fd :
  tracks base names chunks h k -> pending k = l1 ++ q :: l2 -> operation q = Op_close fd ->
  (forall x l b o, x ∈ l1 ++ l2 -> operation x <> Op_write fd l b o) ->
  tracks base names chunks h
    (mk_kernel (store k) (delete fd (paths k)) (l1 ++ l2) (user_data q :: finished k)).
Proof.
  intros [[l [H1 H2]] H3 H4 H5] Hp Hq Hfree. split.
  - exists l. split; [done |]. rewrite <- H2. unfold waiting. cbn [paths pending].
    rewrite (chunk_of_paths (paths k)), Hp, !omap_app; cbn [omap list_omap].
    + by unfold chunk_of at 4; rewrite Hq.
    + intros fd' b bytes o x Hx E. apply lookup_delete_ne. intros <-. by apply (Hfree x b bytes o).
  - cbn [pending finished]. rewrite <- H3, Hp, !fmap_app. cbn. rewrite <- !app_assoc. f_equiv. cbn.
    by rewrite <- Permutation_middle.
  - cbn [finished]. intros d Hd. right. by apply H4.
  - done.
Qed.

(** Operations are submitted. *)
Lemma tracks_enter chunks h k q n :
  tracks base names chunks h k ->
  (forall c, c ∈ omap (chunk_of (paths k)) (take (Z.to_nat n) q) -> c.1 ∈ names) ->
  tracks base names (chunks ++ omap (chunk_of (paths k)) (take (Z.to_nat n) q))
    (Uring_enter q ~> n :: h)
    (mk_kernel (store k) (paths k) (pending k ++ take (Z.to_nat n) q) (finished k)).
Proof.
  intros [[l [H1 H2]] H3 H4 H5] Hq. split; [| | done |].
  - exists l. split; [done |]. unfold waiting. cbn [paths pending]. by rewrite omap_app, app_assoc, H2.
  - cbn [pending finished in_kernel]. rewrite fmap_app, <- H3.
    rewrite <- !app_assoc. f_equiv. apply Permutation_app_comm.
  - intros c [? | ?]%elem_of_app; auto.
Qed.

(** The names that were opened grow. *)
Lemma content_open l path fs p :
  (forall p, fs !! p = content base names l p) -> (forall c, c ∈ l -> c.1 ∈ names) ->
  (<[path := default [] (fs !! path)]> fs : files) !! p = content base (path :: names) l p.
Proof.
  intros H Hn. destruct (decide (path = p)) as [<- | Hne].
  - rewrite lookup_insert_eq, H. unfold content.
    rewrite (bool_decide_true (path ∈ path :: names)) by set_solver.
    destruct (base !! path); [done |]. case_bool_decide as Hin; [done |]. cbn.
    rewrite added_none; [done |]. intros [c [-> Hc]]%list_elem_of_fmap. by apply Hin, Hn.
  - rewrite lookup_insert_ne, H by done. unfold content.
    destruct (base !! p); [done |]. by rewrite (bool_decide_ext (p ∈ path :: names) (p ∈ names)) by set_solver.
Qed.

(** A file is opened; the descriptor is none of a pending write. *)
Lemma tracks_open chunks h k path flags fd :
  tracks base names chunks h k ->
  (forall x fd' l b o, x ∈ pending k -> operation x = Op_write fd' l b o -> fd' <> fd) ->
  tracks base (path :: names) chunks (Sys_open path flags ~> fd :: h) (opened_file path false fd k).
Proof.
  intros [[l [H1 H2]] H3 H4 H5] Hf. split; [| done | done |].
  - exists l. unfold opened_file. cbn [store paths pending]. split.
    + intros p. apply content_open; [done |]. intros c Hc. apply H5. rewrite <- H2. set_solver.
    + rewrite <- H2. unfold waiting. cbn [paths pending]. f_equiv.
      rewrite (chunk_of_paths (paths k)); [done |]. intros fd' b bytes o x Hx E.
      apply lookup_insert_ne. intros ->. by apply (Hf x fd' b bytes o Hx E).
  - intros c Hc. right. by apply H5.
Qed.
End tracks.

(** When nothing is left in the kernel, the chunks have been appended in some
    order. *)
Lemma tracks_done base names chunks h k :
  tracks base names chunks h k -> in_kernel h = [] ->
  pending k = [] /\ any_order (touch names base) chunks (store k).
Proof.
  intros [[l [H1 H2]] H3 H4 H5] Hk. rewrite Hk in H3. apply Permutation_nil_r in H3.
  apply app_eq_nil in H3 as [Hp%fmap_nil_inv _]. split; [done |].
  unfold waiting in H2. rewrite Hp in H2. cbn in H2. rewrite app_nil_r in H2.
  exists l. split; [done |]. apply map_eq. intros p. rewrite H1, touch_content; [done |].
  intros c Hc. apply H5. by rewrite <- H2.
Qed.

(** ** Segments of the queue

    A write that is alone, or a close with the write that is linked to it if that
    is still pending. *)

Inductive segment :=
| Loose (fd : Z) (path : string) (q : sqe)
| Tied (fd : Z) (path : string) (w : option sqe) (q : sqe).

Definition seg_ops (g : segment) : list sqe :=
  match g with Loose _ _ q => [q] | Tied _ _ w q => option_list w ++ [q] end.
Definition seg_fd (g : segment) : Z := match g with Loose fd _ _ | Tied fd _ _ _ => fd end.
Definition seg_path (g : segment) : string := match g with Loose _ p _ | Tied _ p _ _ => p end.
Definition tied_fd (g : segment) : option Z :=
  match g with Tied fd _ _ _ => Some fd | Loose _ _ _ => None end.
Definition queue_of (gs : list segment) : list sqe := concat (seg_ops <$> gs).

Definition writes (fd : Z) (q : sqe) : Prop := exists l b o, operation q = Op_write fd l b o.

(** [opened]: the descriptors that are not about to be closed; [used]: those of
    them that were written to. *)
Definition seg_ok (opened : gmap Z string) (used : gset Z) (g : segment) : Prop :=
  match g with
  | Loose fd path q => writes fd q /\ opened !! fd = Some path /\ fd ∈ used
  | Tied fd path w q =>
      operation q = Op_close fd /\ opened !! fd = None /\
      forall x, w = Some x -> writes fd x /\ linked x = true
  end.

Record kept (base : files) (opened : gmap Z string) (used : gset Z) (names : list string)
    (chunks : list chunk) (gs : list segment) (h : history) (k : kernel) : Prop := {
  kp_tracks : tracks base names chunks h k;
  kp_pending : pending k = queue_of gs;
  kp_segments : forall g, g ∈ gs -> seg_ok opened used g /\
    paths k !! seg_fd g = Some (seg_path g) /\ seg_path g ∈ names;
  kp_distinct : NoDup (omap tied_fd gs);
  kp_others : forall fd, fd ∉ omap tied_fd gs -> paths k !! fd = opened !! fd;
}.

Lemma queue_of_app gs1 gs2 : queue_of (gs1 ++ gs2) = queue_of gs1 ++ queue_of gs2.
Proof. unfold queue_of. by rewrite fmap_app, concat_app. Qed.

(** Where an operation of the queue belongs. *)
Lemma queue_split gs (l1 l2 : list sqe) q :
  queue_of gs = l1 ++ q :: l2 ->
  exists gs1 g gs2 a b, gs = gs1 ++ g :: gs2 /\ seg_ops g = a ++ q :: b /\
    l1 = queue_of gs1 ++ a /\ l2 = b ++ queue_of gs2.
Proof.
  revert l1. induction gs as [| g gs IH]; intros l1 H; [by destruct l1 |].
  change (queue_of (g :: gs)) with (seg_ops g ++ queue_of gs) in H.
  apply app_eq_inv in H as [(k & E1 & E2) | (k & E1 & E2)].
  - destruct k as [| x k].
    + rewrite app_nil_r in E1. destruct (IH [] (eq_sym E2)) as (gs1 & g' & gs2 & a & b & -> & Hg & Hl & ->).
      exists (g :: gs1), g', gs2, a, b. split; [done |]. split; [done |]. split; [| done].
      change (queue_of (g :: gs1)) with (seg_ops g ++ queue_of gs1).
      by rewrite <- app_assoc, <- Hl, app_nil_r, E1.
    + injection E2 as <- ->. by exists [], g, gs, l1, k.
  - destruct (IH k E2) as (gs1 & g' & gs2 & a & b & -> & Hg & -> & ->).
    exists (g :: gs1), g', gs2, a, b. split; [done |]. split; [done |]. split; [| done].
    change (queue_of (g :: gs1)) with (seg_ops g ++ queue_of gs1). by rewrite E1, app_assoc.
Qed.

(** The operation of a segment that may be executed: a write, or the close when
    its write is done. *)
Lemma seg_split opened used g a q b :
  seg_ok opened used g -> seg_ops g = a ++ q :: b ->
  (forall p, list.last a = Some p -> linked p = false) ->
  a = [] /\
  ((exists path, g = Loose (seg_fd g) path q /\ b = []) \/
   (exists path c, g = Tied (seg_fd g) path (Some q) c /\ b = [c]) \/
   (exists path, g = Tied (seg_fd g) path None q /\ b = [])).
Proof.
  intros Hok Hg Hlast. destruct g as [fd path x | fd path [w |] c]; cbn in *.
  - destruct a as [| y a]; [| by destruct a]. injection Hg as <- <-. split; [done |]. left. by exists path.
  - destruct Hok as (_ & _ & Hw). destruct (Hw w eq_refl) as [_ Hlk]. destruct a as [| y a].
    + injection Hg as <- <-. split; [done |]. right. left. by exists path, c.
    + destruct a as [| z a]; [| by destruct a]. injection Hg as <- -> <-. by rewrite (Hlast w eq_refl) in Hlk.
  - destruct a as [| y a]; [| by destruct a]. injection Hg as <- <-. split; [done |]. right. right. by exists path.
Qed.

Lemma in_queue (gs : list segment) x : x ∈ queue_of gs -> exists g, g ∈ gs /\ x ∈ seg_ops g.
Proof.
  unfold queue_of. induction gs as [| g gs IH]; cbn; [by intros ?%elem_of_nil |].
  intros [Hx | Hx]%elem_of_app; [exists g; set_solver |].
  destruct (IH Hx) as (g' & ? & ?). exists g'. set_solver.
Qed.

(** Whose write it is. *)
Lemma seg_write opened used g x fd l b o :
  seg_ok opened used g -> x ∈ seg_ops g -> operation x = Op_write fd l b o -> seg_fd g = fd.
Proof.
  intros Hok Hx E. destruct g as [fd' path q | fd' path w q]; cbn in *.
  - apply list_elem_of_singleton in Hx as ->. destruct Hok as ((l' & b' & o' & E') & _). congruence.
  - destruct Hok as (Ec & _ & Hw). apply elem_of_app in Hx as [Hx | ->%list_elem_of_singleton]; [| congruence].
    destruct w as [w |]; [| by apply elem_of_nil in Hx]. apply list_elem_of_singleton in Hx as ->.
    destruct (Hw w eq_refl) as ((l' & b' & o' & E') & _). congruence.
Qed.

Lemma in_tied fd (gs : list segment) : fd ∈ omap tied_fd gs <-> exists path w q, Tied fd path w q ∈ gs.
Proof.
  rewrite list_elem_of_omap. split.
  - intros ([fd' path q | fd' path w q] & Hg & E); [done |]. injection E as ->. by exists path, w, q.
  - intros (path & w & q & Hg). by exists (Tied fd path w q).
Qed.

Section kept.
Context (base : files).

(** A segment is replaced or goes when its first operation was a write. *)
Lemma kept_write opened used names chunks gs1 g gs' gs2 q rest l b o h k :
  kept base opened used names chunks (gs1 ++ g :: gs2) h k ->
  pending k = queue_of gs1 ++ q :: (rest ++ queue_of gs2) -> operation q = Op_write (seg_fd g) l b o ->
  queue_of gs' = rest -> omap tied_fd gs' = omap tied_fd [g] ->
  (forall g', g' ∈ gs' -> seg_ok opened used g' /\ seg_fd g' = seg_fd g /\ seg_path g' = seg_path g) ->
  kept base opened used names chunks (gs1 ++ gs' ++ gs2) h
    (mk_kernel (append_chunk (store k) (seg_path g, b)) (paths k)
      (queue_of gs1 ++ (rest ++ queue_of gs2)) (user_data q :: finished k)).
Proof.
  intros [B1 B2 B3 B4 B5] Hp Hop Hq Ht Hg'. destruct (B3 g ltac:(set_solver)) as (_ & Hpath & Hn).
  assert (omap tied_fd (gs1 ++ gs' ++ gs2) = omap tied_fd (gs1 ++ g :: gs2)) as E.
  { rewrite (cons_middle g gs1), !omap_app, Ht. done. }
  split.
  - by eapply tracks_write.
  - cbn [pending]. by rewrite !queue_of_app, Hq.
  - cbn [paths]. intros g0 [H | [H | H]%elem_of_app]%elem_of_app; [apply B3; set_solver | | apply B3; set_solver].
    destruct (Hg' g0 H) as (? & -> & ->). done.
  - by rewrite E.
  - rewrite E. exact B5.
Qed.

(** Another segment is for another descriptor than a tied one. *)
Lemma tied_alone opened used gs1 fd path w q gs2 g :
  (forall g, g ∈ gs1 ++ Tied fd path w q :: gs2 -> seg_ok opened used g) ->
  NoDup (omap tied_fd (gs1 ++ Tied fd path w q :: gs2)) -> g ∈ gs1 ++ gs2 -> seg_fd g <> fd.
Proof.
  intros Hok Hd Hg <-. destruct (Hok (Tied (seg_fd g) path w q) ltac:(set_solver)) as (_ & Hnone & _).
  rewrite omap_app in Hd. cbn in Hd. rewrite <- Permutation_middle in Hd. apply NoDup_cons in Hd as [Hd _].
  rewrite <- omap_app in Hd.
  destruct g as [fd p x | fd p w' x].
  - destruct (Hok (Loose fd p x) ltac:(set_solver)) as (_ & E & _). cbn in Hnone. congruence.
  - apply Hd, in_tied. by exists p, w', x.
Qed.

(** A close is executed. *)
Lemma kept_close opened used names chunks gs1 fd path q gs2 h k :
  kept base opened used names chunks (gs1 ++ Tied fd path None q :: gs2) h k ->
  pending k = queue_of gs1 ++ q :: queue_of gs2 ->
  kept base opened used names chunks (gs1 ++ gs2) h
    (mk_kernel (store k) (delete fd (paths k)) (queue_of gs1 ++ queue_of gs2) (user_data q :: finished k)).
Proof.
  intros [B1 B2 B3 B4 B5] Hp. destruct (B3 (Tied fd path None q) ltac:(set_solver)) as ((Hop & Hnone & _) & _).
  assert (forall g, g ∈ gs1 ++ gs2 -> seg_fd g <> fd) as Hother.
  { intros g Hg. eapply tied_alone; [| exact B4 | exact Hg]. intros g' Hg'. by apply B3. }
  split.
  - eapply tracks_close; [exact B1 | exact Hp | exact Hop |]. intros x l b o Hx E.
    rewrite <- queue_of_app in Hx. destruct (in_queue _ x Hx) as (g & Hg & Hxg).
    apply (Hother g Hg). eapply seg_write; [| exact Hxg | exact E]. apply B3. set_solver.
  - cbn. by rewrite queue_of_app.
  - intros g Hg. cbn [paths]. destruct (B3 g ltac:(set_solver)) as (? & ? & ?).
    rewrite lookup_delete_ne; [done |]. intros E. by apply (Hother g Hg).
  - rewrite omap_app in B4 |- *. cbn in B4. rewrite <- Permutation_middle in B4. by apply NoDup_cons in B4 as [_ ?].
  - intros fd' Hfd'. cbn [paths]. destruct (decide (fd = fd')) as [<- | Hne].
    + by rewrite lookup_delete_eq.
    + rewrite lookup_delete_ne by done. apply B5. rewrite omap_app in Hfd' |- *. cbn. set_solver.
Qed.

(** Whatever is executed. *)
Lemma kept_exec opened used names chunks gs h k k' :
  kept base opened used names chunks gs h k -> exec k k' ->
  exists gs', kept base opened used names chunks gs' h k'.
Proof.
  intros B Hx. destruct Hx as [k k' l1 q l2 Hp Hlast Hperf].
  pose proof Hp as Hp'. rewrite (kp_pending _ _ _ _ _ _ _ _ B) in Hp'.
  destruct (queue_split gs l1 l2 q Hp') as (gs1 & g & gs2 & a & b & -> & Hg & -> & ->).
  destruct (kp_segments _ _ _ _ _ _ _ _ B g ltac:(set_solver)) as (Hok & Hpath & _).
  assert (forall p, list.last a = Some p -> linked p = false) as Hla.
  { intros p Ha. apply Hlast. apply last_Some in Ha as [a' ->]. by rewrite app_assoc, last_snoc. }
  destruct (seg_split opened used g a q b Hok Hg Hla) as [-> [(path & E & ->) | [(path & c & E & ->) | (path & E & ->)]]];
    rewrite app_nil_r in *; rewrite E in Hok.
  - destruct Hok as ((l & bs & o & Hop) & _). rewrite Hop in Hperf. injection Hperf as <-.
    exists (gs1 ++ [] ++ gs2). unfold append_to. rewrite Hpath. cbn [store paths].
    eapply kept_write; [exact B | exact Hp | exact Hop | done | by rewrite E | by intros g' ?%elem_of_nil].
  - destruct Hok as (Hc & Hnone & Hw). destruct (Hw q eq_refl) as ((l & bs & o & Hop) & _).
    rewrite Hop in Hperf. injection Hperf as <-.
    exists (gs1 ++ [Tied (seg_fd g) path None c] ++ gs2). unfold append_to. rewrite Hpath. cbn [store paths].
    eapply kept_write; [exact B | exact Hp | exact Hop | done | by rewrite E |].
    intros g' ->%list_elem_of_singleton. rewrite E. split; [by split_and! | done].
  - destruct Hok as (Hc & _). rewrite Hc in Hperf. injection Hperf as <-. rewrite E in B.
    exists (gs1 ++ gs2). exact (kept_close opened used names chunks gs1 (seg_fd g) path q gs2 h k B Hp).
Qed.

(** A quiet call. *)
Lemma kept_quiet opened used names chunks gs x h k k' :
  quiet x = true -> (is_seen x = true -> is_Some (just_waited h)) ->
  kept base opened used names chunks gs h k -> call_effect h (projT1 x) (projT2 x) k = Some k' ->
  kept base opened used names chunks gs (x :: h) k'.
Proof.
  intros Hq Hs [B1 B2 B3 B4 B5] Hc.
  destruct (tracks_quiet base names chunks x h k k' Hq Hs B1 Hc) as (B1' & E1 & E2).
  split; rewrite ?E1, ?E2; done.
Qed.

(** A file is opened for appending. *)
Lemma kept_open opened used names chunks gs h k k' path (fd : Z) :
  0 <= fd -> kept base opened used names chunks gs h k ->
  call_effect h (Sys_open path small_flags) fd k = Some k' ->
  opened !! fd = None /\
  kept base (<[fd := path]> opened) (used ∖ {[fd]}) (path :: names) chunks gs
    (Sys_open path small_flags ~> fd :: h) k'.
Proof.
  intros Hfd B Hc. cbn in Hc. rewrite (proj2 (Z.ltb_ge _ _) Hfd) in Hc.
  case_bool_decide as Hf; [| done]. destruct Hf as [_ Hnew].
  rewrite (bool_decide_false (O_TRUNC ∈ _)) in Hc by set_solver. injection Hc as <-.
  destruct B as [B1 B2 B3 B4 B5].
  assert (forall g, g ∈ gs -> seg_fd g <> fd) as Hfree.
  { intros g Hg <-. destruct (B3 g Hg) as (_ & E & _). congruence. }
  assert (fd ∉ omap tied_fd gs) as Hnt.
  { intros (p & w & q & Hg)%in_tied. by apply (Hfree _ Hg). }
  split; [by rewrite <- B5 |]. split.
  - apply tracks_open; [exact B1 |]. intros x fd' l b o Hx E ->. rewrite B2 in Hx.
    destruct (in_queue _ _ Hx) as (g & Hg & Hxg). apply (Hfree g Hg).
    eapply seg_write; [| exact Hxg | exact E]. by apply B3.
  - exact B2.
  - intros g Hg. pose proof (Hfree g Hg) as Hne. destruct (B3 g Hg) as (Hok & ? & ?). split_and!; [| | set_solver].
    + destruct g as [fd' p q | fd' p w q]; cbn in *; rewrite lookup_insert_ne by done; [| done].
      destruct Hok as (? & ? & ?). split_and!; [done | done | set_solver].
    + cbn. by rewrite lookup_insert_ne.
  - exact B4.
  - intros fd' Hfd'. cbn. destruct (decide (fd = fd')) as [<- | Hne]; [by rewrite !lookup_insert_eq |].
    rewrite !lookup_insert_ne by done. by apply B5.
Qed.

(** Operations on an open file are submitted. *)
Lemma kept_submit opened used opened' used' names chunks gs g b h k :
  kept base opened used names chunks gs h k ->
  opened !! seg_fd g = Some (seg_path g) -> seg_path g ∈ names -> seg_ok opened' used' g ->
  (forall g', g' ∈ gs -> seg_ok opened used g' -> seg_ok opened' used' g') ->
  (forall fd, fd ∉ omap tied_fd (gs ++ [g]) -> opened' !! fd = opened !! fd) ->
  (forall m, m !! seg_fd g = Some (seg_path g) -> omap (chunk_of m) (seg_ops g) = [(seg_path g, b)]) ->
  kept base opened' used' names (chunks ++ [(seg_path g, b)]) (gs ++ [g])
    (Uring_enter (seg_ops g) ~> Z.of_nat (length (seg_ops g)) :: h)
    (mk_kernel (store k) (paths k) (pending k ++ take (Z.to_nat (Z.of_nat (length (seg_ops g)))) (seg_ops g))
      (finished k)).
Proof.
  intros [B1 B2 B3 B4 B5] Ho Hn Hok Hold Hothers Hchunk. set (q := seg_ops g) in *.
  assert (take (Z.to_nat (Z.of_nat (length q))) q = q) as Eq by (by rewrite Nat2Z.id, firstn_all).
  assert (seg_fd g ∉ omap tied_fd gs) as Hnt.
  { intros (p & w & x & Hg)%in_tied. destruct (B3 _ Hg) as ((_ & E & _) & _). congruence. }
  assert (paths k !! seg_fd g = Some (seg_path g)) as Hp by (by rewrite B5). split.
  - rewrite <- (Hchunk _ Hp), <- Eq at 1. apply tracks_enter; [exact B1 |].
    rewrite Eq, (Hchunk _ Hp). by intros c ->%list_elem_of_singleton.
  - cbn [pending]. rewrite Eq, queue_of_app, B2. unfold queue_of at 3. cbn. by rewrite app_nil_r.
  - cbn [paths]. intros g' [Hg' | ->%list_elem_of_singleton]%elem_of_app; [| done].
    destruct (B3 g' Hg') as (? & ? & ?). split; [by apply Hold | done].
  - rewrite omap_app. apply NoDup_app. split; [done |]. destruct g as [fd p x | fd p w x]; cbn.
    + split; [by intros ? _ ?%elem_of_nil | constructor].
    + split; [by intros y Hy ->%list_elem_of_singleton | apply NoDup_singleton].
  - cbn [paths]. intros fd Hfd. rewrite Hothers by done. apply B5. rewrite omap_app in Hfd. set_solver.
Qed.
End kept.

(** ** Scripts *)

(** From [h0] to the history: the files open, those of them written to, the names
    opened and the chunks submitted. *)
Inductive script (h0 : history) : list (Z * string) -> gset Z -> list string -> list chunk -> history -> Prop :=
| script_start : script h0 [] ∅ [] [] h0
| script_quiet os used names chunks (x : entry) h :
    script h0 os used names chunks h -> quiet x = true -> (is_seen x = true -> is_Some (just_waited h)) ->
    script h0 os used names chunks (x :: h)
| script_open os used names chunks h path (fd : Z) :
    script h0 os used names chunks h -> 0 <= fd ->
    script h0 ((fd, path) :: os) (used ∖ {[fd]}) (path :: names) chunks
      (Sys_open path small_flags ~> fd :: h)
| script_write os used names chunks h fd path l b o d :
    script h0 os used names chunks h -> (fd, path) ∈ os ->
    script h0 os ({[fd]} ∪ used) names (chunks ++ [(path, b)])
      (Uring_enter [mk_sqe (Op_write fd l b o) d false] ~> 1 :: h)
| script_write_close os used names chunks h fd path l b o d d' :
    script h0 ((fd, path) :: os) used names chunks h -> fd ∉ used ->
    script h0 os used names (chunks ++ [(path, b)])
      (Uring_enter [mk_sqe (Op_write fd l b o) d true; mk_sqe (Op_close fd) d' false] ~> 2 :: h).

(** The kernel before a handler is called. *)
Record at_rest (h : history) (k : kernel) : Prop := {
  ar_kernel : in_kernel h = [];
  ar_waited : just_waited h = None;
  ar_pending : pending k = [];
  ar_finished : finished k = [];
}.

Section held.
Context (base : files) (m0 : gmap Z string).

(** The descriptors with the files [os]. *)
Definition with_open (os : list (Z * string)) : gmap Z string := list_to_map os ∪ m0.

Record held (os : list (Z * string)) (used : gset Z) (names : list string) (chunks : list chunk)
    (h : history) (k : kernel) : Prop := {
  hd_distinct : NoDup os.*1;
  hd_new : forall x, x ∈ os -> m0 !! x.1 = None /\ x.2 ∈ names;
  hd_kept : exists gs, kept base (with_open os) used names chunks gs h k;
}.

Lemma with_open_cons fd path os : with_open ((fd, path) :: os) = <[fd := path]> (with_open os).
Proof. unfold with_open. by rewrite list_to_map_cons, insert_union_l. Qed.

Lemma with_open_in fd path os : NoDup os.*1 -> (fd, path) ∈ os -> with_open os !! fd = Some path.
Proof. intros Hd Hin. apply lookup_union_Some_l. by apply elem_of_list_to_map_1. Qed.

Lemma with_open_out fd os : fd ∉ os.*1 -> with_open os !! fd = m0 !! fd.
Proof. intros H. apply lookup_union_r. by apply not_elem_of_list_to_map_1. Qed.

Lemma held_stable os used names chunks h : stable (held os used names chunks h).
Proof. intros k k' [D W (gs & B)] Hx. split; [done | done |]. by eapply kept_exec. Qed.

Lemma held_open os used names chunks h k k' path (fd : Z) :
  0 <= fd -> held os used names chunks h k ->
  call_effect h (Sys_open path small_flags) fd k = Some k' ->
  held ((fd, path) :: os) (used ∖ {[fd]}) (path :: names) chunks (Sys_open path small_flags ~> fd :: h) k'.
Proof.
  intros Hfd [D W (gs & B)] Hc. destruct (kept_open base _ _ _ _ _ _ _ _ _ _ Hfd B Hc) as [Hnone B'].
  assert (fd ∉ os.*1) as Hnew.
  { intros ([fd' p] & -> & Hx)%list_elem_of_fmap. cbn in Hnone. by rewrite (with_open_in fd' p) in Hnone. }
  split.
  - by constructor.
  - intros x [-> | Hx]%elem_of_cons; cbn; [by rewrite with_open_out in Hnone by done; split; [| left] |].
    destruct (W x Hx). split; [done | by right].
  - exists gs. by rewrite with_open_cons.
Qed.

Lemma held_write os used names chunks h k k' fd path l b o d :
  (fd, path) ∈ os -> held os used names chunks h k ->
  call_effect h (Uring_enter [mk_sqe (Op_write fd l b o) d false]) 1 k = Some k' ->
  held os ({[fd]} ∪ used) names (chunks ++ [(path, b)])
    (Uring_enter [mk_sqe (Op_write fd l b o) d false] ~> 1 :: h) k'.
Proof.
  intros Hin [D W (gs & B)] [= <-]. split; [done | done |].
  set (q := mk_sqe (Op_write fd l b o) d false). exists (gs ++ [Loose fd path q]).
  refine (kept_submit base (with_open os) used _ _ names chunks gs (Loose fd path q) b h k B _ _ _ _ _ _);
    cbn [seg_fd seg_path seg_ok seg_ops].
  - by apply with_open_in.
  - by destruct (W _ Hin).
  - split; [by exists l, b, o |]. split; [by apply with_open_in | set_solver].
  - intros [fd' p x | fd' p w x] _ Hok; cbn in *; [| done]. destruct Hok as (? & ? & ?). split_and!; [done | done | set_solver].
  - done.
  - intros m Hm. unfold chunk_of. cbn. by rewrite Hm.
Qed.

Lemma held_write_close os used names chunks h k k' fd path l b o d d' :
  fd ∉ used -> held ((fd, path) :: os) used names chunks h k ->
  call_effect h (Uring_enter [mk_sqe (Op_write fd l b o) d true; mk_sqe (Op_close fd) d' false]) 2 k
    = Some k' ->
  held os used names (chunks ++ [(path, b)])
    (Uring_enter [mk_sqe (Op_write fd l b o) d true; mk_sqe (Op_close fd) d' false] ~> 2 :: h) k'.
Proof.
  intros Hu [D W (gs & B)] [= <-]. set (q1 := mk_sqe _ d true). set (q2 := mk_sqe _ d' false).
  apply NoDup_cons in D as [Hfd D]. destruct (W (fd, path) ltac:(by left)) as [Hnone Hn]. cbn in Hnone, Hn.
  split; [done | intros x Hx; apply W; by right |].
  rewrite with_open_cons in B. exists (gs ++ [Tied fd path (Some q1) q2]).
  refine (kept_submit base _ used _ _ names chunks gs (Tied fd path (Some q1) q2) b h k B _ _ _ _ _ _);
    cbn [seg_fd seg_path seg_ok seg_ops option_list app].
  - apply lookup_insert_eq.
  - exact Hn.
  - split; [done |]. split; [by rewrite with_open_out |]. intros x [= <-]. split; [by exists l, b, o | done].
  - intros [fd' p x | fd' p w x] _ Hok; cbn in *; destruct Hok as (H1 & H2 & H3).
    + split; [done |]. rewrite lookup_insert_ne in H2 by (intros ->; done). done.
    + split; [done |]. apply lookup_insert_None in H2 as [? _]. done.
  - intros fd' Hfd'. symmetry. apply lookup_insert_ne. intros <-. apply Hfd'. rewrite omap_app. cbn. set_solver.
  - intros m Hm. unfold chunk_of. cbn. by rewrite Hm.
Qed.
End held.

(** Every kernel that serves a script keeps these books. *)
Lemma script_held h0 k0 os used names chunks h :
  at_rest h0 k0 -> script h0 os used names chunks h ->
  exists l, h = l ++ h0 /\ throughout h0 k0 l (held (store k0) (paths k0) os used names chunks h).
Proof.
  intros [K W P F] H.
  induction H as [| os used names chunks x h _ (l & -> & IH) Hq Hs
    | os used names chunks h path fd _ (l & -> & IH) Hfd
    | os used names chunks h fd path loc b o d _ (l & -> & IH) Hin
    | os used names chunks h fd path loc b o d d' _ (l & -> & IH) Hu].
  - exists []. split; [done |]. apply throughout_start; [| apply held_stable].
    split; [constructor | by intros x ?%elem_of_nil |]. exists []. split; cbn; [| done | | constructor |].
    + split; [exists [] | | by rewrite W | by intros c ?%elem_of_nil].
      * split; [| unfold waiting; by rewrite P]. intros p. unfold content, added. cbn.
        destruct (store k0 !! p); [by rewrite app_nil_r | done].
      * by rewrite P, F, K.
    + by intros g ?%elem_of_nil.
    + intros fd _. by rewrite map_empty_union.
  - exists (x :: l). split; [done |]. eapply throughout_call; [exact IH | | apply held_stable].
    intros k k' [D N (gs & B)] Hc. split; [done | done |]. exists gs. by eapply kept_quiet.
  - exists (Sys_open path small_flags ~> fd :: l). split; [done |].
    eapply throughout_call; [exact IH | | apply held_stable]. cbn [projT1 projT2].
    intros k k' Hk Hc. by eapply held_open.
  - eexists (_ :: l). split; [reflexivity |].
    eapply throughout_call; [exact IH | | apply held_stable]. cbn [projT1 projT2].
    intros k k' Hk Hc. by eapply held_write.
  - eexists (_ :: l). split; [reflexivity |].
    eapply throughout_call; [exact IH | | apply held_stable]. cbn [projT1 projT2].
    intros k k' Hk Hc. by eapply held_write_close.
Qed.

(** The chunks were appended, in some order, and the descriptors [fds] are what
    is open besides [m0]. *)
Definition appended (base : files) (m0 : gmap Z string) (fds : list Z) (chunks : list chunk)
    (fs : files) (m : gmap Z string) : Prop :=
  (forall fd, fd ∈ fds -> m0 !! fd = None) /\ (forall fd, fd ∉ fds -> m !! fd = m0 !! fd) /\
  any_order base chunks fs.

Lemma held_done base m0 os used names chunks h k :
  held base m0 os used names chunks h k -> in_kernel h = [] ->
  settled (appended (touch names base) m0 os.*1 chunks) k.
Proof.
  intros [D W (gs & [B1 B2 B3 B4 B5])] Hk.
  destruct (tracks_done base names chunks h k B1 Hk) as [P Hst].
  assert (gs = []) as ->.
  { destruct gs as [| g gs]; [done |]. rewrite P in B2. by destruct g as [? ? ? | ? ? [] ?]. }
  split; [done |]. split; [| split; [| done]].
  - intros fd ([fd' p] & -> & Hx)%list_elem_of_fmap. by destruct (W _ Hx).
  - intros fd Hfd. rewrite B5 by apply not_elem_of_nil. by apply with_open_out.
Qed.

(** A script whose operations have all been reaped has appended its chunks. *)
Lemma script_settles h0 k0 os used names chunks h :
  at_rest h0 k0 -> script h0 os used names chunks h -> in_kernel h = [] ->
  exists l, h = l ++ h0 /\
    throughout h0 k0 l (settled (appended (touch names (store k0)) (paths k0) os.*1 chunks)).
Proof.
  intros Hr Hs Hk. destruct (script_held _ _ _ _ _ _ _ Hr Hs) as (l & -> & H).
  exists l. split; [done |]. eapply throughout_weaken; [exact H |]. intros k Hh. by eapply held_done.
Qed.

Lemma settled_appended_perm base m0 fds fds' chunks k :
  settled (appended base m0 fds chunks) k -> fds ≡ₚ fds' -> settled (appended base m0 fds' chunks) k.
Proof.
  intros (P & H1 & H2 & H3) E. split; [done |]. split; [intros fd; rewrite <- E; apply H1 |].
  split; [intros fd; rewrite <- E; apply H2 | done].
Qed.

(** One of its files is closed. *)
Lemma appended_close h0 k0 l base m0 fd fds chunks :
  throughout h0 k0 l (settled (appended base m0 (fd :: fds) chunks)) ->
  throughout h0 k0 (Sys_close fd ~> 0 :: l) (settled (appended base m0 fds chunks)).
Proof.
  intros H. eapply settled_close; [exact H |]. intros fs m (H1 & H2 & H3).
  split; [intros x Hx; apply H1; by right |]. split; [| done]. intros x Hx.
  destruct (decide (fd = x)) as [<- | Hne].
  - rewrite lookup_delete_eq. symmetry. apply H1. by left.
  - rewrite lookup_delete_ne by done. apply H2. set_solver.
Qed.

Lemma appended_leaves h0 k0 l base chunks :
  throughout h0 k0 l (settled (appended base (paths k0) [] chunks)) ->
  leaves h0 k0 (l ++ h0) (any_order base chunks).
Proof.
  intros H. exists l. split; [done |]. intros k Hk. destruct (H k Hk) as (? & _ & E & ?).
  split; [done |]. split; [| done]. apply map_eq. intros fd. apply E, not_elem_of_nil.
Qed.
