(* ===== verification/FileContents.v ===== *)
(** * What the handlers leave in the files

    The five stream handlers, run on the kernel of FileStore.v: after each of
    them the files are the specification [append_chunks] of the messages it was
    sent.  The synchronous handlers append in order; the kernel may have
    reordered the writes of the io_uring ones.  Where the payloads for a file
    are alike, as those of the client are, both leave the same files. *)

From S2P Require Import Prelude Proto Env BlockServer FileServer FileServerAsync FileStore FileScript.

(** All messages to the file [p], or each to its own. *)
Definition to_one (size : Z) (p : string) (ms : list FileRequest) : list chunk :=
  (fun m => (p, payload size m)) <$> ms.
Definition to_each (size : Z) (ms : list FileRequest) : list chunk :=
  (fun m => (filename m, payload size m)) <$> ms.

(** ** The synchronous handlers *)

Section sync.
Context {PF : Platform} (size blk : Z).
Hypothesis size_int : 0 <= size <= INT_MAX.

Lemma write_reply ms h fd m :
  obliging ms -> world h (Sys_write fd (payload size m)) = Z.of_nat (length (payload size m)).
Proof.
  intros OB. apply (write_full _ OB). unfold payload. rewrite length_take. lia.
Qed.

Lemma settled_wrote ms l fd p h hb h0 k0 given fs m all :
  obliging all -> m !! fd = Some p -> wrote size fd ms h (l ++ hb) ->
  throughout h0 k0 l (settled (just given fs m)) ->
  exists l', h = l' ++ hb /\
    throughout h0 k0 l' (settled (just given (append_chunks fs (to_one size p ms)) m)).
Proof.
  intros OB Hm. revert l fs. induction ms as [| x ms IH]; intros l fs W H; cbn in W.
  { subst h. by exists l. }
  destruct W as (h1 & _ & W). rewrite (write_reply all h1 fd x OB) in W.
  eapply (IH (_ :: l)); [exact W |]. by apply settled_write.
Qed.

(** A file is opened, written and closed. *)
Lemma settled_one_file h0 k0 l fd m given fs mp :
  0 <= fd -> throughout h0 k0 l (settled (just given fs mp)) ->
  throughout h0 k0 (Sys_close fd ~> 0 :: Sys_write fd (payload size m) ~> Z.of_nat (length (payload size m)) ::
      Sys_open (filename m) small_flags ~> fd :: l)
    (settled (just given (append_chunk fs (filename m, payload size m)) mp)).
Proof.
  intros Hfd H. apply (settled_open h0 k0 l (filename m) small_flags fd) in H; [| done].
  rewrite (bool_decide_false (O_TRUNC ∈ _)) in H by set_solver.
  eapply settled_write in H; [| apply lookup_insert_eq]. eapply settled_close; [exact H |].
  intros fs' m' ([G Hn] & -> & ->). split; [done |]. split; [| by apply delete_insert_id].
  unfold append_chunk. cbn. by rewrite lookup_insert_eq, insert_insert_eq.
Qed.

Lemma settled_wrote_files ms l h hb h0 k0 given fs m all :
  obliging all -> wrote_files size ms h (l ++ hb) -> throughout h0 k0 l (settled (just given fs m)) ->
  exists l', h = l' ++ hb /\
    throughout h0 k0 l' (settled (just given (append_chunks fs (to_each size ms)) m)).
Proof.
  intros OB. revert l fs. induction ms as [| x ms IH]; intros l fs W H; cbn in W.
  { subst h. by exists l. }
  destruct W as (fd & h1 & Hfd & _ & W). rewrite (write_reply all h1 fd x OB) in W.
  eapply (IH (_ :: _ :: _ :: l)); [exact W |]. by apply settled_one_file.
Qed.
End sync.

(** The handlers enter no ring. *)
Section no_ring.
Context {PF : Platform} {R : Type}.

Lemma no_ring_new_buffer : logs no_enter (new_buffer (R := R)).
Proof. unfold new_buffer, posix_memalign. logs_go. Qed.
Lemma no_ring_copy_data p m : logs no_enter (copy_data (R := R) p m).
Proof. unfold copy_data. logs_go. Qed.
Lemma no_ring_write_buffer fd p : logs no_enter (write_buffer (R := R) fd p).
Proof. unfold write_buffer. logs_go. Qed.
Lemma no_ring_timed t f : logs no_enter (timed (R := R) t f).
Proof. unfold timed. logs_go. Qed.
End no_ring.

#[export] Hint Resolve no_ring_new_buffer no_ring_copy_data no_ring_write_buffer no_ring_timed : logs.

Section no_ring_handlers.
Context {PF : Platform}.

Lemma no_ring_large_loop fuel fd m : logs no_enter (large_loop fuel fd m).
Proof. revert m. induction fuel as [| fuel IH]; intros m; cbn [large_loop]; unfold large_round; logs_go. Qed.
Lemma no_ring_small_loop fuel : logs no_enter (small_loop fuel).
Proof. induction fuel as [| fuel IH]; cbn [small_loop]; unfold small_round; logs_go. Qed.
End no_ring_handlers.
#[export] Hint Resolve no_ring_large_loop no_ring_small_loop : logs.

Section sync_handlers.
Context {PF : Platform} {R : Type} (size blk : Z).
Hypothesis size_int : 0 <= size <= INT_MAX.
Implicit Types s : st GRPCFileServerSync.

Lemma no_ring_AppendOneLargeFile fuel : logs no_enter (AppendOneLargeFile (R := R) fuel).
Proof. unfold AppendOneLargeFile. logs_go. Qed.
Lemma no_ring_AppendManySmallFiles fuel : logs no_enter (AppendManySmallFiles (R := R) fuel).
Proof. unfold AppendManySmallFiles. logs_go. Qed.

Lemma file_calls_app l l' : file_calls (l ++ l') = file_calls l ++ file_calls l'.
Proof. apply filter_app. Qed.

(** From what a handler is known to have called to what it leaves. *)
Lemma sync_leaves h0 k0 h l fc fs :
  h = l ++ h0 -> Forall no_enter l -> file_calls h = fc ++ file_calls h0 -> pending k0 = [] ->
  throughout h0 k0 fc (settled (just True fs (paths k0))) -> leaves h0 k0 h (eq fs).
Proof.
  intros -> F E P H. rewrite file_calls_app in E. apply app_inv_tail in E as <-.
  eapply settled_leaves. apply throughout_file_calls; [done | done | exact H].
Qed.

Lemma large_sync_calls m ms fuel s :
  obliging (m :: ms) -> configured size blk s -> messages (log s) = [] ->
  forallb (long_enough size) (m :: ms) = true -> (length (m :: ms) <= fuel)%nat ->
  wp (AppendOneLargeFile (R := R) fuel) (fun o s' => o = Val OK /\
    exists (fd : Z) h, 0 <= fd /\ file_calls (log s') = Sys_close fd ~> 0 :: h /\
      wrote size fd (m :: ms) h (Sys_open (filename m) large_flags ~> fd :: file_calls (log s))) s.
Proof.
  intros OB Hc Hm Hl Hf. assert (0 <= size < 2 ^ 64) as size_ok by (unfold INT_MAX in *; lia).
  unfold AppendOneLargeFile. wp_steps. rewrite (stream_of _ OB), Hm in Hw. cbn in Hw. subst r.
  change (default FileRequest_default (Some m)) with m in *. fold large_flags in *.
  pose proof (open_ok _ OB (Stream_read ~> Some m :: log s) (filename m) large_flags) as Hfd.
  rewrite <- Hw0 in Hfd. match goal with |- wp _ _ ?s => set (s1 := s) end.
  assert (messages (log s1) = [m]) as Hm1 by (subst s1; cbn [log]; trace; by rewrite Hm).
  eapply wp_mono; [| apply wp_and; [apply (large_loop_outcome size blk size_ok (m :: ms)) |
    apply (large_loop_spec size blk size_ok)]];
    [| lia | exact OB | exact Hc | rewrite Hm1; cbn in *; rewrite drop_0; lia | exact Hc].
  rewrite Hm1. unfold verdict. change (drop (length [m]) (m :: ms)) with (drop 0 ms). rewrite drop_0, Hl.
  intros o s2 [-> [(ms' & _ & _ & D & _ & _ & D6) _]].
  rewrite Hm1 in D6. specialize (D6 _ OB). cbn in D6. rewrite drop_0 in D6. subst ms'.
  wp_steps. rewrite (close_ok _ OB) in Hw. subst r. split; [done |].
  exists r0, (file_calls (log s2)). split; [done |]. by trace.
Qed.

Lemma large_sync_contents m ms fuel s k0 :
  obliging (m :: ms) -> configured size blk s -> messages (log s) = [] ->
  forallb (long_enough size) (m :: ms) = true -> (length (m :: ms) <= fuel)%nat -> pending k0 = [] ->
  exists s', AppendOneLargeFile (R := R) fuel s = (Val OK, s') /\
    leaves (log s) k0 (log s')
      (eq (append_chunks (<[filename m := []]> (store k0)) (to_one size (filename m) (m :: ms)))).
Proof.
  intros OB Hc Hm Hl Hf P. apply wp_val_ex.
  eapply wp_mono; [| apply wp_and; [apply (no_ring_AppendOneLargeFile fuel s) | by apply (large_sync_calls m ms)]].
  intros o s' [(l & El & F) [-> (fd & h & Hfd & Ef & W)]]. split; [done |].
  pose proof (settled_open _ _ _ (filename m) large_flags fd _ _ _ Hfd (settled_start (log s) k0 P)) as H.
  rewrite (bool_decide_true (O_TRUNC ∈ _)) in H by set_solver.
  destruct (settled_wrote size size_int (m :: ms) [_] fd (filename m) h (file_calls (log s)) _ _ _ _ _ _
    OB (lookup_insert_eq _ _ _) W H) as (l' & -> & H').
  eapply sync_leaves; [exact El | exact F | rewrite Ef; apply app_comm_cons | exact P |].
  eapply settled_close; [exact H' |]. intros fs mp ([_ Hn] & -> & ->). split; [done |]. split; [done |].
  by apply delete_insert_id.
Qed.

Lemma small_sync_calls ms fuel s :
  obliging ms -> configured size blk s -> messages (log s) = [] ->
  forallb (long_enough size) ms = true -> (length ms < fuel)%nat ->
  wp (AppendManySmallFiles (R := R) fuel) (fun o s' => o = Val OK /\
    wrote_files size ms (file_calls (log s')) (file_calls (log s))) s.
Proof.
  intros OB Hc Hm Hl Hf. assert (0 <= size < 2 ^ 64) as size_ok by (unfold INT_MAX in *; lia).
  unfold AppendManySmallFiles, timed. wp_steps. match goal with |- wp _ _ ?s => set (s1 := s) end.
  assert (messages (log s1) = []) as Hm1 by (subst s1; cbn [log]; trace; by rewrite Hm).
  eapply wp_mono; [| apply wp_and; [apply (small_loop_outcome size blk size_ok ms) |
    apply (small_loop_spec size blk size_ok)]];
    [| lia | exact OB | exact Hc | rewrite Hm1; cbn in *; rewrite drop_0; lia | exact Hc].
  rewrite Hm1. unfold verdict. rewrite drop_0, Hl.
  intros o s2 [-> [(ms' & _ & _ & D & _ & _ & D6) _]].
  rewrite Hm1 in D6. specialize (D6 _ OB). cbn in D6. rewrite drop_0 in D6. subst ms'.
  wp_steps. split; [done |]. revert D. by trace.
Qed.

Lemma small_sync_contents ms fuel s k0 :
  obliging ms -> configured size blk s -> messages (log s) = [] ->
  forallb (long_enough size) ms = true -> (length ms < fuel)%nat -> pending k0 = [] ->
  exists s', AppendManySmallFiles (R := R) fuel s = (Val OK, s') /\
    leaves (log s) k0 (log s') (eq (append_chunks (store k0) (to_each size ms))).
Proof.
  intros OB Hc Hm Hl Hf P. apply wp_val_ex.
  eapply wp_mono; [| apply wp_and; [apply (no_ring_AppendManySmallFiles fuel s) | by apply (small_sync_calls ms)]].
  intros o s' [(l & El & F) [-> W]]. split; [done |].
  destruct (settled_wrote_files size size_int ms [] _ (file_calls (log s)) _ _ _ _ _ ms OB W
    (settled_start (log s) k0 P)) as (l' & E & H).
  by eapply sync_leaves.
Qed.
End sync_handlers.

(** ** The io_uring handlers

    Between its submissions a handler, with its completion thread, only makes
    calls that leave the files and the queue alone. *)

(** What such calls add to the history; a completion is given back right after
    it was taken. *)
Inductive quietly : history -> history -> Prop :=
| quietly_refl h : quietly h h
| quietly_call h h' x :
    quietly h h' -> quiet x = true -> message_of x = None ->
    (is_seen x = true -> is_Some (just_waited h')) -> quietly h (x :: h').

Lemma quietly_trans h1 h2 h3 : quietly h1 h2 -> quietly h2 h3 -> quietly h1 h3.
Proof. intros H. induction 1; [done |]. by constructor; [apply IHquietly | ..]. Qed.

Lemma quietly_messages h h' : quietly h h' -> messages h' = messages h.
Proof. induction 1 as [| h h' x _ IH _ Hm _]; [done |]. by rewrite messages_cons, Hm. Qed.

Lemma quietly_script h0 os used names chunks h h' :
  quietly h h' -> script h0 os used names chunks h -> script h0 os used names chunks h'.
Proof. induction 1; [done |]. intros Hs. apply script_quiet; auto. Qed.

(** Calls that may be made at any time. *)
Definition harmless (x : entry) : Prop :=
  match projT1 x with
  | Sys_open _ _ | Sys_close _ | Sys_write _ _ | Uring_enter _ | Uring_cqe_seen | Stream_read => False
  | _ => True
  end.

Lemma harmless_quiet x :
  harmless x -> quiet x = true /\ message_of x = None /\ is_seen x = false.
Proof. by destruct x as [[] r]. Qed.

Lemma quietly_harmless h l : Forall harmless l -> quietly h (l ++ h).
Proof.
  induction 1 as [| x l (H1 & H2 & H3)%harmless_quiet _ IH]; [constructor |].
  cbn. constructor; [done.. |]. by rewrite H3.
Qed.

Definition mild {R A} (m : M (st session) R A) : Prop := forall s,
  wp m (fun _ s' => unsent (own s') = unsent (own s) /\ quietly (log s) (log s')) s.

Section mild.
Context {PF : Platform} {R : Type}.

Lemma mild_bind {A B} (m : M (st session) R A) (f : A -> M (st session) R B) :
  mild m -> (forall a, mild (f a)) -> mild (m ≫= f).
Proof.
  intros Hm Hf s. apply wp_bind. eapply wp_mono; [| apply Hm].
  intros [a | r | u |] s1 [E Q]; [| done..].
  eapply wp_mono; [| apply Hf]. intros o s2 [E' Q']. split; [congruence | by eapply quietly_trans].
Qed.

Lemma mild_steady {A} (m : M (st session) R A) : steady unsent (fun _ => harmless) m -> mild m.
Proof.
  intros H s. eapply wp_mono; [| apply H]. intros o s' (E & l & El & F). split; [done |].
  rewrite El. by apply quietly_harmless.
Qed.

Lemma steady_with_srv {A} (m : M (st GRPCFileServerSync) R A) :
  logs harmless m -> steady unsent (fun _ => harmless) (with_srv m).
Proof. intros H s. apply wp_zoom. eapply wp_mono; [| apply H]. done. Qed.

Lemma release_silent p (s : st session) :
  wp (release (R := R) p) (fun _ s' => own s' = own s /\ log s' = log s) s.
Proof.
  destruct p as [l |]; [| done]. unfold release, wp, block_at, mbind, M_bind. cbn.
  by destruct (blocks (heap s) !! l).
Qed.

(** A round of the completion thread takes a completion and gives it back. *)
Lemma mild_cq_step : mild (cq_step (R := R)).
Proof.
  intros s. unfold cq_step. wp_steps. destruct (cq_left (own s) <=? 0); [wp_steps; by split; [| constructor] |].
  wp_steps. assert (quietly (log s) (Uring_wait_cqe ~> r :: log s)) as Q by (by repeat constructor).
  destruct r as [[[ret res] d] |]; [| by wp_steps].
  destruct (ret <? 0) eqn:Er; [by wp_steps |]. wp_steps.
  eapply wp_mono; [| apply release_silent]. cbn [own log]. intros [[] | | |] s1 [Eo El]; rewrite ?Eo, ?El; [| done..].
  wp_steps. rewrite Eo, El. split; [done |]. constructor; [exact Q | done | done |].
  intros _. exists d. cbn. by rewrite Er.
Qed.

Lemma mild_yield : mild (yield (R := R)).
Proof.
  intros s. change (wp (cq_run (R := R) (schedule (log s))) (fun _ s' => unsent (own s') = unsent (own s) /\ quietly (log s) (log s')) s).
  generalize (schedule (log s)). intros n. revert s. induction n as [| n IH]; cbn [cq_run].
  - intros s. by split; [| constructor].
  - apply mild_bind; [apply mild_cq_step | intros _; exact IH].
Qed.

Lemma mild_ext_y e : (forall r, harmless (e ~> r)) -> mild (ext_y (R := R) e).
Proof.
  intros H. apply mild_bind; [apply mild_yield | intros _]. by apply mild_steady, steady_ext.
Qed.
End mild.

Create HintDb mild.
#[export] Hint Extern 1 (mild (ext_y ?e)) => refine (mild_ext_y e _); intros ?; exact I : mild.

Section pieces.
Context {PF : Platform}.

Lemma harmless_new_buffer {R} : logs harmless (new_buffer (R := R)).
Proof. unfold new_buffer, posix_memalign. logs_go. Qed.
Lemma harmless_copy_data {R} p m : logs harmless (copy_data (R := R) p m).
Proof. unfold copy_data. logs_go. Qed.

Lemma mild_fill_buffer m : mild (fill_buffer m).
Proof.
  unfold fill_buffer. apply mild_bind; [auto with mild | intros t].
  apply mild_bind; [apply mild_steady, steady_with_srv, harmless_new_buffer | intros [err p]].
  destruct (negb (err =? 0)); [apply mild_steady; unfold leave, destroy_thread; steady_go |].
  apply mild_bind; [apply mild_steady, steady_with_srv, harmless_copy_data | intros _].
  apply mild_bind; [auto with mild | intros now]. apply mild_steady. steady_go.
Qed.

Lemma mild_get_slot {R} : mild (get_slot (R := R)).
Proof.
  unfold get_slot. apply mild_bind; [auto with mild | intros []; [| by apply mild_steady; steady_go]].
  intros s. wp_steps. by split; [| constructor].
Qed.

Lemma mild_slot_loop fuel : mild (get_slot_loop fuel).
Proof.
  induction fuel as [| fuel IH]; cbn [get_slot_loop]; [apply mild_steady; steady_go |].
  apply mild_bind; [apply mild_get_slot | intros [n |]; [apply mild_steady; steady_go | exact IH]].
Qed.

Lemma mild_join {R} fuel : mild (join (R := R) fuel).
Proof.
  unfold join. apply mild_bind; [| intros _; apply mild_steady; steady_go].
  induction fuel as [| fuel IH]; cbn [cq_rest]; [apply mild_steady; steady_go |].
  apply mild_bind; [apply mild_steady; steady_go | intros n; destruct (n <=? 0)].
  - apply mild_steady. steady_go.
  - apply mild_bind; [apply mild_cq_step | intros _; exact IH].
Qed.

(** The new ring's queue is empty. *)
Lemma start_empty rounds (s : st session) :
  (forall n s, wp (rounds n) (fun _ s' => own s' = own s /\ log s' = log s) s) ->
  wp (start rounds) (fun o s' => o = Val () ->
    unsent (own s') = [] /\ srv (own s') = srv (own s) /\ quietly (log s) (log s')) s.
Proof.
  intros Hr. unfold start. wp_steps.
  destruct (queue_depth (srv (own s))) as [qd |]; [| by wp_steps]. wp_steps.
  destruct (r =? 0); [| by wp_steps]. cbn [negb]. wp_steps. cbn [srv set_ring].
  destruct (N (srv (own s))) as [n |]; [| done]. wp_steps.
  eapply wp_mono; [| apply Hr]. cbn [own log]. intros o s1 [E El].
  destruct o; [| done..]. wp_steps. intros _. rewrite E, El. split; [done |]. split; [done |].
  apply (quietly_harmless _ [_]). by repeat constructor.
Qed.

(** The queue is handed over. *)
Lemma submit_script {R} (SV : serving) (s : st session) (Q : outcome R () -> st session -> Prop) :
  (forall s' h, quietly (log s) h -> unsent (own s') = [] ->
     log s' = Uring_enter (unsent (own s)) ~> Z.of_nat (length (unsent (own s))) :: h -> Q (Val ()) s') ->
  (forall o s', o <> Val () -> Q o s') -> wp (submit (R := R)) Q s.
Proof.
  intros H Hno. unfold submit. apply wp_bind. eapply wp_mono; [| apply mild_yield].
  intros [[] | | |] s1 [E Q1]; [| by apply Hno..]. wp_steps. rewrite (enter_all SV), E in Hw. subst r.
  rewrite E. apply (H _ (log s1)); [exact Q1 | | done]. cbn. by rewrite ?E, Nat2Z.id, drop_all.
Qed.
End pieces.

(** What a statement yields when it ends normally. *)
Definition wpv {S R A} (m : M S R A) (Φ : A -> S -> Prop) : S -> Prop :=
  wp m (fun o s' => match o with Val a => Φ a s' | _ => True end).

Lemma wpv_bind {S R A B} (m : M S R A) (f : A -> M S R B) Φ s :
  wpv m (fun a s' => wpv (f a) Φ s') s -> wpv (m ≫= f) Φ s.
Proof. intros H. apply wp_bind. eapply wp_mono; [| exact H]. by intros [] s'. Qed.

Lemma wpv_mono {S R A} (m : M S R A) (Φ Ψ : A -> S -> Prop) s :
  (forall a s', Φ a s' -> Ψ a s') -> wpv m Φ s -> wpv m Ψ s.
Proof. intros H. apply wp_mono. intros [] s'; auto. Qed.

Lemma wpv_mild {R A} (m : M (st session) R A) (Φ : A -> st session -> Prop) s :
  mild m -> (forall a s', unsent (own s') = unsent (own s) -> quietly (log s) (log s') -> Φ a s') ->
  wpv m Φ s.
Proof. intros Hm H. eapply wp_mono; [| apply Hm]. intros [] s' [E Q]; auto. Qed.

Lemma wpv_leave {PF : Platform} {A} e (Φ : A -> st session -> Prop) s : wpv (leave e) Φ s.
Proof. unfold wpv, leave, destroy_thread. wp_steps. by destruct (joinable (own s)). Qed.

Lemma wp_destroy {PF : Platform} {R} (Q : outcome R () -> st session -> Prop) s :
  Q (Stop Std_terminate) s -> Q (Val ()) s -> wp destroy_thread Q s.
Proof. intros H1 H2. unfold destroy_thread. wp_steps. by destruct (joinable (own s)). Qed.

Lemma wp_call_ok {S R} (body : M S Status Status) (Φ : S -> Prop) s :
  returns_only early body -> wpv body (fun e s' => e = OK -> Φ s') s ->
  wp (call (R' := R) body) (fun o s' => o = Val OK -> Φ s') s.
Proof.
  intros Hr H. apply wp_call. eapply wp_mono; [| apply wp_and; [apply Hr | exact H]].
  intros [e | e | |] s' [H1 H2]; try done.
  - intros [= ->]. by apply H2.
  - intros [= ->]. by destruct (H1 OK eq_refl).
Qed.

Section scripts.
Context {PF : Platform} (SV : serving) (ms : list FileRequest) (OB : obliging ms).
Context (h0 : history).

(** Between two rounds nothing is held back. *)
Definition placed (os : list (Z * string)) (used : gset Z) (names : list string) (chunks : list chunk)
    (s : st session) : Prop :=
  unsent (own s) = [] /\ script h0 os used names chunks (log s).

Lemma read_placed {R} os used names chunks (s : st session)
    (Φ : option FileRequest -> st session -> Prop) :
  placed os used names chunks s ->
  (forall s', placed os used names chunks s' ->
     match rest ms s with
     | [] => Φ None s'
     | m :: l => rest ms s' = l -> Φ (Some m) s'
     end) ->
  wpv (ext_y (R := R) Stream_read) Φ s.
Proof.
  intros [Hu Hs] H. apply wpv_bind, wpv_mild; [apply mild_yield |]. intros _ s1 E1 Q1.
  apply (wp_ext Stream_read). intros r Hr. rewrite (stream_of _ OB), (quietly_messages _ _ Q1) in Hr. subst r.
  set (s2 := mk_st _ _ _).
  assert (placed os used names chunks s2) as Hp.
  { split; [cbn; congruence |]. apply (script_quiet h0 os used names chunks (Stream_read ~> _)); [| done | done].
    by eapply quietly_script. }
  specialize (H s2 Hp). unfold rest in *.
  destruct (ms !! length (messages (log s))) as [m |] eqn:Em.
  - rewrite (drop_S _ _ _ Em) in H. apply H. cbn [log s2]. rewrite messages_cons.
    cbn [message_of length]. by rewrite (quietly_messages _ _ Q1).
  - apply lookup_ge_None in Em. by rewrite drop_ge in H by done.
Qed.

(** A file is opened between rounds. *)
Lemma open_placed {R} os used names chunks path (s : st session) (Φ : Z -> st session -> Prop) :
  placed os used names chunks s ->
  (forall fd s', (0 <= fd -> placed ((fd, path) :: os) (used ∖ {[fd]}) (path :: names) chunks s') ->
     messages (log s') = messages (log s) -> Φ fd s') ->
  wpv (ext_y (R := R) (Sys_open path small_flags)) Φ s.
Proof.
  intros [Hu Hs] H. apply wpv_bind, wpv_mild; [apply mild_yield |]. intros _ s1 E1 Q1.
  apply (wp_ext (Sys_open _ _)). intros fd _. apply H.
  - intros Hfd. split; [cbn; congruence |]. apply script_open; [| done]. by eapply quietly_script.
  - cbn [log]. by rewrite messages_cons, (quietly_messages _ _ Q1).
Qed.

Lemma append_placed target path os used names chunks m (s : st session) :
  (forall s, wpv target (fun fd s' => s' = s /\ (fd, path) ∈ os) s) -> placed os used names chunks s ->
  wpv (append target m) (fun _ s' => rest ms s' = rest ms s /\
    exists b used', placed os used' names (chunks ++ [(path, b)]) s') s.
Proof.
  intros Ht [Hu Hs]. unfold append. apply wpv_bind, wpv_mild; [apply mild_get_slot |].
  intros [slot |] s1 E1 Q1; [| apply wpv_leave].
  apply wpv_bind, wpv_mild; [apply mild_fill_buffer |]. intros p s2 E2 Q2.
  apply wpv_bind. eapply wpv_mono; [| apply Ht]. intros fd ? [-> Hin].
  apply wpv_bind. unfold prep_write. apply wpv_bind.
  destruct p as [l |]; [| done]. unfold wpv at 1, wp at 1, block_at.
  destruct (blocks (heap s2) !! l) as [b |]; [| done]. apply wp_set_own.
  apply (submit_script SV); [| by intros [[] | | |] s3 ?].
  cbn [own log unsent set_queue]. rewrite E2, E1, Hu. intros s3 h Q3 E3 El.
  pose proof (quietly_trans _ _ _ Q1 (quietly_trans _ _ _ Q2 Q3)) as Q. split.
  - unfold rest. rewrite El, messages_cons. cbn [message_of]. by rewrite (quietly_messages _ _ Q).
  - exists b. eexists. split; [done |]. rewrite El. cbn [app length].
    eapply script_write; [| exact Hin]. by eapply quietly_script.
Qed.

Lemma large_loop_placed fuel fd path os used names chunks m (s : st session) :
  (fd, path) ∈ os -> placed os used names chunks s ->
  wpv (large_async_loop fuel fd m) (fun _ s' =>
    exists bs used', bs <> [] /\ placed os used' names (chunks ++ (pair path <$> bs)) s') s.
Proof.
  intros Hin. revert used chunks m s. induction fuel as [| fuel IH]; intros used chunks m s Hp; [done |].
  cbn [large_async_loop]. apply wpv_bind.
  eapply wpv_mono; [| apply (append_placed (mret fd) path os used names chunks m s); [| exact Hp]]; [| done].
  intros _ s1 (_ & b & used1 & Hp1). eapply wpv_bind, read_placed; [exact Hp1 |]. intros s2 Hp2.
  destruct (rest ms s1) as [| m' tl].
  - exists [b], used1. by split.
  - intros _. eapply wpv_mono; [| apply (IH used1 (chunks ++ [(path, b)]) m' s2 Hp2)].
    intros _ s3 (bs & used3 & _ & Hp3). exists (b :: bs), used3. split; [done |].
    rewrite <- app_assoc in Hp3. exact Hp3.
Qed.

Lemma append_small_placed fuel used names chunks m (s : st session) :
  placed [] used names chunks s ->
  wpv (append_small fuel m) (fun _ s' => rest ms s' = rest ms s /\
    exists b used', placed [] used' (filename m :: names) (chunks ++ [(filename m, b)]) s') s.
Proof.
  intros [Hu Hs]. unfold append_small. apply wpv_bind, wpv_mild; [auto with mild |].
  intros t s1 E1 Q1. apply wpv_bind, (open_placed [] used names chunks (filename m)).
  { split; [congruence | by eapply quietly_script]. }
  intros fd s2 H2 M2. destruct (fd <? 0) eqn:Efd; bool_hyps; [apply wpv_leave |]. destruct (H2 Efd) as [Hu2 Hs2].
  apply wpv_bind, wpv_mild; [auto with mild |]. intros now s3 E3 Q3.
  apply wpv_bind, wp_set_own. apply wpv_bind, wpv_mild; [apply mild_slot_loop |].
  cbn [own log unsent spend_uring]. intros slot s4 E4 Q4.
  apply wpv_bind, wpv_mild; [apply mild_fill_buffer |]. intros p s5 E5 Q5.
  unfold prep_write. apply wpv_bind, wpv_bind.
  destruct p as [l |]; [| done]. unfold wpv at 1, wp at 1, block_at.
  destruct (blocks (heap s5) !! l) as [b |]; [| done]. apply wp_set_own.
  apply wpv_bind, wpv_mild; [apply mild_slot_loop |]. cbn [own log unsent set_queue].
  intros slot' s6 E6 Q6. apply wpv_bind. unfold prep_close. apply wp_set_own.
  apply (submit_script SV); [| by intros [[] | | |] s7 ?].
  cbn [own log unsent set_queue]. rewrite E6, E5, E4, E3, Hu2. intros s7 h Q7 E7 El.
  pose proof (quietly_trans _ _ _ Q3 (quietly_trans _ _ _ Q4
    (quietly_trans _ _ _ Q5 (quietly_trans _ _ _ Q6 Q7)))) as Q. split.
  - unfold rest. rewrite El, messages_cons. cbn [message_of].
    by rewrite (quietly_messages _ _ Q), M2, (quietly_messages _ _ Q1).
  - exists b. eexists. split; [done |]. rewrite El. cbn [app length].
    apply script_write_close; [by eapply quietly_script | set_solver].
Qed.

Lemma small_loop_placed fuel used names chunks m (s : st session) :
  placed [] used names chunks s ->
  wpv (small_async_loop fuel m) (fun _ s' => exists bs used', length bs = S (length (rest ms s)) /\
    placed [] used' (reverse (filename <$> m :: rest ms s) ++ names)
      (chunks ++ zip (filename <$> m :: rest ms s) bs) s') s.
Proof.
  revert used names chunks m s. induction fuel as [| fuel IH]; intros used names chunks m s Hp; [done |].
  cbn [small_async_loop]. apply wpv_bind.
  eapply wpv_mono; [| by apply (append_small_placed (S fuel) used names chunks)].
  intros _ s1 (R1 & b & used1 & Hp1). rewrite <- R1.
  eapply wpv_bind, read_placed; [exact Hp1 |]. intros s2 Hp2.
  destruct (rest ms s1) as [| m' tl].
  - exists [b], used1. by split.
  - intros R2. eapply wpv_mono; [| by apply (IH used1 (filename m :: names) (chunks ++ [(filename m, b)]) m' s2)].
    rewrite R2. intros _ s3 (bs & used3 & Hl & Hp3). exists (b :: bs), used3. split; [cbn; by rewrite Hl |].
    rewrite fmap_cons, reverse_cons, <- app_assoc. rewrite <- app_assoc in Hp3. exact Hp3.
Qed.

(** The experiment: its files, and whose turn a message is. *)
Definition expr_names (nonce : Z) (i n : nat) : list string :=
  (fun i => expr_name nonce (Z.of_nat i)) <$> seq i n.
Definition turns (nonce nfiles : Z) (i n : nat) : list string :=
  (fun j => expr_name nonce (Z.of_nat j mod nfiles)) <$> seq i n.

Lemma open_files_placed nonce i todo os used names chunks (s : st session) :
  placed os used names chunks s ->
  wpv (open_files nonce i todo) (fun fds s' => length fds = todo /\ messages (log s') = messages (log s) /\
    exists used', placed (reverse (zip fds (expr_names nonce i todo)) ++ os) used'
      (reverse (expr_names nonce i todo) ++ names) chunks s') s.
Proof.
  revert i os used names s. induction todo as [| todo IH]; intros i os used names s Hp; cbn [open_files].
  { split; [done |]. split; [done |]. by exists used. }
  apply wpv_bind, (open_placed os used names chunks (expr_name nonce (Z.of_nat i))); [exact Hp |].
  intros fd s1 H1 M1. destruct (fd <? 0) eqn:Efd; bool_hyps; [apply wpv_leave |].
  apply wpv_bind. eapply wpv_mono; [| exact (IH (S i) _ _ _ s1 (H1 Efd))].
  intros fds s2 (Hl & M2 & used2 & Hp2). apply wp_ret. split; [cbn; by rewrite Hl |]. split; [congruence |].
  exists used2. unfold expr_names. cbn [seq fmap list_fmap zip_with].
  rewrite !reverse_cons, <- !app_assoc. exact Hp2.
Qed.

Lemma next_file_placed fds nonce nfiles i (os : list (Z * string)) :
  0 < nfiles -> (forall j fd, fds !! j = Some fd -> (fd, expr_name nonce (Z.of_nat j)) ∈ os) ->
  forall s, wpv (next_file fds nfiles (Z.of_nat i))
    (fun fd s' => s' = s /\ (fd, expr_name nonce (Z.of_nat i mod nfiles)) ∈ os) s.
Proof.
  intros Hn Hfds s. unfold next_file, int_rem. rewrite (proj2 (Z.eqb_neq _ 0)) by lia.
  rewrite (proj2 (Z.eqb_neq _ INT_MIN)) by (unfold INT_MIN; lia). cbn [andb].
  apply wpv_bind, wp_ret, wpv_bind. unfold int_ret. destruct (in_int _); [| done]. apply wp_ret.
  rewrite Z.rem_mod_nonneg by lia.
  destruct (fds !! _) as [fd |] eqn:E; [| done]. apply wp_ret. split; [done |].
  apply Hfds in E. rewrite Z2Nat.id in E by (apply Z.mod_pos_bound; lia). done.
Qed.

Lemma expr_loop_placed fuel fds nonce nfiles i os used names chunks (s : st session) :
  0 < nfiles -> (forall j fd, fds !! j = Some fd -> (fd, expr_name nonce (Z.of_nat j)) ∈ os) ->
  placed os used names chunks s ->
  wpv (expr_loop fuel fds nfiles (Z.of_nat i)) (fun _ s' => exists bs used', length bs = length (rest ms s) /\
    placed os used' names (chunks ++ zip (turns nonce nfiles i (length (rest ms s))) bs) s') s.
Proof.
  intros Hn Hfds. revert i used chunks s. induction fuel as [| fuel IH]; intros i used chunks s Hp; [done |].
  cbn [expr_loop]. eapply wpv_bind, read_placed; [exact Hp |]. intros s1 Hp1.
  destruct (rest ms s) as [| m tl].
  - exists [], used. split; [done |]. by rewrite app_nil_r.
  - intros R1. apply wpv_bind. eapply wpv_mono; [| eapply append_placed; [by apply next_file_placed | exact Hp1]].
    intros _ s2 (R2 & b & used2 & Hp2). replace (Z.of_nat i + 1) with (Z.of_nat (S i)) by lia.
    eapply wpv_mono; [| apply (IH (S i) used2 (chunks ++ [(expr_name nonce (Z.of_nat i mod nfiles), b)])); exact Hp2].
    rewrite R2, R1.
    intros _ s3 (bs & used3 & Hl & Hp3). exists (b :: bs), used3. split; [cbn; by rewrite Hl |].
    rewrite <- app_assoc in Hp3. exact Hp3.
Qed.
End scripts.

(** The bytes of the writes among the operations. *)
Definition bytes_of (op : sqe_op) : option (list mbyte) :=
  match op with Op_write _ _ b _ => Some b | _ => None end.

Lemma quiet_ops x h : quiet x = true -> submitted_ops (x :: h) = submitted_ops h.
Proof. by destruct x as [[] r]. Qed.

Lemma script_bytes h0 os used names chunks h :
  script h0 os used names chunks h ->
  omap bytes_of (submitted_ops h) = omap bytes_of (submitted_ops h0) ++ chunks.*2.
Proof.
  induction 1 as [| os used names chunks x h _ IH Hq _ | os used names chunks h path fd _ IH _
    | os used names chunks h fd path loc b o d _ IH _ | os used names chunks h fd path loc b o d d' _ IH _].
  - by rewrite app_nil_r.
  - by rewrite quiet_ops.
  - exact IH.
  - change (submitted_ops (_ :: h)) with (submitted_ops h ++ [Op_write fd loc b o]).
    by rewrite omap_app, IH, fmap_app, app_assoc.
  - change (submitted_ops (_ :: h)) with (submitted_ops h ++ [Op_write fd loc b o; Op_close fd]).
    by rewrite omap_app, IH, fmap_app, app_assoc.
Qed.

Lemma writes_of_bytes size fds l ops :
  writes_of size fds l ops -> length fds = length l -> omap bytes_of ops = payload size <$> l.
Proof.
  unfold writes_of. revert fds ops. induction l as [| m l IH]; intros [| fd fds] ops H Hl; try done;
    cbn in H; [by apply Forall2_nil_inv_l in H as -> |].
  apply Forall2_cons_inv_l in H as (op & ops' & (b & ->) & H & ->). cbn. f_equal.
  apply (IH fds); [exact H | by injection Hl].
Qed.

Lemma wrote_small_bytes {PF : Platform} size l ops :
  wrote_small size l ops -> omap bytes_of ops = payload size <$> l.
Proof.
  revert ops. induction l as [| m l IH]; intros ops H; cbn in H; [by subst |].
  destruct H as (fd & b & h & tl & _ & -> & H). cbn. f_equal. by apply IH.
Qed.

#[local] Hint Resolve ro_large ro_small ro_expr ro_join ro_start ro_yield ro_next_nonce ro_open_files
  ro_close_files : ro.
#[local] Hint Extern 1 (returns_only early (ext_y ?e)) => exact (ro_ext_y e) : ro.

Ltac not_ok_go :=
  repeat match goal with
  | |- returns_only _ (start _ ≫= _) =>
      apply ro_bind; [apply ro_start; intros ?; auto with ro | intros ?; cbn beta iota zeta]
  | |- returns_only _ (if ?x then _ else _) => destruct x
  | |- returns_only _ (_ ≫= _) => apply ro_bind; [auto with ro | intros ?; cbn beta iota zeta]
  | |- returns_only _ _ => solve [auto with ro]
  end.

Section async_handlers.
Context {PF : Platform} {R : Type} (SV : serving).

(** The first calls of a handler. *)
Lemma start_placed rounds r (s : st session) :
  (forall n s, wp (rounds n) (fun _ s' => own s' = own s /\ log s' = log s) s) ->
  wpv (start rounds) (fun _ s' => placed (log s) [] ∅ [] [] s' /\ messages (log s') = messages (log s) /\
      srv (own s') = srv (own s))
    (mk_st (own s) (heap s) (Clock_now ~> r :: log s)).
Proof.
  intros Hr. eapply wp_mono; [| by apply start_empty]. cbn [own log].
  intros [[] | | |] s' H; try done. destruct (H eq_refl) as (E & Es & Q). split_and!; [| | done].
  - split; [done |]. eapply quietly_script; [exact Q |]. apply script_quiet; [constructor | done..].
  - by rewrite (quietly_messages _ _ Q), messages_cons.
Qed.

Lemma large_async_script m ms fuel (s : st session) :
  obliging (m :: ms) -> messages (log s) = [] ->
  wp (AppendOneLargeFileAsync (R := R) fuel) (fun o s' => o = Val OK ->
    exists (fd : Z) bs used h x b now, bs <> [] /\
      script (log s) [(fd, filename m)] used [filename m] (pair (filename m) <$> bs) h /\
      log s' = Stream_write x ~> b :: Clock_now ~> now :: Sys_close fd ~> 0 :: Uring_exit ~> tt :: h) s.
Proof.
  intros OB Hm. unfold AppendOneLargeFileAsync. apply wp_call_ok; [not_ok_go |].
  apply wpv_bind, (wp_ext Clock_now). intros t _.
  apply wpv_bind. eapply wpv_mono; [| apply start_placed; intros n s0; unfold int_ret; by try destruct (in_int _)].
  intros _ s1 (Hp1 & M1 & _). apply wpv_bind, (read_placed (m :: ms) OB (log s) [] ∅ [] []); [exact Hp1 |].
  intros s2 Hp2. unfold rest at 1. rewrite M1, Hm. cbn [length drop]. intros _. cbn [default].
  apply wpv_bind, (open_placed (log s) [] ∅ [] [] (filename m)); [exact Hp2 |].
  intros fd s3 H3 _. destruct (fd <? 0) eqn:Efd; bool_hyps; [apply wpv_leave |].
  apply wpv_bind. eapply wpv_mono; [| apply (large_loop_placed SV (m :: ms) OB (log s) fuel fd (filename m)
    [(fd, filename m)] (∅ ∖ {[fd]}) [filename m] []); [by left | by apply H3]].
  intros _ s4 (bs & used & Hbs & [_ Hs4]). apply wpv_bind, wpv_mild; [apply mild_join |]. intros _ s5 E5 Q5.
  unfold wpv. wp_steps. apply wp_destroy; [done |]. wp_steps. intros _. destruct r. rewrite (close_ok _ OB) in Hw0. subst r0.
  do 7 eexists. split; [exact Hbs |].
  split; [| reflexivity]. eapply quietly_script; [exact Q5 | exact Hs4].
Qed.

Lemma small_async_script m ms fuel (s : st session) :
  obliging (m :: ms) -> messages (log s) = [] ->
  wp (AppendManySmallFilesAsync (R := R) fuel) (fun o s' => o = Val OK ->
    exists bs used h x b now, length bs = length (m :: ms) /\
      script (log s) [] used (reverse (filename <$> m :: ms)) (zip (filename <$> m :: ms) bs) h /\
      log s' = Stream_write x ~> b :: Clock_now ~> now :: Uring_exit ~> tt :: h) s.
Proof.
  intros OB Hm. unfold AppendManySmallFilesAsync. apply wp_call_ok; [not_ok_go |].
  apply wpv_bind, (wp_ext Clock_now). intros t _.
  apply wpv_bind. eapply wpv_mono; [| apply start_placed; intros n s0; unfold int_ret; by try destruct (in_int _)].
  intros _ s1 (Hp1 & M1 & _). apply wpv_bind, (read_placed (m :: ms) OB (log s) [] ∅ [] []); [exact Hp1 |].
  intros s2 Hp2. unfold rest at 1. rewrite M1, Hm. cbn [length drop]. intros R2. cbn [default].
  apply wpv_bind. eapply wpv_mono; [| apply (small_loop_placed SV (m :: ms) OB (log s) fuel ∅ [] [] m s2 Hp2)].
  rewrite R2. intros _ s4 (bs & used & Hl & [_ Hs4]). rewrite app_nil_r in Hs4.
  apply wpv_bind, wpv_mild; [apply mild_join |]. intros _ s5 E5 Q5.
  unfold wpv. wp_steps. apply wp_destroy; [done |]. wp_steps. intros _. destruct r. do 6 eexists. split; [exact Hl |].
  split; [| reflexivity]. eapply quietly_script; [exact Q5 | exact Hs4].
Qed.

Context (size blk : Z) (size_ok : 0 <= size < 2 ^ 64).

Lemma large_async_contents m ms qd fuel (s : st session) k0 :
  obliging (m :: ms) -> called size blk (Z.of_nat (length (m :: ms))) qd s ->
  forallb (long_enough size) (m :: ms) = true -> (length (m :: ms) <= fuel)%nat -> at_rest (log s) k0 ->
  exists s', AppendOneLargeFileAsync (R := R) fuel s = (Val OK, s') /\
    blocks (heap s') = blocks (heap s) /\
    leaves (log s) k0 (log s') (any_order (store k0) (to_one size (filename m) (m :: ms))).
Proof.
  intros OB C Hl Hf K.
  destruct (large_async_run (R := R) size blk size_ok m ms _ qd fuel s SV OB C) as (o & s' & E & H); [lia | lia |].
  rewrite Hl, Z.leb_refl in H. destruct H as (-> & (hh & W) & _ & Hz). destruct (Hz eq_refl) as [Hk Hb]. exists s'. split; [done |].
  split; [done |]. pose proof C as [_ _ Hm _ Ho].
  destruct (wp_run _ _ s (large_async_script m ms fuel s OB Hm) _ _ E eq_refl)
    as (fd & bs & used & h & x & b & now & Hbs & Hs & El).
  rewrite El in Hk, W |- *. change (in_kernel h = []) in Hk.
  pose proof (script_bytes _ _ _ _ _ _ Hs) as B. rewrite Ho in B. cbn [app omap list_omap] in B.
  apply writes_of_bytes in W; [| apply length_replicate]. change (submitted_ops _) with (submitted_ops h) in W.
  rewrite W, <- list_fmap_compose in B. change (snd ∘ pair (filename m)) with (@id (list mbyte)) in B.
  rewrite list_fmap_id in B. subst bs. rewrite <- list_fmap_compose in Hs.
  destruct (script_settles _ k0 _ _ _ _ _ K Hs Hk) as (l & -> & H).
  apply (settled_quiet _ _ _ (Uring_exit ~> tt)), appended_close in H; [| done].
  apply (settled_quiet _ _ _ (Clock_now ~> now)), (settled_quiet _ _ _ (Stream_write x ~> b)) in H; [| done..].
  apply appended_leaves in H. eapply leaves_weaken; [exact H |]. intros fs. apply any_order_touch.
  intros p. split; [intros ->%list_elem_of_singleton; by left |].
  intros (c & -> & (y & -> & _)%list_elem_of_fmap)%list_elem_of_fmap. by left.
Qed.

Lemma small_async_contents m ms half qd fuel (s : st session) k0 :
  obliging (m :: ms) -> called size blk (Z.of_nat (length (m :: ms))) qd s ->
  sq_entries (u32 qd) = (2 * S half)%nat -> 2 * Z.of_nat (length (m :: ms)) <= INT_MAX ->
  forallb (long_enough size) (m :: ms) = true -> (2 * length (m :: ms) <= fuel)%nat -> at_rest (log s) k0 ->
  exists s', AppendManySmallFilesAsync (R := R) fuel s = (Val OK, s') /\
    blocks (heap s') = blocks (heap s) /\
    leaves (log s) k0 (log s') (any_order (store k0) (to_each size (m :: ms))).
Proof.
  intros OB C Hring Hmax Hl Hf K.
  destruct (small_async_run (R := R) size blk size_ok m ms _ qd half fuel s SV OB C Hring) as (o & s' & E & H);
    [lia | lia | lia | lia |].
  rewrite Hl, Z.leb_refl in H. destruct H as (-> & W & _ & Hz). destruct (Hz eq_refl) as [Hk Hb]. exists s'. split; [done |].
  split; [done |]. pose proof C as [_ _ Hm _ Ho].
  destruct (wp_run _ _ s (small_async_script m ms fuel s OB Hm) _ _ E eq_refl)
    as (bs & used & h & x & b & now & Hbs & Hs & El).
  rewrite El in Hk, W |- *. change (in_kernel h = []) in Hk.
  pose proof (script_bytes _ _ _ _ _ _ Hs) as B. rewrite Ho in B. cbn [app omap list_omap] in B.
  apply wrote_small_bytes in W. change (submitted_ops _) with (submitted_ops h) in W.
  rewrite W, snd_zip in B by (rewrite Hbs, length_fmap; lia). subst bs.
  assert (zip (filename <$> m :: ms) (payload size <$> m :: ms) = to_each size (m :: ms)) as Ez.
  { unfold to_each. by rewrite zip_with_fmap_l, zip_with_fmap_r, zip_with_diag. }
  rewrite Ez in Hs. destruct (script_settles _ k0 _ _ _ _ _ K Hs Hk) as (l & -> & H).
  apply (settled_quiet _ _ _ (Uring_exit ~> tt)), (settled_quiet _ _ _ (Clock_now ~> now)),
    (settled_quiet _ _ _ (Stream_write x ~> b)), appended_leaves in H; [| done..].
  eapply leaves_weaken; [exact H |]. intros fs. apply any_order_touch.
  intros p. unfold to_each. rewrite elem_of_reverse, <- list_fmap_compose. done.
Qed.

(** The calls that close the files [fds]. *)
Definition closes (fds : list Z) : history := reverse ((fun fd => Sys_close fd ~> 0) <$> fds).

Lemma closes_cons fd fds h : closes (fd :: fds) ++ h = closes fds ++ Sys_close fd ~> 0 :: h.
Proof. unfold closes. by rewrite fmap_cons, reverse_cons, <- app_assoc. Qed.

Lemma closes_ring fds h :
  in_kernel (closes fds ++ h) = in_kernel h /\ submitted_ops (closes fds ++ h) = submitted_ops h.
Proof.
  revert h. induction fds as [| fd fds IH]; intros h; [done |]. rewrite closes_cons.
  destruct (IH (Sys_close fd ~> 0 :: h)) as [-> ->]. done.
Qed.

Lemma close_files_log ms fds (s : st session) :
  obliging ms -> wp (close_files fds) (fun o s' => o = Val () /\ log s' = closes fds ++ log s) s.
Proof.
  intros OB. revert s. induction fds as [| fd fds IH]; intros s; cbn [close_files]; [by wp_steps |].
  wp_steps. rewrite (close_ok _ OB) in Hw. subst r. eapply wp_mono; [| apply IH].
  intros o s' (-> & ->). by rewrite closes_cons.
Qed.

Lemma appended_closes h0 k0 l base m0 fds chunks :
  throughout h0 k0 l (settled (appended base m0 fds chunks)) ->
  throughout h0 k0 (closes fds ++ l) (settled (appended base m0 [] chunks)).
Proof.
  revert l. induction fds as [| fd fds IH]; intros l H; [done |]. rewrite closes_cons.
  by apply IH, appended_close.
Qed.

Lemma expr_async_script ms nfiles fuel (s : st session) :
  obliging ms -> messages (log s) = [] -> fn (srv (own s)) = Some nfiles -> 0 < nfiles ->
  let nonce := dummy (srv (own s)) in
  wp (AppendOneLargeFileAsyncExpr (R := R) fuel) (fun o s' => o = Val OK ->
    exists fds bs used h x b now, length fds = Z.to_nat nfiles /\ length bs = length ms /\
      script (log s) (reverse (zip fds (expr_names nonce 0 (Z.to_nat nfiles)))) used
        (reverse (expr_names nonce 0 (Z.to_nat nfiles))) (zip (turns nonce nfiles 0 (length ms)) bs) h /\
      log s' = Stream_write x ~> b :: Clock_now ~> now :: closes fds ++ Uring_exit ~> tt :: h) s.
Proof.
  intros OB Hm Hfn Hn nonce. unfold AppendOneLargeFileAsyncExpr.
  apply wp_call_ok; [not_ok_go |].
  apply wpv_bind, (wp_ext Clock_now). intros t _.
  apply wpv_bind. eapply wpv_mono; [| by apply start_placed].
  intros _ s1 ([Hu1 Hs1] & M1 & E1). apply wpv_bind, wp_get_own. rewrite E1, Hfn. apply wpv_bind, wp_ret.
  rewrite (proj2 (Z.ltb_ge nfiles 0)) by lia.
  apply wpv_bind. unfold next_nonce. apply wpv_bind, wp_get_own, wpv_bind, wp_set_own, wp_ret. rewrite E1. fold nonce.
  set (s2 := mk_st _ _ _). assert (placed (log s) [] ∅ [] [] s2) as Hp2 by done.
  apply wpv_bind. eapply wpv_mono; [| by apply (open_files_placed (log s) nonce 0 (Z.to_nat nfiles) [] ∅ [] [])].
  intros fds s3 (Hl & M3 & used3 & Hp3). rewrite !app_nil_r in Hp3.
  apply wpv_bind. eapply wpv_mono; [| refine (expr_loop_placed SV ms OB (log s) fuel fds nonce nfiles 0
    _ used3 _ [] s3 Hn _ Hp3)].
  2: { intros j fd Hj. apply elem_of_reverse, list_elem_of_lookup. exists j.
       pose proof (lookup_lt_Some _ _ _ Hj). unfold expr_names.
       by rewrite lookup_zip_with, Hj, list_lookup_fmap, lookup_seq_lt by lia. }
  change (messages (log s2)) with (messages (log s1)) in M3.
  unfold rest. rewrite M3, M1, Hm. cbn [length drop app]. intros _ s4 (bs & used & Hb & [_ Hs4]).
  apply wpv_bind, wpv_mild; [apply mild_join |]. intros _ s5 E5 Q5.
  unfold wpv. wp_steps. eapply wp_mono; [| by apply (close_files_log ms)]. cbn [log].
  intros o s6 (-> & E6). wp_steps. apply wp_destroy; [done |]. wp_steps. rewrite E6. intros _. destruct r. do 7 eexists.
  split; [exact Hl |]. split; [exact Hb |]. split; [| reflexivity]. by eapply quietly_script.
Qed.

(** What each message appends to in turn. *)
Definition to_turns (nonce nfiles : Z) (ms : list FileRequest) : list chunk :=
  zip (turns nonce nfiles 0 (length ms)) (payload size <$> ms).

Lemma expr_async_contents ms qd nfiles fuel (s : st session) k0 :
  obliging ms -> called size blk (Z.of_nat (length ms)) qd s -> fn (srv (own s)) = Some nfiles ->
  0 < nfiles <= INT_MAX -> Z.of_nat (length ms) <= INT_MAX ->
  forallb (long_enough size) ms = true -> (length ms < fuel)%nat -> at_rest (log s) k0 ->
  let nonce := dummy (srv (own s)) in
  exists s', AppendOneLargeFileAsyncExpr (R := R) fuel s = (Val OK, s') /\
    blocks (heap s') = blocks (heap s) /\
    leaves (log s) k0 (log s')
      (any_order (touch (expr_names nonce 0 (Z.to_nat nfiles)) (store k0)) (to_turns nonce nfiles ms)).
Proof.
  intros OB C Hfn Hn Hmax Hl Hf K nonce.
  destruct (expr_async_run (R := R) size blk size_ok ms _ qd nfiles fuel s SV OB C Hfn Hn) as (o & s' & E & H);
    [lia | lia | lia |].
  rewrite Hl, Z.leb_refl in H. destruct H as (-> & (fds' & Hfds & _ & W) & _ & Hz).
  destruct (Hz eq_refl) as [Hk Hb]. exists s'. split; [done |].
  split; [done |]. pose proof C as [_ _ Hm _ Ho].
  destruct (wp_run _ _ s (expr_async_script ms nfiles fuel s OB Hm Hfn (proj1 Hn)) _ _ E eq_refl)
    as (fds & bs & used & h & x & b & now & Hlf & Hlb & Hs & El).
  rewrite El in Hk, W |- *. destruct (closes_ring fds (Uring_exit ~> tt :: h)) as [Ek Eo].
  change (in_kernel (closes fds ++ Uring_exit ~> tt :: h) = []) in Hk. rewrite Ek in Hk. change (in_kernel h = []) in Hk.
  pose proof (script_bytes _ _ _ _ _ _ Hs) as B. rewrite Ho in B. cbn [app omap list_omap] in B.
  apply writes_of_bytes in W; [| unfold robin; by rewrite length_fmap, length_seq].
  change (submitted_ops (Stream_write x ~> b :: _ :: ?l)) with (submitted_ops l) in W.
  rewrite Eo in W. change (submitted_ops (_ :: h)) with (submitted_ops h) in W.
  rewrite W, snd_zip in B by (unfold turns; rewrite length_fmap, length_seq; lia). subst bs.
  destruct (script_settles _ k0 _ _ _ _ _ K Hs Hk) as (l & -> & H).
  rewrite fmap_reverse, fst_zip in H by (unfold expr_names; rewrite length_fmap, length_seq; lia).
  apply (settled_quiet _ _ _ (Uring_exit ~> tt)) in H; [| done].
  eapply (throughout_weaken _ _ _ _ (settled (appended _ _ fds _))) in H;
    [| intros k Hs'; eapply settled_appended_perm; [exact Hs' | apply reverse_Permutation]].
  apply appended_closes, (settled_quiet _ _ _ (Clock_now ~> now)), (settled_quiet _ _ _ (Stream_write x ~> b)),
    appended_leaves in H; [| done..].
  rewrite (touch_perm _ (reverse (expr_names nonce 0 (Z.to_nat nfiles)))) by (symmetry; apply reverse_Permutation).
  cbn [app] in H. rewrite <- app_assoc in H. exact H.
Qed.
End async_handlers.

(** ** Theorems *)

(** Where the file was absent or empty, truncating it changes nothing. *)
Lemma append_truncated fs p b l :
  default [] (fs !! p) = [] -> append_chunks (<[p := []]> fs) ((p, b) :: l) = append_chunks fs ((p, b) :: l).
Proof.
  intros E. unfold append_chunks. cbn [foldl]. f_equal. unfold append_chunk. cbn.
  by rewrite lookup_insert_eq, insert_insert_eq, E.
Qed.

(** The payloads for a file are alike. *)
Definition alike (size : Z) (key : FileRequest -> string) (ms : list FileRequest) : Prop :=
  forall m m', m ∈ ms -> m' ∈ ms -> key m = key m' -> payload size m = payload size m'.

Lemma alike_uniform size key ms :
  alike size key ms -> uniform ((fun m => (key m, payload size m)) <$> ms).
Proof.
  intros H c c' (m & -> & Hm)%list_elem_of_fmap (m' & -> & Hm')%list_elem_of_fmap. by apply H.
Qed.

Section theorems.
Context {PF : Platform} {R : Type} (size blk : Z).

(** C5: [AppendOneLargeFileAsync] implements appending to one file: on a ring that
    serves, with a client that sends [ms] and a parameter [n] that is their
    number, it returns OK, and whatever the interleaving of its two threads and
    whenever and in whatever order the kernel executes what was submitted, the
    file the first message names then has the payloads of all messages appended,
    in some order; every other file is as it was, nothing is pending, no
    descriptor is left open and every buffer is freed. *)
Theorem AppendOneLargeFileAsync_appends m ms qd fuel (s : st session) k0 :
  0 <= size < 2 ^ 64 -> serving -> obliging (m :: ms) ->
  called size blk (Z.of_nat (length (m :: ms))) qd s ->
  forallb (long_enough size) (m :: ms) = true -> (length (m :: ms) <= fuel)%nat -> at_rest (log s) k0 ->
  exists s', AppendOneLargeFileAsync (R := R) fuel s = (Val OK, s') /\
    blocks (heap s') = blocks (heap s) /\
    leaves (log s) k0 (log s') (any_order (store k0) (to_one size (filename m) (m :: ms))).
Proof. intros H1 H2. by apply large_async_contents. Qed.

(** C4: [AppendManySmallFilesAsync] implements appending to many files: under the
    same conditions and on a ring of even size it returns OK, and each message's
    payload is then at the end of the file it names, although its descriptor is
    closed by an operation that was submitted with the write: the link between
    the two is what keeps the kernel from closing the file first. *)
Theorem AppendManySmallFilesAsync_appends m ms half qd fuel (s : st session) k0 :
  0 <= size < 2 ^ 64 -> serving -> obliging (m :: ms) ->
  called size blk (Z.of_nat (length (m :: ms))) qd s ->
  sq_entries (u32 qd) = (2 * S half)%nat -> 2 * Z.of_nat (length (m :: ms)) <= INT_MAX ->
  forallb (long_enough size) (m :: ms) = true -> (2 * length (m :: ms) <= fuel)%nat -> at_rest (log s) k0 ->
  exists s', AppendManySmallFilesAsync (R := R) fuel s = (Val OK, s') /\
    blocks (heap s') = blocks (heap s) /\
    leaves (log s) k0 (log s') (any_order (store k0) (to_each size (m :: ms))).
Proof. intros H1 H2. by apply small_async_contents. Qed.


(** C38: [AppendOneLargeFileAsyncExpr] implements appending to [nfiles] files in
    turn: with a parameter [n] that is the number of messages it returns OK, the
    files of its number exist, and message [j] is in the file with the index
    [j mod nfiles], in some order within a file; all of them are closed and every
    other file is as it was. *)
Theorem AppendOneLargeFileAsyncExpr_appends ms qd nfiles fuel (s : st session) k0 :
  0 <= size < 2 ^ 64 -> serving -> obliging ms -> called size blk (Z.of_nat (length ms)) qd s ->
  fn (srv (own s)) = Some nfiles -> 0 < nfiles <= INT_MAX -> Z.of_nat (length ms) <= INT_MAX ->
  forallb (long_enough size) ms = true -> (length ms < fuel)%nat -> at_rest (log s) k0 ->
  let nonce := dummy (srv (own s)) in
  exists s', AppendOneLargeFileAsyncExpr (R := R) fuel s = (Val OK, s') /\
    blocks (heap s') = blocks (heap s) /\
    leaves (log s) k0 (log s')
      (any_order (touch (expr_names nonce 0 (Z.to_nat nfiles)) (store k0)) (to_turns size nonce nfiles ms)).
Proof. intros H1 H2. by apply expr_async_contents. Qed.
End theorems.

Section agree.
Context {R : Type} (size blk : Z).

(** C6: The two handlers for one large file are equivalent for a file that is absent
    or empty and a client whose messages are alike: the blocking one, which
    truncates the file and writes in order, and the io_uring one, which does
    neither, leave the same files. *)
Theorem large_handlers_agree (A B : Platform) m ms qd fuel (s1 : st GRPCFileServerSync) (s2 : st session)
    k1 k2 :
  0 <= size <= INT_MAX -> obliging (PF := A) (m :: ms) -> obliging (PF := B) (m :: ms) -> serving (PF := B) ->
  configured size blk s1 -> messages (log s1) = [] ->
  called size blk (Z.of_nat (length (m :: ms))) qd s2 ->
  forallb (long_enough size) (m :: ms) = true -> (length (m :: ms) <= fuel)%nat ->
  alike size (fun _ => filename m) (m :: ms) ->
  pending k1 = [] -> at_rest (log s2) k2 -> store k1 = store k2 ->
  default [] (store k1 !! filename m) = [] ->
  exists s1' s2' fs,
    AppendOneLargeFile (PF := A) (R := R) fuel s1 = (Val OK, s1') /\
    AppendOneLargeFileAsync (PF := B) (R := R) fuel s2 = (Val OK, s2') /\
    leaves (log s1) k1 (log s1') (eq fs) /\ leaves (log s2) k2 (log s2') (eq fs).
Proof.
  intros Hsz OA OB SV C1 Hm C2 Hl Hf U P K E He.
  destruct (large_sync_contents (PF := A) (R := R) size blk Hsz m ms fuel s1 k1 OA C1 Hm Hl Hf P) as (s1' & E1 & L1).
  destruct (large_async_contents (R := R) (PF := B) SV size blk ltac:(unfold INT_MAX in Hsz; lia) m ms qd
    fuel s2 k2 OB C2 Hl Hf K) as (s2' & E2 & _ & L2).
  exists s1', s2', (append_chunks (store k2) (to_one size (filename m) (m :: ms))).
  split; [done |]. split; [done |]. split.
  - cbn [to_one fmap list_fmap] in L1. rewrite append_truncated in L1 by done. by rewrite <- E.
  - eapply leaves_weaken; [exact L2 |]. intros fs Hfs. symmetry. apply any_order_uniform; [| done].
    by apply alike_uniform.
Qed.

(** C7: So are the two handlers for small files, for any files and any client whose
    messages for the same file are alike. *)
Theorem small_handlers_agree (A B : Platform) m ms half qd fuel (s1 : st GRPCFileServerSync)
    (s2 : st session) k1 k2 :
  0 <= size <= INT_MAX -> obliging (PF := A) (m :: ms) -> obliging (PF := B) (m :: ms) -> serving (PF := B) ->
  configured size blk s1 -> messages (log s1) = [] ->
  called size blk (Z.of_nat (length (m :: ms))) qd s2 ->
  sq_entries (u32 qd) = (2 * S half)%nat -> 2 * Z.of_nat (length (m :: ms)) <= INT_MAX ->
  forallb (long_enough size) (m :: ms) = true -> (2 * length (m :: ms) <= fuel)%nat ->
  alike size filename (m :: ms) -> pending k1 = [] -> at_rest (log s2) k2 -> store k1 = store k2 ->
  exists s1' s2' fs,
    AppendManySmallFiles (PF := A) (R := R) fuel s1 = (Val OK, s1') /\
    AppendManySmallFilesAsync (PF := B) (R := R) fuel s2 = (Val OK, s2') /\
    leaves (log s1) k1 (log s1') (eq fs) /\ leaves (log s2) k2 (log s2') (eq fs).
Proof.
  intros Hsz OA OB SV C1 Hm C2 Hring Hmax Hl Hf U P K E.
  destruct (small_sync_contents (PF := A) (R := R) size blk Hsz (m :: ms) fuel s1 k1 OA C1 Hm Hl ltac:(cbn in *; lia) P)
    as (s1' & E1 & L1).
  destruct (small_async_contents (R := R) (PF := B) SV size blk ltac:(unfold INT_MAX in Hsz; lia) m ms half qd
    fuel s2 k2 OB C2 Hring Hmax Hl Hf K) as (s2' & E2 & _ & L2).
  exists s1', s2', (append_chunks (store k2) (to_each size (m :: ms))).
  split; [done |]. split; [done |]. split; [by rewrite <- E |].
  eapply leaves_weaken; [exact L2 |]. intros fs Hfs. symmetry. apply any_order_uniform; [| done].
  by apply alike_uniform.
Qed.
End agree.

(** ** Instances *)

(** No files, no descriptors, nothing submitted. *)
Definition new_kernel : kernel := mk_kernel ∅ ∅ [] [].

Lemma new_kernel_at_rest : at_rest [] new_kernel.
Proof. done. Qed.

(** The environment of [async_env], with a completion thread that waits for the
    handler. *)
Definition patient_env (ms : list FileRequest) : Platform :=
  let p := async_env ms in {|
    world := @world p;
    nlb_width := @nlb_width p;
    NVME_DEFAULT_IOCTL_TIMEOUT := @NVME_DEFAULT_IOCTL_TIMEOUT p;
    ENVME_CONNECT_RESOLVE := @ENVME_CONNECT_RESOLVE p;
    nvme_errno_to_string := @nvme_errno_to_string p;
    std_strerror := @std_strerror p;
    EINTR := @EINTR p;
    schedule := fun _ => 0%nat;
    sq_entries := @sq_entries p;
    prep_clears := @prep_clears p;
    empty_literal := @empty_literal p;
  |}.

(** A final state that is computed. *)
Lemma ran_to {S R A} (m : M S R A) s o s' (P : S -> Prop) :
  m s = (o, s') -> P (snd (m s)) -> P s'.
Proof. intros E. by rewrite E. Qed.

(** The order of the messages can be lost: there is a run of
    [AppendOneLargeFileAsync] that returns OK and a kernel that serves it after
    which the second message's bytes precede the first's. *)
Theorem large_async_may_reorder :
  exists s' k,
    AppendOneLargeFileAsync (PF := patient_env two_messages) (R := Empty_set) 9 two_called_state = (Val OK, s') /\
    served [] new_kernel (log s') k /\
    store k !! "/mnt/a" = Some (Some <$> [x65; x66; x67; x68; x61; x62; x63; x64]).
Proof.
  set (run := AppendOneLargeFileAsync (PF := patient_env two_messages) (R := Empty_set) 9 two_called_state).
  assert (fst run = Val OK) as E by (vm_compute; reflexivity).
  assert (exists k, replay true [] (log (snd run)) new_kernel = Some k /\
    store k !! "/mnt/a" = Some (Some <$> [x65; x66; x67; x68; x61; x62; x63; x64])) as (k & Hk & Hf)
    by (eexists; split; vm_compute; reflexivity).
  exists (snd run), k. split; [rewrite <- E; apply surjective_pairing |].
  split; [exact (replay_served true [] _ _ k Hk) | exact Hf].
Qed.

Lemma AppendOneLargeFileAsync_appends_witness :
  exists s' k,
    AppendOneLargeFileAsync (PF := async_env two_messages) (R := Empty_set) 9 two_called_state = (Val OK, s') /\
    leaves [] new_kernel (log s') (any_order ∅ (to_one 4 "/mnt/a" two_messages)) /\
    served [] new_kernel (log s') k /\
    store k !! "/mnt/a" = Some (Some <$> [x61; x62; x63; x64; x65; x66; x67; x68]).
Proof.
  destruct (AppendOneLargeFileAsync_appends (PF := async_env two_messages) (R := Empty_set) 4 512
    {| filename := "/mnt/a"; fr_data := [x61; x62; x63; x64] |}
    [{| filename := "/mnt/b"; fr_data := [x65; x66; x67; x68] |}] 8 9 two_called_state new_kernel
    ltac:(clear; done) (async_env_serving _) (async_env_obliging _) two_called eq_refl ltac:(cbn; lia)
    new_kernel_at_rest) as (s' & E & _ & H).
  assert (exists k, replay false [] (log s') new_kernel = Some k /\
    store k !! "/mnt/a" = Some (Some <$> [x61; x62; x63; x64; x65; x66; x67; x68])) as (k & Hk & Hf)
    by (revert H; apply (ran_to _ _ _ _ (fun s' => _ -> exists k, replay false [] (log s') new_kernel = Some k /\ _) E);
        intros _; eexists; split; vm_compute; reflexivity).
  exists s', k. split; [exact E |]. split; [exact H |]. split; [exact (replay_served false [] _ _ k Hk) | exact Hf].
Defined.

Lemma AppendManySmallFilesAsync_appends_witness :
  exists s' k,
    AppendManySmallFilesAsync (PF := async_env two_messages) (R := Empty_set) 9 two_called_state = (Val OK, s') /\
    leaves [] new_kernel (log s') (any_order ∅ (to_each 4 two_messages)) /\
    served [] new_kernel (log s') k /\ paths k = ∅ /\
    store k !! "/mnt/b" = Some (Some <$> [x65; x66; x67; x68]).
Proof.
  destruct (AppendManySmallFilesAsync_appends (PF := async_env two_messages) (R := Empty_set) 4 512
    {| filename := "/mnt/a"; fr_data := [x61; x62; x63; x64] |}
    [{| filename := "/mnt/b"; fr_data := [x65; x66; x67; x68] |}] 3 8 9 two_called_state new_kernel
    ltac:(clear; done) (async_env_serving _) (async_env_obliging _) two_called eq_refl ltac:(clear; done) eq_refl
    ltac:(cbn; lia) new_kernel_at_rest) as (s' & E & _ & H).
  assert (exists k, replay false [] (log s') new_kernel = Some k /\ paths k = ∅ /\
    store k !! "/mnt/b" = Some (Some <$> [x65; x66; x67; x68])) as (k & Hk & Hp & Hf)
    by (revert H; apply (ran_to _ _ _ _ (fun s' => _ -> exists k, replay false [] (log s') new_kernel = Some k /\ _ /\ _) E);
        intros _; eexists; split; [| split]; vm_compute; reflexivity).
  exists s', k. split; [exact E |]. split; [exact H |]. split; [exact (replay_served false [] _ _ k Hk) |].
  split; [exact Hp | exact Hf].
Defined.

(** [async_env] with a new descriptor for every file. *)
Definition fresh_world (ms : list FileRequest) (h : history) (e : ev) : reply e :=
  match e with
  | Sys_open _ _ => 7 + Z.of_nat (length (file_calls h))
  | e => async_world ms h e
  end.

Definition fresh_env (ms : list FileRequest) : Platform :=
  let p := async_env ms in {|
    world := fresh_world ms;
    nlb_width := @nlb_width p;
    NVME_DEFAULT_IOCTL_TIMEOUT := @NVME_DEFAULT_IOCTL_TIMEOUT p;
    ENVME_CONNECT_RESOLVE := @ENVME_CONNECT_RESOLVE p;
    nvme_errno_to_string := @nvme_errno_to_string p;
    std_strerror := @std_strerror p;
    EINTR := @EINTR p;
    schedule := @schedule p;
    sq_entries := @sq_entries p;
    prep_clears := @prep_clears p;
    empty_literal := @empty_literal p;
  |}.

Lemma fresh_env_obliging ms : obliging (PF := fresh_env ms) ms.
Proof. split; try done. intros h p f. cbn. lia. Qed.

Lemma fresh_env_serving ms : serving (PF := fresh_env ms).
Proof. split; try done. apply (wait_one (PF := async_env ms)), async_env_serving. Qed.

Lemma AppendOneLargeFileAsyncExpr_appends_witness :
  exists s' k,
    AppendOneLargeFileAsyncExpr (PF := fresh_env two_messages) (R := Empty_set) 9 two_called_state = (Val OK, s') /\
    leaves [] new_kernel (log s')
      (any_order (touch [expr_name 0 0; expr_name 0 1] ∅) (to_turns 4 0 2 two_messages)) /\
    served [] new_kernel (log s') k /\ paths k = ∅ /\
    store k !! "/mnt/large-file-0-1" = Some (Some <$> [x65; x66; x67; x68]).
Proof.
  destruct (AppendOneLargeFileAsyncExpr_appends (PF := fresh_env two_messages) (R := Empty_set) 4 512
    two_messages 8 2 9 two_called_state new_kernel ltac:(clear; done) (fresh_env_serving _)
    (fresh_env_obliging _) two_called eq_refl ltac:(clear; done) ltac:(clear; done) eq_refl ltac:(cbn; lia)
    new_kernel_at_rest) as (s' & E & _ & H).
  assert (exists k, replay false [] (log s') new_kernel = Some k /\ paths k = ∅ /\
    store k !! "/mnt/large-file-0-1" = Some (Some <$> [x65; x66; x67; x68])) as (k & Hk & Hp & Hf)
    by (revert H; apply (ran_to _ _ _ _ (fun s' => _ -> exists k, replay false [] (log s') new_kernel = Some k /\ _ /\ _) E);
        intros _; eexists; split; [| split]; vm_compute; reflexivity).
  exists s', k. split; [exact E |]. split; [exact H |]. split; [exact (replay_served false [] _ _ k Hk) |].
  split; [exact Hp | exact Hf].
Defined.

(** Two messages that are alike. *)
Definition alike_messages : list FileRequest :=
  [{| filename := "/mnt/a"; fr_data := [x61; x62; x63; x64] |};
   {| filename := "/mnt/a"; fr_data := [x61; x62; x63; x64] |}].

Lemma alike_messages_alike key : alike 4 key alike_messages.
Proof. unfold alike, alike_messages. set_solver. Qed.

Lemma large_handlers_agree_witness :
  exists s1 s2 fs,
    AppendOneLargeFile (PF := file_env alike_messages) (R := Empty_set) 9 set_up_state = (Val OK, s1) /\
    AppendOneLargeFileAsync (PF := async_env alike_messages) (R := Empty_set) 9 two_called_state = (Val OK, s2) /\
    leaves [] new_kernel (log s1) (eq fs) /\ leaves [] new_kernel (log s2) (eq fs).
Proof.
  exact (large_handlers_agree (R := Empty_set) 4 512 (file_env alike_messages)
    (async_env alike_messages) {| filename := "/mnt/a"; fr_data := [x61; x62; x63; x64] |}
    [{| filename := "/mnt/a"; fr_data := [x61; x62; x63; x64] |}] 8 9 set_up_state two_called_state
    new_kernel new_kernel ltac:(clear; done) (file_env_obliging _) (async_env_obliging _) (async_env_serving _)
    set_up_configured eq_refl two_called eq_refl ltac:(cbn; lia) (alike_messages_alike _) eq_refl
    new_kernel_at_rest eq_refl eq_refl).
Defined.

Lemma small_handlers_agree_witness :
  exists s1 s2 fs,
    AppendManySmallFiles (PF := file_env alike_messages) (R := Empty_set) 9 set_up_state = (Val OK, s1) /\
    AppendManySmallFilesAsync (PF := async_env alike_messages) (R := Empty_set) 9 two_called_state = (Val OK, s2) /\
    leaves [] new_kernel (log s1) (eq fs) /\ leaves [] new_kernel (log s2) (eq fs).
Proof.
  exact (small_handlers_agree (R := Empty_set) 4 512 (file_env alike_messages)
    (async_env alike_messages) {| filename := "/mnt/a"; fr_data := [x61; x62; x63; x64] |}
    [{| filename := "/mnt/a"; fr_data := [x61; x62; x63; x64] |}] 3 8 9 set_up_state two_called_state
    new_kernel new_kernel ltac:(clear; done) (file_env_obliging _) (async_env_obliging _) (async_env_serving _)
    set_up_configured eq_refl two_called eq_refl ltac:(clear; done) eq_refl ltac:(cbn; lia)
    (alike_messages_alike _) eq_refl new_kernel_at_rest eq_refl).
Defined.
