(* ===== verification/FileClient.v ===== *)
(** * The file client (src/src/file_initiator.cc)

    Each test opens a stream to one handler of the file server and sends [N]
    messages that carry the same buffer.  The options are the program's globals.
    The buffer is handed to protobuf as a C string although nothing ends it, so
    every test reads past its end before it has sent a message.  What the tests
    are meant to send is [workload]; the theorems on the server's files start
    from it. *)

From S2P Require Import Prelude Proto Env Args FileServer FileServerAsync FileStore.
From S2P Require Import FileScript FileContents.

Record client_options := mk_client {
  server_addr : string;
  server_port : Z;
  buffer_size : Z;       (* size_t *)
  blk_size : Z;          (* size_t *)
  N : Z;
  queue_depth : Z;
  idle_threshold : Z;
  large : bool;
  poll : bool;
  closed_loop : bool;
  test_read : bool;
  exprm : string;
  fn : Z;
  numthreads : Z;
}.

Section FileClient.
Context {PF : Platform} (g : client_options).

(** The message [set_target_params] sends: it does not set [nfiles]. *)
Definition target_params : Parameters := {|
  p_blk_size := i32 (blk_size g); p_buffer_size := i32 (buffer_size g);
  p_queue_depth := queue_depth g; p_poll_threshold := idle_threshold g;
  p_n := N g; p_nfiles := 0 |}.

Definition set_target_params {R} : M (st ()) R () :=
  _ ← ext (Stub_set_parameters target_params);     (* a failure is only reported *)
  mret ().

Definition build_rpc_stub {R} : M (st ()) R string :=
  mret (server_addr g +:+ ":" +:+ pretty (server_port g))%string.

(** [new char[buffer_size]] and [memset(buffer, -1, buffer_size)]. *)
Definition make_buffer {R} : M (st ()) R loc :=
  l ← new_array (buffer_size g);
  with_heap (heap_store l (replicate (Z.to_nat (buffer_size g)) (Some xff)));;
  mret l.

(** The bytes of a C string up to a zero, if there is one in the block. *)
Fixpoint until_zero (b : list mbyte) : option (list byte * bool) :=
  match b with
  | [] => Some ([], false)
  | None :: _ => None
  | Some x00 :: _ => Some ([], true)
  | Some c :: b =>
      match until_zero b with Some (s, z) => Some (c :: s, z) | None => None end
  end.

(** [request.set_data(buffer)], the overload for [const char *]: a string that
    does not end in the block is read on behind it. *)
Definition c_string {R} (p : loc) : M (st ()) R (list byte) :=
  '(_, b) ← block_at (Some p);
  match until_zero b with
  | None => stop_ UB_uninit
  | Some (s, true) => mret s
  | Some (s, false) => stop_ UB_oob
  end.

(** The [for] loop: message [i] is named [name i]; [reply_each] tells whether
    an answer is read after each. *)
Fixpoint send_messages {R} (todo : nat) (i : nat) (name : nat -> string) (data : list byte)
    (reply_each : bool) : M (st ()) R () :=
  match todo with
  | O => mret ()
  | S todo =>
      _ ← ext (Client_write {| filename := name i; fr_data := data |});
      when reply_each (_ ← ext Client_read; mret ());;
      send_messages todo (S i) name data reply_each
  end.

(** From the stream to its end; [false] where [Finish] failed, and then the
    buffer is not freed. *)
Definition stream_body {R} (method : string) (name : nat -> string) (reply_each : bool)
  : M (st ()) R bool :=
  ext (Stub_open_stream method);;
  buffer ← make_buffer;
  data ← c_string buffer;
  _ ← ext Clock_now;
  send_messages (Z.to_nat (N g)) 0 name data reply_each;;
  ext Client_writes_done;;
  when (negb reply_each) (_ ← ext Client_read; mret ());;
  ok ← ext Client_finish;
  if negb (ok : bool) then mret false
  else
    _ ← ext Clock_now;
    release (Some buffer);;
    mret true.

Definition large_name (i : nat) : string := "/mnt/large-file".

Definition test_large_blocking {R} : M (st ()) R () :=
  _ ← build_rpc_stub;
  set_target_params;;
  _ ← stream_body "AppendOneLargeFile" large_name true;
  mret ().

Definition test_small_blocking {R} : M (st ()) R () :=
  _ ← build_rpc_stub;
  set_target_params;;
  _ ← stream_body "AppendManySmallFiles"
        (fun i => "/mnt/small-file-" +:+ pretty (Z.of_nat i))%string true;
  mret ().

Definition small_name (i : nat) : string := "/mnt/small-file" +:+ pretty (Z.of_nat i).

Definition test_small_async {R} : M (st ()) R () :=
  _ ← build_rpc_stub;
  set_target_params;;
  _ ← stream_body "AppendManySmallFilesAsync"
        small_name false;
  mret ().

Definition test_large_async {R} : M (st ()) R () :=
  _ ← build_rpc_stub;
  set_target_params;;
  _ ← stream_body "AppendOneLargeFileAsync" large_name false;
  mret ().

(** The parameters of the experiments; the second leaves [poll_threshold]
    out. *)
Definition expr_params (threshold : Z) : Parameters := {|
  p_blk_size := i32 (blk_size g); p_buffer_size := i32 (buffer_size g);
  p_queue_depth := queue_depth g; p_poll_threshold := threshold;
  p_n := N g; p_nfiles := fn g |}.

(** The requests of the experiments have no file name. *)
Definition no_name (i : nat) : string := "".

Definition test_large_async_expr {R} : M (st ()) R () :=
  _ ← build_rpc_stub;
  ok ← ext (Stub_set_parameters (expr_params (idle_threshold g)));
  if negb (ok : bool) then mret ()
  else
    _ ← stream_body "AppendOneLargeFileAsyncExpr" no_name false;
    mret ().

(** The threads, each with a stream of its own; they share nothing else and
    are run in the order in which they are joined. *)
Fixpoint run_threads {R} (todo : nat) : M (st ()) R () :=
  match todo with
  | O => mret ()
  | S todo => _ ← stream_body "AppendOneLargeFileAsyncExpr" no_name false; run_threads todo
  end.

Definition test_large_async_multithreads {R} : M (st ()) R () :=
  _ ← build_rpc_stub;
  ok ← ext (Stub_set_parameters (expr_params 0));
  if negb (ok : bool) then mret ()
  else
    _ ← ext Clock_now;
    if numthreads g <? 0 then stop_ UB_oob           (* std::thread threads[numthreads] *)
    else
      run_threads (Z.to_nat (numthreads g));;
      _ ← ext Clock_now;
      _ ← int_ret (numthreads g * N g);               (* printed *)
      mret ().

Definition test_small_async_multithreads {R} : M (st ()) R () := mret ().

(** [main] after [parse_args]. *)
Definition run_tests {R} : M (st ()) R Z :=
  (if negb (bool_decide (exprm g = ""%string)) then
     if bool_decide (exprm g = "ml"%string) then test_large_async_expr
     else if bool_decide (exprm g = "mt"%string) then
       if large g then test_large_async_multithreads else test_small_async_multithreads
     else mret ()
   else if closed_loop g then
     if large g then test_large_blocking else test_small_blocking
   else
     if large g then test_large_async else test_small_async);;
  mret 0.
End FileClient.

(** The command line: what it gives for each option. *)
Record client_arguments := mk_client_arguments {
  c_d : option Z; c_b : option Z; c_bs : option Z; c_n : option Z; c_t : option Z;
  c_l : bool; c_p : bool; c_c : bool; c_r : bool;
  c_addr : option string; c_port : option Z; c_exp : option string; c_fn : option Z;
  c_threads : option Z;
}.

(** [None]: an exception leaves [parse_args].  The default of [-exp] is a
    character literal and that of [-threads] the [unsigned] that
    [hardware_concurrency] returns. *)
Definition parse_args (hardware_concurrency : Z) (a : client_arguments) : option client_options :=
  d ← get_int (int_option (c_d a) (Any_int 128));
  b ← get_int (int_option (c_b a) (Any_int 4096));
  bs ← get_int (int_option (c_bs a) (Any_int 4096));
  n ← get_int (int_option (c_n a) (Any_int 10000));
  t ← get_int (int_option (c_t a) (Any_int 2000));
  l ← get_bool (flag_option (c_l a));
  p ← get_bool (flag_option (c_p a));
  c ← get_bool (flag_option (c_c a));
  r ← get_bool (flag_option (c_r a));
  addr ← get_string (text_option (c_addr a) (Any_string "10.10.1.2"));
  port ← get_int (int_option (c_port a) (Any_int 9876));
  e ← get_string (text_option (c_exp a) (Any_chars ""));
  nfiles ← get_int (int_option (c_fn a) (Any_int 1));
  threads ← get_int (int_option (c_threads a) (Any_unsigned hardware_concurrency));
  Some (mk_client addr port (u64 b) (u64 bs) n d t l p c r e nfiles threads).

(** [main]: the exception of [parse_args] is caught nowhere. *)
Definition main {PF : Platform} {R} (hardware_concurrency : Z) (argv : client_arguments)
  : M (st ()) R Z :=
  match parse_args hardware_concurrency argv with
  | None => stop_ Std_terminate
  | Some g => run_tests g
  end.

(** ** What the client sent *)

Definition sent_message (e : entry) : option FileRequest :=
  match e with existT (Client_write m) _ => Some m | _ => None end.
(** The messages, newest first. *)
Definition sent_messages (h : history) : list FileRequest := omap sent_message h.

Definition sent_param (e : entry) : option Parameters :=
  match e with existT (Stub_set_parameters p) _ => Some p | _ => None end.
Definition sent_params (h : history) : list Parameters := omap sent_param h.

Lemma until_zero_ff n : until_zero (replicate n (Some xff)) = Some (replicate n xff, false).
Proof. induction n as [| n IH]; [done |]. cbn. by rewrite IH. Qed.

Section client_proofs.
Context {PF : Platform} (g : client_options) {R : Type}.
Hypothesis size_ok : 0 <= buffer_size g.
Hypothesis alloc : forall h, world h (Alloc None (buffer_size g)) = 0.

Lemma wp_make_buffer (Q : outcome R loc -> st () -> Prop) (s : st ()) :
  Q (Val (next_loc (heap s))) (mk_st (own s)
    (heap_filled (replicate (Z.to_nat (buffer_size g)) (Some xff)) (heap s))
    (Alloc None (buffer_size g) ~> 0 :: log s)) ->
  wp (make_buffer g) Q s.
Proof.
  intros H. unfold make_buffer, new_array. rewrite (proj2 (Z.ltb_ge _ 0)) by done.
  wp_steps. rewrite alloc in Hw. subst r. cbn [Z.eqb]. wp_steps.
  unfold heap_store, heap_filled in *. cbn in *. by rewrite insert_insert_eq.
Qed.

Lemma wp_c_string (Q : outcome R (list byte) -> st () -> Prop) (s : st ()) l :
  blocks (heap s) !! l = Some (replicate (Z.to_nat (buffer_size g)) (Some xff)) ->
  Q (Stop UB_oob) s -> wp (c_string l) Q s.
Proof.
  intros Hb H. unfold c_string. apply wp_bind. eapply wp_block_at; [exact Hb |]. cbn beta iota.
  by rewrite until_zero_ff.
Qed.

(** A stream is opened, its buffer filled, and then read past its end. *)
Lemma stream_body_undefined method name each (s : st ()) :
  wp (stream_body (R := R) g method name each) (fun o s' => o = Stop UB_oob /\
    log s' = Alloc None (buffer_size g) ~> 0 :: Stub_open_stream method ~> tt :: log s /\
    blocks (heap s') = <[next_loc (heap s) := replicate (Z.to_nat (buffer_size g)) (Some xff)]> (blocks (heap s))) s.
Proof.
  unfold stream_body. apply wp_bind, (wp_ext (Stub_open_stream _)). intros [] _. cbn beta iota.
  apply wp_bind, wp_make_buffer. cbn [own heap log].
  by apply wp_bind, wp_c_string; [apply lookup_insert_eq |].
Qed.
End client_proofs.

(** ** Theorems *)

Section theorems.
Context {PF : Platform} (g : client_options) {R : Type}.
Hypothesis size_ok : 0 <= buffer_size g.
Hypothesis alloc : forall h, world h (Alloc None (buffer_size g)) = 0.

(** The handler a test without an experiment calls. *)
Definition method_of : string :=
  if closed_loop g then if large g then "AppendOneLargeFile" else "AppendManySmallFiles"
  else if large g then "AppendOneLargeFileAsync" else "AppendManySmallFilesAsync".

End theorems.

(** The client program starts its tests only when both [-exp] and [-threads]
    are on the command line: their defaults are stored under other types than
    [parse_args] asks for, and the exception ends the process before anything
    is sent.  The other options have the defaults their help text names. *)
Theorem client_needs_exp_and_threads {PF : Platform} {R} hc (a : client_arguments) (s : st ()) :
  main (R := R) hc a s =
    match c_exp a, c_threads a with
    | Some e, Some threads =>
        run_tests (mk_client (default "10.10.1.2"%string (c_addr a)) (default 9876 (c_port a))
          (u64 (default 4096 (c_b a))) (u64 (default 4096 (c_bs a))) (default 10000 (c_n a))
          (default 128 (c_d a)) (default 2000 (c_t a)) (c_l a) (c_p a) (c_c a) (c_r a) e
          (default 1 (c_fn a)) threads) s
    | _, _ => (Stop Std_terminate, s)
    end.
Proof.
  unfold main, parse_args. autorewrite with args. cbn [mbind option_bind].
  by destruct (c_exp a), (c_threads a).
Qed.

(** ** The server under the client's workload *)

(** What a test of the client is meant to send: [N] messages with the names of
    the test, each of which begins with [buffer_size] bytes 255. *)
Record workload (g : client_options) (name : nat -> string) (ms : list FileRequest) : Prop := {
  wl_number : Z.of_nat (length ms) = N g;
  wl_message : forall i m, ms !! i = Some m -> filename m = name i /\
    exists tl, fr_data m = replicate (Z.to_nat (buffer_size g)) xff ++ tl;
}.

(** The bytes a server stores for such a message. *)
Definition filled (size : Z) : list mbyte := replicate (Z.to_nat size) (Some xff).

Lemma payload_workload size m tl :
  fr_data m = replicate (Z.to_nat size) xff ++ tl -> payload size m = filled size.
Proof.
  intros E. unfold payload, c_str, filled. rewrite E, fmap_app, fmap_replicate, <- app_assoc, take_app_length'.
  - done.
  - by rewrite length_replicate.
Qed.

Section workload.
Context (g : client_options) (name : nat -> string) (ms : list FileRequest) (WL : workload g name ms).

Lemma workload_long_enough : forallb (long_enough (buffer_size g)) ms = true.
Proof.
  apply forallb_forall. intros m Hm. apply list_elem_of_In, list_elem_of_lookup in Hm as [i Hi].
  destruct (wl_message _ _ _ WL _ _ Hi) as [_ [tl E]]. unfold long_enough. rewrite E, length_app, length_replicate.
  apply Z.leb_le. lia.
Qed.

Lemma workload_payload i m : ms !! i = Some m -> payload (buffer_size g) m = filled (buffer_size g).
Proof. intros Hi. destruct (wl_message _ _ _ WL _ _ Hi) as [_ [tl E]]. by eapply payload_workload. Qed.

Lemma to_each_workload :
  to_each (buffer_size g) ms = (fun i => (name i, filled (buffer_size g))) <$> seq 0 (length ms).
Proof.
  unfold to_each. apply list_eq. intros i. rewrite !list_lookup_fmap.
  destruct (ms !! i) as [m |] eqn:E.
  - rewrite lookup_seq_lt by (by eapply lookup_lt_Some). cbn. rewrite (workload_payload i m E).
    by rewrite (proj1 (wl_message _ _ _ WL _ _ E)).
  - rewrite lookup_seq_ge; [done | by apply lookup_ge_None].
Qed.

Lemma to_one_workload p :
  to_one (buffer_size g) p ms = replicate (length ms) (p, filled (buffer_size g)).
Proof.
  unfold to_one. apply list_eq. intros i. rewrite list_lookup_fmap. destruct (ms !! i) as [m |] eqn:E.
  - rewrite lookup_replicate_2 by (by eapply lookup_lt_Some). cbn. by rewrite (workload_payload i m E).
  - symmetry. apply lookup_ge_None. rewrite length_replicate. by apply lookup_ge_None.
Qed.
End workload.

Lemma concat_filled n size : 0 <= size -> concat (replicate n (filled size)) = filled (Z.of_nat n * size).
Proof.
  intros H. induction n as [| n IH]; [done |]. cbn [replicate concat]. rewrite IH. unfold filled.
  rewrite <- replicate_add. f_equal. lia.
Qed.

Lemma small_names_distinct n : NoDup (small_name <$> seq 0 n).
Proof.
  apply NoDup_fmap_2; [| apply NoDup_seq]. intros i j E. apply string_app_cancel in E.
  apply pretty_Z_inj in E. lia.
Qed.

(** A handler's call on a server whose last [SetParameters] was [p]'s. *)
Record parameterised_call {PF : Platform} (p : Parameters) (s : st session) (k0 : kernel) : Prop := {
  pc_set : exists g0 h h', SetParameters (R := Empty_set) p (mk_st g0 (heap s) h) =
     (Val OK, mk_st (srv (own s)) (heap s) h');
  pc_own : own s = session_of (srv (own s));
  pc_heap : heap_wf (heap s);
  pc_messages : messages (log s) = [];
  pc_ops : submitted_ops (log s) = [];
  pc_rest : at_rest (log s) k0;
}.

Section end_to_end.
Context {PF : Platform} (g : client_options) (ms : list FileRequest).
Hypothesis size_ok : 0 <= buffer_size g < 2 ^ 31.

Lemma workload_called (s : st session) k0 :
  parameterised_call (target_params g) s k0 -> Z.of_nat (length ms) = N g ->
  called (buffer_size g) (i32 (blk_size g)) (Z.of_nat (length ms)) (queue_depth g) s.
Proof.
  intros [(g0 & h & h' & Hset) Hown W Hm Ho K] Hlen.
  split; [| done | done | apply (ar_kernel _ _ K) | done]. exists (srv (own s)). split; [done |].
  injection Hset as Hset _. rewrite <- Hset, Hlen. cbn. rewrite i32_id, u64_id by lia. done.
Qed.

(** C8: The server under the client's default test of one large file.  After the
    parameters that [set_target_params] sends, a stream of [N >= 1] messages for
    [/mnt/large-file] that each begin with [buffer_size] bytes 255 (what the
    test is meant to send; the client's own read of its buffer is undefined)
    makes the handler return OK, with all of its buffers freed, and leaves exactly
    [N] times [buffer_size] bytes 255 more in [/mnt/large-file] and every other
    file as it was, however the handler's two threads interleave and whenever
    the kernel executes what they submit. *)
Theorem large_async_workload fuel (s : st session) k0 :
  1 <= N g <= Z.of_nat fuel -> workload g large_name ms ->
  parameterised_call (target_params g) s k0 -> obliging ms -> serving ->
  exists s', AppendOneLargeFileAsync (R := Empty_set) fuel s = (Val OK, s') /\
    blocks (heap s') = blocks (heap s) /\
    let old := default [] (store k0 !! "/mnt/large-file") in
    leaves (log s) k0 (log s')
      (eq (<["/mnt/large-file" := old ++ filled (N g * buffer_size g)]> (store k0))).
Proof.
  intros HN WL P OB SV. pose proof (wl_number _ _ _ WL) as Hlen.
  pose proof (workload_called s k0 P Hlen) as C. pose proof (workload_long_enough g _ ms WL) as Hl.
  destruct ms as [| m l] eqn:Em; [cbn in Hlen; lia |].
  destruct (large_async_contents (R := Empty_set) SV (buffer_size g) (i32 (blk_size g)) ltac:(lia)
    m l (queue_depth g) fuel s k0 OB C Hl ltac:(lia) (pc_rest _ _ _ P)) as (s' & E & Hb & L).
  exists s'. split; [done |]. split; [done |]. eapply leaves_weaken; [exact L |]. intros fs Hfs. symmetry.
  rewrite (proj1 (wl_message _ _ _ WL 0%nat m eq_refl)), (to_one_workload g _ _ WL) in Hfs.
  apply any_order_uniform in Hfs as ->.
  - cbn [length]. rewrite append_chunks_replicate, concat_filled by lia. cbn [length] in Hlen.
    by rewrite Hlen.
  - intros x y [-> _]%elem_of_replicate [-> _]%elem_of_replicate. done.
Qed.

(** C33: The same for the default test of many small files, on a ring of even size
    and for [2 * N] an [int]: each of the [N] files [/mnt/small-file<i>] has
    [buffer_size] bytes 255 more, and no other file has changed. *)
Theorem small_async_workload half fuel (s : st session) k0 :
  1 <= N g -> 2 * N g <= Z.min INT_MAX (Z.of_nat fuel) ->
  sq_entries (u32 (queue_depth g)) = (2 * S half)%nat -> workload g small_name ms ->
  parameterised_call (target_params g) s k0 -> obliging ms -> serving ->
  exists s', AppendManySmallFilesAsync (R := Empty_set) fuel s = (Val OK, s') /\
    blocks (heap s') = blocks (heap s) /\
    leaves (log s) k0 (log s') (fun fs => forall p,
      ((exists i, (i < Z.to_nat (N g))%nat /\ p = small_name i) /\
         fs !! p = Some (default [] (store k0 !! p) ++ filled (buffer_size g))) \/
      ((forall i, (i < Z.to_nat (N g))%nat -> p <> small_name i) /\ fs !! p = store k0 !! p)).
Proof.
  intros HN Hmax Hring WL P OB SV. pose proof (wl_number _ _ _ WL) as Hlen.
  pose proof (workload_called s k0 P Hlen) as C. pose proof (workload_long_enough g _ ms WL) as Hlong.
  destruct ms as [| m ms'] eqn:Em; [cbn in Hlen; lia |].
  destruct (small_async_contents (R := Empty_set) SV (buffer_size g) (i32 (blk_size g)) ltac:(lia)
    m ms' half (queue_depth g) fuel s k0 OB C Hring ltac:(lia) Hlong ltac:(lia) (pc_rest _ _ _ P)) as (s' & E & Hb & L).
  exists s'. split; [done |]. split; [done |]. eapply leaves_weaken; [exact L |]. intros fs Hfs q.
  rewrite (to_each_workload g _ _ WL) in Hfs.
  replace (length (m :: ms')) with (Z.to_nat (N g)) in Hfs by lia.
  set (l := (fun i => (small_name i, filled (buffer_size g))) <$> seq 0 (Z.to_nat (N g))) in *.
  assert (l.*1 = small_name <$> seq 0 (Z.to_nat (N g))) as El by (unfold l; by rewrite <- list_fmap_compose).
  apply any_order_uniform in Hfs as ->.
  - destruct (decide (q ∈ l.*1)) as [Hq | Hq].
    + left. rewrite El in Hq. apply list_elem_of_fmap in Hq as (i & -> & Hi).
      split; [exists i; split; [apply elem_of_seq in Hi; lia | done] |].
      apply append_chunks_once; [rewrite El; apply small_names_distinct |].
      apply list_elem_of_fmap. by exists i.
    + right. split; [| by apply append_chunks_other]. intros i Hi ->. apply Hq. rewrite El.
      apply list_elem_of_fmap. exists i. split; [done |]. apply elem_of_seq. lia.
  - intros x y (i & -> & _)%list_elem_of_fmap (j & -> & _)%list_elem_of_fmap. done.
Qed.
End end_to_end.

(** ** Instances *)

(** A client whose calls all succeed. *)
Definition client_env : Platform := platform_of (fun _ => default_reply).

(** Two messages of four bytes to one large file. *)
Definition small_test : client_options :=
  mk_client "10.0.0.1" 9876 4 512 2 8 2000 true false false false "" 1 4.

Definition client_start : st () := mk_st () heap_empty [].


(** What the test is meant to send; the second message with a byte more, as a read
    past the buffer may give it. *)
Definition two_sent : list FileRequest :=
  [{| filename := "/mnt/large-file"; fr_data := [xff; xff; xff; xff] |};
   {| filename := "/mnt/large-file"; fr_data := [xff; xff; xff; xff; x21] |}].

Lemma two_sent_workload : workload small_test large_name two_sent.
Proof.
  split; [done |]. intros [| [| i]] m [= <-]; (split; [done |]); [by exists [] | by exists [x21]].
Qed.

(** The server after [SetParameters], before anything else. *)
Definition parameterised : GRPCFileServerSync :=
  mk_files "10.0.0.1" 9876 (Some 8) (Some 2000) (mk_times 0 0 0 0) (Some 4) (Some 512) (Some 2)
    (Some 0) 0.

Definition parameterised_state : st session := mk_st (session_of parameterised) heap_empty [].

Lemma parameterised_calls ms :
  parameterised_call (PF := async_env ms) (target_params small_test) parameterised_state new_kernel.
Proof.
  split; [exists (construct "10.0.0.1" 9876), [], []; reflexivity | done | apply heap_empty_wf | done | done |].
  apply new_kernel_at_rest.
Qed.

Lemma large_async_workload_witness :
  exists s',
    AppendOneLargeFileAsync (PF := async_env two_sent) (R := Empty_set) 9 parameterised_state = (Val OK, s') /\
    blocks (heap s') = ∅ /\
    leaves [] new_kernel (log s') (eq (<["/mnt/large-file" := replicate 8 (Some xff)]> ∅)).
Proof.
  assert (0 <= buffer_size small_test < 2 ^ 31) as H1 by (clear; done).
  assert (1 <= N small_test <= Z.of_nat 9) as H2 by (clear; done).
  exact (large_async_workload (PF := async_env two_sent) small_test two_sent H1 9 parameterised_state
    new_kernel H2 two_sent_workload (parameterised_calls _) (async_env_obliging _) (async_env_serving _)).
Defined.

(** Two messages to small files. *)
Definition two_small : list FileRequest :=
  [{| filename := "/mnt/small-file0"; fr_data := [xff; xff; xff; xff] |};
   {| filename := "/mnt/small-file1"; fr_data := [xff; xff; xff; xff] |}].

Lemma two_small_workload : workload small_test small_name two_small.
Proof. split; [done |]. intros [| [| i]] m [= <-]; (split; [done | by exists []]). Qed.

Lemma small_async_workload_witness :
  exists s',
    AppendManySmallFilesAsync (PF := async_env two_small) (R := Empty_set) 9 parameterised_state = (Val OK, s') /\
    blocks (heap s') = ∅ /\
    leaves [] new_kernel (log s') (fun fs => forall p,
      ((exists i, (i < 2)%nat /\ p = small_name i) /\ fs !! p = Some (filled 4)) \/
      ((forall i, (i < 2)%nat -> p <> small_name i) /\ fs !! p = None)).
Proof.
  assert (0 <= buffer_size small_test < 2 ^ 31) as H1 by (clear; done).
  assert (1 <= N small_test) as H2 by (clear; done).
  assert (2 * N small_test <= Z.min INT_MAX (Z.of_nat 9)) as H3 by (clear; done).
  exact (small_async_workload (PF := async_env two_small) small_test two_small H1 3 9 parameterised_state
    new_kernel H2 H3 eq_refl two_small_workload (parameterised_calls _) (async_env_obliging _)
    (async_env_serving _)).
Defined.
