(* ===== verification/BlockRw.v ===== *)
(** * The local block benchmark (src/src/block_rw_nvmeof.cc)

    Random writes of one block range at a time to a local NVMe device. *)

From S2P Require Import Prelude Proto Env Nvme BlockServer.

(** [N]: how many writes the benchmark makes. *)
Definition N : Z := 100000.

Section BlockRw.
Context {PF : Platform} {P : Type}.

(** [dist(mt) % total_blocks]; [dist] draws from 0 to [INT32_MAX]. *)
Definition random_start_block {R} (total_blocks : Z) : M (st P) R Z :=
  r ← ext Rand_int;
  int_rem r total_blocks.

(** [args.nlb] and [actual_size]. *)
Definition rw_geometry {S R} (data_size lbs : Z) : M S R (Z * Z) :=
  q ← int_div data_size lbs;
  rem ← int_rem data_size lbs;
  let nlb := if rem =? 0 then u_nlb (u_nlb q - 1) else u_nlb q in
  blocks ← int_ret (nlb + 1);
  actual_size ← int_ret (blocks * lbs);
  mret (nlb, actual_size).

(** [malloc(n)], null on failure. *)
Definition malloc {R} (n : Z) : M (st P) R (option loc) :=
  r ← ext (Alloc None (u64 n));
  if r =? 0 then l ← fresh_block n; mret (Some l) else mret None.

(** The kernel reads the buffer; there is nothing to read behind a null
    pointer. *)
Definition payload_at {R} (p : option loc) : M (st P) R (list mbyte) :=
  match p with None => mret [] | Some _ => '(_, b) ← block_at p; mret b end.

(** [todo] rounds of the loop; the [return]s after a failed write free nothing. *)
Fixpoint write_loop (todo : nat) (total : Z) (args : nvme_io_args) : M (st P) () () :=
  match todo with
  | O => mret ()
  | S todo =>
      start_block ← random_start_block (i32 total);
      let args := mk_args (u64 start_block) (nlb args) (data_len args) (data args) (fd args)
                    (nsid args) (timeout args) in
      _ ← ext Clock_now;
      b ← payload_at (data args);
      err ← ext (Nvme_write args b);
      _ ← ext Clock_now;
      if negb (err =? 0) then return_ () else write_loop todo total args
  end.

Definition test_write_throughput_random {R} (config : device_config) (data_size : Z)
  : M (st P) R () :=
  call (
    f ← open_bdev (name config) [O_RDWR; O_DIRECT];
    ns ← read_init (namespace_id config);
    lbs ← read_init (logical_block_size config);
    '(n, actual_size) ← rw_geometry data_size lbs;
    buffer ← malloc actual_size;
    total ← read_init (number_of_logical_blocks config);
    write_loop (Z.to_nat N) total
      (mk_args 0 n (u32 actual_size) buffer f ns NVME_DEFAULT_IOCTL_TIMEOUT);;
    release buffer;;
    _ ← int_ret (N * data_size);                       (* printed *)
    mret ()).

(** [main]; [given] is [atoi(argv[2])] where there is a second argument. *)
Definition main {R} (argc : Z) (dev : cstr) (given : Z) : M (st P) R Z :=
  let data_size := if argc =? 3 then given else 512 in
  '(_, config) ← init_device_config (config_uninit dev);
  data_size ← (if argc <? 3 then read_init (logical_block_size config) else mret data_size);
  test_write_throughput_random config data_size;;
  mret 0.
End BlockRw.

(** ** The block count *)

Lemma u_nlb_pred {PF : Platform} q : u_nlb (u_nlb q - 1) = u_nlb (q - 1).
Proof. unfold u_nlb. by rewrite Zminus_mod_idemp_l. Qed.

(** ** The writes *)

(** What every write of the benchmark is: [n] blocks from a block of the device,
    out of the one buffer, which nothing has initialised. *)
Definition is_rw_write {PF : Platform} (f ns lbs n total : Z) (buffer : loc) (c : command) : Prop :=
  exists slba err,
    c = (Write, mk_args slba (n - 1) (u32 (n * lbs)) (Some buffer) f ns NVME_DEFAULT_IOCTL_TIMEOUT,
         replicate (Z.to_nat (n * lbs)) None, err) /\
    0 <= slba < total.

Definition succeeded (c : command) : Prop := c.2 = 0.

#[export] Instance succeeded_dec c : Decision (succeeded c).
Proof. unfold succeeded. apply _. Defined.

Section writes.
Context {PF : Platform} {P : Type}.
Context (f ns lbs n total : Z) (buffer : loc).
Hypothesis random : forall h, 0 <= world h Rand_int <= INT_MAX.
Hypothesis total_ok : 0 < total <= INT_MAX.

Lemma wp_random_start_block {R} (Q : outcome R Z -> st P -> Prop) (s : st P) :
  (forall r, 0 <= r < total ->
     Q (Val r) (mk_st (own s) (heap s) (Rand_int ~> world (log s) Rand_int :: log s))) ->
  wp (random_start_block (i32 total)) Q s.
Proof.
  intros H. unfold INT_MAX in total_ok. rewrite i32_id by lia.
  unfold random_start_block. apply wp_bind, (wp_ext Rand_int). intros r Hr. subst r.
  pose proof (random (log s)) as Hr. apply wp_int_rem; [lia.. |].
  apply H, Z.mod_pos_bound. lia.
Qed.

(** The writes of a loop: all of them, or up to the first that failed. *)
Lemma write_loop_spec todo args (s : st P) :
  nlb args = n - 1 -> data_len args = u32 (n * lbs) -> data args = Some buffer ->
  fd args = f -> nsid args = ns -> timeout args = NVME_DEFAULT_IOCTL_TIMEOUT ->
  blocks (heap s) !! buffer = Some (replicate (Z.to_nat (n * lbs)) None) ->
  wp (write_loop todo total args) (fun o s' => heap s' = heap s /\
    exists cs, commands (log s') = cs ++ commands (log s) /\
      Forall (is_rw_write f ns lbs n total buffer) cs /\
      match o with
      | Val _ => length cs = todo /\ Forall succeeded cs
      | Ret _ => exists c cs', cs = c :: cs' /\ ~ succeeded c /\ (length cs <= todo)%nat
      | _ => False
      end) s.
Proof.
  revert args s. induction todo as [| todo IH]; intros args s H1 H2 H3 H4 H5 H6 Hb;
    cbn [write_loop].
  { wp_steps. split; [done |]. exists []. auto. }
  apply wp_bind, wp_random_start_block. intros b Hb0. cbn beta iota zeta.
  apply wp_bind, (wp_ext Clock_now). intros t1 _. cbn beta iota. cbn [data]. rewrite H3.
  unfold payload_at. cbn beta iota. apply wp_bind, wp_bind.
  eapply wp_block_at; [exact Hb |]. wp_steps.
  set (e := Nvme_write _ _) in *.
  assert (is_rw_write f ns lbs n total buffer (Write,
    mk_args (u64 b) (nlb args) (data_len args) (Some buffer) (fd args) (nsid args) (timeout args),
    replicate (Z.to_nat (n * lbs)) None, r)) as Hw1.
  { exists b, r. unfold INT_MAX in *. rewrite u64_id by lia.
    by rewrite H1, H2, H4, H5, H6. }
  destruct (r =? 0) eqn:Er; bool_hyps; cbn [negb].
  - eapply wp_mono; [| apply IH]; cbn [nlb data_len data fd nsid timeout]; try done.
    cbn [heap log]. intros o s' (Hh & cs & Hc & Hf & Ho). split; [done |].
    eexists (cs ++ [_]). rewrite Hc, <- app_assoc. split; [reflexivity |].
    split; [by apply Forall_app; split; [| constructor] |].
    rewrite length_app. cbn [length]. destruct o; [| | done..].
    + destruct Ho as [-> Ho]. split; [lia |]. apply Forall_app. split; [done |].
      constructor; [exact Er | done].
    + destruct Ho as (c & cs' & -> & Ho & Hl). eexists c, (cs' ++ [_]). cbn in *.
      split; [reflexivity |]. split; [done | lia].
  - wp_steps. split; [done |]. eexists [_]. split; [reflexivity |].
    split; [by constructor |]. eexists _, []. split; [reflexivity |]. split; [exact Er | cbn; lia].
Qed.
End writes.

Section theorems.
Context {PF : Platform}.

(** The benchmark and the block server compute the same block count and the
    same length for every request, although they branch the other way round. *)
Theorem rw_geometry_is_io_geometry {S R} (size lbs : Z) :
  INT_MIN < size <= INT_MAX -> 0 < lbs ->
  M_equiv (rw_geometry (S := S) (R := R) size lbs) (io_geometry size lbs).
Proof.
  intros Hs Hl s. unfold rw_geometry, io_geometry, int_div, int_rem.
  rewrite (proj2 (Z.eqb_neq lbs 0)) by lia.
  rewrite (proj2 (Z.eqb_neq size INT_MIN)) by lia. cbn [andb].
  assert (Z.abs (Z.quot size lbs) <= Z.abs size) as Hq.
  { rewrite <- Z.quot_abs, (Z.abs_eq lbs), Z_quot_div by lia.
    apply Z.div_le_upper_bound; nia. }
  unfold INT_MIN, INT_MAX in Hs.
  rewrite (int_ret_ok (Z.quot size lbs)) by lia.
  destruct (Z.rem size lbs =? 0) eqn:E; cbn [negb]; unfold mbind, M_bind, mret, M_ret;
    cbn beta iota; rewrite ?E; cbn [negb]; [| done].
  by rewrite u_nlb_pred, (int_ret_ok (Z.quot size lbs - 1)) by lia.
Qed.

(** A configured device, and a size of [n] blocks. *)
Record testable (config : device_config) (size lbs ns total n : Z) : Prop := {
  tb_nlb : nlb_width = 16;
  tb_ns : namespace_id config = Some ns;
  tb_lbs : logical_block_size config = Some lbs;
  tb_total : number_of_logical_blocks config = Some total;
  tb_size : 0 < size <= INT_MAX;
  tb_lbs_pos : 0 < lbs;
  tb_blocks : n = blocks_needed size lbs;
  tb_max : n <= 65536;
  tb_len : n * lbs <= INT_MAX;
}.

(** What the benchmark gets for the device it opens. *)
Definition opened_fd {P} (config : device_config) (s : st P) : Z :=
  world (log s) (Sys_open (cs_text (name config)) [O_RDWR; O_DIRECT]).

(** C30: The local benchmark, on every device that has fewer than 2^31 blocks: it
    writes, to the descriptor of the device it opened, ranges of the block count
    its size needs, from random blocks of the device, all out of one uninitialised
    buffer.  If no write fails it makes
    [N] of them and frees the buffer, but then computes [N * data_size] in an
    [int] for its report, which overflows for sizes above 21474 bytes.  At the
    first write that fails it returns without freeing the buffer. *)
Theorem random_writes {P} (config : device_config) (size lbs ns total n : Z) (s : st P) :
  testable config size lbs ns total n ->
  0 < total <= INT_MAX ->
  (forall h, 0 <= world h Rand_int <= INT_MAX) ->
  (forall h k, world h (Alloc None k) = 0) -> heap_wf (heap s) ->
  exists o s' cs,
    test_write_throughput_random (R := Empty_set) config size s = (o, s') /\
    commands (log s') = cs ++ commands (log s) /\
    Forall (is_rw_write (opened_fd config s) ns lbs n total (next_loc (heap s))) cs /\
    (length cs = Z.to_nat N /\ Forall succeeded cs /\ blocks (heap s') = blocks (heap s) /\
     o = (if N * size <=? INT_MAX then Val () else Stop UB_overflow) \/
     (exists c cs', cs = c :: cs' /\ ~ succeeded c) /\ o = Val () /\
     live (heap s') = S (live (heap s))).
Proof.
  intros [] Ht Hr Ha W.
  match goal with |- exists o s' cs, _ /\ @?Q o s' cs =>
    assert (wp (test_write_throughput_random (R := Empty_set) config size)
      (fun o s' => exists cs, Q o s' cs) s) as H end;
    [| unfold wp in H; destruct (test_write_throughput_random config size s) as [o s'];
       destruct H as (cs & H); by exists o, s', cs].
  pose proof (blocks_needed_pos size lbs ltac:(lia) ltac:(lia)) as Hp.
  pose proof (blocks_needed_spec size lbs ltac:(lia) ltac:(lia)) as Hsp. subst n.
  set (n := blocks_needed size lbs) in *. unfold test_write_throughput_random, open_bdev.
  apply wp_call, wp_bind, wp_bind, (wp_ext (Sys_open _ _)). intros f Hf0. wp_steps.
  rewrite tb_ns0. wp_steps. rewrite tb_lbs0. wp_steps.
  pose proof (rw_geometry_is_io_geometry (S := st P) (R := ()) size lbs
    ltac:(unfold INT_MIN; lia) ltac:(lia)) as Hg.
  rewrite Hg.
  apply (wp_io_geometry_ok tb_nlb0); [lia | lia | done | done |]. cbn beta iota. fold n.
  unfold malloc. wp_steps. rewrite Ha in Hw. subst r. cbn [Z.eqb]. wp_steps.
  rewrite tb_total0. wp_steps.
  eapply wp_mono; [| apply (write_loop_spec f ns lbs n total (next_loc (heap s)) Hr Ht);
    cbn [nlb data_len data fd nsid timeout heap]; try done; apply heap_alloc_lookup].
  cbn [heap log]. intros o s1 (Hh & cs & Hc & Hf & Ho).
  destruct o as [[] | [] | |]; [| | done..].
  - destruct Ho as [Hl Hs]. apply wp_bind. eapply wp_release.
    { rewrite Hh. apply heap_alloc_lookup. }
    cbn beta iota. unfold int_ret, in_int.
    assert (blocks (heap_free (next_loc (heap s)) (heap s1)) = blocks (heap s)) as Hb.
    { rewrite Hh. cbn. apply delete_insert_id. by apply heap_alloc_fresh. }
    assert ((INT_MIN <=? N * size) = true) as -> by (unfold INT_MIN, N; apply Z.leb_le; lia).
    cbn [andb]. destruct (N * size <=? INT_MAX); wp_steps; exists cs; fold (opened_fd config s) in Hf0; rewrite <- Hf0;
      (split; [exact Hc |]; split; [exact Hf |]; left; done).
  - destruct Ho as (c & cs' & -> & Hn & _). exists (c :: cs').
    fold (opened_fd config s) in Hf0. rewrite <- Hf0.
    split; [exact Hc |]. split; [exact Hf |]. right. split; [by exists c, cs' |].
    split; [done |]. rewrite Hh. by apply live_insert.
Qed.

(** A device whose number of blocks is a multiple of 2^32 (one of 2 TiB, with
    blocks of 512 bytes) divides by zero before the first write: the count is
    passed on as an [int]. *)
Theorem large_device_divides_by_zero {P} (config : device_config) (size lbs ns k n : Z) (s : st P) :
  testable config size lbs ns (k * 2 ^ 32) n ->
  exists s', test_write_throughput_random (R := Empty_set) config size s = (Stop UB_div0, s') /\
    commands (log s') = commands (log s).
Proof.
  intros []. apply wp_ex. subst n.
  unfold test_write_throughput_random, open_bdev.
  apply wp_call, wp_bind, wp_bind, (wp_ext (Sys_open _ _)). intros f _. wp_steps.
  rewrite tb_ns0. wp_steps. rewrite tb_lbs0. wp_steps.
  pose proof (rw_geometry_is_io_geometry (S := st P) (R := ()) size lbs
    ltac:(unfold INT_MIN; lia) ltac:(lia)) as Hg.
  rewrite Hg.
  apply (wp_io_geometry_ok tb_nlb0); [lia | lia | done | done |]. cbn beta iota.
  assert (i32 (k * 2 ^ 32) = 0) as E.
  { unfold i32. rewrite Z.add_comm, Z_mod_plus_full. done. }
  assert (exists m, Z.to_nat N = S m) as [m Hm] by (exists (Nat.pred (Z.to_nat N)); unfold N; lia).
  unfold malloc. wp_steps. destruct (r =? 0); wp_steps; rewrite tb_total0; wp_steps; rewrite Hm;
    cbn [write_loop]; rewrite E; unfold random_start_block, int_rem; cbn [Z.eqb]; by wp_steps.
Qed.
End theorems.

(** ** Instances *)

(** A device of 1024 blocks of 512 bytes, and one of 2^32; 1000 bytes a write. *)
Definition rw_config (total : Z) : device_config :=
  mk_config (Some 1) sample_name (Some total) (Some 512).

Definition rw_state : st () := mk_st () heap_empty [].

Lemma rw_testable total : testable (PF := sample_env) (rw_config total) 1000 512 1 total 2.
Proof. by split. Qed.

Lemma random_writes_witness :
  exists o s' cs,
    test_write_throughput_random (PF := sample_env) (R := Empty_set) (rw_config 1024) 1000 rw_state = (o, s') /\
    commands (log s') = cs ++ [] /\
    Forall (is_rw_write (PF := sample_env) (opened_fd (PF := sample_env) (rw_config 1024) rw_state) 1 512 2 1024 0) cs /\
    (length cs = Z.to_nat N /\ Forall succeeded cs /\ blocks (heap s') = ∅ /\ o = Val () \/
     (exists c cs', cs = c :: cs' /\ ~ succeeded c) /\ o = Val () /\ live (heap s') = 1%nat).
Proof.
  exact (random_writes (PF := sample_env) (rw_config 1024) 1000 512 1 1024 2 rw_state
    (rw_testable 1024) ltac:(done) ltac:(done) ltac:(done) heap_empty_wf).
Defined.

Lemma large_device_divides_by_zero_witness :
  exists s',
    test_write_throughput_random (PF := sample_env) (R := Empty_set) (rw_config (1 * 2 ^ 32)) 1000 rw_state =
      (Stop UB_div0, s') /\
    commands (log s') = [].
Proof.
  exact (large_device_divides_by_zero (PF := sample_env) (rw_config (1 * 2 ^ 32)) 1000 512 1 1 2
    rw_state (rw_testable (1 * 2 ^ 32))).
Defined.

Lemma rw_geometry_is_io_geometry_witness :
  rw_geometry (PF := sample_env) (S := ()) (R := ()) 1000 512 () =
  io_geometry (PF := sample_env) (S := ()) (R := ()) 1000 512 ().
Proof.
  exact (rw_geometry_is_io_geometry (PF := sample_env) (S := ()) (R := ()) 1000 512
    ltac:(done) ltac:(done) ()).
Defined.
