(* ===== verification/BlockTarget.v ===== *)
(** * The block target program (src/src/block_target.cc)

    [main] runs the asynchronous server.  [test_write_throughput_random] is a
    second, unused way to serve writes: it takes them off a [Connection].  It is
    proved against the interface, with what it needs of a connection as the
    class [DevicelessConnection], which [TCPConnection] implements. *)

From S2P Require Import Prelude Proto Env Nvme BlockServer Tcp AsyncServer BlockRw.

(** [N] of this program. *)
Definition target_N : Z := 1000000.

(** [std::string("done").c_str()]: five bytes with the terminating zero. *)
Definition done_message : list byte := [x64; x6f; x6e; x65; x00].

Section BlockTarget.
Context {PF : Platform}.

(** [dist(mt) % config.number_of_logical_blocks], an unsigned 64-bit remainder. *)
Definition random_start_block {P R} (config : device_config) : M (st P) R Z :=
  total ← read_init (number_of_logical_blocks config);
  r ← ext Rand_int;
  if total =? 0 then stop_ UB_div0 else mret (i64 (u64 r mod total)).

Context {C : Type} {CN : Connection C}.

(** [recv] into [buffer]; its value. *)
Definition recv_into {R} (fuel : nat) (buffer : loc) (len : Z) : M (st C) R Z :=
  '(size, got) ← conn_recv R fuel len;
  '(l, b) ← block_at (Some buffer);
  if Z.of_nat (length b) <? Z.of_nat (length got) then stop_ UB_oob
  else with_heap (heap_store l ((Some <$> got) ++ drop (length got) b));; mret size.

(** [todo] rounds of the loop.  The [return]s after a failed write leave the
    function. *)
Fixpoint serve_loop (fuel todo : nat) (buffer : loc) (data_size : Z) (args : nvme_io_args)
  : M (st C) () () :=
  match todo with
  | O => mret ()
  | S todo =>
      size ← recv_into fuel buffer data_size;
      if size <? 0 then mret ()                              (* break *)
      else
        b ← payload_at (Some buffer);
        err ← ext (Nvme_write args b);
        if negb (err =? 0) then return_ () else serve_loop fuel todo buffer data_size args
  end.

(** [garbage_timeout] is what the automatic [args.timeout] happens to hold:
    the code does not set it. *)
Definition test_write_throughput_random {R} (fuel : nat) (garbage_timeout : Z)
    (config : device_config) (data_size : Z) : M (st C) R () :=
  call (
    buffer ← new_array data_size;
    f ← open_bdev (name config) [O_WRONLY; O_DIRECT];
    ns ← read_init (namespace_id config);
    lbs ← read_init (logical_block_size config);
    q ← int_div data_size lbs;
    serve_loop fuel (Z.to_nat target_N) buffer data_size
      (mk_args 0 (u_nlb q) (u32 lbs) (Some buffer) f ns garbage_timeout);;
    _ ← conn_send () fuel done_message 5;
    release (Some buffer)).
End BlockTarget.

(** [main]: the server object is on the stack of a [run] that does not return. *)
Definition main {PF : Platform} {R} (argc : Z) (dev : cstr) (fuel : nat) : M (st async) R Z :=
  if argc <? 2 then mret (-1)
  else
    a ← AsyncServer.construct "0.0.0.0" 9876 dev;
    set_own (fun _ => a);;
    AsyncServer.run fuel;;
    mret 0.

(** ** What the program needs of a connection *)

Definition is_nvme_write (e : entry) : bool :=
  match e with existT (Nvme_write _ _) _ => true | _ => false end.

(** Neither method gives the device a command. *)
Class DevicelessConnection {PF : Platform} (C : Type) {CN : Connection C} : Prop := {
  send_deviceless : forall R fuel data len,
    logs (fun e => is_nvme_write e = false) (conn_send R fuel data len);
  recv_deviceless : forall R fuel len,
    logs (fun e => is_nvme_write e = false) (conn_recv R fuel len);
}.

Section tcp.
Context {PF : Platform}.

Lemma send_loop_deviceless fuel left buffer len :
  logs (fun e => is_nvme_write e = false) (send_loop fuel left buffer len).
Proof.
  revert left buffer. induction fuel as [| fuel IH]; intros left buffer; cbn [send_loop];
    logs_go; apply IH.
Qed.

Lemma recv_loop_deviceless fuel left got len :
  logs (fun e => is_nvme_write e = false) (recv_loop fuel left got len).
Proof.
  revert left got. induction fuel as [| fuel IH]; intros left got; cbn [recv_loop];
    logs_go; apply IH.
Qed.

#[export] Instance tcp_deviceless : DevicelessConnection TCPConnection.
Proof.
  split; intros; cbn; unfold send, recv; apply logs_call.
  - apply send_loop_deviceless.
  - apply recv_loop_deviceless.
Qed.
End tcp.

Section theorems.
Context {PF : Platform} {C : Type} {CN : Connection C} {DC : DevicelessConnection C}.

(** The arguments of each write: the first blocks of the device, one block more
    than the message has, and the length of a single block. *)
Definition is_target_write (ns lbs q : Z) (e : entry) : Prop :=
  match e with
  | existT (Nvme_write a _) _ =>
      slba a = 0 /\ nlb a = q /\ data_len a = u32 lbs /\ nsid a = ns
  | _ => True
  end.

Lemma deviceless_target_write ns lbs q e : is_nvme_write e = false -> is_target_write ns lbs q e.
Proof. destruct e as [[] r]; cbn; done. Qed.

Lemma recv_into_logs {R} ns lbs q fuel buffer len :
  logs (is_target_write ns lbs q) (recv_into (R := R) fuel buffer len).
Proof.
  unfold recv_into. apply logs_bind; [| intros [size got]; logs_go].
  eapply logs_weaken; [| apply recv_deviceless]. apply deviceless_target_write.
Qed.

Lemma serve_loop_logs ns lbs q fuel todo buffer size args :
  slba args = 0 -> nlb args = q -> data_len args = u32 lbs -> nsid args = ns ->
  logs (is_target_write ns lbs q) (serve_loop fuel todo buffer size args).
Proof.
  intros. induction todo as [| todo IH]; cbn [serve_loop]; [logs_go |].
  apply logs_bind; [apply recv_into_logs | intros size']. unfold payload_at. logs_go.
Qed.

(** Served over any connection, the writes of the block target all go to
    block 0 and, for messages of [k] blocks, ask for [k + 1] blocks with the
    length of one: the zero-based count is not decremented and the length is
    that of a single block. *)
Theorem target_writes_mismatch {R} fuel garbage config k lbs ns (s : st C) :
  nlb_width = 16 -> namespace_id config = Some ns -> logical_block_size config = Some lbs ->
  0 < lbs -> 0 <= k < 65536 -> k * lbs <= INT_MAX ->
  forall o s', test_write_throughput_random (R := R) fuel garbage config (k * lbs) s = (o, s') ->
  exists l, log s' = l ++ log s /\ Forall (is_target_write ns lbs k) l.
Proof.
  intros H16 Hns Hlbs Hl Hk Hm.
  apply (wp_run (test_write_throughput_random (R := R) fuel garbage config (k * lbs))
    (fun o s' => exists l, log s' = l ++ log s /\ Forall (is_target_write ns lbs k) l)).
  revert s. change (logs (is_target_write ns lbs k)
    (test_write_throughput_random (R := R) fuel garbage config (k * lbs))).
  unfold test_write_throughput_random. rewrite Hns, Hlbs. apply logs_call.
  apply logs_bind; [unfold new_array; logs_go | intros buffer]. unfold open_bdev.
  apply logs_bind; [logs_go | intros f]. apply logs_read_some, logs_read_some.
  rewrite int_div_mul by (unfold INT_MAX in *; nia). apply logs_bind_ret.
  apply logs_bind; [| intros _; logs_go].
  { apply serve_loop_logs; try done. cbn. unfold u_nlb. rewrite H16. apply Z.mod_small. lia. }
  eapply logs_weaken; [| apply send_deviceless]. apply deviceless_target_write.
Qed.
End theorems.

(** ** Instances *)

Definition target_config : device_config :=
  mk_config (Some 1) sample_name (Some 1024) (Some 4).

Definition kernel_connection : Connection TCPConnection :=
  TCPConnection_is_Connection (PF := slow_kernel hello).

Lemma target_writes_mismatch_witness :
  exists (o : outcome Empty_set ()) s' l,
    test_write_throughput_random (PF := slow_kernel hello) (CN := kernel_connection) 3 0 target_config (2 * 4) connected = (o, s') /\
    log s' = l ++ [] /\ Forall (is_target_write 1 4 2) l.
Proof.
  destruct (test_write_throughput_random (PF := slow_kernel hello) (CN := kernel_connection)
    (R := Empty_set) 3 0 target_config (2 * 4) connected) as [o s'] eqn:E.
  destruct (target_writes_mismatch (PF := slow_kernel hello) (CN := kernel_connection)
    (DC := tcp_deviceless) (R := Empty_set) 3 0 target_config 2 4 1 connected eq_refl eq_refl eq_refl ltac:(clear; done) ltac:(clear; done)
    ltac:(clear; done) o s' E) as (l & H).
  exists o, s', l. split; [exact eq_refl | exact H].
Defined.
