(* ===== verification/BlockInitiator.v ===== *)
(** * The block client program (src/src/block_initiator.cc)

    The program queries its device, sends one asynchronous [WriteBlock] and
    waits for the answer.  The benchmark after it is commented out. *)

From S2P Require Import Prelude Proto Env Nvme BlockServer.

(** The request: its start block is the default. *)
Definition the_request : BlockRequest :=
  {| br_size := 10; br_start_block := 0; br_data := [x31; x32; x33] |}.

Section BlockInitiator.
Context {PF : Platform} {P : Type}.

Definition random_start_block {R} (total_blocks : Z) : M (st P) R Z :=
  r ← ext Rand_int;
  int_rem r total_blocks.

(** [main] with a device name [dev]; yields the block that is printed, [None]
    for "RPC failed". *)
Definition main {R} (argc : Z) (dev : cstr) : M (st P) R (option Z) :=
  '(_, config) ← init_device_config (config_uninit dev);
  when (argc <? 5) (_ ← read_init (logical_block_size config); mret ());;
  ext (Stub_write_block the_request);;
  ext (Sleep 5000000);;
  '(got, tag, ok, reply) ← ext Client_cq_next;
  if negb (got : bool) then stop_ Gpr_abort
  else if negb (tag =? 1) then stop_ Gpr_abort
  else if negb (ok : bool) then stop_ Gpr_abort
  else mret (end_block <$> reply).
End BlockInitiator.

(** The requests a client has sent, newest first. *)
Definition write_request (e : entry) : option BlockRequest :=
  match e with existT (Stub_write_block r) _ => Some r | _ => None end.
Definition write_requests (h : history) : list BlockRequest := omap write_request h.

(** C40: The client program sends its request once and, if the completion it waits
    for is its own, prints the block of the reply that came with it, or that the
    call failed where none came.  The request is one the block server can
    serve: on every device whose block size is at most [INT_MAX - 10],
    [WriteBlock] of it returns, with the last block it needs on success; so where
    the reply that came is the server's, the program prints that block. *)
Theorem initiator_is_served {P} (A B : Platform) argc dev fd ns lbs nsze (c : st P)
    (s : st blk) slbs sns :
  cs_addr dev <> empty_literal (Platform := A) -> reports (PF := A) (log c) dev fd ns lbs nsze ->
  (forall h, exists r, world (Platform := A) h Client_cq_next = (true, 1, true, r)) ->
  nlb_width (Platform := B) = 16 -> heap_wf (heap s) ->
  logical_block_size (config (this (own s))) = Some slbs ->
  namespace_id (config (this (own s))) = Some sns ->
  0 < slbs <= INT_MAX - 10 ->
  (forall h n, world (Platform := B) h (Alloc None n) = 0) ->
  exists v c' request,
    main (PF := A) (R := Empty_set) argc dev c = (Val v, c') /\
    write_requests (log c') = request :: write_requests (log c) /\
    exists received l, log c' = Client_cq_next ~> (true, 1, true, received) :: l /\
      v = end_block <$> received /\
      exists status reply s',
        WriteBlock (PF := B) (R := Empty_set) request s = (Val (status, reply), s') /\
        (status = OK -> end_block reply = (10 + slbs - 1) / slbs - 1 /\
           (received = Some reply -> v = Some ((10 + slbs - 1) / slbs - 1))).
Proof.
  intros Hne Hrep Hcq H16 W Hl Hn Hr Ha.
  assert (exists v c', main (PF := A) (R := Empty_set) argc dev c = (Val v, c') /\
    write_requests (log c') = the_request :: write_requests (log c) /\
    exists received l, log c' = Client_cq_next ~> (true, 1, true, received) :: l /\
      v = end_block <$> received) as (v & c' & E & Hq & received & l & El & Hv).
  { match goal with |- exists v c', _ /\ @?Q v c' => assert (wp (main (PF := A) (R := Empty_set) argc dev)
      (fun o c' => exists v, o = Val v /\ Q v c') c) as H end;
      [| unfold wp in H; destruct (main (PF := A) argc dev c) as [o c']; destruct H as (v & -> & H);
         by exists v, c'].
    unfold main, init_device_config, config_uninit, init_ret, dump_config, open_bdev.
    cbn [name]. rewrite (proj2 (Z.eqb_neq _ _) Hne). destruct Hrep as [H1 H2 H3 H4].
    wp_steps. rewrite H1 in Hw. subst r. rewrite H2 in Hw0. subst r0. cbn. wp_steps.
    rewrite H3 in Hw. subst r. cbn. wp_steps. rewrite H4 in Hw. subst r. cbn. wp_steps. cbn.
    assert (forall (Q : outcome Empty_set () -> st P -> Prop) s0, Q (Val ()) s0 ->
      wp (when (argc <? 5) (_ ← mret (i32 lbs); mret ())) Q s0) as Hwhen
      by (intros Q s0 HQ; by destruct (argc <? 5)).
    apply Hwhen. wp_steps.
    match type of Hw2 with _ = world ?h _ => destruct (Hcq h) as [reply Hcq'] end.
    rewrite Hcq' in Hw2. subst. cbn. wp_steps. eexists. split; [done |]. split; [done |]. by eexists _, _. }
  exists v, c', the_request. split; [exact E |]. split; [exact Hq |].
  exists received, l. split; [exact El |]. split; [exact Hv |].
  pose proof (blocks_needed_spec 10 slbs ltac:(lia) ltac:(lia)) as Hb.
  unfold INT_MAX in Hr. change (br_size the_request) with 10 in *.
  assert (ready (PF := B) Write s the_request slbs sns) as Hready.
  { split; try done; unfold INT_MAX; cbn [br_size br_start_block the_request]; try nia. }
  pose proof (ready_callable (PF := B) _ _ _ _ _ Hready) as Hc.
  unfold WriteBlock. destruct (handle (PF := B) Write the_request s) as [out s'] eqn:Eh.
  assert (Z.of_nat (length (br_data the_request)) <=
    blocks_needed (br_size the_request) slbs * slbs) as Hfit by (cbn; lia).
  destruct (handle_exact (PF := B) _ _ _ _ _ _ _ _ Hc Hfit Eh)
    as [(t & e & err & _ & _ & Hout & _) _ _].
  rewrite (answer_ready (PF := B) _ _ _ _ _ err Hready) in Hout.
  destruct (err =? 0); subst out; eexists _, _, s'; (split; [reflexivity |]); [| done].
  intros _. split; [done |]. intros ->. by rewrite Hv.
Qed.

(** ** Instances *)

(** The sample device, and an answer that names block 2. *)
Definition initiator_env : Platform := platform_of (fun h e =>
  match e with
  | Client_cq_next => (true, 1, true, Some {| end_block := 2 |})
  | e => world (Platform := sample_device) h e
  end).

Lemma initiator_is_served_witness :
  exists v c' request,
    main (PF := initiator_env) (R := Empty_set) 2 sample_name (mk_st () heap_empty []) = (Val v, c') /\
    write_requests (log c') = [request] /\
    exists received l, log c' = Client_cq_next ~> (true, 1, true, received) :: l /\
      v = end_block <$> received /\
      exists status reply s',
        WriteBlock (PF := sample_env) (R := Empty_set) request sample_state = (Val (status, reply), s') /\
        (status = OK -> end_block reply = 2 /\ (received = Some reply -> v = Some 2)).
Proof.
  exact (initiator_is_served initiator_env sample_env 2 sample_name 5 1 512 1024
    (mk_st () heap_empty []) sample_state 4 1 ltac:(done) ltac:(done)
    (fun _ => ex_intro _ _ eq_refl) eq_refl heap_empty_wf eq_refl eq_refl ltac:(done) ltac:(done)).
Defined.
