(* ===== verification/LocalRw.v ===== *)
(** * The local file benchmark (src/src/file_rw_nvmeof.cc)

    Writes to files of a mounted device, with blocking calls, with io_uring or
    with libaio.  The options are the program's globals.  The asynchronous tests
    have a completion thread; its steps interleave with the main thread at every
    external call ([schedule]).  A [return] while it is joinable ends the
    process.  [fuel] bounds the loops that wait.  The numbers that are printed
    are left out, except for the [int] arithmetic behind them. *)

From S2P Require Import Prelude Proto Env Args FileServer FileServerAsync.

Record rw_options := mk_rw_options {
  N : Z;
  buffer_size : Z;       (* size_t *)
  blk_size : Z;          (* size_t *)
  queue_depth : Z;
  idle_threshold : Z;
  large : bool;
  poll : bool;
  closed_loop : bool;
  test_read : bool;
  aio : bool;
  exprm : string;
  fn : Z;
  numthreads : Z;
}.

(** What the two threads of a test share: how many completions the completion
    thread still waits for, the submission queue, and the [aio_fildes] of the
    [iocb]s that are allocated. *)
Record local := mk_local {
  remaining : Z;
  queue : list sqe;
  iocbs : gmap loc Z;
}.

Definition local_start : local := mk_local 0 [] ∅.
Definition set_remaining (n : Z) (x : local) : local := mk_local n (queue x) (iocbs x).
Definition set_queue (q : list sqe) (x : local) : local := mk_local (remaining x) q (iocbs x).
Definition set_iocbs (f : gmap loc Z -> gmap loc Z) (x : local) : local :=
  mk_local (remaining x) (queue x) (f (iocbs x)).

(** The tests return nothing. *)
Abbreviation run A := (M (st local) () A).

(** [for (int i = lo; i < lo + todo; i++)]. *)
Fixpoint for_loop (todo : nat) (i : Z) (body : Z -> run ()) : run () :=
  match todo with O => mret () | S todo => body i;; for_loop todo (i + 1) body end.

Section LocalRw.
Context {PF : Platform} (g : rw_options).

(** *** Completion threads *)

(** One round of a thread that waits for the ring; [strict] where a failed
    operation ends it. *)
Definition reap_step (strict : bool) : run () :=
  n ← get_own remaining;
  if n <=? 0 then mret ()
  else
    cqe ← ext Uring_wait_cqe;
    match cqe with
    | None => mret ()
    | Some (ret, res, _) =>
        if ret <? 0 then set_own (set_remaining 0)
        else if strict && (res <? 0) then set_own (set_remaining 0)
        else
          ext Uring_cqe_seen;;
          set_own (fun x => set_remaining (remaining x - 1) x)
    end.

(** The events [io_getevents] has returned; [closing] where the thread closes
    the files.  [delete] of the [iocb]s. *)
Fixpoint retire (closing : bool) (objs : list loc) : run () :=
  match objs with
  | [] => mret ()
  | obj :: objs =>
      m ← get_own iocbs;
      match m !! obj with
      | None => stop_ UB_badptr
      | Some fildes =>
          when closing (_ ← ext (Sys_close fildes); mret ());;
          release (Some obj);;
          set_own (set_iocbs (delete obj));;
          retire closing objs
      end
  end.

(** One round of a thread that waits for libaio. *)
Definition events_step (closing : bool) : run () :=
  n ← get_own remaining;
  if n <=? 0 then mret ()
  else
    '(n, objs) ← ext (Aio_getevents (Z.quot (queue_depth g) 2) (queue_depth g));
    retire closing (take (Z.to_nat n) objs);;
    set_own (fun x => set_remaining (remaining x - n) x).

(** *** Two threads *)

Section threads.
Context (step : run ()).

Fixpoint steps (n : nat) : run () :=
  match n with O => mret () | S n => step;; steps n end.

Definition yield : run () := fun s => steps (schedule (log s)) s.
Definition ext_y (e : ev) : run (reply e) := yield;; ext e.

Fixpoint join (fuel : nat) : run () :=
  n ← get_own remaining;
  if n <=? 0 then mret ()
  else match fuel with O => nofuel | S fuel => step;; join fuel end.

(** [return] while the thread is joinable. *)
Definition return_joinable {A} : run A := stop_ Std_terminate.

(** [while (!sqe) sqe = io_uring_get_sqe(&ring)]. *)
Fixpoint wait_sqe (fuel : nat) : run () :=
  match fuel with
  | O => nofuel
  | S fuel => ok ← ext_y Uring_get_sqe; if (ok : bool) then mret () else wait_sqe fuel
  end.

(** [io_uring_prep_*]; no entry has user data. *)
Definition prep (op : sqe_op) (link : bool) : run () :=
  set_own (fun x => set_queue (queue x ++ [mk_sqe op None link]) x).

(** [io_uring_prep_write] with [buff] and [buffer_size]. *)
Definition prep_write (write : loc -> list mbyte -> sqe_op) (buff : loc) (link : bool) : run () :=
  '(l, b) ← block_at (Some buff);
  prep (write l b) link.

(** [io_uring_submit], its result ignored. *)
Definition submit : run () :=
  yield;;
  q ← get_own queue;
  n ← ext (Uring_enter q);
  set_own (fun x => set_queue (drop (Z.to_nat n) (queue x)) x).

(** Opening the files of an experiment. *)
Fixpoint open_files (name : Z -> string) (todo : nat) (i : Z) : run (list Z) :=
  match todo with
  | O => mret []
  | S todo =>
      fd ← ext_y (Sys_open (name i) [O_WRONLY; O_APPEND; O_CREAT; O_TRUNC; O_DIRECT]);
      if fd <? 0 then return_joinable
      else fds ← open_files name todo (i + 1); mret (fd :: fds)
  end.

(** [fds[i % n_files]]. *)
Definition file_of (fds : list Z) (n_files i : Z) : run Z :=
  j ← int_rem i n_files;
  match fds !! Z.to_nat j with None => stop_ UB_oob | Some fd => mret fd end.

(** The writes of an experiment. *)
Definition spread (fuel : nat) (fds : list Z) (buff : loc) : run () :=
  for_loop (Z.to_nat (N g)) 0 (fun i =>
    wait_sqe fuel;;
    fd ← file_of fds (fn g) i;
    prep_write (fun l b => Op_write fd l b 0) buff false;;
    submit).
End threads.

(** [posix_memalign] and [memset(buff, -1, buffer_size)]; a failure returns. *)
Definition make_buff : run loc :=
  '(_, p) ← posix_memalign (blk_size g) (buffer_size g);
  match p with
  | None => return_ ()
  | Some l =>
      with_heap (heap_store l (replicate (Z.to_nat (buffer_size g)) (Some xff)));;
      mret l
  end.

(** The clock, where a test reads it. *)
Definition tick (clock : bool) : run () := when clock (_ ← ext Clock_now; mret ()).

Definition setup_ring (sqpoll : bool) : run () :=
  r ← (if sqpoll then ext (Uring_init_sqpoll (u32 (queue_depth g)) (u32 (idle_threshold g)))
       else ext (Uring_init (u32 (queue_depth g))));
  when (negb (r =? 0)) (return_ ()).

(** *** The tests *)

Definition test_large_io_uring_poll {R} (fuel : nat) : M (st local) R () :=
  call (
    setup_ring true;;
    f ← ext (Sys_open "/mnt/large-file" [O_WRONLY; O_APPEND; O_CREAT; O_TRUNC; O_DIRECT]);
    when (f <? 0) (return_ ());;
    r ← ext (Uring_register_files f);
    when (negb (r =? 0)) (return_ ());;
    buff ← make_buff;
    set_own (set_remaining (N g));;
    let step := reap_step true in
    _ ← ext_y step Clock_now;
    for_loop (Z.to_nat (N g)) 0 (fun _ =>
      r ← ext_y step Uring_sqring_wait;
      if negb (r =? 0) then return_joinable else
      wait_sqe step fuel;;
      prep_write (fun l b => Op_write_fixed 0 l b 0) buff false;;
      submit step);;
    join step fuel;;
    _ ← ext Clock_now;
    _ ← ext (Sys_close f);
    ext Uring_exit).

(** [filesize] of [test_large_io_uring]. *)
Definition filesize : Z := 10 * 1024 * 1024 * 1024.

(** The [join] is commented out, so every way out of this test after the thread
    was created leaves it joinable. *)
Definition test_large_io_uring {R} : M (st local) R () :=
  call (
    setup_ring false;;
    f ← ext (Sys_open "/mnt/test" [O_WRONLY; O_CREAT; O_DIRECT]);
    when (f <? 0) (return_ ());;
    buff ← make_buff;
    set_own (set_remaining (N g));;
    let step := reap_step false in
    _ ← ext_y step Clock_now;
    for_loop (Z.to_nat (N g)) 0 (fun i =>
      sqe ← ext_y step Uring_get_sqe;
      if negb (sqe : bool) then return_joinable else
      prep_write (fun l b => Op_write f l b (u64 (i * buffer_size g) mod filesize)) buff false;;
      submit step);;
    _ ← ext_y step Clock_now;
    ext_y step Uring_exit;;
    _ ← ext_y step (Sys_close f);
    return_joinable).

Definition small_name (i : Z) : string := ("/mnt/small-file-" +:+ pretty i)%string.

Definition test_small_io_uring {R} (fuel : nat) : M (st local) R () :=
  call (
    setup_ring false;;
    buff ← make_buff;
    rounds ← int_ret (2 * N g);
    set_own (set_remaining rounds);;
    let step := reap_step false in
    _ ← ext_y step Clock_now;
    for_loop (Z.to_nat (N g)) 0 (fun i =>
      f ← ext_y step (Sys_open (small_name i) [O_RDWR; O_APPEND; O_CREAT; O_TRUNC; O_DIRECT]);
      if f <? 0 then return_joinable else
      wait_sqe step fuel;;
      prep_write (fun l b => Op_write f l b 0) buff true;;
      wait_sqe step fuel;;
      prep (Op_close f) false;;
      submit step);;
    join step fuel;;
    tick true;;
    ext Uring_exit).

Definition write_buff (f : Z) (buff : loc) : run Z :=
  '(_, b) ← block_at (Some buff);
  r ← ext (Sys_write f b);
  mret (i32 r).

Definition test_large_blocking {R} : M (st local) R () :=
  call (
    f ← ext (Sys_open "/mnt/large-file" [O_WRONLY; O_APPEND; O_CREAT; O_TRUNC; O_DIRECT]);
    when (f <? 0) (return_ ());;
    buff ← make_buff;
    _ ← ext Clock_now;
    for_loop (Z.to_nat (N g)) 0 (fun _ =>
      ret ← write_buff f buff;
      when (ret <? 0) (return_ ()));;
    _ ← ext Clock_now;
    _ ← ext (Sys_close f);
    mret ()).

Definition test_small_blocking {R} : M (st local) R () :=
  call (
    buff ← make_buff;
    _ ← ext Clock_now;
    for_loop (Z.to_nat (N g)) 0 (fun i =>
      f ← ext (Sys_open (small_name i) [O_RDWR; O_APPEND; O_CREAT; O_TRUNC; O_DIRECT]);
      when (f <? 0) (return_ ());;
      ret ← write_buff f buff;
      when (ret <? 0) (return_ ());;
      ret ← ext (Sys_close f);
      when (negb (ret =? 0)) (return_ ()));;
    _ ← ext Clock_now;
    mret ()).

(** *** The tests with libaio *)

(** [new iocb] and [io_prep_pwrite]. *)
Definition new_iocb (fildes : Z) (buff : loc) : run (loc * sqe_op) :=
  l ← new_array 64;
  set_own (set_iocbs (<[l := fildes]>));;
  '(_, b) ← block_at (Some buff);
  mret (l, Op_write fildes buff b 0).

(** The [for] loop that fills a batch: at most [todo] entries, from write [cnt]
    on; [target] yields the descriptor of a write. *)
Fixpoint fill_batch (todo : nat) (cnt : Z) (buff : loc) (target : Z -> run Z)
  : run (list (loc * sqe_op) * Z) :=
  match todo with
  | O => mret ([], cnt)
  | S todo =>
      if cnt <? N g then
        fd ← target cnt;
        iocb ← new_iocb fd buff;
        '(batch, cnt) ← fill_batch todo (cnt + 1) buff target;
        mret (iocb :: batch, cnt)
      else mret ([], cnt)
  end.

(** The [while] loop: the result of [io_submit] is not looked at. *)
Fixpoint aio_loop (step : run ()) (fuel : nat) (cnt : Z) (buff : loc) (target : Z -> run Z)
  : run () :=
  if cnt <? N g then
    match fuel with
    | O => nofuel
    | S fuel =>
        '(batch, cnt) ← fill_batch (Z.to_nat (queue_depth g)) cnt buff target;
        _ ← ext_y step (Aio_submit (Z.of_nat (length batch)) batch);
        aio_loop step fuel cnt buff target
    end
  else mret ().

(** [io_setup] and the buffer. *)
Definition setup_aio : run () :=
  r ← ext (Aio_setup 10);
  when (negb (r =? 0)) (return_ ()).

(** The thread's [struct io_event events[max_nr]]. *)
Definition start_events : run () :=
  if queue_depth g <? 0 then stop_ UB_oob else set_own (set_remaining (N g)).

Definition test_small_aio {R} (fuel : nat) : M (st local) R () :=
  call (
    setup_aio;;
    buff ← make_buff;
    start_events;;
    let step := events_step true in
    _ ← ext_y step Clock_now;
    _ ← new_array (8 * queue_depth g);
    aio_loop step fuel 0 buff (fun cnt =>
      f ← ext_y step (Sys_open (small_name cnt) [O_WRONLY; O_APPEND; O_CREAT; O_TRUNC; O_DIRECT]);
      if f <? 0 then return_joinable else mret f);;
    join step fuel;;
    ext Aio_destroy;;
    _ ← ext Clock_now;
    mret ()).

Definition test_large_aio {R} (fuel : nat) : M (st local) R () :=
  call (
    setup_aio;;
    buff ← make_buff;
    start_events;;
    let step := events_step false in
    f ← ext_y step (Sys_open "/mnt/large-file" [O_WRONLY; O_APPEND; O_CREAT; O_TRUNC; O_DIRECT]);
    if f <? 0 then return_joinable else
    _ ← ext_y step Clock_now;
    _ ← new_array (8 * queue_depth g);
    aio_loop step fuel 0 buff (fun _ => mret f);;
    join step fuel;;
    ext Aio_destroy;;
    _ ← ext (Sys_close f);
    _ ← ext Clock_now;
    mret ()).

(** *** The experiments *)

(** Ring, buffer, thread, files and writes; [name] names the files; [clock]
    where the time is taken here. *)
Definition experiment {R} (fuel : nat) (clock : bool) (name : Z -> string) : M (st local) R () :=
  call (
    setup_ring false;;
    buff ← make_buff;
    set_own (set_remaining (N g));;
    let step := reap_step false in
    if fn g <? 0 then stop_ UB_oob else                  (* int fds[n_files] *)
    fds ← open_files step name (Z.to_nat (fn g)) 0;
    when clock (_ ← ext_y step Clock_now; mret ());;
    spread step fuel fds buff;;
    join step fuel;;
    tick clock;;
    ext Uring_exit).

Definition contention_name (i : Z) : string := ("/mnt/large-file-" +:+ pretty i)%string.

Definition test_io_uring_exp_contention {R} (fuel : nat) : M (st local) R () :=
  experiment fuel true contention_name.

(** The threads have a ring and files of their own and share only the options;
    they are run in the order in which they are joined. *)
Fixpoint run_threads {R} (fuel todo : nat) (nonce : Z) : M (st local) R () :=
  match todo with
  | O => mret ()
  | S todo =>
      set_own (fun _ => local_start);;
      experiment fuel false (expr_name nonce);;
      run_threads fuel todo (nonce + 1)
  end.

Definition test_io_uring_exp_multithreads_large {R} (fuel : nat) : M (st local) R () :=
  _ ← ext Clock_now;
  if numthreads g <? 0 then stop_ UB_oob                 (* std::thread threads[numthreads] *)
  else
    run_threads fuel (Z.to_nat (numthreads g)) 0;;
    _ ← ext Clock_now;
    _ ← int_ret (numthreads g * N g);                     (* printed *)
    mret ().

Definition test_io_uring_exp_multithreads_small {R} : M (st local) R () := mret ().

(** [main] after [parse_args]. *)
Definition run_tests {R} (fuel : nat) : M (st local) R Z :=
  (if negb (bool_decide (exprm g = ""%string)) then
     if bool_decide (exprm g = "ml"%string) then test_io_uring_exp_contention fuel
     else if bool_decide (exprm g = "mt"%string) then
       if large g then test_io_uring_exp_multithreads_large fuel
       else test_io_uring_exp_multithreads_small
     else mret ()
   else if closed_loop g then
     if large g then test_large_blocking else test_small_blocking
   else if large g then
     if aio g then test_large_aio fuel
     else if poll g then test_large_io_uring_poll fuel else test_large_io_uring
   else if aio g then test_small_aio fuel
   else if poll g then mret ()                            (* "not implemented" *)
   else test_small_io_uring fuel);;
  mret 0.
End LocalRw.

(** The command line: what it gives for each option. *)
Record rw_arguments := mk_rw_arguments {
  r_d : option Z; r_b : option Z; r_bs : option Z; r_n : option Z; r_t : option Z;
  r_l : bool; r_p : bool; r_c : bool; r_r : bool; r_a : bool;
  r_exp : option string; r_fn : option Z; r_threads : option Z;
}.

Definition parse_args (a : rw_arguments) : option rw_options :=
  d ← get_int (int_option (r_d a) (Any_int 128));
  b ← get_int (int_option (r_b a) (Any_int 4096));
  bs ← get_int (int_option (r_bs a) (Any_int 4096));
  n ← get_int (int_option (r_n a) (Any_int 10000));
  t ← get_int (int_option (r_t a) (Any_int 2000));
  l ← get_bool (flag_option (r_l a));
  p ← get_bool (flag_option (r_p a));
  c ← get_bool (flag_option (r_c a));
  r ← get_bool (flag_option (r_r a));
  i ← get_bool (flag_option (r_a a));
  nfiles ← get_int (int_option (r_fn a) (Any_int 1));
  threads ← get_int (int_option (r_threads a) (Any_int 1));
  e ← get_string (text_option (r_exp a) (Any_string ""));
  Some (mk_rw_options n (u64 b) (u64 bs) d t l p c r i e nfiles threads).

Definition main {PF : Platform} {R} (fuel : nat) (argv : rw_arguments) : M (st local) R Z :=
  match parse_args argv with
  | None => stop_ Std_terminate
  | Some g => run_tests g fuel
  end.

(** ** The threads of a test with a ring *)

(** What the main thread did between two states: system calls on files, and
    operations given to the ring. *)
Record did (calls : history) (ops : list sqe_op) (s s' : st local) : Prop := {
  did_heap : heap s' = heap s;
  did_iocbs : iocbs (own s') = iocbs (own s);
  did_calls : file_calls (log s') = calls ++ file_calls (log s);
  did_ops : submitted_ops (log s') = submitted_ops (log s) ++ ops;
}.

Lemma did_refl s : did [] [] s s.
Proof. split; [done.. | by rewrite app_nil_r]. Qed.

Lemma did_trans c1 c2 o1 o2 s1 s2 s3 :
  did c1 o1 s1 s2 -> did c2 o2 s2 s3 -> did (c2 ++ c1) (o1 ++ o2) s1 s3.
Proof.
  intros [A1 A2 A3 A4] [B1 B2 B3 B4].
  split; [congruence | congruence | by rewrite B3, A3, app_assoc | by rewrite B4, A4, app_assoc].
Qed.

Lemma did_quiet_l c o s1 s2 s3 : did [] [] s1 s2 -> did c o s2 s3 -> did c o s1 s3.
Proof. intros H1 H2. rewrite <- (app_nil_r c). exact (did_trans _ _ _ _ _ _ _ H1 H2). Qed.

Lemma did_quiet_r c o s1 s2 s3 : did c o s1 s2 -> did [] [] s2 s3 -> did c o s1 s3.
Proof. intros H1 H2. rewrite <- (app_nil_r o). exact (did_trans _ _ _ _ _ _ _ H1 H2). Qed.

(** [k] operations were submitted of the [total] that the completion thread
    waits for; [q] is queued. *)
Record promised (total : Z) (k : nat) (q : list sqe) (s : st local) : Prop := {
  pr_count : remaining (own s) = total - Z.of_nat k + Z.of_nat (length (in_kernel (log s)));
  pr_kernel : (length (in_kernel (log s)) <= k)%nat;
  pr_total : Z.of_nat k <= total;
  pr_queue : queue (own s) = q;
}.

(** A call that neither enters the ring nor reaps. *)
Definition off_ring (e : ev) : bool :=
  match e with Uring_enter _ | Uring_wait_cqe | Uring_cqe_seen => false | _ => true end.

Lemma off_ring_log e r h :
  off_ring e = true ->
  in_kernel (e ~> r :: h) = in_kernel h /\ submitted_ops (e ~> r :: h) = submitted_ops h.
Proof. by destruct e. Qed.

Lemma for_loop_spec (body : Z -> run ()) (I : nat -> st local -> Prop) todo i s :
  (forall j s, (j < todo)%nat -> I j s ->
     wp (body (i + Z.of_nat j)) (fun o s' => o = Val () /\ I (S j) s') s) ->
  I O s -> wp (for_loop todo i body) (fun o s' => o = Val () /\ I todo s') s.
Proof.
  revert I i s. induction todo as [| todo IH]; intros I i s Hb H0; cbn [for_loop].
  { wp_steps. done. }
  pose proof (Hb O s ltac:(lia) H0) as H. rewrite Z.add_0_r in H.
  apply wp_bind. eapply wp_mono; [| exact H]. intros o s1 (-> & H1).
  apply (IH (fun j => I (S j))); [| done].
  intros j s2 Hj H2. replace (i + 1 + Z.of_nat j) with (i + Z.of_nat (S j)) by lia.
  apply Hb; [lia | done].
Qed.

(** Where a failed operation ends the thread, none fails. *)
Class Succeeds {PF : Platform} (strict : bool) : Prop :=
  succeeds : strict = true -> forall h ret res d,
    world h Uring_wait_cqe = Some (ret, res, d) -> 0 <= res.

#[export] Instance lenient_succeeds {PF : Platform} : Succeeds false.
Proof. done. Qed.

Section ring.
Context {PF : Platform} (SV : serving) (total : Z) {strict : bool} {SC : Succeeds strict}.
Implicit Types s : st local.
Let step := reap_step strict.

(** A reaped completion, or nothing. *)
Lemma reap_step_spec k q s :
  promised total k q s ->
  wp step (fun o s' => o = Val () /\ promised total k q s' /\ did [] [] s s' /\
    (remaining (own s') = remaining (own s) - 1 \/
     remaining (own s') = remaining (own s) /\
       (remaining (own s) <= 0 \/ in_kernel (log s') = []))) s.
Proof.
  intros I. unfold step, reap_step. wp_steps. destruct (remaining (own s) <=? 0) eqn:E; bool_hyps.
  { wp_steps. split; [done |]. split; [done |]. split; [apply did_refl |]. auto. }
  wp_steps. pose proof (wait_one SV (log s)) as Hone. rewrite <- Hw in Hone.
  destruct r as [[[ret res] d] |].
  2: { wp_steps. split; [done |]. split; [by destruct I; split |].
       split; [| by auto]. split; [done.. |]. by rewrite app_nil_r. }
  destruct Hone as [-> Hd]. cbn [Z.ltb Z.compare].
  assert (strict && (res <? 0) = false) as ->.
  { destruct strict; [| done]. cbn [andb]. apply Z.ltb_ge. by eapply (SC eq_refl (log s)). }
  wp_steps. pose proof (length_remove1 _ _ Hd) as Hlen. destruct I as [I1 I2 I3 I4].
  split; [done |]. split; [| split; [| by left]].
  - split; cbn [own log]; [| | done | done];
      change (in_kernel (_ :: _)) with (remove1 d (in_kernel (log s))); [| lia].
    cbn [set_remaining remaining]. lia.
  - split; [done.. |]. by rewrite app_nil_r.
Qed.

Lemma steps_spec n k q s :
  promised total k q s ->
  wp (steps step n) (fun o s' => o = Val () /\ promised total k q s' /\ did [] [] s s') s.
Proof.
  revert s. induction n as [| n IH]; intros s I; cbn [steps].
  { wp_steps. auto using did_refl. }
  apply wp_bind. eapply wp_mono; [| by apply (reap_step_spec k q)].
  intros o s1 (-> & I1 & D1 & _).
  eapply wp_mono; [| by apply IH]. intros o s2 (-> & I2 & D2). split; [done |]. split; [done |].
  exact (did_trans _ _ _ _ _ _ _ D1 D2).
Qed.

Lemma local_wp_yield k q (Q : outcome () () -> st local -> Prop) s :
  promised total k q s ->
  (forall s', promised total k q s' -> did [] [] s s' -> Q (Val ()) s') -> wp (yield step) Q s.
Proof.
  intros I H. change (wp (steps step (schedule (log s))) Q s).
  eapply wp_mono; [| by apply (steps_spec _ k q)]. intros o s' (-> & H1 & H2). by apply H.
Qed.

Lemma local_wp_ext_y k q e (Q : outcome () (reply e) -> st local -> Prop) s :
  promised total k q s -> off_ring e = true ->
  (forall s' r h, promised total k q s' -> r = world h e ->
     did (file_calls [e ~> r]) [] s s' -> Q (Val r) s') ->
  wp (ext_y step e) Q s.
Proof.
  intros I He H. unfold ext_y. apply wp_bind, (local_wp_yield k q); [done |].
  intros s1 I1 D1. apply wp_ext. intros r Hr.
  destruct (off_ring_log e r (log s1) He) as [Hk Ho].
  apply (H _ r (log s1)); [| done |].
  - destruct I1. split; cbn [own log]; rewrite ?Hk; done.
  - eapply did_quiet_l; [exact D1 |]. split; cbn [own log heap]; [done.. | |].
    + rewrite file_calls_cons, (file_calls_cons _ []). by destruct (is_file_call _).
    + by rewrite Ho, app_nil_r.
Qed.

Lemma local_submit_spec k q s :
  promised total k q s -> Z.of_nat (k + length q) <= total ->
  wp (submit step) (fun o s' => o = Val () /\ promised total (k + length q) [] s' /\
    did [] (operation <$> q) s s') s.
Proof.
  intros I Hk. unfold submit. apply wp_bind, (local_wp_yield k q); [done |].
  intros s1 [J1 J2 J3 J4] [D1 D2 D3 D4]. wp_steps.
  rewrite J4 in *. rewrite (enter_all SV) in Hw. subst r.
  split; [done |]. split; split; cbn [own log heap in_kernel submitted_ops set_queue remaining queue];
    rewrite ?J4, ?Nat2Z.id, ?firstn_all, ?drop_all, ?length_app, ?length_fmap; try done; try lia.
  by rewrite D4, app_nil_r.
Qed.

Lemma wait_sqe_spec fuel k q s :
  promised total k q s -> (0 < fuel)%nat ->
  wp (wait_sqe step fuel) (fun o s' => o = Val () /\ promised total k q s' /\ did [] [] s s') s.
Proof.
  intros I Hf. destruct fuel as [| fuel]; [lia |]. cbn [wait_sqe].
  apply wp_bind, (local_wp_ext_y k q Uring_get_sqe); [done | done |]. intros s1 r h I1 -> D1.
  rewrite (room SV). wp_steps. auto.
Qed.

Lemma prep_spec op link k q s :
  promised total k q s ->
  wp (prep op link) (fun o s' => o = Val () /\
    promised total k (q ++ [mk_sqe op None link]) s' /\ did [] [] s s') s.
Proof.
  intros [J1 J2 J3 J4]. unfold prep. wp_steps. split; [done |]. split; split; try done.
  - cbn. by rewrite J4.
  - by rewrite app_nil_r.
Qed.

Lemma prep_write_spec write l b link k q s :
  promised total k q s -> blocks (heap s) !! l = Some b ->
  wp (prep_write write l link) (fun o s' => o = Val () /\
    promised total k (q ++ [mk_sqe (write l b) None link]) s' /\ did [] [] s s') s.
Proof.
  intros I Hb. unfold prep_write. apply wp_bind, (wp_block_at l b); [done |].
  cbn beta iota. by apply prep_spec.
Qed.

Lemma local_join_spec fuel s :
  promised total (Z.to_nat total) [] s -> remaining (own s) <= Z.of_nat fuel ->
  wp (join step fuel) (fun o s' => o = Val () /\ did [] [] s s' /\ in_kernel (log s') = []) s.
Proof.
  revert s. induction fuel as [| fuel IH]; intros s I Hf; cbn [join]; wp_steps;
    destruct I as [I1 I2 I3 I4] eqn:EI; destruct (remaining (own s) <=? 0) eqn:E; bool_hyps; try lia.
  1, 2: wp_steps; split; [done |]; split; [apply did_refl |]; apply nil_length_inv; lia.
  clear EI. apply wp_bind. eapply wp_mono; [| by apply (reap_step_spec (Z.to_nat total) [])].
  intros o s1 (-> & [J1 J2 J3 J4] & D1 & Hl).
  assert (remaining (own s1) = remaining (own s) - 1) as Hdec.
  { destruct Hl as [Hl | (Hl & [Hl' | Hl'])]; [done | lia |]. rewrite Hl' in J1. cbn in J1. lia. }
  eapply wp_mono; [| apply IH; [done | lia]]. intros o s2 (-> & D2 & H).
  split; [done |]. split; [| done]. exact (did_trans _ _ _ _ _ _ _ D1 D2).
Qed.
End ring.

(** Files can be opened and there is memory. *)
Record granting {PF : Platform} : Prop := {
  grant_open : forall h p f, 0 <= world h (Sys_open p f);
  grant_alloc : forall h a n, world h (Alloc a n) = 0;
}.

(** The calls that open files with the descriptors [fds], newest first. *)
Definition opened_files (name : Z -> string) (flags : list open_flag) (fds : list Z) : history :=
  reverse (imap (fun i fd => Sys_open (name (Z.of_nat i)) flags ~> fd) fds).

Lemma opened_files_snoc name flags fds fd :
  opened_files name flags (fds ++ [fd]) =
  Sys_open (name (Z.of_nat (length fds))) flags ~> fd :: opened_files name flags fds.
Proof.
  unfold opened_files. rewrite imap_app, reverse_app. cbn. by rewrite Nat.add_0_r.
Qed.

Section tests.
Context {PF : Platform} (SV : serving) (GR : granting) (g : rw_options).
Implicit Types s : st local.

(** The buffer. *)
Definition ones : list mbyte := replicate (Z.to_nat (buffer_size g)) (Some xff).

Lemma wp_make_buff (Q : outcome () loc -> st local -> Prop) s :
  Q (Val (next_loc (heap s)))
    (mk_st (own s) (heap_filled ones (heap s))
       (Alloc (Some (blk_size g)) (buffer_size g) ~> 0 :: log s)) ->
  wp (make_buff g) Q s.
Proof.
  intros H. unfold make_buff, posix_memalign. wp_steps. rewrite (grant_alloc GR) in Hw. subst r.
  cbn [Z.eqb]. wp_steps. unfold heap_store, heap_alloc. cbn [blocks next_loc snd].
  by rewrite insert_insert_eq.
Qed.

Lemma filled_buff h : blocks (heap_filled ones h) !! next_loc h = Some ones.
Proof. apply lookup_insert_eq. Qed.

Lemma start_promised total hp h :
  0 <= total -> in_kernel h = [] -> promised total 0 [] (mk_st (set_remaining total local_start) hp h).
Proof. intros H E. split; cbn [own log]; rewrite ?E; cbn; try done; lia. Qed.

(** One write is queued and submitted. *)
Lemma write_one_spec total {strict} {SC : Succeeds strict} write l b k s :
  promised total k [] s -> blocks (heap s) !! l = Some b -> Z.of_nat k < total ->
  wp (prep_write write l false;; submit (reap_step strict)) (fun o s' => o = Val () /\
    promised total (S k) [] s' /\ did [] [write l b] s s') s.
Proof.
  intros I Hb Hk. apply wp_bind. eapply wp_mono; [| by eapply prep_write_spec].
  intros o s1 (-> & I1 & D1).
  eapply wp_mono; [| eapply (local_submit_spec SV _ (strict := strict)); [exact I1 | cbn; lia]].
  intros o s2 (-> & I2 & D2). cbn [app length] in I2. rewrite Nat.add_1_r in I2.
  split; [done |]. split; [done |]. by eapply did_quiet_l.
Qed.

Definition large_write (fd : Z) (l : loc) (i : nat) : sqe_op :=
  Op_write fd l ones (u64 (Z.of_nat i * buffer_size g) mod (10 * 2 ^ 30)).

(** The loop of that test. *)
Lemma large_writes_spec fd l s :
  0 <= N g -> promised (N g) 0 [] s -> blocks (heap s) !! l = Some ones ->
  wp (for_loop (Z.to_nat (N g)) 0 (fun i =>
        sqe ← ext_y (reap_step false) Uring_get_sqe;
        if negb (sqe : bool) then return_joinable else
        prep_write (fun l b => Op_write fd l b (u64 (i * buffer_size g) mod filesize)) l false;;
        submit (reap_step false)))
    (fun o s' => o = Val () /\ promised (N g) (Z.to_nat (N g)) [] s' /\
       did [] (large_write fd l <$> seq 0 (Z.to_nat (N g))) s s') s.
Proof.
  intros HN I0 Hb. apply (for_loop_spec _ (fun j s' =>
    promised (N g) j [] s' /\ did [] (large_write fd l <$> seq 0 j) s s')); [| auto using did_refl].
  intros j s1 Hj [I1 D1]. apply wp_bind, (local_wp_ext_y SV (N g) j [] Uring_get_sqe); [done.. |].
  intros s2 r h I2 -> D2. rewrite (room SV). cbn [negb].
  assert (blocks (heap s2) !! l = Some ones) as Hb2
    by (by rewrite (did_heap _ _ _ _ D2), (did_heap _ _ _ _ D1)).
  eapply wp_mono; [| eapply (write_one_spec _ (strict := false)); [exact I2 | exact Hb2 | lia]].
  intros o s3 (-> & I3 & D3). split; [done |]. split; [done |].
  rewrite seq_S, fmap_app. apply (did_trans [] [] _ _ s s1); [done |].
  by eapply did_quiet_l.
Qed.

(** C37: the asynchronous test on one large file submits its [N] writes, each at
    the next multiple of the buffer size modulo 10 GiB, and then ends the
    process: the completion thread is never joined. *)
Theorem test_large_io_uring_terminates {R} hp h :
  0 <= N g -> in_kernel h = [] ->
  exists s' fd, test_large_io_uring (R := R) g (mk_st local_start hp h) = (Stop Std_terminate, s') /\
    submitted_ops (log s') =
      submitted_ops h ++ (large_write fd (next_loc hp) <$> seq 0 (Z.to_nat (N g))).
Proof.
  intros HN Hk. set (s := mk_st _ _ _).
  enough (wp (test_large_io_uring (R := R) g) (fun o s' => o = Stop Std_terminate /\
    exists fd, submitted_ops (log s') =
      submitted_ops h ++ (large_write fd (next_loc hp) <$> seq 0 (Z.to_nat (N g)))) s) as H.
  { apply (wp_ex _ (Stop Std_terminate)) in H as (s' & E & fd & H). by exists s', fd. }
  unfold test_large_io_uring, setup_ring. wp_steps. rewrite (init_ok SV) in Hw. subst r.
  cbn [Z.eqb negb when]. wp_steps.
  pose proof (grant_open GR (Uring_init (u32 (queue_depth g)) ~> 0 :: h)
    "/mnt/test" [O_WRONLY; O_CREAT; O_DIRECT]) as Hr. cbn [log s] in Hw. rewrite <- Hw in Hr.
  rewrite (proj2 (Z.ltb_ge r 0) Hr). cbn [when]. wp_steps. apply wp_make_buff. wp_steps.
  set (s0 := mk_st _ _ _). assert (promised (N g) 0 [] s0) as I0 by (by apply start_promised).
  apply (local_wp_ext_y SV (N g) O [] Clock_now); [done.. |]. intros s1 r1 h1 I1 _ D1. wp_steps.
  eapply wp_mono; [| apply (large_writes_spec r (next_loc hp));
    [done.. | rewrite (did_heap _ _ _ _ D1); apply filled_buff]].
  intros o s2 (-> & I2 & D2). cbn beta iota.
  do 3 (apply wp_bind; eapply (local_wp_ext_y SV _ (strict := false)); [eassumption | done |];
        intros ? ? ? ? _ ?; cbn beta iota).
  unfold return_joinable. wp_steps. split; [done |]. exists r.
  rewrite !(did_ops _ _ _ _) by eassumption.
  by rewrite !app_nil_r.
Qed.

(** *** Small files *)

Definition file_ops (l : loc) (fd : Z) : list sqe_op := [Op_write fd l ones 0; Op_close fd].

Definition small_flags : list open_flag := [O_RDWR; O_APPEND; O_CREAT; O_TRUNC; O_DIRECT].

(** A write and its close are queued and submitted together. *)
Lemma write_close_spec fuel total fd l k s :
  promised total k [] s -> blocks (heap s) !! l = Some ones -> Z.of_nat k + 2 <= total ->
  (0 < fuel)%nat ->
  let step := reap_step false in
  wp (wait_sqe step fuel;;
      prep_write (fun l b => Op_write fd l b 0) l true;;
      wait_sqe step fuel;;
      prep (Op_close fd) false;;
      submit step) (fun o s' => o = Val () /\
    promised total (2 + k) [] s' /\ did [] (file_ops l fd) s s') s.
Proof.
  intros I Hb Hk Hf step. apply wp_bind. eapply wp_mono; [| by apply (wait_sqe_spec SV)].
  intros o s1 (-> & I1 & D1). apply wp_bind. eapply wp_mono;
    [| eapply prep_write_spec; [exact I1 | by rewrite (did_heap _ _ _ _ D1)]].
  intros o s2 (-> & I2 & D2). apply wp_bind. eapply wp_mono; [| by apply (wait_sqe_spec SV)].
  intros o s3 (-> & I3 & D3). apply wp_bind. eapply wp_mono; [| by apply prep_spec].
  intros o s4 (-> & I4 & D4). eapply wp_mono; [| eapply (local_submit_spec SV _ (strict := false)); [exact I4 | cbn; lia]].
  intros o s5 (-> & I5 & D5). cbn [app length] in I5. rewrite Nat.add_comm in I5.
  split; [done |]. split; [done |].
  do 4 (eapply did_quiet_l; [eassumption |]). done.
Qed.

Lemma small_files_spec fuel l s :
  0 <= N g -> (0 < fuel)%nat -> promised (2 * N g) 0 [] s -> blocks (heap s) !! l = Some ones ->
  let step := reap_step false in
  wp (for_loop (Z.to_nat (N g)) 0 (fun i =>
        f ← ext_y step (Sys_open (small_name i) small_flags);
        if f <? 0 then return_joinable else
        wait_sqe step fuel;;
        prep_write (fun l b => Op_write f l b 0) l true;;
        wait_sqe step fuel;;
        prep (Op_close f) false;;
        submit step))
    (fun o s' => o = Val () /\ promised (2 * N g) (2 * Z.to_nat (N g)) [] s' /\
       exists fds, length fds = Z.to_nat (N g) /\
         did (opened_files small_name small_flags fds) (fds ≫= file_ops l) s s') s.
Proof.
  intros HN Hf I0 Hb step. eapply wp_mono; [| apply (for_loop_spec _ (fun j s' =>
    promised (2 * N g) (2 * j) [] s' /\ exists fds, length fds = j /\
      did (opened_files small_name small_flags fds) (fds ≫= file_ops l) s s'))];
    [by intros o s' [-> H] | |].
  2: { split; [done |]. exists []. split; [done |]. apply did_refl. }
  intros j s1 Hj [I1 (fds & Hlen & D1)].
  apply wp_bind, (local_wp_ext_y SV (2 * N g) (2 * j) []
    (Sys_open (small_name (0 + Z.of_nat j)) small_flags)); [done.. |].
  intros s2 r h I2 Hr D2. pose proof (grant_open GR h (small_name (0 + Z.of_nat j)) small_flags) as H0.
  rewrite <- Hr in H0. rewrite (proj2 (Z.ltb_ge r 0) H0).
  assert (blocks (heap s2) !! l = Some ones) as Hb2
    by (by rewrite (did_heap _ _ _ _ D2), (did_heap _ _ _ _ D1)).
  eapply wp_mono; [| eapply write_close_spec; [exact I2 | exact Hb2 | lia | done]].
  intros o s3 (-> & I3 & D3). split; [done |].
  split; [by replace (2 * S j)%nat with (2 + 2 * j)%nat by lia |].
  exists (fds ++ [r]). split; [rewrite length_app; cbn; lia |].
  rewrite opened_files_snoc, bind_app, Hlen. change (Z.of_nat j) with (0 + Z.of_nat j).
  cbn [mbind list_bind]. rewrite app_nil_r. exact (did_trans _ _ _ _ _ _ _ D1 (did_trans _ _ _ _ _ _ _ D2 D3)).
Qed.

Lemma joined_spec fuel total clock s :
  0 <= total <= Z.of_nat fuel -> promised total (Z.to_nat total) [] s ->
  wp (join (reap_step false) fuel;; tick clock;; ext Uring_exit)
    (fun o s' => o = Val () /\ did [] [] s s' /\ in_kernel (log s') = []) s.
Proof.
  intros Hf I. apply wp_bind. eapply wp_mono; [| apply (local_join_spec SV total); [done |]].
  - intros o s1 (-> & D1 & H1). unfold tick. destruct clock; cbn [when]; wp_steps.
    all: match goal with u : reply Uring_exit |- _ => destruct u end.
    all: split; [done |]; split; [| done].
    all: eapply did_quiet_r; [exact D1 |]; split; [done.. |]; by rewrite app_nil_r.
  - destruct I. lia.
Qed.

(** A test that started with the heap [hp] and the history [h] has made the
    calls [calls] on files and submitted [ops]; all of it is complete, and the
    buffer is still allocated. *)
Record finished (hp : heap_t) (h : history) (calls : history) (ops : list sqe_op) (s' : st local)
  : Prop := {
  fin_calls : file_calls (log s') = calls ++ file_calls h;
  fin_ops : submitted_ops (log s') = submitted_ops h ++ ops;
  fin_kernel : in_kernel (log s') = [];
  fin_heap : live (heap s') = S (live hp);
}.

Lemma finished_did hp h calls ops s0 s1 s2 :
  heap_wf hp -> file_calls (log s0) = file_calls h -> submitted_ops (log s0) = submitted_ops h ->
  heap s0 = heap_filled ones hp -> did calls ops s0 s1 -> did [] [] s1 s2 ->
  in_kernel (log s2) = [] -> finished hp h calls ops s2.
Proof.
  intros W E1 E2 E3 H1 H2 Hk. destruct (did_quiet_r _ _ _ _ _ H1 H2) as [D1 D2 D3 D4].
  split; [congruence | congruence | done |]. rewrite D1, E3. by apply live_filled.
Qed.

(** C13: the asynchronous test on small files opens file [i] for every [i < N],
    submits its write and its close, waits for all of them and returns; its
    buffer is never freed. *)
Theorem test_small_io_uring_outcome {R} fuel hp h :
  0 <= N g -> 2 * N g < 2 ^ 31 -> 2 * N g < Z.of_nat fuel -> in_kernel h = [] -> heap_wf hp ->
  exists s' fds, test_small_io_uring (R := R) g fuel (mk_st local_start hp h) = (Val (), s') /\
    length fds = Z.to_nat (N g) /\
    finished hp h (opened_files small_name small_flags fds) (fds ≫= file_ops (next_loc hp)) s'.
Proof.
  intros HN Hi Hf Hk Hwf. set (s := mk_st _ _ _).
  enough (wp (test_small_io_uring (R := R) g fuel) (fun o s' => o = Val () /\
    exists fds, length fds = Z.to_nat (N g) /\
      finished hp h (opened_files small_name small_flags fds) (fds ≫= file_ops (next_loc hp)) s') s) as H.
  { apply (wp_ex _ (Val ())) in H as (s' & E & fds & H). by exists s', fds. }
  unfold test_small_io_uring, setup_ring. wp_steps. rewrite (init_ok SV) in Hw. subst r.
  cbn [Z.eqb negb when]. wp_steps. apply wp_make_buff. rewrite int_ret_ok by lia. wp_steps.
  set (s0 := mk_st _ _ _).
  assert (promised (2 * N g) 0 [] s0) as I0 by (by apply start_promised; [lia |]).
  apply (local_wp_ext_y SV (2 * N g) O [] Clock_now); [done.. |]. intros s1 r1 h1 I1 _ D1. wp_steps.
  eapply wp_mono; [| apply (small_files_spec fuel (next_loc hp)); [done | lia | done |];
    rewrite (did_heap _ _ _ _ D1); apply filled_buff].
  intros o s2 (-> & I2 & fds & Hl & D2). cbn beta iota.
  eapply wp_mono; [| apply (joined_spec fuel (2 * N g) true); [lia |];
    by replace (Z.to_nat (2 * N g)) with (2 * Z.to_nat (N g))%nat by lia].
  intros o s3 (-> & D3 & H3). cbn beta iota. split; [done |]. exists fds. split; [done |].
  by eapply (finished_did _ _ _ _ s0 s2); [done.. | by eapply did_quiet_l | |].
Qed.

(** *** Many files of one ring *)

Definition expr_flags : list open_flag := [O_WRONLY; O_APPEND; O_CREAT; O_TRUNC; O_DIRECT].

Lemma open_files_run_spec total k name todo i s :
  promised total k [] s ->
  wp (open_files (reap_step false) name todo i) (fun o s' => promised total k [] s' /\
    exists fds, o = Val fds /\ length fds = todo /\
      did (opened_files (fun j => name (i + j)) expr_flags fds) [] s s') s.
Proof.
  revert i s. induction todo as [| todo IH]; intros i s I; cbn [open_files].
  { wp_steps. split; [done |]. exists []. auto using did_refl. }
  apply wp_bind, (local_wp_ext_y SV total k [] (Sys_open (name i) expr_flags)); [done.. |].
  intros s1 r h I1 Hr D1. pose proof (grant_open GR h (name i) expr_flags) as H0.
  rewrite <- Hr in H0. rewrite (proj2 (Z.ltb_ge r 0) H0).
  apply wp_bind. eapply wp_mono; [| by apply IH]. intros o s2 (I2 & fds & -> & Hl & D2). wp_steps.
  split; [done |]. exists (r :: fds). split; [done |]. split; [cbn; lia |].
  enough (opened_files (fun j => name (i + j)) expr_flags (r :: fds) =
    opened_files (fun j => name (i + 1 + j)) expr_flags fds ++ [Sys_open (name i) expr_flags ~> r]) as ->
    by exact (did_trans _ _ [] [] _ _ _ D1 D2).
  unfold opened_files. rewrite imap_cons, reverse_cons. rewrite Z.add_0_r. f_equal. f_equal.
  apply imap_ext. intros j x _. unfold compose. by replace (i + 1 + Z.of_nat j) with (i + Z.of_nat (S j)) by lia.
Qed.

(** Write [i] goes to file [i mod n_files]. *)
Definition spread_write (fds : list Z) (l : loc) (i : nat) : sqe_op :=
  Op_write (fds !!! (i `mod` length fds)%nat) l ones 0.

Lemma file_of_spec fds i (Q : outcome () Z -> st local -> Prop) s :
  (0 < length fds)%nat -> Q (Val (fds !!! (i `mod` length fds)%nat)) s ->
  wp (file_of fds (Z.of_nat (length fds)) (Z.of_nat i)) Q s.
Proof.
  intros Hl H. unfold file_of, int_rem.
  rewrite (proj2 (Z.eqb_neq _ _)) by lia. rewrite (proj2 (Z.eqb_neq (Z.of_nat i) INT_MIN)) by (pose proof (Nat2Z.is_nonneg i); unfold INT_MIN; lia).
  cbn [andb]. wp_steps. rewrite Z.rem_mod_nonneg, <- Nat2Z.inj_mod, Nat2Z.id by lia.
  pose proof (Nat.mod_upper_bound i (length fds)) as Hm.
  destruct (lookup_lt_is_Some_2 fds (i `mod` length fds)%nat) as [fd E]; [lia |].
  rewrite E. wp_steps. by rewrite (list_lookup_total_correct _ _ _ E) in H.
Qed.

Lemma spread_spec fuel fds l s :
  0 <= N g -> (0 < fuel)%nat -> (0 < length fds)%nat -> fn g = Z.of_nat (length fds) ->
  promised (N g) 0 [] s -> blocks (heap s) !! l = Some ones ->
  wp (spread g (reap_step false) fuel fds l) (fun o s' => o = Val () /\
    promised (N g) (Z.to_nat (N g)) [] s' /\
    did [] (spread_write fds l <$> seq 0 (Z.to_nat (N g))) s s') s.
Proof.
  intros HN Hf Hl Hfn I0 Hb. unfold spread. rewrite Hfn. apply (for_loop_spec _ (fun j s' =>
    promised (N g) j [] s' /\ did [] (spread_write fds l <$> seq 0 j) s s')); [| auto using did_refl].
  intros j s1 Hj [I1 D1]. apply wp_bind. eapply wp_mono; [| by apply (wait_sqe_spec SV)].
  intros o s2 (-> & I2 & D2). apply wp_bind, file_of_spec; [done |].
  eapply wp_mono; [| eapply (write_one_spec _ (strict := false)); [exact I2 | | lia];
    by rewrite (did_heap _ _ _ _ D2), (did_heap _ _ _ _ D1)].
  intros o s3 (-> & I3 & D3). split; [done |]. split; [done |].
  rewrite seq_S, fmap_app. apply (did_trans [] [] _ _ s s1); [done |].
  by eapply did_quiet_l.
Qed.

(** C25: the experiments open [fn] files, submit write [i] to file [i mod fn],
    wait for all [N] and return.  Neither the files are closed nor is the buffer
    freed. *)
Theorem experiment_outcome {R} fuel clock name hp h :
  0 <= N g < Z.of_nat fuel -> 0 < fn g -> in_kernel h = [] -> heap_wf hp ->
  exists s' fds, experiment (R := R) g fuel clock name (mk_st local_start hp h) = (Val (), s') /\
    length fds = Z.to_nat (fn g) /\
    finished hp h (opened_files name expr_flags fds)
      (spread_write fds (next_loc hp) <$> seq 0 (Z.to_nat (N g))) s'.
Proof.
  intros HN Hn Hk Hwf. set (s := mk_st _ _ _).
  enough (wp (experiment (R := R) g fuel clock name) (fun o s' => o = Val () /\
    exists fds, length fds = Z.to_nat (fn g) /\
      finished hp h (opened_files name expr_flags fds)
        (spread_write fds (next_loc hp) <$> seq 0 (Z.to_nat (N g))) s') s) as H.
  { apply (wp_ex _ (Val ())) in H as (s' & E & fds & H). by exists s', fds. }
  unfold experiment, setup_ring. wp_steps. rewrite (init_ok SV) in Hw. subst r.
  cbn [Z.eqb negb when]. wp_steps. apply wp_make_buff. wp_steps.
  set (s0 := mk_st _ _ _). assert (promised (N g) 0 [] s0) as I0 by (apply start_promised; [lia | done]).
  rewrite (proj2 (Z.ltb_ge (fn g) 0)) by lia. wp_steps.
  eapply wp_mono; [| apply (open_files_run_spec (N g) 0 name); exact I0].
  intros o s1 (I1 & fds & -> & Hl & D1). cbn beta iota.
  set (calls := opened_files _ _ _) in D1.
  assert (wp (when clock (_ ← ext_y (reap_step false) Clock_now; mret ()))
    (fun o s2 => o = Val () /\ promised (N g) 0 [] s2 /\ did calls [] s0 s2) s1) as Hc.
  { destruct clock; cbn [when]; [| by wp_steps].
    apply wp_bind, (local_wp_ext_y SV (N g) O [] Clock_now); [done.. |]. intros s2 r1 h1 I2 _ D2.
    wp_steps. split; [done |]. split; [done |]. by eapply did_quiet_r. }
  apply wp_bind. eapply wp_mono; [| exact Hc]. intros o s2 (-> & I2 & D2). cbn beta iota.
  apply wp_bind. eapply wp_mono; [| apply (spread_spec fuel fds (next_loc hp)); [lia | lia | lia | lia | done |];
    rewrite (did_heap _ _ _ _ D2); apply filled_buff].
  intros o s3 (-> & I3 & D3). cbn beta iota.
  eapply wp_mono; [| apply (joined_spec fuel (N g) clock); [lia | done]].
  intros o s4 (-> & D4 & H4). cbn beta iota. split; [done |]. exists fds. split; [done |].
  eapply (finished_did _ _ _ _ s0 s3); [done.. | | exact D4 | done].
  exact (did_trans calls [] [] _ _ _ _ D2 D3).
Qed.
(** *** Polling *)

(** A ring with a polling thread, and a registered file. *)
Record polling : Prop := {
  poll_init : forall h d t, world h (Uring_init_sqpoll d t) = 0;
  poll_register : forall h f, world h (Uring_register_files f) = 0;
  poll_wait : forall h, world h Uring_sqring_wait = 0;
}.

Lemma poll_writes_spec {SC : Succeeds true} fuel l s :
  polling -> 0 <= N g -> (0 < fuel)%nat -> promised (N g) 0 [] s -> blocks (heap s) !! l = Some ones ->
  let step := reap_step true in
  wp (for_loop (Z.to_nat (N g)) 0 (fun _ =>
        r ← ext_y step Uring_sqring_wait;
        if negb (r =? 0) then return_joinable else
        wait_sqe step fuel;;
        prep_write (fun l b => Op_write_fixed 0 l b 0) l false;;
        submit step))
    (fun o s' => o = Val () /\ promised (N g) (Z.to_nat (N g)) [] s' /\
       did [] (replicate (Z.to_nat (N g)) (Op_write_fixed 0 l ones 0)) s s') s.
Proof.
  intros PL HN Hf I0 Hb step. apply (for_loop_spec _ (fun j s' =>
    promised (N g) j [] s' /\ did [] (replicate j (Op_write_fixed 0 l ones 0)) s s'));
    [| auto using did_refl].
  intros j s1 Hj [I1 D1]. apply wp_bind, (local_wp_ext_y SV (N g) j [] Uring_sqring_wait); [done.. |].
  intros s2 r h I2 -> D2. rewrite (poll_wait PL). cbn [Z.eqb negb].
  apply wp_bind. eapply wp_mono; [| by apply (wait_sqe_spec SV)]. intros o s3 (-> & I3 & D3).
  assert (blocks (heap s3) !! l = Some ones) as Hb3
    by (by rewrite (did_heap _ _ _ _ D3), (did_heap _ _ _ _ D2), (did_heap _ _ _ _ D1)).
  eapply wp_mono; [| eapply (write_one_spec _ (strict := true)); [exact I3 | exact Hb3 | lia]].
  intros o s4 (-> & I4 & D4). split; [done |]. split; [done |].
  rewrite replicate_S_end. apply (did_trans [] [] _ _ s s1); [done |].
  eapply did_quiet_l; [exact D2 |]. by eapply did_quiet_l.
Qed.

(** The test with a polling ring, where no operation fails: it submits [N] writes
    to the registered file, waits for all of them, closes the file and returns;
    its buffer is not freed. *)
Theorem test_large_io_uring_poll_outcome {R} {SC : Succeeds true} fuel hp h :
  polling -> 0 <= N g < Z.of_nat fuel -> in_kernel h = [] -> heap_wf hp ->
  exists s' fd c, test_large_io_uring_poll (R := R) g fuel (mk_st local_start hp h) = (Val (), s') /\
    finished hp h [Sys_close fd ~> c; Sys_open "/mnt/large-file" expr_flags ~> fd]
      (replicate (Z.to_nat (N g)) (Op_write_fixed 0 (next_loc hp) ones 0)) s'.
Proof.
  intros PL HN Hk Hwf. set (s := mk_st _ _ _).
  enough (wp (test_large_io_uring_poll (R := R) g fuel) (fun o s' => o = Val () /\ exists fd c,
    finished hp h [Sys_close fd ~> c; Sys_open "/mnt/large-file" expr_flags ~> fd]
      (replicate (Z.to_nat (N g)) (Op_write_fixed 0 (next_loc hp) ones 0)) s') s) as H.
  { apply (wp_ex _ (Val ())) in H as (s' & E & fd & c & H). by exists s', fd, c. }
  unfold test_large_io_uring_poll, setup_ring. wp_steps. rewrite (poll_init PL) in Hw. subst r.
  cbn [Z.eqb negb when]. wp_steps.
  pose proof (grant_open GR (Uring_init_sqpoll (u32 (queue_depth g)) (u32 (idle_threshold g)) ~> 0 :: h)
    "/mnt/large-file" [O_WRONLY; O_APPEND; O_CREAT; O_TRUNC; O_DIRECT]) as Hr. cbn [log s] in Hw. rewrite <- Hw in Hr.
  rewrite (proj2 (Z.ltb_ge r 0) Hr). cbn [when]. wp_steps.
  rewrite (poll_register PL) in Hw0. subst r0. cbn [Z.eqb negb when]. wp_steps.
  apply wp_make_buff. wp_steps.
  set (s0 := mk_st _ _ _). assert (promised (N g) 0 [] s0) as I0 by (by apply start_promised; [lia |]).
  apply (local_wp_ext_y SV (N g) (strict := true) O [] Clock_now); [done.. |].
  intros s1 r1 h1 I1 _ D1. wp_steps.
  eapply wp_mono; [| apply (poll_writes_spec fuel (next_loc hp)); [done | lia | lia | done |];
    rewrite (did_heap _ _ _ _ D1); apply filled_buff].
  intros o s2 (-> & I2 & D2). cbn beta iota. apply wp_bind.
  eapply wp_mono; [| apply (local_join_spec SV (N g) (strict := true)); [done | destruct I2; lia]].
  intros o s3 (-> & D3 & H3). cbn beta iota. wp_steps.
  match goal with u : reply Uring_exit |- _ => destruct u end.
  split; [done |]. exists r, r2.
  destruct (did_quiet_r _ _ _ _ _ (did_quiet_l _ _ _ _ _ D1 D2) D3) as [E1 _ E3 E4].
  split; cbn [own log heap].
  - rewrite !file_calls_cons. cbn [is_file_call app]. rewrite E3. cbn [log s0].
    by rewrite !file_calls_cons.
  - exact E4.
  - exact H3.
  - rewrite E1. by apply live_filled.
Qed.

End tests.

(** ** The threads of a test with libaio *)

(** The [iocb]s that the kernel has taken and not returned. *)
Fixpoint in_aio (h : history) : list loc :=
  match h with
  | [] => []
  | existT e r :: h =>
      match e as e' return reply e' -> list loc with
      | Aio_submit _ batch => fun n => in_aio h ++ (fst <$> take (Z.to_nat n) batch)
      | Aio_getevents _ _ => fun ne => list_difference (in_aio h) (take (Z.to_nat ne.1) ne.2)
      | _ => fun _ => in_aio h
      end r
  end.

(** The writes that the kernel has taken. *)
Fixpoint aio_ops (h : history) : list sqe_op :=
  match h with
  | [] => []
  | existT e r :: h =>
      match e as e' return reply e' -> list sqe_op with
      | Aio_submit _ batch => fun n => aio_ops h ++ (snd <$> take (Z.to_nat n) batch)
      | _ => fun _ => aio_ops h
      end r
  end.

(** [io_submit] takes a part of what it is given, or fails; [io_getevents]
    returns operations that it has taken, once each. *)
Record aio_serving {PF : Platform} : Prop := {
  aio_init : forall h n, world h (Aio_setup n) = 0;
  aio_some : forall h n batch, world h (Aio_submit n batch) <= n;
  aio_events : forall h lo hi n objs, world h (Aio_getevents lo hi) = (n, objs) ->
    n = Z.of_nat (length objs) /\ NoDup objs /\ objs ⊆ in_aio h;
}.

Lemma list_difference_length (l k : list loc) :
  NoDup l -> NoDup k -> k ⊆ l -> (length (list_difference l k) + length k)%nat = length l.
Proof.
  intros Hl Hk Hs. rewrite <- length_app. apply Permutation_length, NoDup_Permutation.
  - apply NoDup_app. split; [by apply NoDup_list_difference |]. split; [| done].
    intros x. by rewrite list_elem_of_difference; intros [].
  - done.
  - intros x. rewrite elem_of_app, list_elem_of_difference. destruct (decide (x ∈ k)); naive_solver.
Qed.

Section aio.
Context {PF : Platform} (AS : aio_serving) (GR : granting) (g : rw_options) (closing : bool).
Implicit Types s : st local.
Let step := events_step g closing.

(** A descriptor belongs to each [iocb] where the thread closes the files. *)
Definition own_fds (n : nat) : Z := if closing then Z.of_nat n else 0.

(** [k] writes were taken; [extra] are [iocb]s that are allocated and not taken;
    [base] are the other blocks, [fds] the number of other open descriptors. *)
Record aio_inv (base : gmap loc (list mbyte)) (fds : Z) (extra : list loc) (k : nat) s : Prop := {
  ai_count : remaining (own s) = N g - Z.of_nat k + Z.of_nat (length (in_aio (log s)));
  ai_taken : (length (in_aio (log s)) <= k)%nat;
  ai_nodup : NoDup (extra ++ in_aio (log s));
  ai_keys : forall l, l ∈ extra ++ in_aio (log s) <-> is_Some (iocbs (own s) !! l);
  ai_in : forall l, l ∈ extra ++ in_aio (log s) ->
    base !! l = None /\ is_Some (blocks (heap s) !! l);
  ai_out : forall l, l ∉ extra ++ in_aio (log s) -> blocks (heap s) !! l = base !! l;
  ai_wf : heap_wf (heap s);
  ai_fds : open_fds (log s) = fds + own_fds (length (extra ++ in_aio (log s)));
}.

(** The events are retired one by one. *)
Lemma retire_spec todo s :
  NoDup todo -> (forall l, l ∈ todo -> is_Some (iocbs (own s) !! l) /\ is_Some (blocks (heap s) !! l)) ->
  heap_wf (heap s) ->
  wp (retire closing todo) (fun o s' => o = Val () /\
    remaining (own s') = remaining (own s) /\
    (forall l, iocbs (own s') !! l = if decide (l ∈ todo) then None else iocbs (own s) !! l) /\
    (forall l, blocks (heap s') !! l = if decide (l ∈ todo) then None else blocks (heap s) !! l) /\
    heap_wf (heap s') /\ in_aio (log s') = in_aio (log s) /\ aio_ops (log s') = aio_ops (log s) /\
    open_fds (log s') = open_fds (log s) - own_fds (length todo)) s.
Proof.
  revert s. induction todo as [| l todo IH]; intros s Hd Hin Hwf; cbn [retire].
  { wp_steps. unfold own_fds. destruct closing; repeat split; try done; cbn; lia. }
  apply NoDup_cons in Hd as [Hl Hd].
  destruct (Hin l) as [[fd Hfd] [b Hb]]; [apply list_elem_of_here |]. wp_steps. rewrite Hfd.
  set (after := fun o s1 => o = @Val () () () /\ own s1 = own s /\ heap s1 = heap s /\
    in_aio (log s1) = in_aio (log s) /\ aio_ops (log s1) = aio_ops (log s) /\
    open_fds (log s1) = open_fds (log s) - own_fds 1).
  assert (wp (when closing (_ ← ext (Sys_close fd); mret ())) after s) as Hc.
  { unfold after, own_fds. destruct closing; cbn [when]; wp_steps; repeat split; cbn; lia. }
  apply wp_bind. eapply wp_mono; [| exact Hc]. intros o s1 (-> & E1 & E2 & E3 & E4 & E5).
  apply wp_bind, (wp_release l b); [by rewrite E2 |]. wp_steps.
  eapply wp_mono; [| apply IH; [done | | apply heap_free_wf; by rewrite E2]].
  - intros o s2 (-> & F1 & F2 & F3 & F4 & F5 & F6 & F7).
    cbn [own heap log set_iocbs remaining iocbs heap_free blocks] in *.
    rewrite E1, E2, E3, E4, E5 in *. split; [done |]. split; [done |].
    split; [| split; [| repeat split; try done]].
    + intros x. rewrite F2. destruct (decide (x = l)) as [-> | Hx].
      * rewrite lookup_delete_eq, (decide_True (P := l ∈ l :: todo)) by apply list_elem_of_here.
        by case_decide.
      * rewrite lookup_delete_ne by done. do 2 case_decide; set_solver.
    + intros x. rewrite F3. destruct (decide (x = l)) as [-> | Hx].
      * rewrite lookup_delete_eq, (decide_True (P := l ∈ l :: todo)) by apply list_elem_of_here.
        by case_decide.
      * rewrite lookup_delete_ne by done. do 2 case_decide; set_solver.
    + rewrite F7. unfold own_fds. cbn [length]. destruct closing; lia.
  - cbn [own heap set_iocbs iocbs heap_free blocks]. rewrite E1, E2. intros x Hx.
    rewrite !lookup_delete_ne by (by intros ->). apply Hin. by apply list_elem_of_further.
Qed.

(** A round of the thread, with or without events. *)
Lemma events_step_spec base fds extra k s :
  aio_inv base fds extra k s ->
  wp step (fun o s' => o = Val () /\ aio_inv base fds extra k s' /\ aio_ops (log s') = aio_ops (log s) /\
    (0 < remaining (own s) ->
     (forall h lo hi, in_aio h <> [] -> 0 < (world h (Aio_getevents lo hi)).1) ->
     in_aio (log s) <> [] -> remaining (own s') < remaining (own s))) s.
Proof.
  intros I. unfold step, events_step. wp_steps. destruct (remaining (own s) <=? 0) eqn:E; bool_hyps.
  { wp_steps. split; [done |]. split; [done |]. split; [done |]. lia. }
  wp_steps. destruct r as [n objs]. symmetry in Hw. destruct (aio_events AS _ _ _ _ _ Hw) as (-> & Hd & Hs).
  rewrite Nat2Z.id, firstn_all. destruct I as [I1 I2 I3 I4 I5 I6 I7 I8].
  apply wp_bind. eapply wp_mono; [| apply retire_spec; [done | | done]].
  2: { intros l Hl. apply Hs in Hl. split; [apply I4 | apply I5]; apply elem_of_app; by right. }
  intros o s1 (-> & F1 & F2 & F3 & F4 & F5 & F6 & F7). cbn [own heap log] in *. wp_steps.
  apply NoDup_app in I3 as (N1 & N2 & N3).
  pose proof (list_difference_length _ _ N3 Hd Hs) as Hlen.
  cbn [in_aio aio_ops open_fds fd_delta fst snd] in F5, F6, F7.
  rewrite Nat2Z.id, firstn_all in F5.
  assert (forall l, l ∈ extra ++ in_aio (log s1) <-> l ∈ extra ++ in_aio (log s) /\ l ∉ objs) as Hk.
  { intros l. rewrite F5, !elem_of_app, list_elem_of_difference. specialize (N2 l).
    destruct (decide (l ∈ objs)) as [Ho | Ho]; [apply Hs in Ho as Ho'; naive_solver | naive_solver]. }
  split; [done |]. split; [split; cbn [own heap log set_remaining remaining iocbs] |].
  - rewrite F1, F5. lia.
  - rewrite F5. lia.
  - rewrite F5. apply NoDup_app. split; [done |]. split; [| by apply NoDup_list_difference].
    intros l Hl. rewrite list_elem_of_difference. intros [H _]. by apply (N2 l).
  - intros l. rewrite Hk, F2, I4. case_decide; [| tauto]. split; [tauto | by intros []].
  - intros l [Hl Ho]%Hk. rewrite F3, decide_False by done. by apply I5.
  - intros l Hl. rewrite F3. case_decide as Ho.
    + symmetry. apply I5, elem_of_app. right. by apply Hs.
    + apply I6. rewrite Hk in Hl. tauto.
  - done.
  - rewrite F7, I8, F5, !length_app. unfold own_fds. destruct closing; lia.
  - split; [done |]. intros _ Hp He. cbn [remaining set_remaining]. rewrite F1.
    specialize (Hp (log s) (Z.quot (queue_depth g) 2) (queue_depth g) He). rewrite Hw in Hp. cbn in Hp. lia.
Qed.

Lemma aio_steps_spec n base fds extra k s :
  aio_inv base fds extra k s ->
  wp (steps step n) (fun o s' => o = Val () /\ aio_inv base fds extra k s' /\
    aio_ops (log s') = aio_ops (log s)) s.
Proof.
  revert s. induction n as [| n IH]; intros s I; cbn [steps].
  { by wp_steps. }
  apply wp_bind. eapply wp_mono; [| by apply events_step_spec]. intros o s1 (-> & I1 & E1 & _).
  eapply wp_mono; [| by apply IH]. intros o s2 (-> & I2 & E2). split; [done |]. by rewrite E2.
Qed.

Lemma aio_wp_yield base fds extra k (Q : outcome () () -> st local -> Prop) s :
  aio_inv base fds extra k s ->
  (forall s', aio_inv base fds extra k s' -> aio_ops (log s') = aio_ops (log s) -> Q (Val ()) s') ->
  wp (yield step) Q s.
Proof.
  intros I H. change (wp (steps step (schedule (log s))) Q s).
  eapply wp_mono; [| by apply aio_steps_spec]. intros o s' (-> & H1 & H2). by apply H.
Qed.

(** A call that is not libaio's. *)
Definition off_aio (e : ev) : bool :=
  match e with Aio_submit _ _ | Aio_getevents _ _ => false | _ => true end.

Lemma off_aio_log e r h :
  off_aio e = true -> in_aio (e ~> r :: h) = in_aio h /\ aio_ops (e ~> r :: h) = aio_ops h.
Proof. by destruct e. Qed.

Lemma aio_wp_ext_y base fds extra k e (Q : outcome () (reply e) -> st local -> Prop) s :
  aio_inv base fds extra k s -> off_aio e = true ->
  (forall s' r h, aio_inv base (fds + fd_delta (e ~> r)) extra k s' -> r = world h e ->
     aio_ops (log s') = aio_ops (log s) -> Q (Val r) s') ->
  wp (ext_y step e) Q s.
Proof.
  intros I He H. unfold ext_y. apply wp_bind, (aio_wp_yield base fds extra k); [done |].
  intros s1 [I1 I2 I3 I4 I5 I6 I7 I8] E1. apply wp_ext. intros r Hr.
  destruct (off_aio_log e r (log s1) He) as [Hk Ho].
  apply (H _ r (log s1)); [| done | cbn [log]; by rewrite Ho].
  split; cbn [own heap log]; rewrite ?Hk; try done.
  cbn [open_fds]. rewrite I8. lia.
Qed.

(** An [iocb] is allocated for a descriptor that was counted among the others. *)
Lemma new_iocb_spec base fds extra k fd buff s :
  aio_inv base (fds + own_fds 1) extra k s -> base !! buff = Some (ones g) ->
  wp (new_iocb fd buff) (fun o s' => exists l, o = Val (l, Op_write fd buff (ones g) 0) /\
    aio_inv base fds (extra ++ [l]) k s' /\ aio_ops (log s') = aio_ops (log s)) s.
Proof.
  intros [I1 I2 I3 I4 I5 I6 I7 I8] Hb. unfold new_iocb, new_array. cbn [Z.ltb Z.compare].
  wp_steps. rewrite (grant_alloc GR) in Hw. subst r. cbn [Z.eqb]. wp_steps.
  pose proof (heap_alloc_fresh _ I7) as Hfresh.
  assert (next_loc (heap s) ∉ extra ++ in_aio (log s)) as Hn.
  { intros H. apply I5 in H as [_ [b H]]. congruence. }
  assert (base !! next_loc (heap s) = None) as Hbn by (by rewrite <- I6).
  apply (wp_block_at buff (ones g)).
  { cbn. rewrite lookup_insert_ne by (intros E; congruence). rewrite I6; [done |].
    intros H. apply I5 in H as [H _]. congruence. }
  wp_steps. exists (next_loc (heap s)). split; [done |]. split; [| done].
  assert (forall l, l ∈ (extra ++ [next_loc (heap s)]) ++ in_aio (log s) <->
                    l = next_loc (heap s) \/ l ∈ extra ++ in_aio (log s)) as Hk by set_solver.
  split; cbn [own heap log set_iocbs remaining iocbs heap_alloc snd blocks].
  - done.
  - done.
  - change (in_aio (_ :: log s)) with (in_aio (log s)).
    rewrite <- app_assoc. cbn [app]. rewrite <- Permutation_middle. by apply NoDup_cons.
  - intros l. change (in_aio (_ :: log s)) with (in_aio (log s)). rewrite Hk, I4.
    destruct (decide (l = next_loc (heap s))) as [-> | Hl];
      [rewrite lookup_insert_eq | rewrite lookup_insert_ne by done]; naive_solver.
  - intros l. change (in_aio (_ :: log s)) with (in_aio (log s)). rewrite Hk.
    destruct (decide (l = next_loc (heap s))) as [-> | Hl];
      [rewrite lookup_insert_eq; by eauto | rewrite lookup_insert_ne by done]. intros [| Hl']; [done | by apply I5].
  - intros l. change (in_aio (_ :: log s)) with (in_aio (log s)). rewrite Hk. intros Hl.
    rewrite lookup_insert_ne by (intros <-; apply Hl; by left). apply I6. tauto.
  - apply (heap_alloc_wf 64 (heap s)). done.
  - cbn [open_fds fd_delta]. change (in_aio (_ :: log s)) with (in_aio (log s)).
    rewrite I8. unfold own_fds. rewrite !length_app. cbn [length]. destruct closing; lia.
Qed.

Section batches.
Context (base : gmap loc (list mbyte)) (fds : Z) (buff : loc) (target : Z -> run Z) (T : Z -> Prop).
Hypothesis buff_there : base !! buff = Some (ones g).
Hypothesis target_spec : forall cnt extra k s,
  aio_inv base fds extra k s ->
  wp (target cnt) (fun o s' => exists fd, o = Val fd /\ T fd /\
    aio_inv base (fds + own_fds 1) extra k s' /\ aio_ops (log s') = aio_ops (log s)) s.

(** The entries for the descriptors [l]. *)
Definition aio_write (fd : Z) : sqe_op := Op_write fd buff (ones g) 0.

Lemma fill_batch_spec todo cnt extra k s :
  cnt <= N g -> aio_inv base fds extra k s ->
  let m := Nat.min todo (Z.to_nat (N g - cnt)) in
  wp (fill_batch g todo cnt buff target) (fun o s' => exists batch l,
    o = Val (batch, cnt + Z.of_nat m) /\ snd <$> batch = aio_write <$> l /\ length l = m /\ Forall T l /\
    aio_inv base fds (extra ++ (fst <$> batch)) k s' /\ aio_ops (log s') = aio_ops (log s)) s.
Proof.
  revert cnt extra s. induction todo as [| todo IH]; intros cnt extra s Hc I; cbn [fill_batch].
  { wp_steps. exists [], []. cbn. by rewrite Z.add_0_r, app_nil_r. }
  destruct (cnt <? N g) eqn:E; bool_hyps.
  2: { wp_steps. exists [], []. replace (Z.to_nat (N g - cnt)) with O by lia.
       rewrite Nat.min_0_r. cbn. by rewrite Z.add_0_r, app_nil_r. }
  apply wp_bind. eapply wp_mono; [| by apply target_spec]. intros o s1 (fd & -> & HT & I1 & E1).
  apply wp_bind. eapply wp_mono; [| by apply new_iocb_spec]. intros o s2 (l & -> & I2 & E2).
  apply wp_bind. eapply wp_mono; [| apply (IH (cnt + 1)); [lia | exact I2]].
  intros o s3 (batch & lf & -> & Hb & Hl & HTs & I3 & E3). wp_steps.
  exists ((l, aio_write fd) :: batch), (fd :: lf).
  replace (Nat.min (S todo) (Z.to_nat (N g - cnt))) with
    (S (Nat.min todo (Z.to_nat (N g - (cnt + 1))))) by lia.
  split; [do 2 f_equal; lia |]. cbn [fmap list_fmap snd fst length]. rewrite Hb, Hl.
  rewrite <- app_assoc in I3. split; [done |]. split; [done |]. split; [by constructor |]. split; [done |]. congruence.
Qed.

(** The kernel takes the first [r] entries of a batch. *)
Lemma aio_submit_spec batch extra k s :
  aio_inv base fds (extra ++ (fst <$> batch)) k s ->
  let n := Z.of_nat (length batch) in
  wp (ext_y step (Aio_submit n batch)) (fun o s' => exists r h, o = Val r /\
    r = world h (Aio_submit n batch) /\ r <= n /\
    aio_inv base fds (extra ++ (fst <$> drop (Z.to_nat r) batch)) (k + Z.to_nat r) s' /\
    aio_ops (log s') = aio_ops (log s) ++ (snd <$> take (Z.to_nat r) batch)) s.
Proof.
  intros I n. unfold ext_y. apply wp_bind, (aio_wp_yield base fds (extra ++ (fst <$> batch)) k); [done |].
  intros s1 [I1 I2 I3 I4 I5 I6 I7 I8] E1. wp_steps. exists r, (log s1).
  pose proof (aio_some AS (log s1) n batch) as Hr. rewrite <- Hw in Hr.
  split; [done |]. split; [done |]. split; [done |].
  set (taken := take (Z.to_nat r) batch). set (left := drop (Z.to_nat r) batch).
  assert (length taken = Z.to_nat r) as Ht by (apply length_take_le; lia).
  assert ((extra ++ (fst <$> left)) ++ in_aio (log s1) ++ (fst <$> taken) ≡ₚ
          (extra ++ (fst <$> batch)) ++ in_aio (log s1)) as P.
  { rewrite <- (take_drop (Z.to_nat r) batch). fold taken left. rewrite fmap_app. solve_Permutation. }
  change (in_aio (_ :: log s1)) with (in_aio (log s1) ++ (fst <$> taken)).
  split; [| by rewrite <- E1].
  split; cbn [own heap log];
    change (in_aio (_ :: log s1)) with (in_aio (log s1) ++ (fst <$> taken)); rewrite ?P.
  - rewrite length_app, length_fmap, Ht. lia.
  - rewrite length_app, length_fmap, Ht. lia.
  - done.
  - intros l. by rewrite P.
  - intros l. rewrite P. apply I5.
  - intros l. rewrite P. apply I6.
  - done.
  - exact I8.
Qed.

(** The kernel takes every batch whole: all writes are taken, in order. *)
Lemma aio_loop_full fuel cnt s :
  (forall h n batch, world h (Aio_submit n batch) = n) -> 0 < queue_depth g ->
  0 <= cnt <= N g -> N g - cnt <= Z.of_nat fuel -> aio_inv base fds [] (Z.to_nat cnt) s ->
  wp (aio_loop g step fuel cnt buff target) (fun o s' => o = Val () /\
    aio_inv base fds [] (Z.to_nat (N g)) s' /\
    exists l, length l = Z.to_nat (N g - cnt) /\ Forall T l /\
      aio_ops (log s') = aio_ops (log s) ++ (aio_write <$> l)) s.
Proof.
  intros Hall Hq. revert cnt s. induction fuel as [| fuel IH]; intros cnt s Hc Hf I; cbn [aio_loop];
    destruct (cnt <? N g) eqn:E; bool_hyps; try lia.
  1, 3: wp_steps; replace cnt with (N g) in * by lia; split; [done |]; split; [done |];
    exists []; rewrite app_nil_r; split; [cbn; lia | by split; [constructor |]].
  apply wp_bind. eapply wp_mono; [| apply (fill_batch_spec _ cnt []); [lia | done]].
  cbn zeta. set (m := Nat.min _ _). intros o s1 (batch & l & -> & Hb & Hl & HT & I1 & E1). cbn beta iota.
  assert (length batch = m) as Hm by (rewrite <- Hl, <- (length_fmap snd batch), Hb; apply length_fmap).
  apply wp_bind. eapply wp_mono; [| eapply (aio_submit_spec batch []); exact I1].
  cbn zeta. intros o s2 (r & h & -> & Hr & _ & I2 & E2). rewrite Hall in Hr. subst r.
  rewrite Nat2Z.id, drop_all in I2. rewrite Nat2Z.id, firstn_all in E2. cbn beta iota.
  replace (Z.to_nat cnt + length batch)%nat with (Z.to_nat (cnt + Z.of_nat m)) in I2 by lia.
  eapply wp_mono; [| apply (IH (cnt + Z.of_nat m) s2); [lia | lia | done]].
  intros o s3 (-> & I3 & l3 & Hl3 & HT3 & E3). split; [done |]. split; [done |].
  exists (l ++ l3). split; [rewrite length_app; lia |]. split; [by apply Forall_app |].
  by rewrite fmap_app, app_assoc, <- Hb, E3, E2, E1.
Qed.

(** The kernel takes at most [c] entries of a batch. *)
Lemma aio_loop_short c fuel cnt extra k s :
  (forall h n batch, world h (Aio_submit n batch) <= c) -> 0 <= c -> 0 < queue_depth g ->
  0 <= cnt <= N g -> aio_inv base fds extra k s ->
  wp (aio_loop g step fuel cnt buff target) (fun o s' => o = NoFuel \/ o = Val () /\
    exists extra' k', aio_inv base fds extra' k' s' /\
      queue_depth g * Z.of_nat k' <= queue_depth g * Z.of_nat k +
        (if cnt <? N g then c * (N g - cnt + queue_depth g - 1) else 0)) s.
Proof.
  intros Hshort Hc0 Hq. revert cnt extra k s.
  induction fuel as [| fuel IH]; intros cnt extra k s Hc I; cbn [aio_loop];
    destruct (cnt <? N g) eqn:E; bool_hyps.
  1: wp_steps; by left.
  1, 3: wp_steps; right; split; [done |]; exists extra, k; split; [done | lia].
  apply wp_bind. eapply wp_mono; [| apply (fill_batch_spec _ cnt extra k); [lia | done]].
  cbn zeta. set (m := Nat.min _ _). intros o s1 (batch & l & -> & Hb & Hl & _ & I1 & _). cbn beta iota.
  apply wp_bind. eapply wp_mono; [| eapply (aio_submit_spec batch extra); exact I1].
  cbn zeta. intros o s2 (r & h & -> & Hr & _ & I2 & _). cbn beta iota.
  pose proof (Hshort h (Z.of_nat (length batch)) batch) as Hrc. rewrite <- Hr in Hrc.
  eapply wp_mono; [| eapply (IH (cnt + Z.of_nat m)); [lia | exact I2]].
  intros o s3 [-> | (-> & extra' & k' & I3 & Hk)]; [by left |]. right. split; [done |].
  exists extra', k'. split; [done |]. etransitivity; [exact Hk |].
  rewrite Nat2Z.inj_add. destruct (cnt + Z.of_nat m <? N g) eqn:E'; bool_hyps.
  - assert (Z.of_nat m = queue_depth g) as -> by lia. nia.
  - assert (queue_depth g * Z.of_nat (Z.to_nat r) <= queue_depth g * c) by nia. nia.
Qed.
End batches.

(** A thread that waits for more writes than were taken is never done. *)
Lemma aio_join_hangs base fds extra k fuel s :
  aio_inv base fds extra k s -> Z.of_nat k < N g -> wp (join step fuel) (fun o _ => o = NoFuel) s.
Proof.
  revert s. induction fuel as [| fuel IH]; intros s I Hk; cbn [join]; wp_steps;
    pose proof (ai_count _ _ _ _ _ I); rewrite (proj2 (Z.leb_gt _ _)) by lia; [by wp_steps |].
  apply wp_bind. eapply wp_mono; [| by apply events_step_spec]. intros o s1 (-> & I1 & _).
  cbn beta iota. by apply IH.
Qed.

Lemma aio_join_spec base fds fuel s :
  (forall h lo hi, in_aio h <> [] -> 0 < (world h (Aio_getevents lo hi)).1) -> 0 <= N g ->
  aio_inv base fds [] (Z.to_nat (N g)) s -> remaining (own s) <= Z.of_nat fuel ->
  wp (join step fuel) (fun o s' => o = Val () /\ aio_inv base fds [] (Z.to_nat (N g)) s' /\
    aio_ops (log s') = aio_ops (log s) /\ in_aio (log s') = []) s.
Proof.
  intros Hlive HN. revert s. induction fuel as [| fuel IH]; intros s I Hf; cbn [join]; wp_steps;
    pose proof (ai_count _ _ _ _ _ I) as Hc; destruct (remaining (own s) <=? 0) eqn:E; bool_hyps; try lia.
  1, 2: wp_steps; split; [done |]; split; [done |]; split; [done |]; apply nil_length_inv; lia.
  apply wp_bind. eapply wp_mono; [| by apply events_step_spec]. intros o s1 (-> & I1 & E1 & Hd).
  cbn beta iota. eapply wp_mono; [| apply IH; [done |]].
  - intros o s2 (-> & I2 & E2 & H2). split; [done |]. split; [done |]. split; [congruence | done].
  - enough (remaining (own s1) < remaining (own s)) by lia.
    apply Hd; [lia | done |]. intros H. rewrite H in Hc. cbn in Hc. lia.
Qed.

(** Nothing is in the kernel: the other blocks and descriptors can be anything. *)
Lemma aio_inv_start s :
  iocbs (own s) = ∅ -> in_aio (log s) = [] -> remaining (own s) = N g -> heap_wf (heap s) ->
  aio_inv (blocks (heap s)) (open_fds (log s)) [] 0 s.
Proof.
  intros E1 E2 E3 W. split; rewrite ?E1, ?E2, ?E3; cbn; try done; try lia.
  - constructor.
  - intros l. rewrite lookup_empty, elem_of_nil, is_Some_alt. done.
  - by intros l ?%elem_of_nil.
  - unfold own_fds. destruct closing; lia.
Qed.

Lemma aio_inv_idle base fds k s :
  aio_inv base fds [] k s -> in_aio (log s) = [] ->
  iocbs (own s) = ∅ /\ blocks (heap s) = base /\ open_fds (log s) = fds.
Proof.
  intros [I1 I2 I3 I4 I5 I6 I7 I8] E. rewrite E in *. split; [| split].
  - apply map_empty. intros l. apply eq_None_not_Some. intros H. by apply I4, elem_of_nil in H.
  - apply map_eq. intros l. apply I6. apply not_elem_of_nil.
  - rewrite I8. unfold own_fds. cbn. destruct closing; lia.
Qed.
End aio.

Section aio_tests.
Context {PF : Platform} (AS : aio_serving) (GR : granting) (g : rw_options).
Implicit Types s : st local.

(** The blocks of a test: its buffer and its array of pointers to [iocb]s. *)
Record aio_blocks (hp : heap_t) (base : gmap loc (list mbyte)) : Prop := {
  ab_buffer : base !! next_loc hp = Some (ones g);
  ab_size : size base = S (S (live hp));
}.

(** The array is allocated: from here on the blocks of the test do not change. *)
Lemma aio_array_spec closing hp fds n s (Q : outcome () loc -> st local -> Prop) :
  heap_wf hp -> 0 <= n -> aio_inv g closing (blocks (heap_filled (ones g) hp)) fds [] 0 s ->
  (forall l s' base, aio_inv g closing base fds [] 0 s' -> aio_blocks hp base ->
     aio_ops (log s') = aio_ops (log s) -> Q (Val l) s') ->
  wp (new_array n) Q s.
Proof.
  intros W Hn I H. unfold new_array. rewrite (proj2 (Z.ltb_ge n 0) Hn).
  wp_steps. rewrite (grant_alloc GR) in Hw. subst r. cbn [Z.eqb]. wp_steps.
  assert (in_aio (log s) = []) as E by (apply nil_length_inv; pose proof (ai_taken _ _ _ _ _ _ _ I); lia).
  destruct (aio_inv_idle _ _ _ _ _ _ I E) as (E1 & E2 & E3).
  pose proof (ai_count _ _ _ _ _ _ _ I) as Hc. rewrite E in Hc. cbn in Hc.
  pose proof (ai_wf _ _ _ _ _ _ _ I) as Hwf. pose proof (heap_alloc_fresh _ Hwf) as Hfresh.
  apply (H _ _ (blocks (heap_alloc n (heap s)).2)); [| | done].
  - rewrite <- E3. apply (aio_inv_start g closing (mk_st (own s) (heap_alloc n (heap s)).2
      (Alloc None n ~> 0 :: log s))); cbn [own heap log]; [done | done | lia |].
    by apply heap_alloc_wf.
  - split; cbn [heap_alloc snd blocks].
    + rewrite lookup_insert_ne; [rewrite E2; apply filled_buff |]. intros Eq.
      rewrite E2, Eq in Hfresh. cbn in Hfresh. by rewrite lookup_insert_eq in Hfresh.
    + rewrite live_insert by done. unfold live. rewrite E2. f_equal. by apply live_filled.
Qed.

(** Context and buffer are there, and the thread is started. *)
Lemma aio_start_spec {A} closing hp h (rest : loc -> run A) (Q : outcome () A -> st local -> Prop) :
  0 <= queue_depth g -> in_aio h = [] -> heap_wf hp ->
  (forall s, aio_inv g closing (blocks (heap_filled (ones g) hp)) (open_fds h) [] 0 s ->
     aio_ops (log s) = aio_ops h -> wp (rest (next_loc hp)) Q s) ->
  wp (setup_aio;; buff ← make_buff g; start_events g;; rest buff) Q (mk_st local_start hp h).
Proof.
  intros Hq E W H. unfold setup_aio. wp_steps. rewrite (aio_init AS) in Hw. subst r.
  cbn [Z.eqb negb when]. wp_steps. apply (wp_make_buff GR). unfold start_events.
  rewrite (proj2 (Z.ltb_ge (queue_depth g) 0) Hq). wp_steps. apply H; [| done].
  apply (aio_inv_start g closing (mk_st (set_remaining (N g) local_start) (heap_filled (ones g) hp)
    (Alloc (Some (blk_size g)) (buffer_size g) ~> 0 :: Aio_setup 10 ~> 0 :: h))); try done.
  by apply heap_filled_wf.
Qed.

(** The large test up to its loop. *)
Lemma large_aio_prefix {R} fuel hp h (Q : outcome R () -> st local -> Prop) :
  0 <= queue_depth g -> in_aio h = [] -> heap_wf hp ->
  (forall fd base s, aio_inv g false base (open_fds h + 1) [] 0 s -> aio_blocks hp base ->
     aio_ops (log s) = aio_ops h ->
     wp (let step := events_step g false in
         aio_loop g step fuel 0 (next_loc hp) (fun _ => mret fd);;
         join step fuel;; ext Aio_destroy;; _ ← ext (Sys_close fd); _ ← ext Clock_now; mret ())
       (fun o s' => match o with
        | Val r | Ret r => Q (Val r) s' | Stop u => Q (Stop u) s' | NoFuel => Q NoFuel s' end) s) ->
  wp (test_large_aio (R := R) g fuel) Q (mk_st local_start hp h).
Proof.
  intros Hq E W H. unfold test_large_aio. apply wp_call, (aio_start_spec false); [done.. |].
  intros s I E0. apply wp_bind, (aio_wp_ext_y AS GR g false _ _ _ _ (Sys_open _ _) _ _ I); [done |].
  intros s1 fd h1 I1 Hr E1. pose proof (grant_open GR h1 "/mnt/large-file" expr_flags) as Hfd.
  unfold expr_flags in Hfd. rewrite <- Hr in Hfd. cbn [fd_delta] in I1. rewrite (proj2 (Z.ltb_ge fd 0) Hfd) in I1 |- *.
  apply wp_bind, (aio_wp_ext_y AS GR g false _ _ _ _ Clock_now _ _ I1); [done |].
  intros s2 r2 h2 I2 _ E2. cbn [fd_delta] in I2. rewrite Z.add_0_r in I2.
  apply wp_bind, (aio_array_spec false hp (open_fds h + 1)); [done | lia | done |].
  intros l s3 base I3 B E3. apply (H fd base); [done | done | congruence].
Qed.

Definition takes_all : Prop := forall h n batch, world h (Aio_submit n batch) = n.
Definition makes_progress : Prop := forall h lo hi,
  in_aio h <> [] -> 0 < (world h (Aio_getevents lo hi)).1.

Lemma same_fd base fds extra k fd s :
  aio_inv g false base fds extra k s ->
  wp (mret fd : run Z) (fun o s' => exists fd', o = Val fd' /\ (fun x => x = fd) fd' /\
    aio_inv g false base (fds + own_fds false 1) extra k s' /\ aio_ops (log s') = aio_ops (log s)) s.
Proof. intros I. wp_steps. exists fd. unfold own_fds. by rewrite Z.add_0_r. Qed.

(** C21: with libaio, and a kernel that takes every batch whole, the test on one
    large file makes its [N] writes, returns, and has freed every [iocb] and
    closed its file; its buffer and its array are not freed. *)
Theorem test_large_aio_outcome {R} fuel hp h :
  takes_all -> makes_progress -> 0 <= N g <= Z.of_nat fuel -> 0 < queue_depth g ->
  in_aio h = [] -> heap_wf hp ->
  exists s' fd, test_large_aio (R := R) g fuel (mk_st local_start hp h) = (Val (), s') /\
    aio_ops (log s') = aio_ops h ++ replicate (Z.to_nat (N g)) (aio_write g (next_loc hp) fd) /\
    in_aio (log s') = [] /\ iocbs (own s') = ∅ /\
    live (heap s') = S (S (live hp)) /\ open_fds (log s') = open_fds h.
Proof.
  intros Hall Hlive HN Hq E W.
  enough (wp (test_large_aio (R := R) g fuel) (fun o s' => o = Val () /\ exists fd,
    aio_ops (log s') = aio_ops h ++ replicate (Z.to_nat (N g)) (aio_write g (next_loc hp) fd) /\
    in_aio (log s') = [] /\ iocbs (own s') = ∅ /\
    live (heap s') = S (S (live hp)) /\ open_fds (log s') = open_fds h) (mk_st local_start hp h)) as H.
  { apply (wp_ex _ (Val ())) in H as (s' & Es & fd & H). by exists s', fd. }
  apply large_aio_prefix; [lia | done.. |]. intros fd base s I [B1 B2] E0. cbn zeta.
  apply wp_bind. eapply wp_mono; [| apply (aio_loop_full AS GR g false base (open_fds h + 1)
    (next_loc hp) _ (fun x => x = fd)); [done | | done | done | lia | lia | done]].
  2: { intros _ extra k s1 I1. by apply same_fd. }
  intros o s1 (-> & I1 & l & Hl & HT & E1). cbn beta iota.
  apply wp_bind. eapply wp_mono; [| eapply (aio_join_spec AS GR g false); [done | lia | exact I1 |]].
  2: { destruct I1. lia. }
  intros o s2 (-> & I2 & E2 & H2). cbn beta iota.
  destruct (aio_inv_idle _ _ _ _ _ _ I2 H2) as (F1 & F2 & F3). wp_steps.
  split; [done |]. exists fd. cbn [own heap log in_aio aio_ops open_fds fd_delta].
  assert (replicate (Z.to_nat (N g)) fd = l) as Hrep.
  { apply replicate_as_elem_of. split; [lia |]. intros y Hy. by eapply Forall_forall in HT. }
  split; [by rewrite E2, E1, E0, <- Hrep, fmap_replicate |].
  split; [done |]. split; [done |]. split; [unfold live; by rewrite F2 | lia].
Qed.

(** a kernel that takes at most [c] entries of a batch makes that test hang:
    the result of [io_submit] is not looked at, and the completion thread waits
    for [N] completions. *)
Theorem test_large_aio_hangs {R} c fuel hp h :
  (forall h n batch, world h (Aio_submit n batch) <= c) -> 0 <= c -> 0 < queue_depth g -> 0 < N g ->
  c * (N g + queue_depth g - 1) < queue_depth g * N g ->
  in_aio h = [] -> heap_wf hp ->
  exists s', test_large_aio (R := R) g fuel (mk_st local_start hp h) = (NoFuel, s').
Proof.
  intros Hshort Hc Hq HN0 HN E W.
  enough (wp (test_large_aio (R := R) g fuel) (fun o s' => o = NoFuel /\ True) (mk_st local_start hp h)) as H
    by (apply (wp_ex _ NoFuel) in H as (s' & Es & _); by exists s').
  apply large_aio_prefix; [lia | done.. |]. intros fd base s I [B1 B2] E0. cbn zeta.
  apply wp_bind. eapply wp_mono; [| apply (aio_loop_short AS GR g false base (open_fds h + 1)
    (next_loc hp) _ (fun x => x = fd)) with (c := c) (k := O) (extra := []); [done | | done | done | done | lia | exact I]].
  2: { intros _ extra k s1 I1. by apply same_fd. }
  intros o s1 [-> | (-> & extra & k & I1 & Hk)]; [done |]. cbn beta iota.
  rewrite (proj2 (Z.ltb_lt 0 (N g)) HN0) in Hk.
  apply wp_bind. eapply wp_mono; [| eapply (aio_join_hangs AS GR g false); [exact I1 | nia]].
  by intros o s2 ->.
Qed.

(** with libaio, and a kernel that takes every batch whole, the test on small
    files writes to [N] files; every descriptor it opens is closed and every
    [iocb] freed. *)
Theorem test_small_aio_outcome {R} fuel hp h :
  takes_all -> makes_progress -> 0 <= N g <= Z.of_nat fuel -> 0 < queue_depth g ->
  in_aio h = [] -> heap_wf hp ->
  exists s' fds, test_small_aio (R := R) g fuel (mk_st local_start hp h) = (Val (), s') /\
    length fds = Z.to_nat (N g) /\
    aio_ops (log s') = aio_ops h ++ (aio_write g (next_loc hp) <$> fds) /\
    in_aio (log s') = [] /\ iocbs (own s') = ∅ /\
    live (heap s') = S (S (live hp)) /\ open_fds (log s') = open_fds h.
Proof.
  intros Hall Hlive HN Hq E W.
  enough (wp (test_small_aio (R := R) g fuel) (fun o s' => o = Val () /\ exists fds,
    length fds = Z.to_nat (N g) /\
    aio_ops (log s') = aio_ops h ++ (aio_write g (next_loc hp) <$> fds) /\
    in_aio (log s') = [] /\ iocbs (own s') = ∅ /\
    live (heap s') = S (S (live hp)) /\ open_fds (log s') = open_fds h) (mk_st local_start hp h)) as H.
  { apply (wp_ex _ (Val ())) in H as (s' & Es & fds & H). by exists s', fds. }
  unfold test_small_aio. apply wp_call, (aio_start_spec true); [lia | done | done |].
  intros s I E0. apply wp_bind, (aio_wp_ext_y AS GR g true _ _ _ _ Clock_now _ _ I); [done |].
  intros s2 r2 h2 I2 _ E2. cbn [fd_delta] in I2. rewrite Z.add_0_r in I2.
  apply wp_bind, (aio_array_spec true hp (open_fds h)); [done | lia | done |].
  intros l s3 base I3 [B1 B2] E3.
  apply wp_bind. eapply wp_mono; [| apply (aio_loop_full AS GR g true base (open_fds h)
    (next_loc hp) _ (fun x => 0 <= x)); [done | | done | done | lia | lia | done]].
  2: { intros cnt extra k s4 I4.
       apply wp_bind, (aio_wp_ext_y AS GR g true _ _ _ _ (Sys_open _ _) _ _ I4); [done |].
       intros s5 fd h5 I5 Hr E5. pose proof (grant_open GR h5 (small_name cnt) expr_flags) as Hfd.
       unfold expr_flags in Hfd. rewrite <- Hr in Hfd. cbn [fd_delta] in I5. rewrite (proj2 (Z.ltb_ge fd 0) Hfd) in I5 |- *.
       wp_steps. by exists fd. }
  intros o s4 (-> & I4 & fds & Hl & HT & E4). cbn beta iota.
  apply wp_bind. eapply wp_mono; [| eapply (aio_join_spec AS GR g true); [done | lia | exact I4 |]].
  2: { destruct I4. lia. }
  intros o s5 (-> & I5 & E5 & H5). cbn beta iota.
  destruct (aio_inv_idle _ _ _ _ _ _ I5 H5) as (F1 & F2 & F3). wp_steps.
  split; [done |]. exists fds. cbn [own heap log in_aio aio_ops open_fds fd_delta].
  split; [lia |]. split; [congruence |].
  split; [done |]. split; [done |]. split; [unfold live; by rewrite F2 | lia].
Qed.
End aio_tests.

(** ** Blocking writes *)

Section blocking.
Context {PF : Platform} (GR : granting) (g : rw_options).
Implicit Types s : st local.

(** Writes of the buffer with the results [rs], newest first. *)
Definition wrote_ones (fd : Z) (rs : list Z) : history :=
  reverse ((fun r => Sys_write fd (ones g) ~> r) <$> rs).

(** [rs] are results up to the first failure, if there is one. *)
Definition up_to_failure (rs : list Z) : Prop :=
  exists rs0 r, rs = rs0 ++ [r] /\ Forall (fun r => 0 <= i32 r) rs0 /\ i32 r < 0.

Lemma write_buff_spec fd l s (Q : outcome () Z -> st local -> Prop) :
  blocks (heap s) !! l = Some (ones g) ->
  (forall r, Q (Val (i32 r)) (mk_st (own s) (heap s) (Sys_write fd (ones g) ~> r :: log s))) ->
  wp (write_buff fd l) Q s.
Proof. intros Hb H. unfold write_buff. apply wp_bind, (wp_block_at l (ones g)); [done |]. wp_steps. apply H. Qed.

Lemma blocking_loop_spec fd l todo i s :
  blocks (heap s) !! l = Some (ones g) ->
  wp (for_loop todo i (fun _ => ret ← write_buff fd l; when (ret <? 0) (return_ ())))
    (fun o s' => exists rs, file_calls (log s') = wrote_ones fd rs ++ file_calls (log s) /\
       (o = Val () /\ length rs = todo /\ Forall (fun r => 0 <= i32 r) rs \/
        o = Ret () /\ (length rs <= todo)%nat /\ up_to_failure rs)) s.
Proof.
  revert i s. induction todo as [| todo IH]; intros i s Hb; cbn [for_loop].
  { wp_steps. exists []. split; [done |]. by left. }
  apply wp_bind, wp_bind, write_buff_spec; [done |]. intros r. cbn beta iota.
  destruct (i32 r <? 0) eqn:E; bool_hyps; cbn [when]; wp_steps.
  - exists [r]. rewrite file_calls_cons. split; [done |]. right. split; [done |]. split; [cbn; lia |].
    by exists [], r.
  - eapply wp_mono; [| by apply IH]. cbn [log]. intros o s' (rs & Hc & Ho). exists (r :: rs). split.
    + rewrite Hc, file_calls_cons. unfold wrote_ones. cbn [fmap list_fmap].
      by rewrite reverse_cons, <- app_assoc.
    + destruct Ho as [(-> & Hl & Hrs) | (-> & Hl & rs0 & r' & -> & Hrs & Hr')].
      * left. split; [done |]. split; [cbn; lia | by constructor].
      * right. split; [done |]. split; [cbn in *; lia |]. exists (r :: rs0), r'.
        split; [done |]. split; [by constructor | done].
Qed.

(** the blocking test on one large file writes its buffer [N] times and closes
    the file, or stops at the first write that fails, with the file open. *)
Theorem test_large_blocking_outcome {R} hp h :
  exists s' fd rs, test_large_blocking (R := R) g (mk_st local_start hp h) = (Val (), s') /\
    let opened := Sys_open "/mnt/large-file" expr_flags ~> fd :: file_calls h in
    (length rs = Z.to_nat (N g) /\ Forall (fun r => 0 <= i32 r) rs /\
       (exists c, file_calls (log s') = Sys_close fd ~> c :: wrote_ones fd rs ++ opened) \/
     (length rs <= Z.to_nat (N g))%nat /\ up_to_failure rs /\
       file_calls (log s') = wrote_ones fd rs ++ opened).
Proof.
  set (P := fun fd rs (s' : st local) =>
    let opened := Sys_open "/mnt/large-file" expr_flags ~> fd :: file_calls h in
    (length rs = Z.to_nat (N g) /\ Forall (fun r => 0 <= i32 r) rs /\
       (exists c, file_calls (log s') = Sys_close fd ~> c :: wrote_ones fd rs ++ opened) \/
     (length rs <= Z.to_nat (N g))%nat /\ up_to_failure rs /\
       file_calls (log s') = wrote_ones fd rs ++ opened)).
  enough (wp (test_large_blocking (R := R) g) (fun o s' => o = Val () /\ exists fd rs, P fd rs s')
    (mk_st local_start hp h)) as H.
  { apply (wp_ex _ (Val ())) in H as (s' & E & fd & rs & H). by exists s', fd, rs. }
  unfold test_large_blocking. wp_steps.
  pose proof (grant_open GR h "/mnt/large-file" expr_flags) as Hr. unfold expr_flags in Hr.
  rewrite <- Hw in Hr. rewrite (proj2 (Z.ltb_ge r 0) Hr). cbn [when]. wp_steps.
  apply (wp_make_buff GR). wp_steps. eapply wp_mono; [| apply blocking_loop_spec, filled_buff].
  cbn [log]. intros o s' (rs & Hc & Ho). rewrite !file_calls_cons in Hc. cbn [is_file_call projT1] in Hc.
  destruct Ho as [(-> & Hl & Hrs) | (-> & Hl & Hrs)]; cbn beta iota; wp_steps.
  - split; [done |]. exists r, rs. left. split; [done |]. split; [done |].
    eexists. cbn [log]. rewrite !file_calls_cons. cbn [is_file_call projT1]. by rewrite Hc.
  - split; [done |]. exists r, rs. right. by split; [lia |].
Qed.

(** *** Small files *)

(** A round that went well: its file is opened, written and closed. *)
Definition blocking_round (i : Z) (p : Z * Z) : history :=
  [Sys_close p.1 ~> 0; Sys_write p.1 (ones g) ~> p.2; Sys_open (small_name i) small_flags ~> p.1].

Fixpoint blocking_rounds (i : Z) (ps : list (Z * Z)) : history :=
  match ps with [] => [] | p :: ps => blocking_rounds (i + 1) ps ++ blocking_round i p end.

Definition good_round (p : Z * Z) : Prop := 0 <= p.1 /\ 0 <= i32 p.2.

(** A round that did not go well, by the call that failed. *)
Inductive cut_short (i : Z) : history -> Prop :=
| cut_open fd : fd < 0 -> cut_short i [Sys_open (small_name i) small_flags ~> fd]
| cut_write fd r : i32 r < 0 ->
    cut_short i [Sys_write fd (ones g) ~> r; Sys_open (small_name i) small_flags ~> fd]
| cut_close fd r c : c <> 0 ->
    cut_short i [Sys_close fd ~> c; Sys_write fd (ones g) ~> r; Sys_open (small_name i) small_flags ~> fd].

(** [todo] rounds from round [i] on, or fewer and one that was cut short. *)
Definition blocking_run (todo : nat) (i : Z) (h h' : history) : Prop := exists ps,
  Forall good_round ps /\
  (length ps = todo /\ h' = blocking_rounds i ps ++ h \/
   (length ps < todo)%nat /\ exists last, cut_short (i + Z.of_nat (length ps)) last /\
     h' = last ++ blocking_rounds i ps ++ h).

Lemma blocking_run_cut todo i h last :
  (0 < todo)%nat -> cut_short i last -> blocking_run todo i h (last ++ h).
Proof.
  intros Ht Hc. exists []. split; [done |]. right. split; [done |]. exists last.
  by rewrite Z.add_0_r.
Qed.

Lemma blocking_run_cons todo i h h' p :
  good_round p -> blocking_run todo (i + 1) (blocking_round i p ++ h) h' ->
  blocking_run (S todo) i h h'.
Proof.
  intros Hp (ps & Hps & H). exists (p :: ps). split; [by constructor |]. cbn [length blocking_rounds].
  destruct H as [[<- ->] | (Hl & last & Hc & ->)]; rewrite <- app_assoc; [by left |].
  right. split; [lia |]. exists last. split; [| done].
  by replace (i + Z.of_nat (S (length ps))) with (i + 1 + Z.of_nat (length ps)) by lia.
Qed.

Lemma blocking_small_spec l todo i s :
  blocks (heap s) !! l = Some (ones g) ->
  wp (for_loop todo i (fun i =>
        f ← ext (Sys_open (small_name i) small_flags);
        when (f <? 0) (return_ ());;
        ret ← write_buff f l;
        when (ret <? 0) (return_ ());;
        ret ← ext (Sys_close f);
        when (negb (ret =? 0)) (return_ ())))
    (fun o s' => (o = Val () \/ o = Ret ()) /\
       blocking_run todo i (file_calls (log s)) (file_calls (log s'))) s.
Proof.
  revert i s. induction todo as [| todo IH]; intros i s Hb; cbn [for_loop].
  { wp_steps. split; [by left |]. exists []. split; [done |]. by left. }
  wp_steps. destruct (r <? 0) eqn:E; bool_hyps; cbn [when]; wp_steps.
  { split; [by right |]. rewrite file_calls_cons.
    apply (blocking_run_cut _ _ _ [_]); [lia | by constructor]. }
  apply write_buff_spec; [done |]. intros w. cbn beta iota. cbn [own heap log].
  destruct (i32 w <? 0) eqn:Ew; bool_hyps; cbn [when]; wp_steps.
  { split; [by right |]. rewrite !file_calls_cons. apply (blocking_run_cut _ _ _ [_; _]); [lia | by constructor]. }
  destruct (r0 =? 0) eqn:Ec; bool_hyps; cbn [negb when]; wp_steps.
  2: { split; [by right |]. rewrite !file_calls_cons.
       apply (blocking_run_cut _ _ _ [_; _; _]); [lia | by apply cut_close]. }
  eapply wp_mono; [| by apply IH]. cbn [log]. intros o s' (Ho & H). split; [done |].
  apply (blocking_run_cons _ _ _ _ (r, w)); [done |].
  rewrite !file_calls_cons in H. cbn [is_file_call projT1] in H. by rewrite Ec in H.
Qed.

(** The blocking test on small files opens, writes and closes [N] files, one after
    the other, or stops at the first call that fails: a file that could not be
    written stays open. *)
Theorem test_small_blocking_outcome {R} hp h :
  exists s', test_small_blocking (R := R) g (mk_st local_start hp h) = (Val (), s') /\
    blocking_run (Z.to_nat (N g)) 0 (file_calls h) (file_calls (log s')).
Proof.
  enough (wp (test_small_blocking (R := R) g) (fun o s' => o = Val () /\
    blocking_run (Z.to_nat (N g)) 0 (file_calls h) (file_calls (log s'))) (mk_st local_start hp h)) as H
    by (apply (wp_ex _ (Val ())) in H as (s' & E & H); by exists s').
  unfold test_small_blocking. wp_steps. apply (wp_make_buff GR). wp_steps.
  eapply wp_mono; [| apply blocking_small_spec, filled_buff].
  cbn [log]. intros o s' (Ho & H). rewrite !file_calls_cons in H. cbn [is_file_call projT1] in H.
  destruct Ho as [-> | ->]; cbn beta iota; wp_steps; done.
Qed.
End blocking.

(** The defaults of the options have the types that are asked for, so every
    command line starts a test. *)
Lemma parse_rw_exact a :
  parse_args a = Some (mk_rw_options (default 10000 (r_n a)) (u64 (default 4096 (r_b a)))
    (u64 (default 4096 (r_bs a))) (default 128 (r_d a)) (default 2000 (r_t a))
    (r_l a) (r_p a) (r_c a) (r_r a) (r_a a) (default "" (r_exp a))
    (default 1 (r_fn a)) (default 1 (r_threads a))).
Proof. unfold parse_args. repeat (autorewrite with args; cbn [mbind option_bind]). done. Qed.

(** ** Instances *)

Definition local_env : Platform := async_env [].

Lemma local_env_granting : granting (PF := local_env).
Proof. by split. Qed.

Definition sample_options (n : Z) : rw_options :=
  mk_rw_options n 16 512 2 2000 true false false false false "" 2 1.

Lemma test_large_io_uring_terminates_witness :
  exists s' fd, test_large_io_uring (PF := local_env) (R := Empty_set) (sample_options 3)
      (mk_st local_start heap_empty []) = (Stop Std_terminate, s') /\
    submitted_ops (log s') = large_write (sample_options 3) fd 0 <$> seq 0 3.
Proof.
  exact (test_large_io_uring_terminates (PF := local_env) (async_env_serving []) local_env_granting
    (sample_options 3) (R := Empty_set) heap_empty [] ltac:(done) ltac:(done)).
Defined.

Lemma test_small_io_uring_outcome_witness :
  exists s' fds, test_small_io_uring (PF := local_env) (R := Empty_set) (sample_options 3) 7
      (mk_st local_start heap_empty []) = (Val (), s') /\ length fds = 3%nat /\
    finished heap_empty [] (opened_files small_name small_flags fds)
      (fds ≫= file_ops (sample_options 3) 0) s'.
Proof.
  exact (test_small_io_uring_outcome (PF := local_env) (async_env_serving []) local_env_granting
    (sample_options 3) (R := Empty_set) 7 heap_empty [] ltac:(done) ltac:(done) ltac:(done) ltac:(done)
    heap_empty_wf).
Defined.

Lemma experiment_outcome_witness :
  exists s' fds, experiment (PF := local_env) (R := Empty_set) (sample_options 3) 4 true contention_name
      (mk_st local_start heap_empty []) = (Val (), s') /\ length fds = 2%nat /\
    finished heap_empty [] (opened_files contention_name expr_flags fds)
      (spread_write (sample_options 3) fds 0 <$> seq 0 3) s'.
Proof.
  exact (experiment_outcome (PF := local_env) (async_env_serving []) local_env_granting
    (sample_options 3) (R := Empty_set) 4 true contention_name heap_empty [] ltac:(done) ltac:(done)
    ltac:(done) heap_empty_wf).
Defined.

(** libaio that takes what [accept] says and returns one event at a time. *)
Definition aio_env (accept : Z -> Z) : Platform := platform_of (fun h e =>
  match e with
  | Sys_open _ _ => 7
  | Aio_submit n _ => accept n
  | Aio_getevents _ _ => match in_aio h with [] => (0, []) | l :: _ => (1, [l]) end
  | e => default_reply e
  end).

Lemma aio_env_serving accept : (forall n, accept n <= n) -> aio_serving (PF := aio_env accept).
Proof.
  intros H. split; [done | intros; apply H |]. intros h lo hi n objs E. cbn in E.
  destruct (in_aio h) as [| l q]; simplify_eq.
  - split; [done |]. split; [constructor |]. by intros x ?%elem_of_nil.
  - split; [done |]. split; [apply NoDup_singleton |]. intros x ->%list_elem_of_singleton.
    apply list_elem_of_here.
Qed.

Lemma aio_env_granting accept : granting (PF := aio_env accept).
Proof. by split. Qed.

Lemma aio_env_progress accept : makes_progress (PF := aio_env accept).
Proof. intros h lo hi. cbn. by destruct (in_aio h). Qed.

Lemma test_large_aio_outcome_witness :
  exists s' fd, test_large_aio (PF := aio_env id) (R := Empty_set) (sample_options 3) 3
      (mk_st local_start heap_empty []) = (Val (), s') /\
    aio_ops (log s') = replicate 3 (aio_write (sample_options 3) 0 fd) /\
    in_aio (log s') = [] /\ iocbs (own s') = ∅ /\ live (heap s') = 2%nat /\ open_fds (log s') = 0.
Proof.
  exact (test_large_aio_outcome (PF := aio_env id) (aio_env_serving id (fun n => Z.le_refl n))
    (aio_env_granting id) (sample_options 3) (R := Empty_set) 3 heap_empty [] ltac:(done)
    (aio_env_progress id) ltac:(done) ltac:(done) ltac:(done) heap_empty_wf).
Defined.

Lemma test_large_aio_hangs_witness :
  exists s', test_large_aio (PF := aio_env (Z.min 1)) (R := Empty_set) (sample_options 4) 1000
    (mk_st local_start heap_empty []) = (NoFuel, s').
Proof.
  exact (test_large_aio_hangs (PF := aio_env (Z.min 1)) (aio_env_serving (Z.min 1) (Z.le_min_r 1))
    (aio_env_granting (Z.min 1)) (sample_options 4) (R := Empty_set) 1 1000 heap_empty []
    (fun _ n _ => Z.le_min_l 1 n) ltac:(done) ltac:(done) ltac:(done) ltac:(done) ltac:(done) heap_empty_wf).
Defined.

Lemma test_small_aio_outcome_witness :
  exists s' fds, test_small_aio (PF := aio_env id) (R := Empty_set) (sample_options 3) 3
      (mk_st local_start heap_empty []) = (Val (), s') /\ length fds = 3%nat /\
    aio_ops (log s') = aio_write (sample_options 3) 0 <$> fds /\
    in_aio (log s') = [] /\ iocbs (own s') = ∅ /\ live (heap s') = 2%nat /\ open_fds (log s') = 0.
Proof.
  exact (test_small_aio_outcome (PF := aio_env id) (aio_env_serving id (fun n => Z.le_refl n))
    (aio_env_granting id) (sample_options 3) (R := Empty_set) 3 heap_empty [] ltac:(done)
    (aio_env_progress id) ltac:(done) ltac:(done) ltac:(done) heap_empty_wf).
Defined.

Lemma test_large_blocking_outcome_witness :
  exists s' fd rs, test_large_blocking (PF := local_env) (R := Empty_set) (sample_options 2)
      (mk_st local_start heap_empty []) = (Val (), s') /\
    let opened := [Sys_open "/mnt/large-file" expr_flags ~> fd] in
    (length rs = 2%nat /\ Forall (fun r => 0 <= i32 r) rs /\
       (exists c, file_calls (log s') = Sys_close fd ~> c :: wrote_ones (sample_options 2) fd rs ++ opened) \/
     (length rs <= 2)%nat /\ up_to_failure rs /\
       file_calls (log s') = wrote_ones (sample_options 2) fd rs ++ opened).
Proof.
  exact (test_large_blocking_outcome (PF := local_env) local_env_granting (sample_options 2)
    (R := Empty_set) heap_empty []).
Defined.

Lemma local_env_succeeds : Succeeds (PF := local_env) true.
Proof.
  intros _ h ret res d. cbn. destruct (in_kernel h); [done |]. by intros [= _ <- _].
Qed.

Lemma test_large_io_uring_poll_outcome_witness :
  exists s' fd c, test_large_io_uring_poll (PF := local_env) (R := Empty_set) (sample_options 3) 4
      (mk_st local_start heap_empty []) = (Val (), s') /\
    finished heap_empty []
      [Sys_close fd ~> c; Sys_open "/mnt/large-file" expr_flags ~> fd]
      (replicate 3 (Op_write_fixed 0 0%nat (ones (sample_options 3)) 0)) s'.
Proof.
  exact (test_large_io_uring_poll_outcome (PF := local_env) (async_env_serving []) local_env_granting
    (sample_options 3) (R := Empty_set) (SC := local_env_succeeds) 4 heap_empty []
    ltac:(by split) ltac:(done) ltac:(done) heap_empty_wf).
Defined.

Lemma test_small_blocking_outcome_witness :
  exists s', test_small_blocking (PF := local_env) (R := Empty_set) (sample_options 2)
      (mk_st local_start heap_empty []) = (Val (), s') /\
    blocking_run (sample_options 2) 2 0 [] (file_calls (log s')).
Proof.
  exact (test_small_blocking_outcome (PF := local_env) local_env_granting (sample_options 2)
    (R := Empty_set) heap_empty []).
Defined.
