(* ===== verification/Rdma.v ===== *)
(** * The benchmark's RDMA worker (src/src/benchmark.cc)

    [do_io_user_rdma]: the client reads the server's memory with RDMA and writes
    what it has read to a file through io_uring; the server offers the memory.
    The io_uring members of the worker are those of [Worker]; the ring is
    modelled further than there, because the [iovec] that an entry points to is
    a variable of [reap_rdma_cq]: an entry that is submitted by a later call of
    that function reads whatever is in that part of the stack by then. *)

From S2P Require Import Prelude Proto Env Worker.

(** The worker; the submission queue: the offset of each entry and the call of
    [reap_rdma_cq] whose [iovec] it points to; the number of that call, and the
    [iov_base] of its [iovec]. *)
Record rdma_io := mk_io {
  worker : io_worker;
  sq : list (Z * nat);
  frame : nat;
  iov_base : Z;
}.

Definition set_worker (w : io_worker) (x : rdma_io) : rdma_io := mk_io w (sq x) (frame x) (iov_base x).
Definition set_sq (q : list (Z * nat)) (x : rdma_io) : rdma_io :=
  mk_io (worker x) q (frame x) (iov_base x).
Definition next_frame (x : rdma_io) : rdma_io := mk_io (worker x) (sq x) (S (frame x)) (iov_base x).
Definition set_base (b : Z) (x : rdma_io) : rdma_io := mk_io (worker x) (sq x) (frame x) b.

Definition set_rdma (d : rdma_stuff) (w : io_worker) : io_worker :=
  mk_worker (worker_id w) (io_uring_sqe_queued w) (rdma_wr_posted w) (cur_offset w)
    (io_completed w) (free_io_units_io_uring w) (free_io_units_rdma w) (tid w) (fd w) (stopped w)
    (start_time w) d.

(** [rdma_wr_posted] and [free_io_units_rdma]. *)
Definition set_credit (posted free : Z) (w : io_worker) : io_worker :=
  mk_worker (worker_id w) (io_uring_sqe_queued w) posted (cur_offset w)
    (io_completed w) (free_io_units_io_uring w) free (tid w) (fd w) (stopped w)
    (start_time w) (rdma w).

Definition set_cm_id (x : Z) (d : rdma_stuff) : rdma_stuff :=
  mk_rdma x (cm_listen_id d) (comp_channel d) (cm_channel d) (cq d) (pd d) (qp d) (rmt_buf d)
    (data_pool d) (data_pool_size d) (data_pool_mr d).
Definition set_cm_listen_id (x : Z) (d : rdma_stuff) : rdma_stuff :=
  mk_rdma (cm_id d) x (comp_channel d) (cm_channel d) (cq d) (pd d) (qp d) (rmt_buf d)
    (data_pool d) (data_pool_size d) (data_pool_mr d).
Definition set_comp_channel (x : Z) (d : rdma_stuff) : rdma_stuff :=
  mk_rdma (cm_id d) (cm_listen_id d) x (cm_channel d) (cq d) (pd d) (qp d) (rmt_buf d)
    (data_pool d) (data_pool_size d) (data_pool_mr d).
Definition set_cm_channel (x : Z) (d : rdma_stuff) : rdma_stuff :=
  mk_rdma (cm_id d) (cm_listen_id d) (comp_channel d) x (cq d) (pd d) (qp d) (rmt_buf d)
    (data_pool d) (data_pool_size d) (data_pool_mr d).
Definition set_cq (x : Z) (d : rdma_stuff) : rdma_stuff :=
  mk_rdma (cm_id d) (cm_listen_id d) (comp_channel d) (cm_channel d) x (pd d) (qp d) (rmt_buf d)
    (data_pool d) (data_pool_size d) (data_pool_mr d).
Definition set_pd (x : Z) (d : rdma_stuff) : rdma_stuff :=
  mk_rdma (cm_id d) (cm_listen_id d) (comp_channel d) (cm_channel d) (cq d) x (qp d) (rmt_buf d)
    (data_pool d) (data_pool_size d) (data_pool_mr d).
Definition set_qp (x : Z) (d : rdma_stuff) : rdma_stuff :=
  mk_rdma (cm_id d) (cm_listen_id d) (comp_channel d) (cm_channel d) (cq d) (pd d) x (rmt_buf d)
    (data_pool d) (data_pool_size d) (data_pool_mr d).
Definition set_rmt_buf (x : rdma_rmt_buf) (d : rdma_stuff) : rdma_stuff :=
  mk_rdma (cm_id d) (cm_listen_id d) (comp_channel d) (cm_channel d) (cq d) (pd d) (qp d) x
    (data_pool d) (data_pool_size d) (data_pool_mr d).
Definition set_data_pool (x : Z) (d : rdma_stuff) : rdma_stuff :=
  mk_rdma (cm_id d) (cm_listen_id d) (comp_channel d) (cm_channel d) (cq d) (pd d) (qp d)
    (rmt_buf d) x (data_pool_size d) (data_pool_mr d).
Definition set_data_pool_mr (x : ibv_mr) (d : rdma_stuff) : rdma_stuff :=
  mk_rdma (cm_id d) (cm_listen_id d) (comp_channel d) (cm_channel d) (cq d) (pd d) (qp d)
    (rmt_buf d) (data_pool d) (data_pool_size d) x.

Definition IBV_WC_SUCCESS : Z := 0.
Definition sizeof_rmt_buf : Z := 16.

(** *** [worker->rmt_buf] as memory

    [addr] in 8 bytes, [size] and [rkey] in 4 each. *)

Definition token_bytes (b : rdma_rmt_buf) : list byte :=
  le_bytes 8 (rmt_addr b) ++ le_bytes 4 (rmt_size b) ++ le_bytes 4 (rmt_rkey b).

Definition token_of (m : list byte) : rdma_rmt_buf :=
  mk_rmt (le_value (take 8 m)) (le_value (take 4 (drop 8 m))) (le_value (drop 12 m)).

(** The [len] bytes at [addr] when [b] lies at [base]; nothing is known of the
    bytes around it. *)
Definition gather (base : Z) (b : rdma_rmt_buf) (addr len : Z) : list mbyte :=
  (fun i => let k := addr + Z.of_nat i - base in
     if 0 <=? k then token_bytes b !! Z.to_nat k else None) <$> seq 0 (Z.to_nat len).

(** What [b] at [base] is after the message [m] has come into a buffer of [len]
    bytes at [addr]. *)
Definition scatter (base : Z) (b : rdma_rmt_buf) (addr len : Z) (m : list byte) : rdma_rmt_buf :=
  token_of (imap (fun i old =>
    let k := base + Z.of_nat i - addr in
    if (0 <=? k) && (k <? len) then default old (m !! Z.to_nat k) else old) (token_bytes b)).

Section Rdma.
Context {PF : Platform} (g : options).
(** [&worker->rmt_buf]. *)
Context (rmt_buf_at : Z).

Abbreviation act A := (M (st rdma_io) Z A).

Definition with_worker {R A} (m : M (st io_worker) R A) : M (st rdma_io) R A :=
  zoom worker set_worker m.
Definition get_worker {R A} (f : io_worker -> A) : M (st rdma_io) R A :=
  get_own (fun x => f (worker x)).
Definition upd {R} (f : io_worker -> io_worker) : M (st rdma_io) R () :=
  set_own (fun x => set_worker (f (worker x)) x).
Definition get_rdma {R A} (f : rdma_stuff -> A) : M (st rdma_io) R A :=
  get_worker (fun w => f (rdma w)).
Definition upd_rdma {R} (f : rdma_stuff -> rdma_stuff) : M (st rdma_io) R () :=
  upd (fun w => set_rdma (f (rdma w)) w).

(** [if (call) return 1], and the same for a null pointer. *)
Definition must (r : Z) : act () := when (negb (r =? 0)) (return_ 1).
Definition non_null (p : Z) : act () := when (p =? 0) (return_ 1).

Definition get_next_channel_event {R} (wait_event : cm_event) : M (st rdma_io) R Z :=
  call (
    ch ← get_rdma cm_channel;
    '(r, ev, id) ← ext (Rdma_get_cm_event ch);
    must r;;
    when (negb (bool_decide (ev = wait_event))) (return_ 1);;
    when (bool_decide (ev = CONNECT_REQUEST)) (upd_rdma (set_cm_id id));;
    ext Rdma_ack_cm_event;;
    mret 0).

Definition must_event (wait_event : cm_event) : act () :=
  r ← get_next_channel_event wait_event; must r.

(** *** Exchange of the token *)

(** [do ret = ibv_poll_cq(cq, 1, &wc); while (ret < 1)]. *)
Fixpoint poll_one (fuel : nat) : act ibv_wc :=
  match fuel with
  | O => nofuel
  | S fuel =>
      q ← get_rdma cq;
      '(ret, wc) ← ext (Ibv_poll_cq q 1);
      if ret <? 1 then poll_one fuel
      else match wc with [] => stop_ UB_uninit | c :: _ => mret c end
  end.

(** The call waits until there is an event on the channel. *)
Definition get_cq_event {R} (channel : Z) : M (st rdma_io) R (Z * Z) :=
  r ← ext (Ibv_get_cq_event channel);
  match r with Some r => mret r | None => stop_ Blocks end.

(** Both sides: one completion is waited for.  [into] is the buffer of the posted
    receive, if there is one; a message is in it before its completion is seen. *)
Definition await_completion (fuel : nat) (into : option (Z * Z)) : act () :=
  d ← get_rdma (fun d => d);
  '(r, ev_cq) ← get_cq_event (comp_channel d);
  must r;;
  when (negb (ev_cq =? cq d)) (return_ 1);;
  r ← ext (Ibv_req_notify_cq (cq d));
  must r;;
  wc ← poll_one fuel;
  (match into, wc_received wc with
   | Some (addr, len), Some m =>
       upd_rdma (fun d => set_rmt_buf (scatter rmt_buf_at (rmt_buf d) addr len m) d)
   | _, _ => mret ()
   end);;
  must (wc_status wc);;
  ext (Ibv_ack_cq_events (cq d) 1);;
  mret ().

(** [memalign] and [ibv_reg_mr] of the data pool. *)
Definition make_pool (size : Z) (remote : bool) : act () :=
  p ← memalign PAGESIZE size;
  upd_rdma (set_data_pool (match p with Some l => Z.of_nat l | None => 0 end));;
  match p with
  | None => return_ 1
  | Some l =>
      d ← get_rdma (fun d => d);
      '(mr, lkey, rkey) ← ext (Ibv_reg_mr (pd d) (data_pool d) size remote);
      upd_rdma (set_data_pool_mr (mk_mr mr lkey rkey));;
      non_null mr
  end.

Definition handshake_client (depth : Z) (fuel : nat) : act () :=
  d ← get_rdma (fun d => d);
  r ← ext (Rdma_connect (cm_id d) depth);
  must r;;
  must_event ESTABLISHED;;
  d ← get_rdma (fun d => d);
  '(mr, lkey, _) ← ext (Ibv_reg_mr (pd d) rmt_buf_at sizeof_rmt_buf false);
  non_null mr;;
  let sgl := (rmt_buf_at, sizeof_rmt_buf) in
  r ← ext (Ibv_post_recv (qp d) sgl.1 sgl.2 lkey);
  must r;;
  await_completion fuel (Some sgl);;
  size ← get_rdma (fun d => rmt_size (rmt_buf d));
  make_pool size false.

Definition handshake_server (depth : Z) (fuel : nat) : act () :=
  d ← get_rdma (fun d => d);
  r ← ext (Rdma_accept (cm_id d) depth);
  must r;;
  must_event ESTABLISHED;;
  ext (Sleep 500000);;
  size ← get_rdma data_pool_size;
  make_pool size true;;
  upd_rdma (fun d => set_rmt_buf (mk_rmt (data_pool d) (data_pool_size d) (mr_rkey (data_pool_mr d))) d);;
  d ← get_rdma (fun d => d);
  '(mr, lkey, _) ← ext (Ibv_reg_mr (pd d) rmt_buf_at sizeof_rmt_buf false);
  non_null mr;;
  let sgl := (rmt_buf_at, sizeof_rmt_buf) in
  r ← ext (Ibv_post_send (qp d)
    (mk_wr (Some 1) (Some WR_SEND) (Some true) sgl.1 sgl.2 lkey None None)
    (gather rmt_buf_at (rmt_buf d) sgl.1 sgl.2));
  must r;;
  await_completion fuel None;;
  r ← ext (Ibv_dereg_mr mr);
  must r.

Definition rdma_handshake {R} (fuel : nat) : M (st rdma_io) R Z :=
  call (
    id ← get_rdma cm_id;
    '(r, max_qp_rd_atom) ← ext (Ibv_query_device id);
    must r;;
    let depth := max_qp_rd_atom mod 256 in                 (* uint8_t *)
    (if client g then handshake_client depth fuel else handshake_server depth fuel);;
    mret 0).

(** *** Set-up *)

Definition cm_client (port : Z) : act () :=
  id ← get_rdma cm_id;
  r ← ext (Rdma_resolve_addr id (host g) port);
  must r;;
  must_event ADDR_RESOLVED;;
  r ← ext (Rdma_resolve_route id);
  must r;;
  must_event ROUTE_RESOLVED.

Definition cm_server (port : Z) : act () :=
  id ← get_rdma cm_listen_id;
  r ← ext (Rdma_bind_addr id (host g) port);
  must r;;
  r ← ext (Rdma_listen id 3);
  must r;;
  must_event CONNECT_REQUEST.

(** [x = create(); if (!x) return 1;]. *)
Definition create (e : ev) (result : reply e -> Z) (set : Z -> rdma_stuff -> rdma_stuff) : act () :=
  r ← ext e;
  upd_rdma (set (result r));;
  non_null (result r).

Definition rdma_setup {R} : M (st rdma_io) R Z :=
  call (
    create Rdma_create_event_channel id set_cm_channel;;
    ch ← get_rdma cm_channel;
    '(r, id) ← ext (Rdma_create_id ch);
    must r;;
    upd_rdma (if client g then set_cm_id id else set_cm_listen_id id);;
    n ← get_worker worker_id;
    let port := (base_port g + n) mod 2 ^ 16 in            (* htons *)
    (if client g then cm_client port else cm_server port);;
    id ← get_rdma cm_id;
    create (Ibv_alloc_pd id) (fun r => r) set_pd;;
    create (Ibv_create_comp_channel id) (fun r => r) set_comp_channel;;
    channel ← get_rdma comp_channel;
    depth ← int_ret (rdma_queue_depth g * 2);
    create (Ibv_create_cq id depth channel) (fun r => r) set_cq;;
    d ← get_rdma (fun d => d);
    r ← ext (Ibv_req_notify_cq (cq d));
    must r;;
    '(r, qp) ← ext (Rdma_create_qp id (pd d) (u32 (rdma_queue_depth g)) (cq d));
    must r;;
    upd_rdma (set_qp qp);;
    mret 0).

(** *** Completions *)

(** [if (reap_io_uring_cq(worker, min) < 0) return -1]. *)
Definition reap (fuel : nat) (min : Z) : act () :=
  r ← with_worker (reap_io_uring_cq fuel min);
  when (r <? 0) (return_ (-1)).

Fixpoint get_sqe (fuel : nat) : act () :=
  match fuel with
  | O => nofuel
  | S fuel' =>
      sqe ← ext Uring_get_sqe;
      if (sqe : bool) then mret () else reap fuel 0;; get_sqe fuel'
  end.

(** What the kernel reads of an entry: the [iov_base] of its [iovec], if that
    still is an object. *)
Definition iovec_of (x : rdma_io) (e : Z * nat) : Z * option Z :=
  (e.1, if decide (e.2 = frame x) then Some (iov_base x) else None).

Definition submit {R} : M (st rdma_io) R Z :=
  x ← get_own (fun x => x);
  n ← ext (Uring_submit_writev (iovec_of x <$> sq x));
  set_own (fun x => set_sq (drop (Z.to_nat n) (sq x)) x);;
  mret n.

(** [while (worker->io_uring_sqe_queued != 0)]. *)
Fixpoint submit_all (fuel : nat) : act () :=
  q ← get_worker io_uring_sqe_queued;
  if q =? 0 then mret ()
  else
    match fuel with
    | O => nofuel
    | S fuel' =>
        n ← submit;
        (if n >? 0 then upd (submitted n) else reap fuel 0);;
        submit_all fuel'
    end.

(** The entry for what one RDMA read has brought. *)
Definition enqueue (fuel : nat) (c : ibv_wc) : act () :=
  get_sqe fuel;;
  set_own (set_base (wc_wr_id c));;
  w ← get_worker (fun w => w);
  ext (Uring_prep_writev (fd w) (wc_wr_id c) (bs g) (cur_offset w));;
  set_own (fun x => set_sq (sq x ++ [(cur_offset w, frame x)]) x);;
  upd (prepared g).

Definition write_completed (fuel : nat) (c : ibv_wc) : act () :=
  enqueue fuel c;;
  q ← get_worker io_uring_sqe_queued;
  when (q =? io_uring_batch_submit g) (submit_all fuel);;
  f ← get_worker free_io_units_io_uring;
  when (f =? 0) (reap fuel 1).

(** [for (int i = 0; i < ret; i++)]. *)
Fixpoint completions (fuel todo : nat) (wc : list ibv_wc) : act () :=
  match todo, wc with
  | O, _ => mret ()
  | S _, [] => stop_ UB_uninit
  | S todo, c :: wc =>
      when (negb (wc_status c =? IBV_WC_SUCCESS)) (return_ (-1));;
      write_completed fuel c;;
      completions fuel todo wc
  end.

(** [do ... while (ret)]; the result is [reaped]. *)
Fixpoint poll_loop (fuel : nat) (reaped : Z) : act Z :=
  match fuel with
  | O => nofuel
  | S fuel' =>
      q ← get_rdma cq;
      '(ret, wc) ← ext (Ibv_poll_cq q POLL_BATCH);
      if ret <? 0 then return_ (-1)
      else if ret =? 0 then mret reaped
      else
        completions fuel (Z.to_nat ret) wc;;
        upd (fun w => set_credit (rdma_wr_posted w) (u64 (free_io_units_rdma w + ret)) w);;
        poll_loop fuel' (u32 (reaped + ret))
  end.

(** The wait of the event mode. *)
Definition wait_event : act () :=
  d ← get_rdma (fun d => d);
  '(r, ev_cq) ← get_cq_event (comp_channel d);
  when (negb (r =? 0)) (return_ (-1));;
  when (negb (ev_cq =? cq d)) (return_ (-1));;
  r ← ext (Ibv_req_notify_cq (cq d));
  when (negb (r =? 0)) (return_ (-1)).

(** [again: ... if (reaped < min) goto again;]. *)
Fixpoint reap_again (fuel : nat) (reaped min : Z) : act Z :=
  match fuel with
  | O => nofuel
  | S fuel' =>
      when (event g) wait_event;;
      reaped ← poll_loop fuel reaped;
      if reaped <? u32 min then reap_again fuel' reaped min else mret reaped
  end.

Definition reap_rdma_cq {R} (fuel : nat) (min : Z) : M (st rdma_io) R Z :=
  call (
    set_own next_frame;;
    reaped ← reap_again fuel 0 min;
    when (event g) (q ← get_rdma cq; ext (Ibv_ack_cq_events q reaped));;
    mret 0).

(** *** The thread *)

(** [sgl] is set; the work request's other members are not. *)
Definition rdma_client_terminate {R} : M (st rdma_io) R () :=
  d ← get_rdma (fun d => d);
  _ ← ext (Ibv_post_send (qp d)
    (mk_wr None None None (data_pool d) 4 (mr_lkey (data_pool_mr d)) None None)
    (replicate 4 None));                                (* bytes of the pool *)
  mret ().

(** [offset] after a read. *)
Definition next_read (size offset : Z) : Z :=
  let offset := u32 (offset + bs g) in
  if u64 (offset + bs g) >=? size then 0 else offset.

(** The work request of the read at [offset]. *)
Definition read_wr (d : rdma_stuff) (offset : Z) : send_wr :=
  let remote := u64 (rmt_addr (rmt_buf d) + offset) in
  mk_wr (Some remote) (Some WR_RDMA_READ) (Some true)
    (u64 (data_pool d + offset)) (u32 (bs g)) (mr_lkey (data_pool_mr d))
    (Some remote) (Some (rmt_rkey (rmt_buf d))).

Definition exit_if {R} (b : bool) : M (st rdma_io) R () := when b (stop_ Thread_exit).

(** The body of the main loop. *)
Definition read_step {R} (fuel : nat) (offset : Z) : M (st rdma_io) R Z :=
  d ← get_rdma (fun d => d);
  upd (fun w => set_credit (u64 (rdma_wr_posted w + 1)) (free_io_units_rdma w) w);;
  ret ← ext (Ibv_post_send (qp d) (read_wr d offset) []);    (* reads nothing here *)
  exit_if (negb (ret =? 0));;
  n ← get_worker rdma_wr_posted;
  when (n mod RDMA_REAP_FREQ =? 0) (r ← reap_rdma_cq fuel 0; exit_if (r <? 0));;
  upd (fun w => set_credit (rdma_wr_posted w) (u64 (free_io_units_rdma w - 1)) w);;
  f ← get_worker free_io_units_rdma;
  when (f =? 0) (r ← reap_rdma_cq fuel 1; exit_if (r <? 0));;
  mret (next_read (rmt_size (rmt_buf d)) offset).

Fixpoint read_loop {R} (fuel : nat) (offset : Z) : M (st rdma_io) R () :=
  match fuel with
  | O => nofuel
  | S fuel' =>
      start ← get_worker start_time;
      over ← runtime_exceeded g start;
      if (over : bool) then mret ()
      else offset ← read_step fuel offset; read_loop fuel' offset
  end.

(** The server, once the token is sent: it waits for one more completion,
    whether or not its receive was posted. *)
Definition serve {R} : M (st rdma_io) R () :=
  d ← get_rdma (fun d => d);
  _ ← ext (Ibv_post_recv (qp d) (data_pool d) 4 (mr_lkey (data_pool_mr d)));
  '(r, ev_cq) ← get_cq_event (comp_channel d);
  exit_if (negb (r =? 0));;
  exit_if (negb (ev_cq =? cq d));;
  '(n, _) ← ext (Ibv_poll_cq (cq d) 1);
  exit_if (negb (n =? 1));;
  ext (Ibv_ack_cq_events (cq d) 1).

(** The client, once it has the token: the test file, then reads until the time
    is over. *)
Definition client_part {R} (fuel : nat) : M (st rdma_io) R () :=
  with_worker (open_test_file g);;
  now ← ext Clock_now;
  upd (set_start now);;
  read_loop fuel 0;;
  upd set_stopped;;
  rdma_client_terminate.

Definition do_io_user_rdma {R} (fuel : nat) : M (st rdma_io) R () :=
  r ← rdma_setup;
  exit_if (negb (r =? 0));;
  r ← rdma_handshake fuel;
  exit_if (negb (r =? 0));;
  if negb (client g) then serve else client_part fuel.
End Rdma.

(** What the threads of [Worker] leave alone: the RDMA members and credits; they
    neither post work requests nor poll for their completions. *)
Definition verbs_of (w : io_worker) : rdma_stuff * Z * Z :=
  (rdma w, free_io_units_rdma w, rdma_wr_posted w).

Definition no_verbs (e : entry) : Prop :=
  match projT1 e with
  | Ibv_post_send _ _ _ | Ibv_post_recv _ _ _ _ | Ibv_poll_cq _ _ => False
  | _ => True
  end.

(** Nor do they wait for an event of the completion queue. *)
Definition off_queue (e : entry) : Prop :=
  match projT1 e with
  | Ibv_post_send _ _ _ | Ibv_post_recv _ _ _ _ | Ibv_poll_cq _ _ | Ibv_get_cq_event _ => False
  | _ => True
  end.

Lemma quiet_verbs {PF : Platform} {R A} (m : M (st rdma_io) R A) :
  steady (fun x => verbs_of (worker x)) (fun _ => off_queue) m ->
  steady (fun x => verbs_of (worker x)) (fun _ => no_verbs) m.
Proof. apply steady_weaken. by intros _ [[] r]. Qed.

Section quiet.
Context {PF : Platform} (g : options) {R : Type}.

Lemma quiet_reap_loop fuel reaped min :
  steady verbs_of (fun _ => off_queue) (reap_loop (PF := PF) fuel reaped min).
Proof. revert reaped. induction fuel as [| fuel IH]; intros reaped; cbn [reap_loop]; steady_go; apply IH. Qed.
Hint Resolve quiet_reap_loop : steady.

Lemma quiet_open_test_file : steady verbs_of (fun _ => off_queue) (open_test_file (R := R) g).
Proof. unfold open_test_file. steady_go. Qed.

(** A completed read causes writes only. *)
Abbreviation quiet m := (steady (fun x => verbs_of (worker x)) (fun _ => off_queue) m).

Lemma quiet_with_worker {A} (m : M (st io_worker) R A) :
  steady verbs_of (fun _ => off_queue) m -> quiet (with_worker m).
Proof. by apply steady_zoom. Qed.

Lemma quiet_reap fuel min : quiet (reap fuel min).
Proof.
  unfold reap. apply steady_bind; [| intros r; steady_go].
  apply steady_zoom with (look := verbs_of); [done.. |]. apply steady_call, quiet_reap_loop.
Qed.
Hint Resolve quiet_reap : steady.

Lemma quiet_get_sqe fuel : quiet (get_sqe fuel).
Proof. induction fuel as [| fuel IH]; cbn [get_sqe]; steady_go; apply IH. Qed.

Lemma quiet_submit_all fuel : quiet (submit_all fuel).
Proof.
  induction fuel as [| fuel IH]; cbn [submit_all]; unfold submit, upd, get_worker; steady_go.
Qed.
Hint Resolve quiet_get_sqe quiet_submit_all : steady.

Lemma quiet_write_completed fuel c : quiet (write_completed g fuel c).
Proof. unfold write_completed, enqueue, upd, get_worker. steady_go. Qed.
Hint Resolve quiet_write_completed : steady.

Lemma quiet_completions fuel todo wc : quiet (completions g fuel todo wc).
Proof.
  revert wc. induction todo as [| todo IH]; intros [| c wc]; cbn [completions]; steady_go.
Qed.

Lemma verbs_wait_event :
  steady (fun x => verbs_of (worker x)) (fun _ => no_verbs) wait_event.
Proof. unfold wait_event, get_cq_event, get_rdma, get_worker. steady_go. Qed.
End quiet.
#[export] Hint Resolve quiet_completions verbs_wait_event quiet_with_worker quiet_open_test_file : steady.

(** ** The reads of the client *)

(** Both buffers are memory: no address in them is 2^64 or more. *)
Definition addressable (d : rdma_stuff) : Prop :=
  0 <= rmt_addr (rmt_buf d) /\ rmt_addr (rmt_buf d) + rmt_size (rmt_buf d) <= 2 ^ 64 /\
  0 <= data_pool d /\ data_pool d + rmt_size (rmt_buf d) <= 2 ^ 64.

(** A read that is posted: from [off] bytes behind the start of the remote buffer,
    under the key of that buffer, to the same place of the local pool, and
    all of its [bs] bytes lie in the buffer. *)
Definition in_bounds (g : options) (d : rdma_stuff) (e : entry) : Prop :=
  match e with
  | existT (Ibv_post_send _ wr _) _ => opcode wr = Some WR_RDMA_READ ->
      exists off, 0 <= off /\ off + bs g <= rmt_size (rmt_buf d) /\
        remote_addr wr = Some (rmt_addr (rmt_buf d) + off) /\
        remote_key wr = Some (rmt_rkey (rmt_buf d)) /\
        sg_addr wr = data_pool d + off /\ sg_length wr = bs g /\
        sg_lkey wr = mr_lkey (data_pool_mr d)
  | _ => True
  end.

Definition no_read (e : entry) : Prop :=
  match e with existT (Ibv_post_send _ wr _) _ => opcode wr <> Some WR_RDMA_READ | _ => True end.

Section reads.
Context {PF : Platform} (g : options) (rmt_buf_at : Z).
Implicit Types s : st rdma_io.

Abbreviation within m := (steady (fun x => rdma (worker x)) (in_bounds g) m).

Lemma quiet_within {R A} (m : M (st rdma_io) R A) :
  steady (fun x => verbs_of (worker x)) (fun _ => no_verbs) m -> within m.
Proof.
  intros Hm s. eapply wp_mono; [| apply Hm]. intros o s' (E & l & L & F).
  injection E as E _ _. split; [done |]. exists l. split; [done |].
  eapply Forall_impl; [exact F |]. by intros [[] r].
Qed.

Lemma within_poll_loop fuel reaped : within (poll_loop g fuel reaped).
Proof.
  revert reaped. induction fuel as [| fuel IH]; intros reaped; cbn [poll_loop];
    unfold get_rdma, get_worker, upd; steady_go.
  apply quiet_within, quiet_verbs, quiet_completions.
Qed.

Lemma within_reap_again fuel reaped min : within (reap_again g fuel reaped min).
Proof.
  revert reaped. induction fuel as [| fuel IH]; intros reaped; cbn [reap_again]; [steady_go |].
  apply steady_bind; [apply quiet_within; auto with steady | intros _].
  apply steady_bind; [apply within_poll_loop | intros n]. destruct (n <? u32 min); [apply IH | steady_go].
Qed.

Lemma within_reap {R} fuel min : within (reap_rdma_cq (R := R) g fuel min).
Proof.
  unfold reap_rdma_cq, get_rdma, get_worker. apply steady_call.
  apply steady_bind; [steady_go | intros _].
  apply steady_bind; [apply within_reap_again | intros n]. steady_go.
Qed.

Lemma next_read_bounds size off :
  0 < bs g -> size < 2 ^ 32 -> bs g <= size -> 0 <= off -> off + bs g <= size ->
  0 <= next_read g size off /\ next_read g size off + bs g <= size.
Proof.
  intros Hb Hs Hbs Ho Hoff. unfold next_read.
  assert (u32 (off + bs g) = off + bs g) as -> by (apply Z.mod_small; lia).
  assert (u64 (off + bs g + bs g) = off + bs g + bs g) as -> by (apply Z.mod_small; lia).
  destruct (_ >=? _) eqn:E; bool_hyps; lia.
Qed.

(** The values that a statement can yield. *)
Definition yields {S R A} (P : A -> Prop) (m : M S R A) : Prop :=
  forall x : S, wp m (fun o _ => forall a, o = Val a -> P a) x.

Lemma yields_bind {S R A B} (P : B -> Prop) (m : M S R A) (f : A -> M S R B) :
  (forall a, yields P (f a)) -> yields P (m ≫= f).
Proof.
  intros H x. apply wp_bind. eapply wp_mono; [| apply wp_exact].
  intros [a | | |] x' _; [apply H | done..].
Qed.

(** The offsets of the loop. *)
Definition readable (d : rdma_stuff) (off : Z) : Prop :=
  0 <= off /\ off + bs g <= rmt_size (rmt_buf d).

Context (d : rdma_stuff) {R : Type}.

Definition reading {A} (m : M (st rdma_io) R A) (P : A -> Prop) : Prop :=
  forall s, rdma (worker (own s)) = d ->
  wp m (fun o s' => rdma (worker (own s')) = d /\ (forall a, o = Val a -> P a) /\
    exists l, log s' = l ++ log s /\ Forall (in_bounds g d) l) s.

Lemma reading_within {A} (m : M (st rdma_io) R A) (P : A -> Prop) :
  within m -> yields P m -> reading m P.
Proof.
  intros H1 H2 s E. eapply wp_mono; [| apply wp_and; [apply H1 | apply H2]].
  cbn beta. rewrite E. tauto.
Qed.

Lemma reading_bind {A B} (m : M (st rdma_io) R A) (f : A -> M (st rdma_io) R B) (P : A -> Prop) Q :
  reading m P -> (forall a, P a -> reading (f a) Q) -> reading (m ≫= f) Q.
Proof.
  intros Hm Hf s E. apply wp_bind. eapply wp_mono; [| by apply Hm].
  intros o s1 (E1 & HP & l1 & L1 & F1). destruct o as [a | | |].
  2, 3, 4: split; [done |]; split; [done |]; by exists l1.
  eapply wp_mono; [| by apply Hf; [apply HP |]].
  intros o s2 (E2 & HQ & l2 & L2 & F2). split; [done |]. split; [done |].
  exists (l2 ++ l1). rewrite L2, L1, app_assoc. split; [done | by apply Forall_app].
Qed.

Lemma reading_any {A} (m : M (st rdma_io) R A) : within m -> reading m (fun _ => True).
Proof. intros H. apply reading_within; [done |]. intros x. by eapply wp_mono; [| apply wp_exact]. Qed.

Hypothesis bs_pos : 0 < bs g.
Hypothesis bs_fits : bs g <= rmt_size (rmt_buf d) < 2 ^ 32.
Hypothesis memory : addressable d.

Lemma read_step_reads fuel off :
  readable d off -> reading (read_step g fuel off) (readable d).
Proof.
  intros Hoff. unfold read_step, get_rdma, get_worker, upd, exit_if.
  apply reading_bind with (P := fun d' => d' = d).
  { intros s E. wp_steps. rewrite E. split; [done |]. split; [by intros a [= <-] |]. by exists []. }
  intros d' ->. apply reading_bind with (P := fun _ => True).
  { by apply reading_any, steady_set. }
  intros _ _. apply reading_bind with (P := fun _ => True).
  { intros s E. apply (wp_ext (Ibv_post_send (qp d) (read_wr g d off) [])). intros r _.
    split; [done |]. split; [done |]. eexists [_]. split; [done |]. apply Forall_singleton. intros _. exists off.
    destruct Hoff, memory as (? & ? & ? & ?). cbn. rewrite !u64_id, u32_id by lia. done. }
  intros r _. apply reading_within.
  - pose proof (@within_reap R fuel). steady_go.
  - repeat (apply yields_bind; intros ?). intros s. apply wp_ret. intros ? [= <-].
    destruct Hoff. apply next_read_bounds; [done | lia..].
Qed.

Lemma read_loop_reads fuel off : readable d off -> reading (read_loop g fuel off) (fun _ => True).
Proof.
  revert off. induction fuel as [| fuel IH]; intros off Hoff; cbn [read_loop].
  { apply reading_any. steady_go. }
  apply reading_bind with (P := fun _ => True);
    [apply reading_any; unfold get_worker; steady_go | intros start _].
  apply reading_bind with (P := fun _ => True).
  { apply reading_any. unfold runtime_exceeded. steady_go. }
  intros [] _; [apply reading_any; steady_go |].
  apply reading_bind with (P := readable d); [by apply read_step_reads | intros off'; apply IH].
Qed.
End reads.

Section setup_calls.
Context {PF : Platform} (g : options) (rmt_buf_at : Z).
Abbreviation silent m := (logs no_read m).

Lemma silent_channel_event {R} w : silent (get_next_channel_event (R := R) w).
Proof. unfold get_next_channel_event, get_rdma, get_worker, upd_rdma, upd, must. logs_go. Qed.
Hint Resolve silent_channel_event : logs.

Lemma silent_await fuel into : silent (await_completion rmt_buf_at fuel into).
Proof.
  unfold await_completion, get_cq_event, get_rdma, get_worker, upd_rdma, upd, must. logs_go.
  induction fuel as [| fuel IH]; cbn [poll_one]; unfold get_rdma, get_worker; logs_go.
Qed.

Lemma silent_make_pool size remote : silent (make_pool size remote).
Proof.
  unfold make_pool, memalign, posix_memalign, get_rdma, get_worker, upd_rdma, upd, non_null. logs_go.
Qed.
Hint Resolve silent_await silent_make_pool : logs.

Lemma silent_create e result set :
  (forall r, no_read (e ~> r)) -> silent (create e result set).
Proof.
  intros H. unfold create, upd_rdma, upd, non_null.
  apply logs_bind; [by apply logs_ext | intros r; logs_go].
Qed.

Lemma silent_setup {R} : silent (rdma_setup (R := R) g).
Proof.
  unfold rdma_setup, cm_client, cm_server, must_event, get_rdma, get_worker, upd_rdma, upd, must.
  logs_go; by apply silent_create.
Qed.

Lemma silent_handshake {R} fuel : silent (rdma_handshake (R := R) g rmt_buf_at fuel).
Proof.
  unfold rdma_handshake, handshake_client, handshake_server, must_event, get_rdma, get_worker,
    upd_rdma, upd, non_null, must. logs_go.
Qed.

Lemma silent_serve {R} : silent (serve (R := R)).
Proof. unfold serve, get_cq_event, get_rdma, get_worker, exit_if. logs_go. Qed.
End setup_calls.

Section reads_theorem.
Context {PF : Platform} (g : options) (rmt_buf_at : Z) {R : Type}.
Implicit Types s : st rdma_io.

(** The calls of a run that has come from [s] to [s'], against the buffer that the
    worker knows at the end. *)
Definition reads_ok s s' : Prop :=
  let d := rdma (worker (own s')) in
  bs g <= rmt_size (rmt_buf d) < 2 ^ 32 -> addressable d ->
  exists l, log s' = l ++ log s /\ Forall (in_bounds g d) l.

Lemma no_read_in_bounds d l : Forall no_read l -> Forall (in_bounds g d) l.
Proof. intros F. eapply Forall_impl; [exact F |]. intros [[] r]; by cbn. Qed.

Lemma reads_ok_silent {A} (m : M (st rdma_io) R A) (f : A -> M (st rdma_io) R ()) s :
  logs no_read m ->
  (forall a s1, wp (f a) (fun _ s' => reads_ok s1 s') s1) ->
  wp (m ≫= f) (fun _ s' => reads_ok s s') s.
Proof.
  intros Hm Hf. apply wp_bind. eapply wp_mono; [| apply Hm]. intros o s1 (l1 & L1 & F1).
  assert (reads_ok s s1) as H1 by (intros _ _; exists l1; auto using no_read_in_bounds).
  destruct o as [a | | |]; [| done..].
  eapply wp_mono; [| apply Hf]. intros o s2 H2 Hb Hm'. destruct (H2 Hb Hm') as (l2 & L2 & F2).
  exists (l2 ++ l1). rewrite L2, L1, app_assoc. split; [done |].
  apply Forall_app. auto using no_read_in_bounds.
Qed.

Lemma reads_ok_end (m : M (st rdma_io) R ()) s :
  logs no_read m -> wp m (fun _ s' => reads_ok s s') s.
Proof.
  intros Hm. eapply wp_mono; [| apply Hm]. intros o s1 (l1 & L1 & F1) _ _.
  exists l1. auto using no_read_in_bounds.
Qed.

Abbreviation still m := (steady (fun x => rdma (worker x)) (fun _ _ => True) m).

Lemma still_within {A} (m : M (st rdma_io) R A) :
  steady (fun x => rdma (worker x)) (in_bounds g) m -> still m.
Proof. by apply steady_weaken. Qed.

Lemma still_read_loop fuel off : still (read_loop (R := R) g fuel off).
Proof.
  assert (forall fuel n, still (reap_rdma_cq (R := R) g fuel n)) as Hr.
  { intros f n. apply still_within, within_reap. }
  assert (forall fuel off, still (read_step (R := R) g fuel off)) as Hs.
  { intros f n. unfold read_step, get_rdma, get_worker, upd, exit_if. steady_go. }
  revert off. induction fuel as [| fuel IH]; intros off; cbn [read_loop];
    unfold get_worker, runtime_exceeded; steady_go.
Qed.

Lemma reading_client_part fuel d :
  0 < bs g -> bs g <= rmt_size (rmt_buf d) < 2 ^ 32 -> addressable d ->
  reading g d (client_part (R := R) g fuel) (fun _ => True).
Proof.
  intros Hb Hd Hm. unfold client_part, upd, rdma_client_terminate, get_rdma, get_worker.
  apply reading_bind with (P := fun _ => True);
    [apply reading_any, quiet_within, quiet_verbs, quiet_with_worker, quiet_open_test_file | intros _ _].
  apply reading_bind with (P := fun _ => True); [apply reading_any; steady_go | intros now _].
  apply reading_bind with (P := fun _ => True); [apply reading_any; steady_go | intros _ _].
  apply reading_bind with (P := fun _ => True).
  { apply read_loop_reads; [done | done | done |]. split; [done | lia]. }
  intros _ _. apply reading_any. steady_go.
Qed.

Lemma still_client_part fuel : still (client_part (R := R) g fuel).
Proof.
  unfold client_part, upd, rdma_client_terminate, get_rdma, get_worker.
  apply steady_bind; [apply still_within, quiet_within, quiet_verbs, quiet_with_worker, quiet_open_test_file | intros _].
  pose proof (still_read_loop fuel 0). steady_go.
Qed.

Lemma run_reads_ok fuel s :
  0 < bs g -> wp (do_io_user_rdma (R := R) g rmt_buf_at fuel) (fun _ s' => reads_ok s s') s.
Proof.
  intros Hb. unfold do_io_user_rdma, exit_if.
  apply reads_ok_silent; [apply silent_setup | intros r s1].
  apply reads_ok_silent; [logs_go | intros _ s2].
  apply reads_ok_silent; [apply silent_handshake | intros r' s3].
  apply reads_ok_silent; [logs_go | intros _ s4].
  destruct (client g); cbn [negb]; [| apply reads_ok_end, silent_serve].
  set (d := rdma (worker (own s4))).
  destruct (decide (bs g <= rmt_size (rmt_buf d) < 2 ^ 32)) as [Hd | Hd].
  2:{ eapply wp_mono; [| apply (still_client_part fuel)]. intros o' s5 (E & _). unfold reads_ok.
      rewrite E. by intros H%Hd. }
  assert (addressable d \/ ~ addressable d) as [Hm | Hm] by (unfold addressable; lia).
  - eapply wp_mono; [| by apply (reading_client_part fuel d)].
    intros o' s5 (E & _ & H). unfold reads_ok. by rewrite E.
  - eapply wp_mono; [| apply (still_client_part fuel)]. intros o' s5 (E & _). unfold reads_ok.
    rewrite E. by intros _ H%Hm.
Qed.

(** C16: Take a run of the RDMA thread, however it ends, and the remote buffer that
    its worker knows at the end.  If a block of [bs] bytes fits that buffer, and
    both buffers are memory (end at or below 2^64), every read the thread has posted
    asks for [bs] bytes at an offset that lies, whole, inside the buffer
    the server announced, under the key the server announced, and puts them at
    the same offset of the client's own pool. *)
Theorem rdma_reads_in_bounds fuel s o s' :
  0 < bs g -> do_io_user_rdma (R := R) g rmt_buf_at fuel s = (o, s') ->
  let d := rdma (worker (own s')) in
  bs g <= rmt_size (rmt_buf d) < 2 ^ 32 -> addressable d ->
  exists l, log s' = l ++ log s /\ Forall (in_bounds g d) l.
Proof. intros Hb. apply (wp_run _ _ _ (run_reads_ok fuel s Hb)). Qed.
End reads_theorem.

(** ** The handshake *)

(** The token in memory: what is read of it and written to it as a whole. *)

Definition token_ok (b : rdma_rmt_buf) : Prop :=
  0 <= rmt_addr b < 2 ^ 64 /\ 0 <= rmt_size b < 2 ^ 32 /\ 0 <= rmt_rkey b < 2 ^ 32.

Lemma length_token_bytes b : length (token_bytes b) = 16%nat.
Proof. unfold token_bytes. by rewrite !length_app, !length_le_bytes. Qed.

Lemma token_roundtrip b : token_ok b -> token_of (token_bytes b) = b.
Proof.
  intros (Ha & Hs & Hk). unfold token_of, token_bytes.
  rewrite take_app_length', drop_app_length' by (by rewrite length_le_bytes).
  rewrite take_app_length' by (by rewrite length_le_bytes).
  rewrite app_assoc, drop_app_length' by (rewrite length_app, !length_le_bytes; done).
  rewrite !le_value_bytes by done. by destruct b.
Qed.

Lemma gather_all base b : gather base b base sizeof_rmt_buf = Some <$> token_bytes b.
Proof.
  unfold gather. change (Z.to_nat sizeof_rmt_buf) with 16%nat. apply list_eq. intros i.
  rewrite !list_lookup_fmap. destruct (decide (i < 16)%nat) as [Hi | Hi].
  - rewrite lookup_seq_lt by done. cbn [fmap option_fmap option_map].
    replace (base + Z.of_nat (0 + i) - base) with (Z.of_nat i) by lia.
    rewrite (proj2 (Z.leb_le _ _)) by lia. rewrite Nat2Z.id.
    destruct (lookup_lt_is_Some_2 (token_bytes b) i) as [x Hx]; [by rewrite length_token_bytes |].
    by rewrite Hx.
  - rewrite lookup_seq_ge by lia. rewrite lookup_ge_None_2 by (rewrite length_token_bytes; lia). done.
Qed.

Lemma scatter_all base b m :
  length m = 16%nat -> scatter base b base sizeof_rmt_buf m = token_of m.
Proof.
  intros Hm. unfold scatter, sizeof_rmt_buf. f_equal. apply list_eq. intros i. rewrite list_lookup_imap.
  destruct (decide (i < 16)%nat) as [Hi | Hi].
  - destruct (lookup_lt_is_Some_2 (token_bytes b) i) as [x Hx]; [by rewrite length_token_bytes |].
    destruct (lookup_lt_is_Some_2 m i) as [y Hy]; [by rewrite Hm |].
    rewrite Hx. cbn [fmap option_fmap option_map].
    replace (base + Z.of_nat i - base) with (Z.of_nat i) by lia.
    rewrite (proj2 (Z.leb_le _ _)), (proj2 (Z.ltb_lt _ _)), Nat2Z.id, Hy by lia. done.
  - assert (m !! i = None) as -> by (apply lookup_ge_None; lia).
    assert (token_bytes b !! i = None) as -> by (apply lookup_ge_None; rewrite length_token_bytes; lia).
    done.
Qed.

Definition no_send (e : entry) : Prop :=
  match e with existT (Ibv_post_send _ _ _) _ => False | _ => True end.

(** The data pool is a block of [size] bytes. *)
Definition pool_at (s : st rdma_io) (size : Z) : Prop :=
  exists l b, data_pool (rdma (worker (own s))) = Z.of_nat l /\
    blocks (heap s) !! l = Some b /\ length b = Z.to_nat size.

(** The region that covers it was registered, with these keys. *)
Definition pool_registered (s : st rdma_io) (size : Z) (remote : bool) : Prop :=
  let d := rdma (worker (own s)) in let mr := data_pool_mr d in
  Ibv_reg_mr (pd d) (data_pool d) size remote ~> (mr_ptr mr, mr_lkey mr, mr_rkey mr) ∈ log s /\
  mr_ptr mr <> 0.

Section handshake.
Context {PF : Platform}.
Implicit Types s : st rdma_io.

(** [m] goes on to the next statement only with [Q]; where it returns, it returns 1. *)
Definition given {A} (Q : A -> st rdma_io -> Prop) (o : outcome Z A) (s' : st rdma_io) : Prop :=
  match o with Val a => Q a s' | Ret r => r = 1 | _ => True end.
Definition gives {A} (m : M (st rdma_io) Z A) s (Q : A -> st rdma_io -> Prop) : Prop :=
  wp m (given Q) s.

Lemma gives_bind {A B} (m : M (st rdma_io) Z A) (f : A -> M (st rdma_io) Z B) s P Q :
  gives m s P -> (forall a s1, P a s1 -> gives (f a) s1 Q) -> gives (m ≫= f) s Q.
Proof.
  intros Hm Hf. apply wp_bind. eapply wp_mono; [| exact Hm].
  intros [a | | |] s1 H; [by apply Hf | done..].
Qed.

Lemma wp_must r (Q : outcome Z () -> st rdma_io -> Prop) s :
  (r = 0 -> Q (Val ()) s) -> Q (Ret 1) s -> wp (must r) Q s.
Proof. intros H1 H2. unfold must. destruct (r =? 0) eqn:E; bool_hyps; [by apply H1 | done]. Qed.

Lemma wp_non_null r (Q : outcome Z () -> st rdma_io -> Prop) s :
  (r <> 0 -> Q (Val ()) s) -> Q (Ret 1) s -> wp (non_null r) Q s.
Proof. intros H1 H2. unfold non_null. destruct (r =? 0) eqn:E; bool_hyps; [done | by apply H1]. Qed.

Lemma wp_unless b u (Q : outcome Z () -> st rdma_io -> Prop) s :
  (b = false -> Q (Val ()) s) -> Q (Ret u) s -> wp (when b (return_ u)) Q s.
Proof. intros H1 H2. destruct b; [done | by apply H1]. Qed.

(** A test that leaves the function when it fails. *)
Ltac checked :=
  first [apply wp_must | apply wp_non_null | apply wp_unless]; [intros ? | try done];
  cbn beta iota; wp_steps.

(** Nothing was sent since [s]. *)
Definition unsent s (h : history) : Prop := exists l, h = l ++ log s /\ Forall no_send l.

Lemma unsent_trans s s1 h : unsent s (log s1) -> unsent s1 h -> unsent s h.
Proof.
  intros (l1 & E1 & F1) (l2 & E2 & F2). exists (l2 ++ l1). rewrite E2, E1, app_assoc.
  split; [done | by apply Forall_app].
Qed.

(** Calls were made, and nothing else was changed. *)
Definition only_calls s s' : Prop :=
  own s' = own s /\ heap s' = heap s /\ unsent s (log s').

Lemma must_event_spec w s :
  w <> CONNECT_REQUEST -> gives (must_event w) s (fun _ s' => only_calls s s').
Proof.
  intros Hw0. unfold must_event, get_next_channel_event, get_rdma, get_worker, gives. wp_steps.
  destruct r as [[r e] i]. wp_steps. checked. checked.
  apply negb_false_iff, bool_decide_eq_true in H0 as ->.
  rewrite bool_decide_false by done. cbn [when]. wp_steps. checked.
  split; [done |]. split; [done |]. eexists [_; _]. split; [done |]. by repeat constructor.
Qed.

(** The first completion that the poll sees. *)
Lemma poll_one_spec fuel s :
  gives (poll_one fuel) s (fun c s' => only_calls s s' /\
    exists h q n, unsent s h /\ c ∈ (world h (Ibv_poll_cq q n)).2).
Proof.
  revert s. induction fuel as [| fuel IH]; intros s; unfold gives; cbn [poll_one];
    [by wp_steps |].
  unfold get_rdma, get_worker. wp_steps. destruct r as [r wcs]. destruct (r <? 1).
  - set (s1 := mk_st _ _ _). assert (unsent s (log s1)) as U1.
    { eexists [_]. split; [done |]. by repeat constructor. }
    eapply wp_mono; [| apply IH]. intros [c | | |] s' H; [| done..].
    destruct H as ((E1 & E2 & E3) & h & q & n & U & Hin). split.
    + split; [done |]. split; [done |]. by eapply unsent_trans.
    + exists h, q, n. split; [by eapply unsent_trans | done].
  - destruct wcs as [| c wcs]; wp_steps; [done |]. split.
    + split; [done |]. split; [done |]. eexists [_]. split; [done |]. by repeat constructor.
    + exists (log s), (cq (rdma (worker (own s)))), 1. split; [by exists [] |].
      rewrite <- Hw. apply list_elem_of_here.
Qed.

(** A completion was waited for, without an error; what it brought is in the
    posted buffer. *)
Lemma await_spec rmt_buf_at fuel into s :
  gives (await_completion rmt_buf_at fuel into) s (fun _ s' => heap s' = heap s /\ unsent s (log s') /\
    exists c h q n, unsent s h /\ c ∈ (world h (Ibv_poll_cq q n)).2 /\ wc_status c = 0 /\
      let d := rdma (worker (own s)) in
      rdma (worker (own s')) = match into, wc_received c with
        | Some (addr, len), Some m => set_rmt_buf (scatter rmt_buf_at (rmt_buf d) addr len m) d
        | _, _ => d end).
Proof.
  unfold await_completion, get_cq_event, get_rdma, get_worker, upd_rdma, upd, gives. wp_steps.
  destruct r as [[r c] |]; [| done]. wp_steps. checked. checked. checked.
  set (s0 := mk_st _ _ _). assert (unsent s (log s0)) as U0.
  { eexists [_; _]. split; [done |]. by repeat constructor. }
  eapply wp_mono; [| apply poll_one_spec]. intros [wc | | |] s1 Hp; [| done..].
  destruct Hp as ((E1 & E2 & U1) & h & q & n & Uh & Hin). cbn [own heap s0] in E1, E2.
  apply wp_bind. pose proof (unsent_trans _ _ _ U0 U1) as U2. pose proof (unsent_trans _ _ _ U0 Uh) as U3.
  assert (forall e r, no_send (e ~> r) -> unsent s (e ~> r :: log s1)) as U4.
  { intros e re He. eapply unsent_trans; [exact U2 |]. exists [e ~> re]. split; [done |]. by repeat constructor. }
  destruct into as [[addr len] |]; [destruct (wc_received wc) as [m |] eqn:Em |]; wp_steps; checked;
    split; try done; (split; [by apply U4 |]); exists wc, h, q, n; rewrite ?Em, <- ?E1; done.
Qed.

Lemma make_pool_spec size remote s :
  gives (make_pool size remote) s (fun _ s' =>
    pool_at s' size /\ pool_registered s' size remote /\ unsent s (log s') /\
    exists mr, rdma (worker (own s')) =
      set_data_pool_mr mr (set_data_pool (Z.of_nat (next_loc (heap s))) (rdma (worker (own s)))) /\
      exists h pd, (mr_ptr mr, mr_lkey mr, mr_rkey mr) =
        world h (Ibv_reg_mr pd (Z.of_nat (next_loc (heap s))) size remote)).
Proof.
  unfold make_pool, memalign, posix_memalign, get_rdma, get_worker, upd_rdma, upd, gives. wp_steps.
  destruct (r =? 0); wp_steps; [| done].
  destruct r0 as [[mr lkey] rkey]. wp_steps. checked.
  split; [| split; [| split]].
  - exists (next_loc (heap s)), (replicate (Z.to_nat size) None). split; [done |].
    split; [apply lookup_insert_eq | apply length_replicate].
  - split; [apply list_elem_of_here | done].
  - eexists [_; _]. split; [done |]. by repeat constructor.
  - eexists. split; [done |]. eexists _, _. exact Hw0.
Qed.

(** The result 0 of a function is the [return 0] at its end. *)
Lemma gives_zero {R} (m : M (st rdma_io) Z Z) s s' (Q : st rdma_io -> Prop) :
  gives m s (fun _ => Q) -> call (R' := R) m s = (Val 0, s') -> Q s'.
Proof.
  unfold gives, wp, call. destruct (m s) as [[r | r | u |] s1]; cbn; intros H E; simplify_eq; done.
Qed.

(** The values the server announces are values of their C types. *)
Record announceable s : Prop := {
  an_pool : Z.of_nat (next_loc (heap s)) < 2 ^ 64;
  an_size : 0 <= data_pool_size (rdma (worker (own s))) < 2 ^ 32;
  an_rkey : forall h pd a n remote, 0 <= (world h (Ibv_reg_mr pd a n remote)).2 < 2 ^ 32;
}.

(** Whatever was sent was the token [b]. *)
Definition sends_token (b : rdma_rmt_buf) (e : entry) : Prop :=
  match e with existT (Ibv_post_send _ _ p) _ => p = Some <$> token_bytes b | _ => True end.

Lemma no_send_token b l : Forall no_send l -> Forall (sends_token b) l.
Proof. intros F. eapply Forall_impl; [exact F |]. by intros [[] r]. Qed.

(** What the server has done: its pool is there, registered for remote access,
    and announced. *)
Definition served s s' : Prop :=
  let d := rdma (worker (own s')) in
  rmt_buf d = mk_rmt (data_pool d) (data_pool_size d) (mr_rkey (data_pool_mr d)) /\
  pool_at s' (data_pool_size d) /\ pool_registered s' (data_pool_size d) true /\
  token_ok (rmt_buf d) /\
  exists l, log s' = l ++ log s /\ Forall (sends_token (rmt_buf d)) l.

Lemma handshake_server_spec depth rmt_buf_at fuel s0 s :
  announceable s -> unsent s0 (log s) ->
  gives (handshake_server rmt_buf_at depth fuel) s (fun _ s' => served s0 s').
Proof.
  intros A U. unfold handshake_server, get_rdma, get_worker, upd_rdma, upd, gives. wp_steps. checked.
  eapply wp_mono; [| by apply (must_event_spec ESTABLISHED)].
  intros [[] | | |] s1 HE; [| done..]. destruct HE as (O1 & H1 & U1). cbn beta iota. wp_steps.
  eapply wp_mono; [| apply make_pool_spec].
  intros [[] | | |] s2 H2; [| done..]. destruct H2 as (P2 & G2 & U2 & mr & D2 & hk & pdk & Hk).
  cbn [own heap log] in *. rewrite O1 in D2. rewrite H1 in D2, Hk.
  wp_steps. destruct r1 as [[mr' lkey] rkey]. wp_steps. checked. checked.
  rewrite gather_all. set (s3 := mk_st _ _ _).
  eapply wp_mono; [| apply await_spec]. intros [[] | | |] s4 H4; [| done..].
  destruct H4 as (E4 & U4 & c & h & q & n & _ & _ & _ & D4).
  wp_steps. checked. unfold served, pool_at, pool_registered in *.
  cbn [given own heap log worker set_worker set_rdma rdma s3] in *.
  set (d2 := rdma (worker (own s2))) in *. rewrite D4. cbn [set_rmt_buf data_pool data_pool_size data_pool_mr rmt_buf pd].
  destruct A as [A1 A2 A3]. specialize (A3 hk pdk (Z.of_nat (next_loc (heap s))) (data_pool_size (rdma (worker (own s1)))) true).
  rewrite <- Hk in A3. cbn [snd] in A3.
  assert (data_pool_size d2 = data_pool_size (rdma (worker (own s1)))) as Ed by (by rewrite D2, O1).
  rewrite <- Ed in P2, G2. destruct G2 as [G2 G2']. destruct U4 as (l4 & L4 & F4).
  split; [done |]. split; [by rewrite E4 |]. split; [split; [| done] |].
  { rewrite L4. apply list_elem_of_further, elem_of_app. right. by do 2 apply list_elem_of_further. }
  split.
  { rewrite D2. unfold token_ok. cbn [rmt_addr rmt_size rmt_rkey data_pool data_pool_size data_pool_mr
      set_data_pool_mr set_data_pool]. split; [lia | done]. }
  destruct U as (l & L & F), U1 as (l1 & L1 & F1), U2 as (l2 & L2 & F2). cbn [log] in *.
  eexists (_ :: l4 ++ _ :: _ :: l2 ++ _ :: l1 ++ _ :: l). split.
  - rewrite L4. subst s3. cbn [log]. rewrite L2, L1, L. cbn [app]. repeat (rewrite <- app_assoc; cbn [app]). done.
  - repeat first [apply Forall_cons; split; [done |] | apply Forall_app; split; [by apply no_send_token |]].
    by apply no_send_token.
Qed.

(** The message [m] is what memory held when it was sent, as far as that is
    known. *)
Definition is_message (m : list byte) (payload : list mbyte) : Prop :=
  Forall2 (fun c p => p = None \/ p = Some c) m payload.

(** A reliable connection, as the client sees it: before it has sent anything its
    completions are those of its receives, one that reports no error has brought
    a message, and a message that arrives was sent by the peer, whose calls are
    [sent]. *)
Record connection (sent : history) : Prop := {
  cn_arrives : forall h q n c, Forall no_send h -> c ∈ (world h (Ibv_poll_cq q n)).2 ->
    wc_status c = 0 -> is_Some (wc_received c);
  cn_message : forall h q n c m, c ∈ (world h (Ibv_poll_cq q n)).2 -> wc_received c = Some m ->
    exists qp wr payload, Ibv_post_send qp wr payload ~> 0 ∈ sent /\ opcode wr = Some WR_SEND /\
      is_message m payload;
}.

Lemma is_message_exact m b : is_message m (Some <$> b) -> m = b.
Proof.
  unfold is_message. intros H. revert b H. induction m as [| x m IH]; intros [| y b] H; try done; try by inversion H.
  apply Forall2_cons in H as [[Hx | Hx] H]; [done |]. injection Hx as ->. f_equal. by apply IH.
Qed.

(** What the client has, when all that is sent is [b]. *)
Definition received (b : rdma_rmt_buf) s' : Prop :=
  rmt_buf (rdma (worker (own s'))) = b /\ pool_at s' (rmt_size b) /\
  pool_registered s' (rmt_size b) false.

Lemma handshake_client_spec depth rmt_buf_at fuel b sent s0 s :
  Forall no_send (log s0) -> unsent s0 (log s) -> connection sent -> Forall (sends_token b) sent ->
  token_ok b ->
  gives (handshake_client rmt_buf_at depth fuel) s (fun _ s' => received b s').
Proof.
  intros N0 U [C1 C2] Hsent Hb. unfold handshake_client, get_rdma, get_worker, gives. wp_steps. checked.
  set (s1 := mk_st _ _ _). assert (unsent s (log s1)) as U1.
  { eexists [_]. split; [done |]. by repeat constructor. }
  eapply wp_mono; [| by apply (must_event_spec ESTABLISHED)].
  intros [[] | | |] s2 HE; [| done..]. destruct HE as (O2 & H2 & U2). cbn beta iota. wp_steps.
  destruct r0 as [[mr lkey] rkey]. wp_steps. checked. checked.
  set (s3 := mk_st _ _ _). assert (unsent s2 (log s3)) as U3.
  { eexists [_; _]. split; [done |]. by repeat constructor. }
  eapply wp_mono; [| apply await_spec]. intros [[] | | |] s4 H4; [| done..].
  destruct H4 as (E4 & _ & c & h & q & n & Uh & Hin & Hst & D4). cbn [fst snd] in D4.
  assert (Forall no_send h) as Nh.
  { pose proof (unsent_trans _ _ _ (unsent_trans _ _ _ (unsent_trans _ _ _ (unsent_trans _ _ _ U U1) U2) U3) Uh)
      as (l & -> & F). by apply Forall_app. }
  destruct (C1 h q n c Nh Hin Hst) as [m Em]. rewrite Em in D4.
  destruct (C2 h q n c m Hin Em) as (qp & wr & payload & Hs & _ & Hm).
  pose proof (proj1 (Forall_forall _ _) Hsent _ Hs) as Hp. cbn [sends_token] in Hp. rewrite Hp in Hm.
  apply is_message_exact in Hm. subst m.
  rewrite scatter_all, token_roundtrip in D4 by (done || apply length_token_bytes).
  wp_steps. rewrite D4. cbn [set_rmt_buf rmt_buf rmt_size].
  eapply wp_mono; [| apply make_pool_spec].
  intros [[] | | |] s5 G5; [| done..]. destruct G5 as (P5 & G5 & _ & mr' & D5 & _).
  split; [| done]. by rewrite D5, D4.
Qed.

Lemma handshake_result {R} g rmt_buf_at fuel s s' (Q : st rdma_io -> Prop) :
  (forall depth s1, own s1 = own s -> heap s1 = heap s -> unsent s (log s1) ->
     gives (if client g then handshake_client rmt_buf_at depth fuel
            else handshake_server rmt_buf_at depth fuel) s1 (fun _ => Q)) ->
  rdma_handshake (R := R) g rmt_buf_at fuel s = (Val 0, s') -> Q s'.
Proof.
  intros H. apply gives_zero. unfold gives, get_rdma, get_worker. wp_steps. destruct r as [r n]. wp_steps.
  checked. eapply wp_mono; [| apply H; try done].
  - intros [[] | | |] s1 H1; [by wp_steps | done..].
  - eexists [_]. split; [done |]. by repeat constructor.
Qed.
End handshake.

(** C22: The handshake hands the server's memory over.  Let both handshakes succeed,
    with what the server announces in the ranges of its C types, nothing sent by
    either side before, and a reliable connection between them: what the client
    receives are the bytes that were in the server's memory, at the address the
    server gave, when it posted its send; they are stored where the client's
    receive was posted.  Then the client's [rmt_buf] is address, size and key of
    the pool that the server has allocated and registered for remote access, and the
    client's own pool has that size and is registered too. *)
Theorem handshake_hands_over (S C : Platform) {R} gs gc at_s at_c fuel fuel' s s' t t' :
  client gs = false -> client gc = true ->
  announceable (PF := S) s -> Forall no_send (log s) -> Forall no_send (log t) ->
  rdma_handshake (PF := S) (R := R) gs at_s fuel s = (Val 0, s') ->
  connection (PF := C) (log s') ->
  rdma_handshake (PF := C) (R := R) gc at_c fuel' t = (Val 0, t') ->
  let d := rdma (worker (own s')) in
  rmt_buf (rdma (worker (own t'))) =
    mk_rmt (data_pool d) (data_pool_size d) (mr_rkey (data_pool_mr d)) /\
  pool_at s' (data_pool_size d) /\ pool_registered s' (data_pool_size d) true /\
  pool_at t' (data_pool_size d) /\ pool_registered t' (data_pool_size d) false.
Proof.
  intros Es Ec A Ns Nt Rs Cn Rc d.
  apply handshake_result with (Q := served s) in Rs as (Hb & Ps & Gs & Hok & l & L & F).
  2:{ intros depth s1 E1 E2 U. rewrite Es. apply handshake_server_spec; [| done].
      destruct A as [A1 A2 A3]. split; [by rewrite E2 | by rewrite E1 | done]. }
  fold d in Hb, Ps, Gs, Hok, F.
  assert (Forall (sends_token (rmt_buf d)) (log s')) as Hs
    by (rewrite L; apply Forall_app; split; [done | by apply no_send_token]).
  apply handshake_result with (Q := received (rmt_buf d)) in Rc as (H1 & H2 & H3).
  2:{ intros depth t1 E1 E2 U. rewrite Ec. by apply (handshake_client_spec _ _ _ _ (log s') t). }
  rewrite Hb in H1, H2, H3. done.
Qed.

(** ** What is written to the file *)

(** What the kernel has read at each submission, newest first. *)
Definition submission_of (e : entry) : option (list (Z * option Z)) :=
  match e with existT (Uring_submit_writev q) _ => Some q | _ => None end.
Definition submissions (h : history) : list (list (Z * option Z)) := omap submission_of h.

(** The file offsets of [n] writes from [c] on. *)
Fixpoint offsets_from (g : options) (c : Z) (n : nat) : list Z :=
  match n with O => [] | S n => c :: offsets_from g (next_offset g c) n end.

Section aliasing.
Context {PF : Platform} (g : options).
Hypothesis room : forall h, world h Uring_get_sqe = true.
Hypothesis takes_all : forall h q, world h (Uring_submit_writev q) = Z.of_nat (length q).
Hypothesis batch_fits : 0 < io_uring_batch_submit g < 2 ^ 32.
Implicit Types s : st rdma_io.

(** [q] is queued by the current call, and [room] more writes do not use up the
    free units. *)
Record filling (q : list Z) (more : nat) s : Prop := {
  fl_sq : sq (own s) = (fun o => (o, frame (own s))) <$> q;
  fl_queued : io_uring_sqe_queued (worker (own s)) = Z.of_nat (length q);
  fl_free : Z.of_nat more < free_io_units_io_uring (worker (own s)) < 2 ^ 64;
}.

(** A write is queued. *)
Lemma enqueue_spec fuel c q more s :
  (0 < fuel)%nat -> filling q (S more) s -> Z.of_nat (length q) + 1 < 2 ^ 32 ->
  wp (enqueue g fuel c) (fun o s' => o = Val () /\
    filling (q ++ [cur_offset (worker (own s))]) more s' /\
    cur_offset (worker (own s')) = next_offset g (cur_offset (worker (own s))) /\
    iov_base (own s') = wc_wr_id c /\ submissions (log s') = submissions (log s)) s.
Proof.
  intros Hf [F1 F2 F3] Hq. unfold enqueue, upd, get_worker. destruct fuel as [| fuel]; [lia |].
  cbn [get_sqe]. wp_steps. rewrite room in Hw. subst r. wp_steps.
  split; [done |]. split; [split | done].
  - cbn. rewrite F1, fmap_app. done.
  - cbn. rewrite F2, length_app. cbn [length]. rewrite Nat2Z.inj_add. apply Z.mod_small. lia.
  - cbn. unfold u64. rewrite Z.mod_small by lia. lia.
Qed.

Lemma submit_all_empty fuel (Q : outcome Z () -> st rdma_io -> Prop) s :
  io_uring_sqe_queued (worker (own s)) = 0 -> Q (Val ()) s -> wp (submit_all fuel) Q s.
Proof. intros E H. destruct fuel; cbn [submit_all]; unfold get_worker; wp_steps; by rewrite E. Qed.

Lemma iovec_of_current x (q : list Z) :
  iovec_of x <$> ((fun o => (o, frame x)) <$> q) = (fun o => (o, Some (iov_base x))) <$> q.
Proof.
  rewrite <- list_fmap_compose. apply list_fmap_ext. intros i o _. unfold compose, iovec_of. cbn.
  by rewrite decide_True.
Qed.

(** The queue is full: the kernel takes all of it. *)
Lemma flush_spec fuel q s :
  (0 < fuel)%nat -> filling q 0 s -> Z.of_nat (length q) = io_uring_batch_submit g ->
  wp (submit_all fuel) (fun o s' => o = Val () /\
    submissions (log s') = ((fun o => (o, Some (iov_base (own s)))) <$> q) :: submissions (log s) /\
    filling [] 0 s' /\ cur_offset (worker (own s')) = cur_offset (worker (own s))) s.
Proof.
  intros Hf [F1 F2 F3] Hq. destruct fuel as [| fuel]; [lia |]. cbn [submit_all].
  unfold get_worker, submit, upd. wp_steps. rewrite F2, (proj2 (Z.eqb_neq _ _)) by lia. wp_steps.
  rewrite takes_all in Hw. subst r. rewrite F1, !length_fmap.
  rewrite (proj2 (Z.gtb_lt _ _)) by lia. wp_steps.
  assert (u32 (Z.of_nat (length q) - Z.of_nat (length q)) = 0) as E by (by rewrite Z.sub_diag).
  apply submit_all_empty; cbn; [by rewrite F2 |].
  rewrite iovec_of_current. split; [done |]. split; [done |]. split; [| done].
  split; cbn; [by rewrite Nat2Z.id, drop_ge by by rewrite length_fmap | by rewrite F2 | done].
Qed.

Lemma completions_fill fuel wcs c q s :
  (0 < fuel)%nat -> Forall (fun c => wc_status c = IBV_WC_SUCCESS) (wcs ++ [c]) ->
  filling q (length wcs + 1) s ->
  io_uring_batch_submit g = Z.of_nat (length q) + Z.of_nat (length wcs) + 1 ->
  wp (completions g fuel (length wcs + 1) (wcs ++ [c])) (fun o s' => o = Val () /\
    submissions (log s') =
      ((fun o => (o, Some (wc_wr_id c))) <$>
         (q ++ offsets_from g (cur_offset (worker (own s))) (length wcs + 1))) :: submissions (log s)) s.
Proof.
  intros Hf. revert q s. induction wcs as [| a wcs IH]; intros q s Hok F Hb.
  - cbn [app length Nat.add completions] in *. apply Forall_cons in Hok as [Hok _]. cbn beta in Hok. rewrite Hok, Z.eqb_refl. cbn [negb when]. wp_steps.
    unfold write_completed at 1. wp_steps.
    eapply wp_mono; [| apply (enqueue_spec fuel c q 0); [done | done | lia]].
    intros o s1 (-> & F1 & C1 & B1 & S1). cbn beta iota. unfold get_worker. wp_steps.
    rewrite (fl_queued _ _ _ F1), length_app. cbn [length].
    rewrite (proj2 (Z.eqb_eq _ _)) by lia. cbn [when].
    eapply wp_mono; [| apply (flush_spec fuel); [done | exact F1 | rewrite length_app; cbn; lia]].
    intros o s2 (-> & S2 & F2 & C2). cbn beta iota. wp_steps.
    rewrite (proj2 (Z.eqb_neq _ _)) by (destruct F2; lia). cbn [when]. wp_steps.
    split; [done |]. by rewrite S2, S1, B1.
  - cbn [app length Nat.add completions] in *. apply Forall_cons in Hok as [Ha Hok]. cbn beta in Ha. rewrite Ha, Z.eqb_refl. cbn [negb when]. wp_steps.
    unfold write_completed at 1. wp_steps.
    eapply wp_mono; [| apply (enqueue_spec fuel a q (length wcs + 1)); [done | done | lia]].
    intros o s1 (-> & F1 & C1 & B1 & S1). cbn beta iota. unfold get_worker. wp_steps.
    rewrite (fl_queued _ _ _ F1), length_app. cbn [length].
    rewrite (proj2 (Z.eqb_neq _ _)) by lia. cbn [when]. wp_steps.
    rewrite (proj2 (Z.eqb_neq _ _)) by (destruct F1; lia). cbn [when]. wp_steps.
    eapply wp_mono; [| apply (IH (q ++ [cur_offset (worker (own s))])); [done | done | rewrite length_app; cbn; lia]].
    intros o s2 (-> & S2). split; [done |]. rewrite S2, S1, C1, <- app_assoc. done.
Qed.

(** C26: [n] completed reads that make up one batch are written with one
    submission of [n] entries; the entries have [n] file offsets, but they share one
    [iovec], so all of them write from the address of the last read. *)
Theorem batch_writes_last_address fuel wcs c s :
  (0 < fuel)%nat -> Forall (fun c => wc_status c = IBV_WC_SUCCESS) (wcs ++ [c]) ->
  sq (own s) = [] -> io_uring_sqe_queued (worker (own s)) = 0 ->
  io_uring_batch_submit g = Z.of_nat (length wcs) + 1 ->
  io_uring_batch_submit g < free_io_units_io_uring (worker (own s)) < 2 ^ 64 ->
  exists s', completions g fuel (length wcs + 1) (wcs ++ [c]) s = (Val (), s') /\
    submissions (log s') =
      ((fun o => (o, Some (wc_wr_id c))) <$>
         offsets_from g (cur_offset (worker (own s))) (length wcs + 1)) :: submissions (log s).
Proof.
  intros Hf Hok Hsq Hq Hb Hfree. apply wp_ex.
  apply (completions_fill fuel wcs c []); [done | done | | cbn; lia].
  split; [by rewrite Hsq | by rewrite Hq | lia].
Qed.
End aliasing.

(** ** Early returns

    [leaves P m]: where [m] returns from the function it is in, the result has [P]. *)

Definition leaves {S R A} (P : R -> Prop) (m : M S R A) : Prop :=
  forall x : S, wp m (fun o _ => forall r, o = Ret r -> P r) x.

Section leaves.
Context {S R : Type} (P : R -> Prop).

Lemma leaves_bind {A B} (m : M S R A) (f : A -> M S R B) :
  leaves P m -> (forall a, leaves P (f a)) -> leaves P (m ≫= f).
Proof.
  intros Hm Hf x. apply wp_bind. eapply wp_mono; [| apply Hm].
  intros [a | r | |] x' H; [apply Hf | intros r' [= <-]; by apply H | done..].
Qed.
Lemma leaves_return {A} (r : R) : P r -> leaves P (return_ r : M S R A).
Proof. by intros H x r' [= <-]. Qed.
Lemma leaves_mret {A} (a : A) : leaves P (mret a : M S R A).
Proof. by intros x. Qed.
Lemma leaves_stop {A} u : leaves P (stop_ u : M S R A).
Proof. by intros x. Qed.
Lemma leaves_nofuel {A} : leaves P (nofuel : M S R A).
Proof. by intros x. Qed.
Lemma leaves_when b (m : M S R ()) : leaves P m -> leaves P (when b m).
Proof. by destruct b; [| intros _ x]. Qed.
Lemma leaves_call {R'} (body : M S R' R') : leaves P (call (R' := R) body).
Proof. intros x. apply wp_call. eapply wp_mono; [| apply wp_exact]. by intros []. Qed.
End leaves.

Lemma leaves_zoom {S Q R A} (P : R -> Prop) (get : Q -> S) (put : S -> Q -> Q) (m : M (st S) R A) :
  leaves P m -> leaves P (zoom get put m).
Proof. intros H x. apply wp_zoom. eapply wp_mono; [| apply H]. done. Qed.

Section leaves_ops.
Context {PF : Platform} {T R : Type} (P : R -> Prop).

Lemma leaves_ext e : leaves P (ext (P := T) e).
Proof. by intros x. Qed.
Lemma leaves_get {A} (f : T -> A) : leaves P (get_own f).
Proof. by intros x. Qed.
Lemma leaves_set (f : T -> T) : leaves P (set_own f).
Proof. by intros x. Qed.
End leaves_ops.

Create HintDb leaves.
#[export] Hint Resolve leaves_mret leaves_stop leaves_nofuel leaves_when leaves_call leaves_zoom
  leaves_ext leaves_get leaves_set : leaves.

Ltac leaves_go :=
  repeat match goal with
  | |- leaves _ (match ?x with _ => _ end) => destruct x
  | |- leaves _ (if ?x then _ else _) => destruct x
  | |- leaves _ (_ ≫= _) => apply leaves_bind; [| intros ?; cbn beta iota zeta]
  | |- leaves ?P (ext ?e) => exact (leaves_ext P e)
  | |- leaves _ (return_ _) => apply leaves_return; done
  | |- leaves _ _ => solve [auto with leaves]
  | |- leaves _ (when _ _) => apply leaves_when
  end.

Section minus_one.
Context {PF : Platform} (g : options).
Abbreviation neg m := (leaves (fun r => r = -1) m).

Lemma neg_reap fuel min : neg (reap fuel min).
Proof. unfold reap, with_worker. leaves_go. unfold reap_io_uring_cq. auto with leaves. Qed.
Hint Resolve neg_reap : leaves.

Lemma neg_get_sqe fuel : neg (get_sqe fuel).
Proof. induction fuel; cbn [get_sqe]; leaves_go. Qed.

Lemma neg_submit_all fuel : neg (submit_all fuel).
Proof. induction fuel; cbn [submit_all]; unfold get_worker, submit, upd; leaves_go. Qed.
Hint Resolve neg_get_sqe neg_submit_all : leaves.

Lemma neg_completions fuel todo wc : neg (completions g fuel todo wc).
Proof.
  revert wc. induction todo as [| todo IH]; intros [| c wc]; cbn [completions];
    unfold write_completed, enqueue, get_worker, upd; leaves_go.
Qed.
Hint Resolve neg_completions : leaves.

Lemma neg_poll_loop fuel c : neg (poll_loop g fuel c).
Proof.
  revert c. induction fuel as [| fuel IH]; intros c; cbn [poll_loop];
    unfold get_rdma, get_worker, upd; leaves_go.
Qed.

Lemma neg_reap_again fuel c min : neg (reap_again g fuel c min).
Proof.
  revert c. induction fuel as [| fuel IH]; intros c; cbn [reap_again]; [leaves_go |].
  apply leaves_bind; [unfold wait_event, get_cq_event, get_rdma, get_worker; leaves_go | intros _].
  apply leaves_bind; [apply neg_poll_loop | intros n]. leaves_go.
Qed.
End minus_one.

(** ** Work requests in flight *)

(** Work requests that were posted and whose completions were not polled. *)
Fixpoint outstanding (h : history) : Z :=
  match h with
  | [] => 0
  | existT e r :: h =>
      match e as e' return reply e' -> Z with
      | Ibv_post_send _ _ _ | Ibv_post_recv _ _ _ _ =>
          fun r => outstanding h + (if r =? 0 then 1 else 0)
      | Ibv_poll_cq _ _ => fun r => outstanding h - Z.max 0 r.1
      | _ => fun _ => outstanding h
      end r
  end.

(** At no time were there more than [d]. *)
Fixpoint never_over (d : Z) (h : history) : Prop :=
  match h with [] => True | e :: h' => outstanding (e :: h') <= d /\ never_over d h' end.

(** A completion queue has no more completions than there are work requests. *)
Definition polls_posted {PF : Platform} : Prop := forall h q n,
  0 <= outstanding h -> (world h (Ibv_poll_cq q n)).1 <= outstanding h.

Lemma outstanding_no_verbs e h : no_verbs e -> outstanding (e :: h) = outstanding h.
Proof. by destruct e as [[] r]. Qed.

Lemma no_verbs_app d l h :
  Forall no_verbs l -> outstanding h <= d -> never_over d h ->
  outstanding (l ++ h) = outstanding h /\ never_over d (l ++ h).
Proof.
  intros F Ho Hn. induction F as [| e l He F [IH1 IH2]]; [done |].
  split; [by rewrite <- IH1; apply outstanding_no_verbs |].
  split; [| done]. change ((e :: l) ++ h) with (e :: l ++ h). rewrite outstanding_no_verbs by done. lia.
Qed.

Section in_flight.
Context {PF : Platform} (PP : polls_posted) (g : options) (depth : Z).
Hypothesis depth_ok : 0 < depth < 2 ^ 31.
Implicit Types s : st rdma_io.

Abbreviation credit s := (free_io_units_rdma (worker (own s))).

(** [f] free units, [n] work requests in flight, never too many. *)
Record flight (f n : Z) s : Prop := {
  fl_credit : credit s = f;
  fl_out : outstanding (log s) = n;
  fl_pos : 0 <= n <= depth;
  fl_never : never_over depth (log s);
}.

(** Whatever happens there are never too many; [Q] where [m] goes on. *)
Definition flies {R A} (m : M (st rdma_io) R A) s (Q : A -> st rdma_io -> Prop) : Prop :=
  wp m (fun o s' => never_over depth (log s') /\ forall a, o = Val a -> Q a s') s.

Lemma flies_bind {R A B} (m : M (st rdma_io) R A) (f : A -> M (st rdma_io) R B) s P Q :
  flies m s P -> (forall a s1, P a s1 -> flies (f a) s1 Q) -> flies (m ≫= f) s Q.
Proof.
  intros Hm Hf. apply wp_bind. eapply wp_mono; [| exact Hm].
  intros [a | | |] s1 [Hn H]; [by apply Hf, H | by split..].
Qed.

(** Statements that neither post nor poll. *)
Abbreviation thrifty m := (steady (fun x => free_io_units_rdma (worker x)) (fun _ => no_verbs) m).

Lemma quiet_thrifty {R A} (m : M (st rdma_io) R A) :
  steady (fun x => verbs_of (worker x)) (fun _ => no_verbs) m -> thrifty m.
Proof.
  intros Hm s. eapply wp_mono; [| apply Hm]. intros o s' (E & H). by injection E as _ E _.
Qed.

Lemma flies_thrifty {R A} (m : M (st rdma_io) R A) f n s :
  thrifty m -> flight f n s -> flies m s (fun _ s' => flight f n s').
Proof.
  intros Hm [F1 F2 F3 F4]. eapply wp_mono; [| apply Hm]. intros o s' (E & l & L & F).
  destruct (no_verbs_app depth l (log s) F) as [H1 H2]; [lia | done |]. rewrite <- L in *.
  split; [done |]. intros a _. split; congruence.
Qed.

Lemma flies_ret {R A} (a : A) s Q : never_over depth (log s) -> Q a s -> flies (mret a : M (st rdma_io) R A) s Q.
Proof. intros Hn H. split; [done |]. by intros a' [= <-]. Qed.

(** A statement that does not go on. *)
Lemma flies_out {R A} (m : M (st rdma_io) R A) f n s Q :
  thrifty m -> flight f n s -> (forall s1, wp m (fun o _ => forall a, o <> Val a) s1) -> flies m s Q.
Proof.
  intros Hm F Ho. eapply wp_mono; [| apply wp_and; [by apply (flies_thrifty m f n) | apply Ho]].
  intros o s' [[H _] H']. split; [done |]. intros a E. by destruct (H' a).
Qed.

(** A poll takes [k] completions away. *)
Lemma flies_poll {R} q m f n s :
  flight f n s ->
  flies (ext (R := R) (Ibv_poll_cq q m)) s (fun r s' => Z.max 0 r.1 <= n /\ flight f (n - Z.max 0 r.1) s').
Proof.
  intros [F1 F2 F3 F4]. apply (wp_ext (Ibv_poll_cq q m)). intros [r wcs] Hr.
  pose proof (PP (log s) q m ltac:(lia)) as Hp. rewrite <- Hr in Hp. cbn [fst] in Hp.
  split; cbn [log never_over outstanding fst]; [split; [lia | done] |].
  intros a [= <-]. cbn [fst]. split; [lia |]. split; cbn [own log outstanding never_over fst]; [done | lia | lia |].
  split; [lia | done].
Qed.

(** A post adds a work request, unless it fails. *)
Lemma flies_send {R} q wr p f n s :
  flight f n s -> n < depth ->
  flies (ext (R := R) (Ibv_post_send q wr p)) s (fun r s' =>
    flight f (if r =? 0 then n + 1 else n) s').
Proof.
  intros [F1 F2 F3 F4] Hn. apply (wp_ext (Ibv_post_send q wr p)). intros r _.
  split; [split; [cbn [outstanding]; destruct (r =? 0); lia | done] |]. intros a [= <-].
  split; cbn [own log outstanding never_over]; destruct (r =? 0); try split; try done; lia.
Qed.

Lemma flies_recv {R} q a l k f n s :
  flight f n s -> n < depth ->
  flies (ext (R := R) (Ibv_post_recv q a l k)) s (fun r s' =>
    flight f (if r =? 0 then n + 1 else n) s').
Proof.
  intros [F1 F2 F3 F4] Hn. apply (wp_ext (Ibv_post_recv q a l k)). intros r _.
  split; [split; [cbn [outstanding]; destruct (r =? 0); lia | done] |]. intros a' [= <-].
  split; cbn [own log outstanding never_over]; destruct (r =? 0); try split; try done; lia.
Qed.

Lemma flies_mono {R A} (m : M (st rdma_io) R A) s P Q :
  flies m s P -> (forall a s', P a s' -> Q a s') -> flies m s Q.
Proof.
  intros Hm H. eapply wp_mono; [| exact Hm]. intros o s' [Hn Ha]. split; [done |]. auto.
Qed.

(** [c] completions were reaped of the [n] that were in flight. *)
Definition reaped_of (f n c : Z) s : Prop := 0 <= c <= n /\ flight (f + c) (n - c) s.

Lemma u64_credit f c : 0 <= f <= 2 ^ 31 -> 0 <= c <= depth -> u64 (f + c) = f + c.
Proof. intros Hf Hc. apply Z.mod_small. lia. Qed.

Lemma poll_loop_flies fuel f n c s :
  0 <= f <= 2 ^ 31 -> 0 <= n <= depth -> reaped_of f n c s ->
  flies (poll_loop g fuel c) s (fun c' s' => c <= c' /\ reaped_of f n c' s').
Proof.
  intros Hf Hn. revert c s. induction fuel as [| fuel IH]; intros c s [Hc F]; cbn [poll_loop].
  { split; [apply F | done]. }
  unfold get_rdma, get_worker. apply flies_bind with (P := fun _ s' => flight (f + c) (n - c) s').
  { apply flies_thrifty; [steady_go | done]. }
  intros q s1 F1. eapply flies_bind; [apply (flies_poll q POLL_BATCH), F1 |].
  intros [r wcs] s2 [Hr F2]. cbn [fst] in Hr, F2.
  destruct (r <? 0) eqn:E1; [eapply flies_out; [steady_go | exact F2 |]; by intros s3 |].
  destruct (r =? 0) eqn:E2; bool_hyps.
  { apply flies_ret; [apply F2 |]. split; [lia |]. split; [lia |].
    by replace (n - c) with (n - c - Z.max 0 r) by lia. }
  eapply flies_bind; [apply (flies_thrifty _ (f + c)); [apply quiet_thrifty, quiet_verbs, quiet_completions | exact F2] |].
  intros _ s3 [G1 G2 G3 G4]. apply flies_bind with (P := fun _ s' => reaped_of f n (c + r) s').
  { unfold upd. apply wp_set_own. split; [done |]. intros _ _. split; [lia |].
    split; cbn [own log worker set_worker set_credit free_io_units_rdma]; [| lia | lia | done].
    rewrite G1, <- Z.add_assoc. apply u64_credit; lia. }
  intros _ s4 F4. eapply flies_mono.
  - assert (u32 (c + r) = c + r) as -> by (apply Z.mod_small; lia). by apply IH.
  - intros c' s5 [H1 H2]. split; [lia | done].
Qed.

Lemma reap_again_flies fuel f n c min s :
  0 <= f <= 2 ^ 31 -> 0 <= n <= depth -> 0 <= min < 2 ^ 32 -> reaped_of f n c s ->
  flies (reap_again g fuel c min) s (fun c' s' => min <= c' /\ reaped_of f n c' s').
Proof.
  intros Hf Hn Hm. revert c s. induction fuel as [| fuel IH]; intros c s [Hc F]; cbn [reap_again].
  { split; [apply F | done]. }
  eapply flies_bind; [apply (flies_thrifty _ (f + c) (n - c));
    [apply quiet_thrifty; pose proof verbs_wait_event; steady_go | done] |].
  intros u s1 F1. eapply flies_bind; [by apply (poll_loop_flies (S fuel) f n c) |].
  intros c' s2 [Hc' F2]. assert (u32 min = min) as -> by (by apply Z.mod_small).
  destruct (c' <? min) eqn:E; bool_hyps; [by apply IH |].
  apply flies_ret; [apply F2 | by split].
Qed.

Lemma reap_flies {R} fuel f n min s :
  0 <= f <= 2 ^ 31 -> 0 <= min < 2 ^ 32 -> flight f n s ->
  flies (reap_rdma_cq (R := R) g fuel min) s (fun r s' => r < 0 \/
    exists c, min <= c <= n /\ flight (f + c) (n - c) s').
Proof.
  intros Hf Hm F. pose proof (fl_pos _ _ _ F) as Hn.
  set (body := set_own next_frame;; reaped ← reap_again g fuel 0 min;
    when (event g) (q ← get_rdma cq; ext (Ibv_ack_cq_events q reaped));; mret 0 : M (st rdma_io) Z Z).
  assert (flies body s (fun r s' => r < 0 \/ exists c, min <= c <= n /\ flight (f + c) (n - c) s')) as Hb.
  { eapply flies_bind; [apply (flies_thrifty _ f n); [steady_go | done] |]. intros u s1 F1.
    eapply flies_bind.
    { apply (reap_again_flies fuel f n 0 min); [done | lia | done |]. split; [lia |].
      by rewrite Z.add_0_r, Z.sub_0_r. }
    intros c s2 [Hc [Hc' F2]].
    eapply flies_bind; [apply (flies_thrifty _ (f + c) (n - c)); [| exact F2] |].
    { unfold get_rdma, get_worker. steady_go. }
    intros u' s3 F3. apply flies_ret; [apply F3 |]. right. exists c. split; [lia | done]. }
  assert (leaves (fun r => r = -1) body) as Hr.
  { unfold body, get_rdma, get_worker. pose proof (neg_reap_again g fuel 0 min). leaves_go. }
  apply wp_call. eapply wp_mono; [| apply wp_and; [exact Hb | apply Hr]].
  intros [r | r | |] s' [[H1 H2] H3]; split; try done; intros a [= <-]; [by apply H2 |].
  left. by rewrite (H3 r).
Qed.

(** A read step from the head of the loop: the credits are those of the queue. *)
Definition at_loop s : Prop := exists f, 0 < f <= depth /\ flight f (depth - f) s.

Lemma flies_exit {R} b s Q :
  never_over depth (log s) -> (b = false -> Q tt s) -> flies (exit_if (R := R) b) s Q.
Proof.
  intros Hn H. unfold exit_if. destruct b; cbn [when]; (split; [done |]); [done |].
  intros [] _. by apply H.
Qed.

Lemma reap_or_leave {R} fuel f n min s (Q : () -> st rdma_io -> Prop) :
  0 <= f <= 2 ^ 31 -> 0 <= min < 2 ^ 32 -> flight f n s ->
  (forall c s', min <= c <= n -> flight (f + c) (n - c) s' -> Q tt s') ->
  flies (r ← reap_rdma_cq (R := R) g fuel min; exit_if (r <? 0)) s Q.
Proof.
  intros Hf Hm F HQ. eapply flies_bind.
  { apply wp_mono with (Q := fun o s' => (never_over depth (log s') /\
      forall r, o = Val r -> r < 0 \/ exists c, min <= c <= n /\ flight (f + c) (n - c) s') /\
      never_over depth (log s')).
    - intros o s' [[H1 H2] H3]. split; [done |]. intros a Ha.
      exact (conj (H2 a Ha) H3 : (fun r s' => (r < 0 \/ exists c, min <= c <= n /\
        flight (f + c) (n - c) s') /\ never_over depth (log s')) a s').
    - eapply wp_mono; [| apply (reap_flies fuel f n min); done]. intros o s' [H1 H2]. done. }
  intros r s1 [H Hn]. apply flies_exit; [done |]. intros E. bool_hyps.
  destruct H as [H | (c & Hc & F')]; [lia | by eapply HQ].
Qed.

Lemma read_step_flies {R} fuel off s :
  at_loop s -> flies (read_step (R := R) g fuel off) s (fun _ s' => at_loop s').
Proof.
  intros (f & Hf & F). unfold read_step, get_rdma, get_worker.
  eapply flies_bind; [apply (flies_thrifty _ f (depth - f)); [steady_go | done] |]. intros d s1 F1.
  eapply flies_bind; [apply (flies_thrifty _ f (depth - f)); [unfold upd; steady_go | exact F1] |].
  intros u s2 F2.
  eapply flies_bind; [apply (flies_send _ _ _ f (depth - f)); [exact F2 | lia] |]. intros r s3 F3.
  eapply flies_bind with (P := fun _ s' => flight f (depth - f + 1) s').
  { apply flies_exit; [apply F3 |]. intros E. apply negb_false_iff in E. cbn beta in F3. by rewrite E in F3. }
  intros _ s4 F4.
  eapply flies_bind; [apply (flies_thrifty _ f (depth - f + 1)); [steady_go | exact F4] |]. intros n s5 F5.
  eapply flies_bind with (P := fun _ s' => exists c, 0 <= c <= depth - f + 1 /\
    flight (f + c) (depth - f + 1 - c) s').
  { destruct (n mod RDMA_REAP_FREQ =? 0); cbn [when].
    - eapply (reap_or_leave fuel f (depth - f + 1) 0); [lia | lia | exact F5 | by eauto].
    - apply flies_ret; [apply F5 |]. exists 0. split; [lia |]. by rewrite Z.add_0_r, Z.sub_0_r. }
  intros _ s6 (c & Hc & F6).
  eapply flies_bind with (P := fun _ s' => flight (f + c - 1) (depth - (f + c - 1)) s').
  { unfold upd. destruct F6 as [G1 G2 G3 G4]. apply wp_set_own. split; [done |]. intros _ _.
    split; cbn [own log worker set_worker set_credit free_io_units_rdma]; [| lia | lia | done].
    rewrite G1. apply Z.mod_small. lia. }
  intros _ s7 F7.
  eapply flies_bind; [apply wp_get_own; split; [apply F7 | intros a [= <-]; exact (conj eq_refl F7 :
    (fun a s' => a = credit s7 /\ flight (f + c - 1) (depth - (f + c - 1)) s') _ s7)] |].
  intros v s8 [-> F8]. rewrite (fl_credit _ _ _ F7).
  eapply flies_bind with (P := fun _ s' => at_loop s'); [| intros _ s9 H9; apply flies_ret; [by destruct H9 as (? & _ & []) | done]].
  destruct (f + c - 1 =? 0) eqn:E; bool_hyps; cbn [when].
  - eapply (reap_or_leave fuel (f + c - 1) (depth - (f + c - 1)) 1); [lia | lia | exact F8 |].
    intros c' s9 Hc' F9. exists (f + c - 1 + c'). split; [lia |].
    by replace (depth - (f + c - 1 + c')) with (depth - (f + c - 1) - c') by lia.
  - apply flies_ret; [apply F8 |]. exists (f + c - 1). split; [lia | done].
Qed.

Lemma read_loop_flies {R} fuel off s :
  at_loop s -> flies (read_loop (R := R) g fuel off) s (fun _ s' => at_loop s').
Proof.
  revert off s. induction fuel as [| fuel IH]; intros off s (f & Hf & F); cbn [read_loop].
  { split; [apply F | done]. }
  unfold get_worker, runtime_exceeded.
  eapply flies_bind; [apply (flies_thrifty _ f (depth - f)); [steady_go | done] |]. intros t s1 F1.
  eapply flies_bind; [apply (flies_thrifty _ f (depth - f)); [steady_go | exact F1] |]. intros o s2 F2.
  destruct o; [apply flies_ret; [apply F2 | by exists f] |].
  eapply flies_bind; [apply read_step_flies; by exists f |]. intros off' s3 H3. by apply IH.
Qed.

(** *** From the start of the thread *)

Lemma thrifty_channel_event {R} w : thrifty (get_next_channel_event (R := R) w).
Proof. unfold get_next_channel_event, get_rdma, get_worker, upd_rdma, upd, must. steady_go. Qed.
Hint Resolve thrifty_channel_event : steady.

Lemma thrifty_must_event w : thrifty (must_event w).
Proof. unfold must_event, must. steady_go. Qed.
Hint Resolve thrifty_must_event : steady.

Lemma thrifty_create e result set : (forall r, no_verbs (e ~> r)) -> thrifty (create e result set).
Proof.
  intros H. unfold create, upd_rdma, upd, non_null.
  apply steady_bind; [by apply steady_ext | intros r; steady_go].
Qed.

Lemma thrifty_setup {R} : thrifty (rdma_setup (R := R) g).
Proof.
  unfold rdma_setup, cm_client, cm_server, get_rdma, get_worker, upd_rdma, upd, must.
  steady_go; by apply thrifty_create.
Qed.

Lemma thrifty_make_pool size remote : thrifty (make_pool size remote).
Proof.
  unfold make_pool, memalign, posix_memalign, get_rdma, get_worker, upd_rdma, upd, non_null. steady_go.
Qed.

Lemma poll_one_flies fuel f s : flight f 1 s -> flies (poll_one fuel) s (fun _ s' => flight f 0 s').
Proof.
  revert s. induction fuel as [| fuel IH]; intros s F; cbn [poll_one]; [split; [apply F | done] |].
  unfold get_rdma, get_worker. eapply flies_bind; [apply (flies_thrifty _ f 1); [steady_go | done] |].
  intros q s1 F1. eapply flies_bind; [by apply (flies_poll q 1 f 1) |]. intros [r wcs] s2 [Hr F2].
  cbn [fst] in *. destruct (r <? 1) eqn:E; bool_hyps.
  - apply IH. by replace (1 - Z.max 0 r) with 1 in F2 by lia.
  - replace (1 - Z.max 0 r) with 0 in F2 by lia.
    destruct wcs as [| c wcs]; [split; [apply F2 | done] | apply flies_ret; [apply F2 | done]].
Qed.

Lemma await_flies at_ fuel into f s :
  flight f 1 s -> flies (await_completion at_ fuel into) s (fun _ s' => flight f 0 s').
Proof.
  intros F. unfold await_completion, get_cq_event, get_rdma, get_worker, upd_rdma, upd, must.
  eapply flies_bind; [apply (flies_thrifty _ f 1); [steady_go | done] |]. intros d s1 F1.
  eapply flies_bind; [apply (flies_thrifty _ f 1); [steady_go | exact F1] |]. intros [r c] s2 F2.
  do 4 (eapply flies_bind; [apply (flies_thrifty _ f 1); [steady_go | eassumption] | intros ? ? ?]).
  eapply flies_bind; [by apply (poll_one_flies fuel f) |]. intros wc s' F'.
  apply (flies_thrifty _ f 0); [steady_go | done].
Qed.

Lemma thrifty_must r : thrifty (must r).
Proof. unfold must. steady_go. Qed.
Lemma thrifty_non_null r : thrifty (non_null r).
Proof. unfold non_null. steady_go. Qed.
Hint Resolve thrifty_make_pool thrifty_must thrifty_non_null : steady.

Lemma must_flies r s Q : never_over depth (log s) -> (r = 0 -> Q tt s) -> flies (must r) s Q.
Proof.
  intros Hn H. unfold must. destruct (r =? 0) eqn:E; bool_hyps; cbn [negb when]; (split; [done |]);
    intros [] Ha; [by apply H | done].
Qed.

(** One posted work request, and the wait for its completion. *)
Lemma exchange_flies {A} (post : M (st rdma_io) Z Z) at_ fuel into f s (rest : M (st rdma_io) Z A) Q :
  flies post s (fun r s' => flight f (if r =? 0 then 0 + 1 else 0) s') ->
  (forall s', flight f 0 s' -> flies rest s' Q) ->
  flies (r ← post; must r;; await_completion at_ fuel into;; rest) s Q.
Proof.
  intros Hp Hr. eapply flies_bind; [exact Hp |]. intros r s1 F1.
  eapply flies_bind with (P := fun _ s' => flight f 1 s'); [apply must_flies; [apply F1 | by intros ->] |]. intros _ s2 F2.
  eapply flies_bind; [by apply (await_flies at_ fuel into f) |]. intros u s3 F3. by apply Hr.
Qed.

Lemma handshake_flies at_ fuel n f s :
  flight f 0 s ->
  flies (if client g then handshake_client at_ n fuel else handshake_server at_ n fuel) s
    (fun _ s' => flight f 0 s').
Proof.
  intros F. unfold handshake_client, handshake_server, get_rdma, get_worker, upd_rdma, upd.
  destruct (client g).
  - do 5 (eapply flies_bind; [apply (flies_thrifty _ f 0); [steady_go | eassumption] | intros ? ? ?]).
    eapply flies_bind; [apply (flies_thrifty _ f 0); [steady_go | eassumption] | intros [[mr lkey] ?] ? ?].
    eapply flies_bind; [apply (flies_thrifty _ f 0); [steady_go | eassumption] | intros ? ? ?].
    eapply exchange_flies; [apply (flies_recv _ _ _ _ f 0); [eassumption | lia] |]. intros s' F'.
    apply (flies_thrifty _ f 0); [steady_go | done].
  - do 9 (eapply flies_bind; [apply (flies_thrifty _ f 0); [steady_go | eassumption] | intros ? ? ?]).
    eapply flies_bind; [apply (flies_thrifty _ f 0); [steady_go | eassumption] | intros [[mr lkey] ?] ? ?].
    eapply flies_bind; [apply (flies_thrifty _ f 0); [steady_go | eassumption] | intros ? ? ?].
    eapply exchange_flies; [apply (flies_send _ _ _ f 0); [eassumption | lia] |]. intros s' F'.
    apply (flies_thrifty _ f 0); [steady_go | done].
Qed.

Lemma one_handshake at_ fuel n :
  leaves (fun r => r = 1) (if client g then handshake_client at_ n fuel else handshake_server at_ n fuel).
Proof.
  assert (leaves (fun r => r = 1) (poll_one fuel)) as Hp.
  { induction fuel; cbn [poll_one]; unfold get_rdma, get_worker; leaves_go. }
  unfold handshake_client, handshake_server, must_event, get_next_channel_event, await_completion, get_cq_event,
    make_pool, memalign, posix_memalign, fresh_block, must, non_null, get_rdma, get_worker, upd_rdma, upd.
  leaves_go; by intros x.
Qed.

Lemma rdma_handshake_flies {R} at_ fuel f s :
  flight f 0 s ->
  flies (rdma_handshake (R := R) g at_ fuel) s (fun r s' => never_over depth (log s') /\
    (r = 0 -> flight f 0 s')).
Proof.
  intros F. set (body := id ← get_rdma cm_id; '(r, m) ← ext (Ibv_query_device id); must r;;
    let depth := m mod 256 in
    (if client g then handshake_client at_ depth fuel else handshake_server at_ depth fuel);;
    mret 0 : M (st rdma_io) Z Z).
  assert (flies body s (fun _ s' => flight f 0 s')) as Hb.
  { unfold body, get_rdma, get_worker.
    eapply flies_bind; [apply (flies_thrifty _ f 0); [steady_go | done] | intros id s1 F1].
    eapply flies_bind; [apply (flies_thrifty _ f 0); [steady_go | exact F1] | intros [r m] s2 F2].
    eapply flies_bind; [apply (flies_thrifty _ f 0); [steady_go | exact F2] | intros u s3 F3].
    eapply flies_bind; [by apply (handshake_flies at_ fuel (m mod 256) f) | intros u' s4 F4].
    by apply (flies_thrifty _ f 0); [steady_go |]. }
  assert (leaves (fun r => r = 1) body) as Hr.
  { unfold body, get_rdma, get_worker. apply leaves_bind; [leaves_go | intros id].
    apply leaves_bind; [leaves_go | intros [r m]]. apply leaves_bind; [unfold must; leaves_go | intros _].
    apply leaves_bind; [apply one_handshake | intros _]. leaves_go. }
  apply wp_call. eapply wp_mono; [| apply wp_and; [exact Hb | apply Hr]].
  intros [r | r | |] s' [[H1 H2] H3]; split; try done; intros a [= <-]; split; try done; [by intros _; apply (H2 r) |].
  intros ->. by specialize (H3 0 eq_refl).
Qed.

Lemma serve_flies {R} f s : flight f 0 s -> flies (serve (R := R)) s (fun _ _ => True).
Proof.
  intros F. unfold serve, get_cq_event, get_rdma, get_worker.
  eapply flies_bind; [apply (flies_thrifty _ f 0); [steady_go | done] | intros d s1 F1].
  eapply flies_bind; [apply (flies_recv _ _ _ _ f 0); [exact F1 | lia] | intros r s2 F2].
  set (n := if r =? 0 then 0 + 1 else 0) in *.
  eapply flies_bind; [apply (flies_thrifty _ f n); [steady_go | exact F2] | intros [r' c] s3 F3].
  do 2 (eapply flies_bind; [apply (flies_thrifty _ f n); [unfold exit_if; steady_go | eassumption] | intros ? ? ?]).
  eapply flies_bind; [apply (flies_poll _ _ f n); eassumption | intros [m wcs] t4 [_ G4]].
  eapply flies_mono; [apply (flies_thrifty _ f (n - Z.max 0 m)); [unfold exit_if; steady_go | exact G4] | done].
Qed.

Lemma client_part_flies {R} fuel s :
  flight depth 0 s -> flies (client_part (R := R) g fuel) s (fun _ _ => True).
Proof.
  intros F. unfold client_part, rdma_client_terminate, get_rdma, get_worker.
  eapply flies_bind; [apply (flies_thrifty _ depth 0);
    [apply quiet_thrifty, quiet_verbs, quiet_with_worker, quiet_open_test_file | done] | intros u s1 F1].
  do 2 (eapply flies_bind; [apply (flies_thrifty _ depth 0); [unfold upd; steady_go | eassumption] | intros ? ? ?]).
  eapply flies_bind; [apply read_loop_flies; exists depth; split; [lia | by rewrite Z.sub_diag] |].
  intros u' t2 (f & Hf & G2).
  do 2 (eapply flies_bind; [apply (flies_thrifty _ f (depth - f)); [unfold upd; steady_go | eassumption] | intros ? ? ?]).
  eapply flies_bind; [apply (flies_send _ _ _ f (depth - f)); [eassumption | lia] | intros r t3 G3].
  by apply flies_ret; [apply G3 |].
Qed.
End in_flight.

(** C11: the RDMA thread never has more work requests in flight than its queue
    pair takes, whatever way it ends. *)
Theorem rdma_fits_queue {PF : Platform} {R} g rmt_buf_at fuel s o s' :
  polls_posted -> 0 < rdma_queue_depth g < 2 ^ 31 ->
  free_io_units_rdma (worker (own s)) = rdma_queue_depth g ->
  outstanding (log s) = 0 -> never_over (rdma_queue_depth g) (log s) ->
  do_io_user_rdma (R := R) g rmt_buf_at fuel s = (o, s') ->
  never_over (rdma_queue_depth g) (log s').
Proof.
  intros PP Hd Hf Ho Hn. set (d := rdma_queue_depth g) in *.
  apply (wp_run (do_io_user_rdma g rmt_buf_at fuel) (fun _ s' => never_over d (log s'))).
  enough (flies d (do_io_user_rdma (R := R) g rmt_buf_at fuel) s (fun _ _ => True)) as H
    by (eapply wp_mono; [| exact H]; by intros ? ? []).
  assert (flight d d 0 s) as F by (split; try done; lia). unfold do_io_user_rdma.
  eapply flies_bind; [apply (flies_thrifty d); [apply thrifty_setup | exact F] | intros r s1 F1].
  eapply flies_bind; [apply (flies_thrifty d); [unfold exit_if; steady_go | exact F1] | intros u s2 F2].
  eapply flies_bind; [apply (rdma_handshake_flies PP g d Hd rmt_buf_at fuel d); exact F2 | intros r' s3 [Hn3 F3]].
  eapply flies_bind with (P := fun _ s' => flight d d 0 s').
  { apply flies_exit; [done |]. intros E. apply F3. by apply negb_false_iff, Z.eqb_eq in E. }
  intros _ s4 F4. destruct (client g); cbn [negb].
  - by apply (client_part_flies PP g d Hd).
  - by apply (serve_flies PP d Hd d).
Qed.

(** ** Instances *)

Definition is_cm_event (e : entry) : bool :=
  match e with existT (Rdma_get_cm_event _) _ => true | _ => false end.

(** A fabric on which everything works: the connection manager reports [events]
    in order, every work request completes, a receive stores [token], and the clock
    advances a quarter of a second between readings. *)
Definition fabric (events : list cm_event) (token : option rdma_rmt_buf) : Platform :=
  platform_of (fun h e =>
  match e with
  | Rdma_get_cm_event _ => (0, default Cm_other (events !! length (filter is_cm_event h)), 1)
  | Rdma_create_event_channel | Ibv_alloc_pd _ | Ibv_create_comp_channel _ => 1
  | Ibv_create_cq _ _ _ => 5
  | Rdma_create_id _ => (0, 1)
  | Rdma_create_qp _ _ _ _ => (0, 6)
  | Ibv_query_device _ => (0, 16)
  | Ibv_get_cq_event _ => Some (0, 5)
  | Ibv_reg_mr _ _ _ _ => (7, 8, 9)
  | Ibv_poll_cq _ _ => if outstanding h <=? 0 then (0, []) else (1, [mk_wc 0 4096 (token_bytes <$> token)])
  | Uring_submit_writev q => Z.of_nat (length q)
  | Clock_now => 250000000 * Z.of_nat (readings h)
  | e => default_reply e
  end).

Lemma fabric_polls_posted events token : polls_posted (PF := fabric events token).
Proof. intros h q n Ho. cbn. destruct (outstanding h <=? 0) eqn:E; bool_hyps; cbn; lia. Qed.

(** Reads of 4 KB for a second, two in flight, written in pairs. *)
Definition rdma_options (side : bool) : options :=
  mk_options 4096 2 32 "/mnt/test" 16384 64 2 0 side true "10.10.1.2" 9876 false.

Definition connected : rdma_stuff := mk_rdma 1 1 1 1 5 1 6 (mk_rmt 0 0 0) 0 16384 (mk_mr 0 0 0).
Definition rdma_start (d : rdma_stuff) : st rdma_io :=
  mk_st (mk_io (mk_worker 0 0 0 0 0 64 2 0 0 false 0 d) [] 0 0) (mk_heap ∅ 64) [].

Definition client_events : list cm_event := [ADDR_RESOLVED; ROUTE_RESOLVED; ESTABLISHED].
Definition sample_token : rdma_rmt_buf := mk_rmt 64 16384 9.
Definition client_fabric : Platform := fabric client_events (Some sample_token).

Lemma rdma_reads_in_bounds_witness :
  exists o s', do_io_user_rdma (PF := client_fabric) (R := Empty_set) (rdma_options true) 32 60
      (rdma_start no_rdma) = (o, s') /\
    rmt_buf (rdma (worker (own s'))) = sample_token /\
    Forall (in_bounds (rdma_options true) (rdma (worker (own s')))) (log s').
Proof.
  assert (let d := rdma (worker (own (do_io_user_rdma (PF := client_fabric) (R := Empty_set)
    (rdma_options true) 32 60 (rdma_start no_rdma)).2)) in
    (rmt_buf d, data_pool d) = (sample_token, 64)) as H by (vm_compute; reflexivity).
  assert (0 < bs (rdma_options true)) as Hb by done.
  destruct (do_io_user_rdma (PF := client_fabric) (R := Empty_set) (rdma_options true) 32 60
    (rdma_start no_rdma)) as [o s'] eqn:E.
  exists o, s'. split; [exact eq_refl |]. cbn [snd] in H. injection H as H1 H2. split; [exact H1 |].
  destruct (rdma_reads_in_bounds (PF := client_fabric) (rdma_options true) 32 (R := Empty_set) 60
    (rdma_start no_rdma) o s' Hb E) as (l & L & F).
  - rewrite H1. clear. cbn. lia.
  - unfold addressable. rewrite H1, H2. clear. cbn. lia.
  - rewrite L, app_nil_r. exact F.
Defined.

Lemma rdma_fits_queue_witness :
  exists o s', do_io_user_rdma (PF := client_fabric) (R := Empty_set) (rdma_options true) 32 60
      (rdma_start no_rdma) = (o, s') /\ never_over 2 (log s').
Proof.
  assert (0 < rdma_queue_depth (rdma_options true) < 2 ^ 31) as Hd by done.
  destruct (do_io_user_rdma (PF := client_fabric) (R := Empty_set) (rdma_options true) 32 60
    (rdma_start no_rdma)) as [o s'] eqn:E.
  exists o, s'. split; [exact eq_refl |].
  exact (rdma_fits_queue (PF := client_fabric) (R := Empty_set) (rdma_options true) 32 60
    (rdma_start no_rdma) o s' (fabric_polls_posted _ _) Hd eq_refl eq_refl I E).
Defined.

Definition server_fabric : Platform := fabric [ESTABLISHED] None.
Definition late_fabric : Platform := fabric [ESTABLISHED] (Some sample_token).

(** The server's run: its worker, and its send. *)
Abbreviation server_run := (rdma_handshake (PF := server_fabric) (R := Empty_set) (rdma_options false) 32 9
  (rdma_start connected)).

Lemma server_run_rdma : rdma (worker (own server_run.2)) =
  mk_rdma 1 1 1 1 5 1 6 sample_token 64 16384 (mk_mr 7 8 9).
Proof. vm_compute. reflexivity. Qed.

Lemma server_run_sends :
  Ibv_post_send 6 (mk_wr (Some 1) (Some WR_SEND) (Some true) 32 16 8 None None)
    (Some <$> token_bytes sample_token) ~> 0 ∈ log server_run.2.
Proof. vm_compute. repeat first [apply list_elem_of_here | apply list_elem_of_further]. Qed.

Lemma late_connection : connection (PF := late_fabric) (log server_run.2).
Proof.
  split.
  - intros h q n c _. cbn. destruct (outstanding h <=? 0); [by intros ?%elem_of_nil |].
    intros ->%list_elem_of_singleton _. by eexists.
  - intros h q n c m. cbn [late_fabric fabric world platform_of].
    destruct (outstanding h <=? 0); [by intros ?%elem_of_nil |].
    intros ->%list_elem_of_singleton [= <-].
    eexists _, _, _. split; [exact server_run_sends |]. split; [done |].
    unfold is_message. apply Forall2_fmap_r, Forall_Forall2_diag, Forall_forall. intros x _. by right.
Qed.

Lemma server_announceable : announceable (PF := server_fabric) (rdma_start connected).
Proof. by split. Qed.

Lemma handshake_hands_over_witness :
  exists s' t',
    rdma_handshake (PF := server_fabric) (R := Empty_set) (rdma_options false) 32 9
      (rdma_start connected) = (Val 0, s') /\
    rdma_handshake (PF := late_fabric) (R := Empty_set) (rdma_options true) 32 9
      (rdma_start connected) = (Val 0, t') /\
    rmt_buf (rdma (worker (own t'))) = sample_token /\
    pool_at s' 16384 /\ pool_registered s' 16384 true /\ pool_at t' 16384 /\ pool_registered t' 16384 false.
Proof.
  pose proof server_run_rdma as Hd. pose proof late_connection as Hc.
  destruct (rdma_handshake (PF := server_fabric) (R := Empty_set) (rdma_options false) 32 9
      (rdma_start connected)) as [[r | r | u |] s'] eqn:Es; [| vm_compute in Es; discriminate Es..].
  assert (r = 0) as -> by (vm_compute in Es; injection Es as E _; symmetry; exact E).
  destruct (rdma_handshake (PF := late_fabric) (R := Empty_set) (rdma_options true) 32 9
      (rdma_start connected)) as [[r | r | u |] t'] eqn:Et; [| vm_compute in Et; discriminate Et..].
  assert (r = 0) as -> by (vm_compute in Et; injection Et as E _; symmetry; exact E).
  exists s', t'. split; [exact eq_refl |]. split; [exact eq_refl |]. cbn [snd] in Hd, Hc.
  pose proof (handshake_hands_over server_fabric late_fabric (R := Empty_set) (rdma_options false)
    (rdma_options true) 32 32 9 9 (rdma_start connected) s' (rdma_start connected) t' eq_refl eq_refl
    server_announceable (Forall_nil_2 _) (Forall_nil_2 _) Es Hc Et) as H.
  rewrite Hd in H. exact H.
Defined.

(** Two reads, from offsets 0 and 4096 of the server's buffer at 65536. *)
Definition ring_fabric : Platform := fabric [] None.

Lemma batch_writes_last_address_witness :
  exists s', completions (PF := ring_fabric) (rdma_options true) 3 2
      [mk_wc 0 65536 None; mk_wc 0 69632 None] (rdma_start connected) = (Val (), s') /\
    submissions (log s') = [[(0, Some 69632); (4096, Some 69632)]].
Proof.
  exact (batch_writes_last_address (PF := ring_fabric) (rdma_options true) (fun _ => eq_refl)
    (fun _ _ => eq_refl) ltac:(done) 3 [mk_wc 0 65536 None] (mk_wc 0 69632 None) (rdma_start connected)
    ltac:(lia) ltac:(repeat constructor) eq_refl eq_refl eq_refl ltac:(done)).
Defined.
