(* ===== verification/RdmaRing.v ===== *)
(** * The ring under the RDMA worker

    The RDMA thread writes through the same counters and the same ring as the
    io_uring thread.  Its runs are runs of [io_step] of [Worker] too, so the books
    are kept and the bounds on the offsets hold as they do there. *)

From S2P Require Import Prelude Proto Env Worker Rdma.

Section rdma_refinement.
Context {PF : Platform} (g : options) (rmt_buf_at : Z).
Implicit Types s : st rdma_io.

Abbreviation follows m := (refines_by worker g m).

Lemma follows_worker {R A} (m : M (st io_worker) R A) : refines g m -> follows (with_worker m).
Proof. intros H s. apply wp_zoom. eapply wp_mono; [| apply H]. by intros o s'. Qed.

Lemma follows_int_ret {R} z : follows (int_ret z : M (st rdma_io) R Z).
Proof. unfold int_ret. destruct (in_int z); [apply refines_mret | apply refines_stop]. Qed.
Hint Resolve follows_worker follows_int_ret refines_reap refines_open_test_file : refine.

Local Ltac follow :=
  unfold get_rdma, get_worker, upd_rdma, upd, must, non_null, exit_if; refine_go.

(** ** Completions *)

Lemma follows_reap fuel min : follows (reap fuel min).
Proof. unfold reap. follow. Qed.
Hint Resolve follows_reap : refine.

Lemma follows_get_sqe fuel : follows (get_sqe fuel).
Proof. induction fuel as [| fuel IH]; cbn [get_sqe]; follow. Qed.

(** A submission and the assignment that goes with it. *)
Lemma follows_submit_all fuel : follows (submit_all fuel).
Proof.
  induction fuel as [| fuel IH]; cbn [submit_all]; unfold get_worker;
    (apply refines_bind; [refine_go |]; intros q; destruct (q =? 0); [refine_go |]); [refine_go |].
  intros s. pose proof (follows_reap (S fuel) 0) as Hr0. revert Hr0. generalize (reap (S fuel) 0).
  intros rp Hrp. unfold submit, upd. wp_steps. set (e := Uring_submit_writev _) in *.
  destruct (r >? 0) eqn:Hr; bool_hyps.
  - wp_steps. eapply wp_mono; [| apply IH]. cbn [own log worker set_worker set_sq]. intros o s' H.
    eapply rtc_l; [| exact H]. by apply (step_submit _ _ _ (e ~> r) r); [| lia].
  - eapply wp_mono; [| apply Hrp]. cbn [own log worker set_sq]. intros o s1 H1.
    assert (rtc (io_step g) (worker (own s), log s) (worker (own s1), log s1)) as H1'
      by (eapply rtc_l; [| exact H1]; by apply (step_busy _ _ _ (e ~> r) r); [| lia]).
    destruct o; [| done..]. eapply wp_mono; [| apply IH]. intros o s' H. by etrans.
Qed.
Hint Resolve follows_get_sqe follows_submit_all : refine.

Lemma follows_enqueue fuel c : follows (enqueue g fuel c).
Proof.
  unfold enqueue, get_worker, upd. apply refines_bind; [refine_go | intros _].
  apply refines_bind; [refine_go | intros _]. intros s. wp_steps.
  by apply rtc_once, step_prepare.
Qed.
Hint Resolve follows_enqueue : refine.

Lemma follows_completions fuel todo wc : follows (completions g fuel todo wc).
Proof.
  revert wc. induction todo as [| todo IH]; intros [| c wc]; cbn [completions];
    unfold write_completed; follow.
Qed.
Hint Resolve follows_completions : refine.

Lemma follows_poll_loop fuel reaped : follows (poll_loop g fuel reaped).
Proof. revert reaped. induction fuel as [| fuel IH]; intros reaped; cbn [poll_loop]; follow. Qed.

Lemma follows_reap_again fuel reaped min : follows (reap_again g fuel reaped min).
Proof.
  pose proof follows_poll_loop. revert reaped.
  induction fuel as [| fuel IH]; intros reaped; cbn [reap_again]; unfold wait_event, get_cq_event; follow.
Qed.

Lemma follows_reap_cq {R} fuel min : follows (reap_rdma_cq (R := R) g fuel min).
Proof. pose proof follows_reap_again. unfold reap_rdma_cq. apply refines_call. follow. Qed.
Hint Resolve follows_reap_cq : refine.

(** ** The thread *)

Lemma follows_read_loop {R} fuel offset : follows (read_loop (R := R) g fuel offset).
Proof.
  revert offset. induction fuel as [| fuel IH]; intros offset; cbn [read_loop];
    unfold runtime_exceeded, read_step; follow.
Qed.
Hint Resolve follows_read_loop : refine.

Lemma follows_client_part {R} fuel : follows (client_part (R := R) g fuel).
Proof. unfold client_part, rdma_client_terminate. follow. Qed.

Lemma follows_serve {R} : follows (serve (R := R)).
Proof. unfold serve, get_cq_event. follow. Qed.

Lemma follows_channel_event {R} w : follows (get_next_channel_event (R := R) w).
Proof. unfold get_next_channel_event. apply refines_call. follow. Qed.
Hint Resolve follows_channel_event : refine.

Lemma follows_create e result set :
  (forall r, inert (e ~> r)) -> follows (create e result set).
Proof. intros H. unfold create. apply refines_bind; [by apply refines_ext | intros r; follow]. Qed.

Lemma follows_setup {R} : follows (rdma_setup (R := R) g).
Proof.
  unfold rdma_setup, cm_client, cm_server, must_event. apply refines_call.
  follow; by apply follows_create.
Qed.

Lemma follows_poll_one fuel : follows (poll_one fuel).
Proof. induction fuel as [| fuel IH]; cbn [poll_one]; follow. Qed.
Hint Resolve follows_poll_one : refine.

Lemma follows_handshake {R} fuel : follows (rdma_handshake (R := R) g rmt_buf_at fuel).
Proof.
  unfold rdma_handshake, handshake_client, handshake_server, must_event, await_completion, get_cq_event, make_pool,
    memalign, posix_memalign. apply refines_call. follow.
Qed.

Lemma follows_do_io_user_rdma {R} fuel : follows (do_io_user_rdma (R := R) g rmt_buf_at fuel).
Proof.
  pose proof @follows_setup. pose proof @follows_handshake. pose proof @follows_serve.
  pose proof @follows_client_part. unfold do_io_user_rdma. follow.
Qed.
End rdma_refinement.

(** ** Theorems *)

Section theorems.
Context {PF : Platform} (g : options) (rmt_buf_at : Z) {R : Type}.

(** C19: The RDMA thread keeps the books of the io_uring thread: whatever kernel,
    fabric and clock answer and however the run ends, [io_uring_sqe_queued],
    [free_io_units_io_uring] and [io_completed] have changed by the file writes
    prepared, those the kernel has taken and the completions taken off the
    ring, modulo the width of each counter. *)
Theorem rdma_keeps_books fuel (s : st rdma_io) o s' :
  io_typed (worker (own s)) -> do_io_user_rdma (R := R) g rmt_buf_at fuel s = (o, s') ->
  counted (worker (own s)) (log s) (worker (own s')) (log s').
Proof.
  intros Ht H. exact (io_steps_counted g (worker (own s), log s) (worker (own s'), log s')
    (wp_run _ _ _ (follows_do_io_user_rdma g rmt_buf_at fuel s) _ _ H) Ht).
Qed.

(** What the RDMA thread writes stays inside the test file, and as with the
    io_uring thread the last block of the file is never written. *)
Theorem rdma_last_block_never_written fuel (s : st rdma_io) o s' k :
  options_ok g -> file_size g = k * bs g -> 2 <= k ->
  cur_offset (worker (own s)) = 0 -> offsets (log s) = [] ->
  do_io_user_rdma (R := R) g rmt_buf_at fuel s = (o, s') ->
  forall off, off ∈ offsets (log s') -> 0 <= off /\ off + bs g <= (k - 1) * bs g.
Proof.
  intros Hg Hk H2 Hc Hl H.
  exact (io_steps_last_block g (worker (own s), log s) (worker (own s'), log s') k Hg Hk H2 Hc Hl
    (wp_run _ _ _ (follows_do_io_user_rdma g rmt_buf_at fuel s) _ _ H)).
Qed.
End theorems.

(** ** Instances *)

Lemma rdma_keeps_books_witness :
  exists o s', do_io_user_rdma (PF := client_fabric) (R := Empty_set) (rdma_options true) 32 60
      (rdma_start no_rdma) = (o, s') /\
    counted (worker (own (rdma_start no_rdma))) [] (worker (own s')) (log s').
Proof.
  assert (io_typed (worker (own (rdma_start no_rdma)))) as H by (unfold io_typed; cbn; lia).
  destruct (do_io_user_rdma (PF := client_fabric) (R := Empty_set) (rdma_options true) 32 60
    (rdma_start no_rdma)) as [o s'] eqn:E.
  exists o, s'. split; [exact eq_refl |].
  exact (rdma_keeps_books (PF := client_fabric) (rdma_options true) 32 (R := Empty_set) 60
    (rdma_start no_rdma) o s' H E).
Defined.

Lemma rdma_last_block_never_written_witness :
  exists o s', do_io_user_rdma (PF := client_fabric) (R := Empty_set) (rdma_options true) 32 60
      (rdma_start no_rdma) = (o, s') /\
    forall off, off ∈ offsets (log s') -> 0 <= off /\ off + 4096 <= 12288.
Proof.
  assert (options_ok (rdma_options true)) as Hg by (unfold options_ok; cbn; lia).
  assert (2 <= 4) as Hk by done.
  destruct (do_io_user_rdma (PF := client_fabric) (R := Empty_set) (rdma_options true) 32 60
    (rdma_start no_rdma)) as [o s'] eqn:E.
  exists o, s'. split; [exact eq_refl |].
  exact (rdma_last_block_never_written (PF := client_fabric) (rdma_options true) 32 (R := Empty_set) 60
    (rdma_start no_rdma) o s' 4 Hg eq_refl Hk eq_refl eq_refl E).
Defined.
