(* ===== verification/RdmaTermination.v ===== *)
(** * Termination of the RDMA worker

    The client's loops wait for the ring, for the completion queue and for the
    clock.  The ring obeys [RingLaws] of [Worker], the completion queue
    [FabricLaws] below.  Each loop has a measure that every round lowers: what the
    kernel still has to do ([budget] of [Worker]), what the network card still has
    to do ([poll_budget]), and the readings of the clock that are left.

    A call of [ibv_get_cq_event] waits for an event, and an event comes only for a
    completion queue whose notification was asked for in time: [notified] says
    when it was. *)

From S2P Require Import Prelude Proto Env Worker Rdma.

(** ** The completion queue, as the verbs document it *)

(** A poll that found nothing although there was something to complete. *)
Definition is_empty_poll (h : history) (e : entry) : bool :=
  match e with
  | existT (Ibv_poll_cq _ _) r => (r.1 <=? 0) && (0 <? outstanding h)
  | _ => false
  end.
Definition is_verbs_progress (e : entry) : bool :=
  match e with
  | existT (Ibv_poll_cq _ _) r => 0 <? r.1
  | existT (Ibv_post_send _ _ _) _ | existT (Ibv_post_recv _ _ _ _) _ => true
  | _ => false
  end.

(** Such polls since the last completion or post. *)
Fixpoint empty_run (h : history) : nat :=
  match h with
  | [] => O
  | e :: h =>
      if is_verbs_progress e then O
      else if is_empty_poll h e then S (empty_run h) else empty_run h
  end.

(** Whether the queue will report an event.  A notification that is asked for
    covers the completions that arrive from then on; those already in the queue
    raise none, so it is certain to come only once the queue was seen empty:
    nothing was outstanding, or a poll found nothing more. *)
Inductive notice := Unasked | Asked | Certain.

Fixpoint notified (h : history) : notice :=
  match h with
  | [] => Unasked
  | existT e r :: h' =>
      match e as e' return reply e' -> notice with
      | Ibv_req_notify_cq _ => fun r =>
          if r =? 0 then
            match notified h' with
            | Certain => Certain
            | _ => if outstanding h' <=? 0 then Certain else Asked
            end
          else notified h'
      | Ibv_poll_cq _ _ => fun r =>
          match notified h' with
          | Asked => if (r.1 =? 0) || (outstanding h' - Z.max 0 r.1 <=? 0) then Certain else Asked
          | n => n
          end
      | Ibv_get_cq_event _ => fun _ => Unasked
      | _ => fun _ => notified h'
      end r
  end.

(** A poll reports completions of posted work, stores as many as it reports, and
    finds nothing at most [c] times in a row while work is outstanding: every work
    request completes, a receive because the other side sends.  The wait for an
    event that is certain and has something to report ends. *)
Class FabricLaws {PF : Platform} (c : nat) : Prop := {
  fabric_posted : polls_posted;
  poll_stores : forall h q n, let r := world h (Ibv_poll_cq q n) in length r.2 = Z.to_nat r.1;
  few_empty_polls : forall h q n,
    is_empty_poll h (Ibv_poll_cq q n ~> world h (Ibv_poll_cq q n)) = true -> (empty_run h < c)%nat;
  events_come : forall h ch,
    notified h = Certain -> 0 < outstanding h -> is_Some (world h (Ibv_get_cq_event ch));
}.

(** ** Statements without loops that wait

    [tame m]: however it goes, [m] yields, returns or ends the thread. *)

Definition tame {S R A} (m : M S R A) : Prop := forall x : S,
  wp m (fun o _ => match o with Stop u => u = Thread_exit | NoFuel => False | _ => True end) x.

Section tame.
Context {S R : Type}.

Lemma tame_bind {A B} (m : M S R A) (f : A -> M S R B) :
  tame m -> (forall a, tame (f a)) -> tame (m ≫= f).
Proof.
  intros Hm Hf x. apply wp_bind. eapply wp_mono; [| apply Hm].
  intros [a | r | u |] x' H; [apply Hf | done..].
Qed.
Lemma tame_mret {A} (a : A) : tame (mret a : M S R A).
Proof. by intros x. Qed.
Lemma tame_return {A} (r : R) : tame (return_ r : M S R A).
Proof. by intros x. Qed.
Lemma tame_exit {A} : tame (stop_ Thread_exit : M S R A).
Proof. by intros x. Qed.
Lemma tame_when b (m : M S R ()) : tame m -> tame (when b m).
Proof. by destruct b; [| intros _ x]. Qed.
Lemma tame_call {R'} (body : M S R' R') : tame body -> tame (call (R' := R) body).
Proof. intros H x. apply wp_call. eapply wp_mono; [| apply H]. by intros []. Qed.
End tame.

Section tame_ops.
Context {PF : Platform} {T R : Type}.

Lemma tame_ext e : tame (ext (P := T) (R := R) e).
Proof. by intros x. Qed.
Lemma tame_get {A} (f : T -> A) : tame (get_own (R := R) f).
Proof. by intros x. Qed.
Lemma tame_set (f : T -> T) : tame (set_own (R := R) f).
Proof. by intros x. Qed.
Lemma tame_fresh n : tame (fresh_block (P := T) (R := R) n).
Proof. by intros x. Qed.
Lemma tame_int_ret z : in_int z = true -> tame (int_ret z : M (st T) R Z).
Proof. intros H. unfold int_ret. rewrite H. apply tame_mret. Qed.
End tame_ops.

Create HintDb tame.
#[export] Hint Resolve tame_mret tame_return tame_exit tame_when tame_call tame_ext tame_get
  tame_set tame_fresh : tame.

Ltac tame_go :=
  repeat match goal with
  | |- tame (match ?x with _ => _ end) => destruct x
  | |- tame (if ?x then _ else _) => destruct x
  | |- tame (_ ≫= _) => apply tame_bind; [| intros ?; cbn beta iota zeta]
  | |- tame (ext ?e) => exact (tame_ext e)
  | |- tame _ => solve [auto with tame]
  | |- tame (when _ _) => apply tame_when
  | |- tame (call _) => apply tame_call
  end.

(** ** Statements that touch neither the ring, the queues nor the clock *)

Definition ring_of (x : rdma_io) : Z * Z * Z * Z * list (Z * nat) :=
  let w := worker x in
  (start_time w, io_uring_sqe_queued w, free_io_units_io_uring w, free_io_units_rdma w, sq x).

Definition elsewhere (e : entry) : Prop :=
  match projT1 e with
  | Ibv_post_send _ _ _ | Ibv_post_recv _ _ _ _ | Ibv_poll_cq _ _ | Clock_now
  | Uring_prep_writev _ _ _ _ | Uring_submit | Uring_submit_writev _ | Uring_cqe_seen
  | Uring_peek_cqe | Ibv_get_cq_event _ => False
  | _ => True
  end.

(** What is asked for stays asked for until an event is waited for. *)
Definition asked (h : history) : Prop := notified h <> Unasked.
Definition certain (h : history) : Prop := notified h = Certain.

Definition no_wait (e : entry) : Prop :=
  match projT1 e with Ibv_get_cq_event _ => False | _ => True end.

Lemma asked_certain h : certain h -> asked h.
Proof. unfold certain, asked. congruence. Qed.

Lemma no_wait_step e h : no_wait e ->
  (asked h -> asked (e :: h)) /\ (certain h -> certain (e :: h)).
Proof.
  unfold asked, certain. destruct e as [[] r]; cbn; try done; intros _;
    destruct (notified h); repeat case_match; done.
Qed.

Lemma no_wait_log l h : Forall no_wait l ->
  (asked h -> asked (l ++ h)) /\ (certain h -> certain (l ++ h)).
Proof.
  induction 1 as [| e l He _ [IH1 IH2]]; [done |]. destruct (no_wait_step e (l ++ h) He).
  split; eauto.
Qed.

(** A queue that was asked and then seen empty will report what comes. *)
Lemma poll_notice h q n (r : reply (Ibv_poll_cq q n)) :
  asked h -> r.1 = 0 \/ outstanding h - Z.max 0 r.1 <= 0 -> certain (Ibv_poll_cq q n ~> r :: h).
Proof.
  unfold asked, certain. cbn. intros Ha H.
  assert ((r.1 =? 0) || (outstanding h - Z.max 0 r.1 <=? 0) = true) as ->
    by (apply orb_true_iff; destruct H; [left | right]; lia).
  by destruct (notified h).
Qed.

Lemma request_notice h q (r : reply (Ibv_req_notify_cq q)) : r = 0 ->
  asked (Ibv_req_notify_cq q ~> r :: h) /\
  (outstanding h <= 0 -> certain (Ibv_req_notify_cq q ~> r :: h)).
Proof.
  unfold asked, certain. intros ->. cbn. destruct (notified h), (outstanding h <=? 0) eqn:E; bool_hyps;
    split; done || lia.
Qed.

Abbreviation idle m := (steady ring_of (fun _ => elsewhere) m).

Lemma elsewhere_log l h : Forall elsewhere l ->
  queued (l ++ h) = queued h /\ inflight (l ++ h) = inflight h /\
  stall_run (l ++ h) = stall_run h /\ readings l = O /\
  outstanding (l ++ h) = outstanding h /\ empty_run (l ++ h) = empty_run h.
Proof.
  induction 1 as [| e l He _ (IH1 & IH2 & IH3 & IH4 & IH5 & IH6)]; [done |].
  change ((e :: l) ++ h) with (e :: l ++ h).
  assert (inert e) as Hi by by destruct e as [[] r].
  rewrite queued_inert, inflight_inert by done. split; [done |]. split; [done |].
  unfold readings in *. rewrite filter_cons. cbn [stall_run empty_run outstanding].
  destruct e as [[] r]; try done; cbn in *; done.
Qed.

Section termination.
Context {PF : Platform} {d : Z} {b : nat} {RL : RingLaws d b} {c : nat} {FL : FabricLaws c}.
Context (g : options).
Hypothesis batch_ok : 1 <= io_uring_batch_submit g <= d.
Implicit Types s : st rdma_io.

Abbreviation depth := (rdma_queue_depth g).
Abbreviation bound := (bound (d := d) (b := b)).

(** The worker's part of the state. *)
Definition view s : st io_worker := mk_st (worker (own s)) (heap s) (log s).

(** The ring and the counters agree, the queue holds what was prepared. *)
Record ring_ok s : Prop := {
  ro_inv : ring_inv d (worker (own s)) (log s);
  ro_run : (stall_run (log s) <= b)%nat;
  ro_sq : Z.of_nat (length (sq (own s))) = queued (log s);
}.

(** Between two completions. *)
Record ready s : Prop := {
  rd_ring : ring_ok s;
  rd_batch : queued (log s) < io_uring_batch_submit g;
  rd_free : 0 < free_io_units_io_uring (worker (own s));
}.

(** [m] does not get stuck; [Q] where it goes on. *)
Definition lives {R A} (m : M (st rdma_io) R A) s (Q : A -> st rdma_io -> Prop) : Prop :=
  wp m (fun o s' => match o with
    | Val a => Q a s' | Ret _ => True | Stop u => u = Thread_exit | NoFuel => False end) s.

Abbreviation since s s' := (after (b := b) (view s) (view s')).
Abbreviation shortly s s' := (later (b := b) (view s) (view s')).

Lemma lives_bind {R A B} (m : M (st rdma_io) R A) (f : A -> M (st rdma_io) R B) s P Q :
  lives m s P -> (forall a s1, P a s1 -> lives (f a) s1 Q) -> lives (m ≫= f) s Q.
Proof.
  intros Hm Hf. apply wp_bind. eapply wp_mono; [| exact Hm].
  intros [a | | |] s1 H; [by apply Hf | done..].
Qed.

Lemma lives_mono {R A} (m : M (st rdma_io) R A) s P Q :
  lives m s P -> (forall a s', P a s' -> Q a s') -> lives m s Q.
Proof. intros Hm H. eapply wp_mono; [| exact Hm]. intros [a | | |] s'; [apply H | done..]. Qed.

Lemma lives_ret {R A} (a : A) s (Q : A -> st rdma_io -> Prop) : Q a s -> lives (R := R) (mret a) s Q.
Proof. done. Qed.

Lemma lives_and {R A} (m : M (st rdma_io) R A) s P (Q : outcome R A -> st rdma_io -> Prop) :
  lives m s P -> wp m Q s -> lives m s (fun a s' => P a s' /\ Q (Val a) s').
Proof. intros H1 H2. eapply wp_mono; [| apply wp_and; [exact H1 | exact H2]]. by intros [] s' []. Qed.

(** ** The ring *)

(** An entry of the ring's own log: [Worker] has the steps. *)
Lemma reap_lives fuel min s :
  ring_ok s -> budget (b := b) (log s) < Z.of_nat fuel ->
  min = 0 \/ min = 1 /\ 0 < inflight (log s) ->
  lives (reap fuel min) s (fun _ s' => ring_ok s' /\ shortly s s' /\
    queued (log s') = queued (log s) /\ (min = 1 -> 0 < free_io_units_io_uring (worker (own s')))).
Proof.
  intros [I Hb Hq] Hf Hm. unfold reap, with_worker, reap_io_uring_cq. apply wp_bind, wp_zoom, wp_call.
  pose proof I as [_ _ _ (_ & _ & Hf0)].
  eapply wp_mono; [| apply (reap_loop_spec (d := d) (b := b) fuel 0 min (view s));
    [exact I | exact Hb | exact Hf | cbn; lia | cbn; lia]].
  intros o s' (H1 & H2 & H3 & H4).
  assert (ring_ok (mk_st (set_worker (own s') (own s)) (heap s') (log s'))) as Hok
    by (split; cbn [own log worker sq set_worker]; [done | apply H2 | by rewrite H3]).
  assert (shortly s (mk_st (set_worker (own s') (own s)) (heap s') (log s'))) as Hl.
  { destruct s' as [w h l]. exact H2. }
  destruct o as [r | r | |]; [| | done..].
  - destruct H4 as [Hr H4]. rewrite (proj2 (Z.ltb_ge r 0)) by lia. cbn [when]. wp_steps. done.
  - subst r. cbn. by wp_steps.
Qed.

(** A call that does not concern the ring. *)
Lemma ready_ext s e r :
  r = world (log s) e -> (forall r, inert (e ~> r)) -> ready s ->
  ready (mk_st (own s) (heap s) (e ~> r :: log s)).
Proof.
  intros -> He [[I Hb Hq] Hqb Hf].
  assert (queued (e ~> world (log s) e :: log s) = queued (log s)) as Q by by apply queued_inert.
  split; [split | |]; cbn [own log]; rewrite ?Q; try done.
  - by apply ring_inv_inert.
  - by apply stall_run_step.
Qed.

Lemma since_ext s e r :
  r = world (log s) e -> (forall r, inert (e ~> r)) -> is_reading (e ~> r) = false -> ready s ->
  since s (mk_st (own s) (heap s) (e ~> r :: log s)).
Proof.
  intros -> He Hr [[I Hb Hq] _ _]. apply later_after. by apply (later_inert (d := d) (view s)).
Qed.

Lemma since_refl s : (stall_run (log s) <= b)%nat -> since s s.
Proof. intros H. by apply later_after, later_refl. Qed.

Lemma ready_set s x :
  ready s -> same_io (worker (own s)) (worker x) -> sq x = sq (own s) ->
  ready (mk_st x (heap s) (log s)).
Proof.
  intros [[[I1 I2 I3 I4] Hb Hq] Hqb Hf] (E1 & E2 & E3 & E4) E.
  split; [split; [split | |] |..]; cbn [own log]; rewrite ?E1, ?E4, ?E; done.
Qed.

Lemma since_set s x :
  (stall_run (log s) <= b)%nat -> start_time (worker x) = start_time (worker (own s)) ->
  since s (mk_st x (heap s) (log s)).
Proof. intros Hb E. split; [exact E |]. split; [exact Hb |]. by exists []. Qed.

(** Nothing was taken back of what was asked for. *)
Definition kept s s' : Prop :=
  (asked (log s) -> asked (log s')) /\ (certain (log s) -> certain (log s')).

Lemma kept_trans s1 s2 s3 : kept s1 s2 -> kept s2 s3 -> kept s1 s3.
Proof. intros [] []. split; eauto. Qed.
Lemma kept_refl s : kept s s.
Proof. by split. Qed.

Lemma idle_lives {R A} (m : M (st rdma_io) R A) s :
  tame m -> idle m -> ready s ->
  lives m s (fun _ s' => ready s' /\ since s s' /\ outstanding (log s') = outstanding (log s) /\
    empty_run (log s') = empty_run (log s) /\ kept s s').
Proof.
  intros Ht Hi [[I Hb Hq] Hqb Hf].
  eapply wp_mono; [| apply wp_and; [apply Ht | apply Hi]].
  intros o s' [Ho (E & l & L & F)]. destruct o as [a | | |]; [| done..].
  destruct (elsewhere_log l (log s) F) as (E1 & E2 & E3 & E4 & E5 & E6).
  pose proof (no_wait_log l (log s)) as HN. rewrite <- L in *.
  unfold ring_of in E. injection E as G1 G2 G3 _ G5.
  split; [split; [split |..]; rewrite ?E1, ?G3, ?G5, ?E3; try done |].
  - destruct I as [I1 I2 I3 I4]. split; rewrite ?E1, ?E2, ?G2, ?G3; done.
  - split; [split; [exact G1 |]; split; [cbn [log view]; lia |]; by exists l |].
    split_and!; [done.. |]. apply HN. eapply Forall_impl; [exact F |]. by intros [[] ?].
Qed.

Lemma submit_all_lives fuel s :
  ring_ok s -> budget (b := b) (log s) < Z.of_nat fuel ->
  lives (submit_all fuel) s (fun _ s' => ring_ok s' /\ shortly s s' /\ queued (log s') = 0).
Proof.
  revert s. induction fuel as [| fuel IH]; intros s Ho Hf;
    pose proof Ho as [I Hb Hsq]; pose proof I as [Hd Hq Hfr (Hq0 & Hi0 & Hf0)].
  { unfold budget in Hf. nia. }
  cbn [submit_all]. unfold get_worker, submit, upd. apply wp_bind, wp_get_own. rewrite Hq.
  destruct (queued (log s) =? 0) eqn:E; bool_hyps.
  { apply lives_ret. split; [done |]. split; [by apply later_refl | done]. }
  apply wp_bind, wp_bind, wp_get_own, wp_bind. set (e := Uring_submit_writev _).
  apply (wp_ext e). intros n Hw. cbn beta iota. apply wp_bind, wp_set_own, wp_ret. cbn beta iota.
  cbn [own heap log].
  assert (n <= queued (log s)) as Hmost.
  { pose proof (submit_writev_most (log s) (iovec_of (own s) <$> sq (own s))) as H.
    fold e in H. rewrite <- Hw, length_fmap in H. lia. }
  set (s1 := mk_st _ _ _). apply wp_bind. destruct (n >? 0) eqn:En; bool_hyps.
  - destruct (submit_step (d := d) (b := b) (view s) (e ~> n) n eq_refl I Hb ltac:(cbn; lia))
      as (I1 & L1 & B1 & Q1). cbn zeta in *. cbn [view own heap log] in I1, Q1, B1.
    apply wp_set_own. eapply lives_mono; [apply IH |].
    + split; [exact I1 | apply L1 |]. cbn [own log set_worker sq s1 set_sq worker].
      rewrite length_drop, Q1. lia.
    + cbn [log s1]. lia.
    + intros _ s' (H1 & H2 & H3). split; [done |]. split; [| done]. eapply later_trans; [exact L1 | exact H2].
  - pose proof (busy_step (d := d) (b := b) (view s) e n) as Hbusy. cbn zeta in Hbusy.
    cbn [view own heap log] in Hbusy. rewrite <- Hw in Hbusy.
    destruct (Hbusy eq_refl I Hb) as (I1 & L1 & B1 & Q1);
      [cbn [waiting e]; rewrite length_fmap; lia | lia |].
    assert (ring_ok s1) as O1.
    { split; [exact I1 | apply L1 |]. cbn [own log s1 sq set_sq].
      replace (Z.to_nat n) with O by lia. rewrite drop_0, Q1. done. }
    eapply wp_mono; [| apply (reap_lives (S fuel) 0 s1 O1); [cbn [log s1]; lia | by left]]. intros [a | | |] s2 H2; [| done..]. destruct H2 as (O2 & L2 & _).
    assert (budget (b := b) (log s2) <= budget (b := b) (log s1)) by apply L2. cbn [log s1] in *.
    eapply lives_mono; [apply IH; [done | lia] |].
    intros _ s' (H1 & H2 & H3). split; [done |]. split; [| done].
    eapply later_trans; [exact L1 |]. by eapply later_trans.
Qed.

(** A completed read becomes a write. *)
Lemma enqueue_lives fuel a s :
  ready s -> (0 < fuel)%nat ->
  lives (enqueue g fuel a) s (fun _ s' => ring_ok s' /\ since s s' /\
    queued (log s') = queued (log s) + 1).
Proof.
  intros Hr Hf. destruct fuel as [| fuel]; [lia |]. unfold enqueue, upd, get_worker. cbn [get_sqe].
  pose proof Hr as [[I Hb Hq] Hqb _].
  apply wp_bind, wp_bind, (wp_ext Uring_get_sqe). intros ok Hok. cbn beta iota.
  assert (ok = true) as -> by (rewrite Hok; apply sqe_room; cbn; lia).
  pose proof (ready_ext s Uring_get_sqe true Hok ltac:(done) Hr) as Hr1.
  pose proof (since_ext s Uring_get_sqe true Hok ltac:(done) eq_refl Hr) as S1.
  set (s1 := mk_st (own s) _ _) in *. wp_steps.
  destruct Hr1 as [[I1 Hb1 Hq1] Hqb1 Hf1].
  destruct (prepare_step (d := d) (b := b) g batch_ok (view s1) (fd (worker (own s))) (wc_wr_id a) r)
    as (I2 & A2 & Q2); [by split_and! |].
  assert (queued (log s1) = queued (log s)) as Q1 by by apply queued_inert.
  cbn zeta in *. cbn [view own heap log s1] in I2, Q2.
  split; [split |].
  - exact I2.
  - apply A2.
  - etrans; [| symmetry; exact Q2]. cbn [own sq set_worker set_sq set_base]. rewrite length_app.
    cbn [length log s1] in *. lia.
  - split; [eapply after_trans; [exact S1 | exact A2] |].
    etrans; [exact Q2 |]. cbn [log s1] in Q1. lia.
Qed.

Lemma write_completed_lives fuel a s :
  ready s -> bound < Z.of_nat fuel ->
  lives (write_completed g fuel a) s (fun _ s' => ready s' /\ since s s').
Proof.
  intros Hr Hf. pose proof (bound_pos (b := b) g batch_ok) as Hbp. unfold write_completed, get_worker.
  eapply lives_bind; [apply enqueue_lives; [done | lia] |]. intros u s1 (O1 & S1 & Q1).
  apply wp_bind, wp_get_own. cbn beta iota.
  eapply lives_bind with (P := fun _ s' => ring_ok s' /\ since s s' /\
    queued (log s') < io_uring_batch_submit g).
  { pose proof O1 as [I1 Hb1 _]. rewrite (ri_queued _ _ _ I1). pose proof Hr as [_ Hqb _].
    destruct (_ =? _) eqn:E; bool_hyps; cbn [when].
    - pose proof (budget_bound (b := b) _ _ I1). unfold Worker.bound in Hf.
      eapply lives_mono; [apply submit_all_lives; [done | lia] |].
      intros _ s2 (O2 & L2 & Z2). split; [done |].
      split; [eapply after_trans; [exact S1 | by apply later_after] | lia].
    - apply lives_ret. split; [done |]. split; [done | lia]. }
  intros _ s2 (O2 & S2 & Q2). apply wp_bind, wp_get_own. cbn beta iota. pose proof O2 as [I2 Hb2 _].
  pose proof I2 as [_ _ Hfr (_ & _ & Hpos)].
  destruct (_ =? 0) eqn:E; bool_hyps; cbn [when].
  - pose proof (budget_bound (b := b) _ _ I2). unfold Worker.bound in Hf.
    eapply lives_mono; [apply reap_lives; [done | lia | right; lia] |].
    intros _ s3 (O3 & L3 & Q3 & Hpos3). split; [split; [done | lia | by apply Hpos3] |].
    eapply after_trans; [exact S2 | by apply later_after].
  - apply lives_ret. split; [| done]. split; [done | done | lia].
Qed.

Lemma completions_lives fuel todo wc s :
  ready s -> bound < Z.of_nat fuel -> (todo <= length wc)%nat ->
  lives (completions g fuel todo wc) s (fun _ s' => ready s' /\ since s s').
Proof.
  intros Hr Hf. revert wc s Hr. induction todo as [| todo IH]; intros wc s Hr Hl; cbn [completions].
  { apply lives_ret. split; [done |]. apply since_refl, Hr. }
  destruct wc as [| a wc]; [cbn in Hl; lia |]. apply wp_bind.
  destruct (negb _); cbn [when]; [done |]. apply wp_ret. cbn beta iota.
  eapply lives_bind; [by apply write_completed_lives |]. intros _ s1 [H1 S1].
  eapply lives_mono; [apply IH; [done | cbn in Hl; lia] |]. intros _ s2 [H2 S2].
  split; [done | by eapply after_trans].
Qed.

(** ** The completion queue *)

(** What the network card still has to do, empty polls included. *)
Definition poll_budget (h : history) : Z :=
  outstanding h * (Z.of_nat c + 1) + (Z.of_nat c - Z.of_nat (empty_run h)).

Record live s : Prop := {
  lv_ready : ready s;
  lv_run : (empty_run (log s) <= c)%nat;
  lv_out : 0 <= outstanding (log s);
}.

Lemma poll_budget_pos s : live s -> 0 <= poll_budget (log s).
Proof. intros [_ H1 H2]. unfold poll_budget. nia. Qed.

Lemma poll_step q n s r :
  r = world (log s) (Ibv_poll_cq q n) -> live s ->
  let s' := mk_st (own s) (heap s) (Ibv_poll_cq q n ~> r :: log s) in
  live s' /\ since s s' /\ outstanding (log s') = outstanding (log s) - Z.max 0 r.1 /\
  r.1 <= outstanding (log s) /\ length r.2 = Z.to_nat r.1 /\
  poll_budget (log s') <= poll_budget (log s) /\
  (0 < outstanding (log s) -> poll_budget (log s') < poll_budget (log s)).
Proof.
  intros Hw [Hr Hrun Hout] s'.
  pose proof (fabric_posted (log s) q n Hout) as Hp. pose proof (poll_stores (log s) q n) as Hst.
  pose proof (few_empty_polls (log s) q n) as Hfew. cbn zeta in Hst. rewrite <- Hw in Hp, Hst, Hfew.
  assert (outstanding (log s') = outstanding (log s) - Z.max 0 r.1) as Ho by done.
  assert ((0 < r.1 -> empty_run (log s') = O) /\
    (r.1 <= 0 -> 0 < outstanding (log s) ->
       empty_run (log s') = S (empty_run (log s)) /\ (empty_run (log s) < c)%nat) /\
    (r.1 <= 0 -> outstanding (log s) <= 0 -> empty_run (log s') = empty_run (log s))) as (E1 & E2 & E3).
  { subst s'. cbn [log empty_run is_verbs_progress is_empty_poll] in *.
    destruct (0 <? r.1) eqn:E; bool_hyps; [split_and!; [done | lia | lia] |].
    destruct ((r.1 <=? 0) && (0 <? outstanding (log s))) eqn:E'.
    - apply andb_true_iff in E' as [? ?]. bool_hyps. split_and!; [lia | | lia].
      intros _ _. split; [done | by apply Hfew].
    - apply andb_false_iff in E'. split_and!; [lia | | done]. intros H1 H2.
      destruct E' as [E' | E']; bool_hyps; lia. }
  split; [split; [by apply ready_ext | | lia] |].
  { destruct (decide (0 < r.1)); [rewrite E1 by lia; lia |].
    destruct (decide (0 < outstanding (log s)));
      [destruct E2 as [-> ?]; lia | by rewrite E3 by lia]. }
  split; [by apply since_ext |]. split; [done |]. split; [done |]. split; [done |].
  unfold poll_budget. rewrite Ho. destruct (decide (0 < r.1)); [rewrite E1 by lia; nia |].
  destruct (decide (0 < outstanding (log s))).
  - destruct E2 as [-> ?]; [lia.. |]. rewrite Z.max_l by lia. lia.
  - rewrite E3 by lia. rewrite Z.max_l by lia. lia.
Qed.

(** Statements that neither post nor poll nor wait. *)
Lemma quiet_lives {R A} (m : M (st rdma_io) R A) s (P : st rdma_io -> Prop) :
  steady (fun x => verbs_of (worker x)) (fun _ => off_queue) m ->
  lives m s (fun _ s' => P s') ->
  lives m s (fun _ s' => P s' /\ outstanding (log s') = outstanding (log s) /\
    empty_run (log s') = empty_run (log s) /\ kept s s').
Proof.
  intros Hq Hm. eapply lives_mono; [apply (lives_and m s _ _ Hm (Hq s)) |].
  intros a s' [H (_ & l & L & F)]. split; [exact H |]. unfold kept. rewrite L. clear -F.
  assert (Forall no_wait l) as Hn by (eapply Forall_impl; [exact F |]; by intros [[] ?]).
  apply no_wait_log with (h := log s) in Hn.
  enough (outstanding (l ++ log s) = outstanding (log s) /\ empty_run (l ++ log s) = empty_run (log s))
    by tauto. clear Hn.
  induction F as [| e l He _ [IH1 IH2]]; [done |]. change ((e :: l) ++ log s) with (e :: l ++ log s).
  rewrite outstanding_no_verbs by (by destruct e as [[] r]). split; [done |]. rewrite <- IH2. by destruct e as [[] r].
Qed.

(** [r] completions were counted after [s]. *)
Definition counted (k : Z) s (r : Z) s' : Prop :=
  live s' /\ since s s' /\ k <= r /\ r + outstanding (log s') = k + outstanding (log s) /\
  poll_budget (log s') <= poll_budget (log s).

Lemma counted_trans k1 k2 k3 s1 s2 s3 : counted k1 s1 k2 s2 -> counted k2 s2 k3 s3 -> counted k1 s1 k3 s3.
Proof.
  intros (A1 & A2 & A3 & A4 & A5) (B1 & B2 & B3 & B4 & B5).
  split_and!; [done | by eapply after_trans | lia..].
Qed.

Lemma counted_refl k s : live s -> counted k s k s.
Proof. intros H. split_and!; [done | apply since_refl, H | lia..]. Qed.

Lemma poll_loop_lives fuel k s :
  live s -> poll_budget (log s) + bound < Z.of_nat fuel -> 0 <= k ->
  k + outstanding (log s) < 2 ^ 32 ->
  lives (poll_loop g fuel k) s (fun r s' => counted k s r s' /\
    (0 < outstanding (log s') -> poll_budget (log s') < poll_budget (log s)) /\
    (asked (log s) -> certain (log s'))).
Proof.
  pose proof (bound_pos (b := b) g batch_ok) as Hbp.
  revert k s. induction fuel as [| fuel IH]; intros k s Hl Hf Hk Hmax;
    pose proof (poll_budget_pos s Hl) as Hpp; [lia |].
  cbn [poll_loop]. unfold get_rdma, get_worker, upd. apply wp_bind, wp_get_own, wp_bind.
  apply (wp_ext (Ibv_poll_cq _ POLL_BATCH)). intros r Hw. cbn beta iota.
  destruct (poll_step _ _ s r Hw Hl) as (L1 & S1 & O1 & M1 & A1 & B1 & B1').
  set (s1 := mk_st (own s) _ _) in *. destruct r as [ret wc]. cbn [fst snd] in *.
  destruct (ret <? 0) eqn:E1; [done |]. destruct (ret =? 0) eqn:E2; bool_hyps.
  { apply lives_ret. split; [split_and!; [done | done | lia | rewrite O1; lia | done] |].
    split; [intros Hpos; apply B1'; rewrite O1 in Hpos; lia |].
    intros Ha. apply poll_notice; [exact Ha | by left]. }
  eapply lives_bind.
  { apply (quiet_lives _ _ (fun s' => ready s' /\ since s1 s')); [apply quiet_completions |].
    apply completions_lives; [apply L1 | lia | lia]. }
  intros _ s2 ((R2 & S2) & O2 & E2' & N2). apply wp_bind, wp_set_own. cbn beta iota.
  set (s3 := mk_st _ _ _).
  assert (poll_budget (log s3) = poll_budget (log s1)) as B3
    by (unfold poll_budget; cbn [log s3]; rewrite O2, E2'; done).
  assert (counted k s (u32 (k + ret)) s3) as C3.
  { rewrite u32_id by lia. split_and!.
    - split; [by apply ready_set | cbn [log s3]; rewrite E2'; apply L1 | cbn [log s3]; rewrite O2; apply L1].
    - eapply after_trans; [exact S1 |]. eapply after_trans; [exact S2 |].
      apply since_set; [apply R2 | done].
    - lia.
    - cbn [log s3]. rewrite O2, O1. lia.
    - lia. }
  assert (poll_budget (log s3) < poll_budget (log s)) as B3' by (rewrite B3; apply B1'; lia).
  pose proof C3 as (L3 & _ & K3 & O3 & _).
  eapply lives_mono; [apply IH; [done | lia | lia | lia] |].
  intros r s4 (C4 & _ & N4). split; [by eapply counted_trans |].
  split; [destruct C4 as (_ & _ & _ & _ & ?); lia |].
  intros Ha. apply N4, N2. by apply (no_wait_step _ (log s)).
Qed.

Lemma idle_lives_counted {R A} (m : M (st rdma_io) R A) k s :
  tame m -> idle m -> live s -> lives m s (fun _ s' => counted k s k s' /\ kept s s').
Proof.
  intros Ht Hi [Hr Hrun Hout]. eapply lives_mono; [by apply idle_lives |].
  intros a s' (R' & S' & O' & E' & K'). split; [| exact K']. split_and!; [split; [done | lia | lia] | done | lia | lia |].
  unfold poll_budget. by rewrite O', E'.
Qed.

(** The wait for an event that is certain to come. *)
Lemma event_lives {R} ch k s :
  live s -> certain (log s) -> 0 < outstanding (log s) ->
  lives (get_cq_event (R := R) ch) s (fun _ s' => counted k s k s').
Proof.
  intros [Hr Hrun Hout] Hc Ho. unfold get_cq_event. apply wp_bind, (wp_ext (Ibv_get_cq_event ch)).
  intros r Hw. cbn beta iota. destruct (events_come (log s) ch Hc Ho) as [v Hv]. rewrite Hv in Hw. subst r.
  apply lives_ret. split_and!; [split; [by apply ready_ext | done | done] | by apply since_ext | done..].
Qed.

Lemma notify_lives {R} q k s :
  live s -> lives (ext (R := R) (Ibv_req_notify_cq q)) s (fun r s' => counted k s k s' /\
    (r = 0 -> asked (log s') /\ (outstanding (log s) <= 0 -> certain (log s')))).
Proof.
  intros [Hr Hrun Hout]. apply (wp_ext (Ibv_req_notify_cq q)). intros r Hw.
  split; [| apply request_notice].
  split_and!; [split; [by apply ready_ext | done | done] | by apply since_ext | done..].
Qed.

Lemma wait_event_lives k s :
  live s -> certain (log s) -> 0 < outstanding (log s) ->
  lives wait_event s (fun _ s' => counted k s k s' /\ asked (log s')).
Proof.
  intros Hl Hc Ho. unfold wait_event, get_rdma, get_worker. apply wp_bind, wp_get_own. cbn beta iota.
  eapply lives_bind; [by apply (event_lives _ k) |]. intros [r ev] s1 C1. pose proof C1 as (L1 & _).
  do 2 (eapply lives_bind; [apply (idle_lives_counted _ k); [tame_go | steady_go | eassumption] |];
    intros ? ? [? _]; match goal with C : counted k ?a k ?x, D : counted k ?x k ?y |- _ =>
      pose proof (counted_trans _ _ _ _ _ _ C D); clear C; pose proof (proj1 D); clear D end).
  match goal with C : counted k s k ?x |- lives _ ?x _ => rename C into C3; pose proof C3 as (L3 & _) end.
  eapply lives_bind; [by apply (notify_lives _ k) |]. intros r' s4 (C4 & N4).
  destruct (r' =? 0) eqn:E; cbn [negb when]; [| done]. bool_hyps. apply lives_ret.
  split; [by eapply counted_trans | by apply N4].
Qed.

Lemma reap_again_lives fuel k min s :
  live s -> poll_budget (log s) + bound < Z.of_nat fuel -> 0 <= k ->
  k + outstanding (log s) < 2 ^ 32 -> min = 0 \/ min = 1 -> certain (log s) -> 0 < outstanding (log s) ->
  lives (reap_again g fuel k min) s (fun r s' => counted k s r s' /\ certain (log s')).
Proof.
  pose proof (bound_pos (b := b) g batch_ok) as Hbp.
  revert k s. induction fuel as [| fuel IH]; intros k s Hl Hf Hk Hmax Hm Hc Ho;
    pose proof (poll_budget_pos s Hl) as Hpp; [lia |].
  cbn [reap_again]. eapply lives_bind with (P := fun _ s' => counted k s k s' /\ asked (log s')).
  { destruct (event g); cbn [when]; [by apply wait_event_lives |].
    apply lives_ret. split; [by apply counted_refl | by apply asked_certain]. }
  intros u s1 [C1 N1]. pose proof C1 as (L1 & _ & _ & O1 & B1).
  eapply lives_bind; [apply (poll_loop_lives (S fuel) k); [done | lia | done | lia] |].
  intros r s2 (C2 & Hlt & N2). specialize (N2 N1). pose proof (counted_trans _ _ _ _ _ _ C1 C2) as C12.
  pose proof C12 as (L2 & _ & K2 & O2 & B2). destruct (r <? u32 min) eqn:E; bool_hyps.
  - destruct Hm as [-> | ->]; rewrite u32_id in E by lia; [lia |].
    pose proof C2 as (_ & _ & _ & _ & B3).
    eapply lives_mono; [apply IH; [done | lia | lia | lia | by right | done | lia] |].
    intros r' s3 [C3 N3]. split; [by eapply counted_trans | done].
  - by apply lives_ret.
Qed.

Lemma reap_cq_lives {R} fuel min s :
  live s -> poll_budget (log s) + bound < Z.of_nat fuel -> outstanding (log s) < 2 ^ 32 ->
  min = 0 \/ min = 1 -> certain (log s) -> 0 < outstanding (log s) ->
  lives (reap_rdma_cq (R := R) g fuel min) s (fun r s' =>
    r < 0 \/ live s' /\ since s s' /\ certain (log s')).
Proof.
  intros Hl Hf Hmax Hm Hc Ho.
  set (body := set_own next_frame;; reaped ← reap_again g fuel 0 min;
    when (event g) (q ← get_rdma cq; ext (Ibv_ack_cq_events q reaped));; mret 0 : M (st rdma_io) Z Z).
  assert (lives body s (fun r s' => live s' /\ since s s' /\ certain (log s'))) as Hb.
  { eapply lives_bind; [apply (idle_lives_counted _ 0); [tame_go | steady_go | done] |].
    intros u s1 [C1 K1]. pose proof C1 as (L1 & S1 & _ & O1 & B1).
    eapply lives_bind; [apply reap_again_lives; [done | lia | lia | lia | done | by apply K1 | lia] |].
    intros r s2 ((L2 & S2 & _) & N2).
    eapply lives_bind; [apply (idle_lives_counted _ 0); [| | done] |].
    { unfold get_rdma, get_worker. tame_go. }
    { unfold get_rdma, get_worker. steady_go. }
    intros u' s3 ((L3 & S3 & _) & K3). apply lives_ret. split; [done |]. split; [| by apply K3].
    eapply after_trans; [exact S1 |]. by eapply after_trans. }
  assert (leaves (fun r => r = -1) body) as Hr.
  { unfold body, get_rdma, get_worker. pose proof (neg_reap_again g fuel 0 min). leaves_go. }
  apply wp_call. eapply wp_mono; [| apply wp_and; [exact Hb | apply Hr]].
  intros [r | r | |] s' [H1 H2]; [by right | left; by rewrite (H2 r) | done..].
Qed.

(** ** The client's loop *)

Hypothesis depth_ok : 0 < depth < 2 ^ 30.

(** [f] credits are left, [n] work requests are in flight. *)
Definition afloat (f n : Z) s : Prop := live s /\ flight depth f n s.

(** And the queue will report what comes. *)
Definition alive (f n : Z) s : Prop := afloat f n s /\ certain (log s).

Definition poll_bound : Z := depth * (Z.of_nat c + 1) + Z.of_nat c.

Lemma poll_budget_bound f n s : afloat f n s -> poll_budget (log s) <= poll_bound.
Proof. intros [_ [_ F2 F3 _]]. unfold poll_budget, poll_bound. nia. Qed.

Lemma lives_flies {R A} (m : M (st rdma_io) R A) s P Q :
  lives m s P -> flies depth m s Q -> lives m s (fun a s' => P a s' /\ Q a s').
Proof.
  intros H1 H2. eapply lives_mono; [apply (lives_and m s P _ H1 H2) |].
  intros a s' (HP & _ & HQ). split; [done | by apply HQ].
Qed.

Lemma idle_thrifty {R A} (m : M (st rdma_io) R A) :
  idle m -> steady (fun x => free_io_units_rdma (worker x)) (fun _ => no_verbs) m.
Proof.
  intros Hm s. eapply wp_mono; [| apply Hm]. intros o s' (E & l & L & F).
  unfold ring_of in E. injection E as _ _ _ E _. split; [done |]. exists l. split; [done |].
  eapply Forall_impl; [exact F |]. by intros [[] r].
Qed.

Lemma still_afloat {R A} (m : M (st rdma_io) R A) f n s :
  tame m -> idle m -> afloat f n s ->
  lives m s (fun _ s' => afloat f n s' /\ since s s' /\ kept s s').
Proof.
  intros Ht Hi [Hl F]. eapply lives_mono.
  - apply lives_flies; [by apply (idle_lives_counted m 0) |].
    apply (flies_thrifty depth m f n); [by apply idle_thrifty | done].
  - intros a s' [((H1 & H2 & _) & H4) H3]. by split.
Qed.

Lemma still_lives {R A} (m : M (st rdma_io) R A) f n s :
  tame m -> idle m -> alive f n s -> lives m s (fun _ s' => alive f n s' /\ since s s').
Proof.
  intros Ht Hi [Ha Hc]. eapply lives_mono; [by apply still_afloat |].
  intros a s' (H1 & H2 & H3). split; [| done]. split; [done | by apply H3].
Qed.

Lemma alive_ext e r f n s :
  r = world (log s) e -> (forall r, inert (e ~> r)) -> is_reading (e ~> r) = false ->
  no_wait (e ~> r) -> (empty_run (e ~> r :: log s) <= c)%nat -> alive f n s ->
  forall f' n', let s' := mk_st (own s) (heap s) (e ~> r :: log s) in
  flight depth f' n' s' -> alive f' n' s' /\ since s s'.
Proof.
  intros Hw Hi Hr Hn Hc [[[Hl Hrun Hout] F] Hk] f' n' s' F'. pose proof F' as [_ F2 F3 _].
  split; [| by apply since_ext]. split; [| by apply no_wait_step].
  split; [split; [by apply ready_ext | done | lia] | done].
Qed.

Lemma send_lives {R} q wr p f n s :
  alive f n s -> n < depth ->
  lives (ext (R := R) (Ibv_post_send q wr p)) s (fun r s' =>
    alive f (if r =? 0 then n + 1 else n) s' /\ since s s').
Proof.
  intros Hl Hn. pose proof (flies_send depth (R := R) q wr p f n s (proj2 (proj1 Hl)) Hn) as [_ HF].
  apply (wp_ext (Ibv_post_send q wr p)). intros r Hr.
  apply (alive_ext (Ibv_post_send q wr p) r f n s); try done; [cbn; lia |].
  subst r. by apply HF.
Qed.

Lemma reap_or_exit_lives {R} fuel f n min s :
  alive f n s -> 0 <= f <= 2 ^ 31 -> poll_bound + bound < Z.of_nat fuel ->
  min = 0 \/ min = 1 -> 0 < n ->
  lives (r ← reap_rdma_cq (R := R) g fuel min; exit_if (r <? 0)) s (fun _ s' =>
    exists k, min <= k <= n /\ alive (f + k) (n - k) s' /\ since s s').
Proof.
  intros [Ha Hc] Hf Hfuel Hm Hn. pose proof (poll_budget_bound f n s Ha) as Hpb.
  pose proof Ha as [Hl F]. pose proof F as [_ F2 F3 _].
  eapply lives_mono.
  - apply lives_flies with (P := fun _ s' => live s' /\ since s s' /\ certain (log s'))
      (Q := fun _ s' => exists k, min <= k <= n /\ flight depth (f + k) (n - k) s').
    + eapply lives_bind; [apply reap_cq_lives; [done | lia | lia | lia | done | lia] |]. intros r s1 H1.
      unfold exit_if. destruct (r <? 0) eqn:E; cbn [when]; [done |]. bool_hyps.
      apply lives_ret. destruct H1 as [H1 | H1]; [lia | done].
    + eapply (reap_or_leave fabric_posted g depth); [lia | done | lia | exact F | intros k s1 Hk F1; by exists k].
  - intros _ s' ((L' & S' & N') & k & Hk & F'). exists k. split; [done |]. split; [split; [by split | done] | done].
Qed.

(** Loop invariant: credits and work requests in flight make up the queue. *)
Definition looping s : Prop := exists f, 0 < f <= depth /\ alive f (depth - f) s.

Lemma credit_lives {R} f n s :
  alive f n s -> 0 < f <= depth + 1 ->
  lives (R := R) (upd (fun w => set_credit (rdma_wr_posted w) (u64 (free_io_units_rdma w - 1)) w)) s
    (fun _ s' => alive (f - 1) n s' /\ since s s').
Proof.
  intros [[[Hr Hrun Hout] [F1 F2 F3 F4]] Hc] Hf. unfold upd. apply wp_set_own. split; [split; [split |] |].
  - split; [by apply ready_set | done | done].
  - split; cbn [own log worker set_worker set_credit free_io_units_rdma]; [| done | done | done].
    rewrite F1. apply Z.mod_small. lia.
  - exact Hc.
  - by apply since_set; [apply Hr |].
Qed.

Lemma read_step_lives {R} fuel off s :
  looping s -> poll_bound + bound < Z.of_nat fuel ->
  lives (read_step (R := R) g fuel off) s (fun _ s' => looping s' /\ since s s').
Proof.
  intros (f & Hf & Ha) Hfuel. unfold read_step, get_rdma, get_worker.
  eapply lives_bind; [apply (still_lives _ f (depth - f)); [tame_go | steady_go | done] |].
  intros q s1 [A1 S1].
  eapply lives_bind; [apply (still_lives _ f (depth - f)); [unfold upd; tame_go | unfold upd; steady_go | exact A1] |].
  intros u s2 [A2 S2]. eapply lives_bind; [apply (send_lives _ _ _ f (depth - f)); [exact A2 | lia] |].
  intros r s3 [A3 S3].
  eapply lives_bind with (P := fun _ s' => alive f (depth - f + 1) s' /\ since s s').
  { unfold exit_if. destruct (r =? 0); cbn [negb when]; [| done]. apply lives_ret. split; [done |].
    eapply after_trans; [exact S1 |]. by eapply after_trans. }
  clear S1 S2 S3. intros _ s4 [A4 S4].
  eapply lives_bind; [apply (still_lives _ f (depth - f + 1)); [tame_go | steady_go | exact A4] |].
  intros n s5 [A5 S5].
  eapply lives_bind with (P := fun _ s' => exists k, 0 <= k <= depth - f + 1 /\
    alive (f + k) (depth - f + 1 - k) s' /\ since s5 s').
  { destruct (n mod RDMA_REAP_FREQ =? 0); cbn [when].
    - apply (reap_or_exit_lives fuel f (depth - f + 1) 0); [done | lia | done | by left | lia].
    - apply lives_ret. exists 0. rewrite Z.add_0_r, Z.sub_0_r. split; [lia |]. split; [done |].
      apply since_refl, A5. }
  intros _ s6 (k & Hk & A6 & S6). eapply lives_bind; [apply (credit_lives (f + k)); [exact A6 | lia] |].
  intros _ s7 [A7 S7]. replace (depth - f + 1 - k) with (depth - (f + k - 1)) in A7 by lia.
  apply wp_bind, wp_get_own. cbn beta iota. rewrite (fl_credit _ _ _ _ (proj2 (proj1 A7))).
  pose proof (after_trans _ _ _ S4 (after_trans _ _ _ S5 (after_trans _ _ _ S6 S7))) as S.
  eapply lives_bind with (P := fun _ s' => looping s' /\ since s s'); [| intros _ s9 H9; by apply lives_ret].
  destruct (f + k - 1 =? 0) eqn:E; bool_hyps; cbn [when].
  - eapply lives_mono; [apply (reap_or_exit_lives fuel (f + k - 1) (depth - (f + k - 1)) 1); [done | lia | done | by right | lia] |].
    intros _ s8 (k' & Hk' & A8 & S8). split; [| by eapply after_trans].
    exists (f + k - 1 + k'). split; [lia |].
    by replace (depth - (f + k - 1 + k')) with (depth - (f + k - 1) - k') by lia.
  - apply lives_ret. split; [exists (f + k - 1); split; [lia | done] | done].
Qed.

Lemma read_loop_lives {R} fuel off T h0 s l :
  (forall l, (T <= readings l)%nat ->
     runtime g < Z.quot (world (l ++ h0) Clock_now - start_time (worker (own s))) 1000000000) ->
  looping s -> log s = l ++ h0 -> Z.of_nat (T - readings l) + poll_bound + bound < Z.of_nat fuel ->
  lives (read_loop (R := R) g fuel off) s (fun _ s' => looping s').
Proof.
  pose proof (bound_pos (b := b) g batch_ok) as Hbp.
  assert (0 <= poll_bound) as Hpp by (unfold poll_bound; nia).
  revert off s l. induction fuel as [| fuel IH]; intros off s l Hdl Hlo El Hf; [lia |].
  cbn [read_loop]. unfold get_worker, runtime_exceeded.
  apply wp_bind, wp_get_own, wp_bind, wp_bind, (wp_ext Clock_now). intros now Hnow. cbn beta iota.
  apply wp_ret. cbn beta iota.
  pose proof Hlo as (f & Hfd & [[[Hr Hrun Hout] F] Hc]).
  set (s1 := mk_st (own s) (heap s) (Clock_now ~> now :: log s)).
  assert (looping s1) as Hlo1.
  { exists f. split; [done |]. split; [| by apply no_wait_step].
    split; [split; [by apply ready_ext | done | done] |].
    destruct F as [F1 F2 F3 F4]. split; [done | done | done |]. split; [cbn [outstanding]; lia | done]. }
  destruct (_ >? runtime g) eqn:E; bool_hyps; [by apply lives_ret |].
  assert (readings l < T)%nat as Hlt.
  { destruct (decide (T <= readings l)%nat) as [H |]; [| lia].
    specialize (Hdl l H). rewrite <- El, <- Hnow in Hdl. lia. }
  eapply lives_bind; [apply (read_step_lives (S fuel)); [exact Hlo1 | lia] |].
  intros off' s2 [Hlo2 (S2 & _ & l' & E2 & R2)]. cbn [view own log heap s1] in S2, E2.
  apply (IH off' s2 (l' ++ Clock_now ~> now :: l)); [| done | |].
  - intros l0 Hl0. rewrite S2. by apply Hdl.
  - rewrite E2, El, <- app_assoc. done.
  - rewrite readings_app, R2. change (readings (Clock_now ~> now :: l)) with (S (readings l)). lia.
Qed.

(** ** Set-up and handshake *)

Lemma idle_worker {R A} (m : M (st io_worker) R A) :
  steady (fun w => (start_time w, io_uring_sqe_queued w, free_io_units_io_uring w, free_io_units_rdma w))
    (fun _ => elsewhere) m -> idle (with_worker m).
Proof.
  intros Hm x. apply wp_zoom. eapply wp_mono; [| apply Hm]. cbn [own heap log].
  intros o s' (E & l & L & F). injection E as E1 E2 E3 E4. split; [| by exists l].
  unfold ring_of. cbn [worker set_worker sq]. congruence.
Qed.

Lemma tame_worker {R A} (m : M (st io_worker) R A) : tame m -> tame (with_worker m).
Proof. intros H x. apply wp_zoom. eapply wp_mono; [| apply H]. done. Qed.

Lemma tame_create e result set : tame (create e result set).
Proof. unfold create, upd_rdma, upd, non_null. tame_go. Qed.
Lemma idle_create e result set : (forall r, elsewhere (e ~> r)) -> idle (create e result set).
Proof.
  intros H. unfold create, upd_rdma, upd, non_null.
  apply steady_bind; [by apply steady_ext | intros r; steady_go].
Qed.

Lemma tame_channel_event {R} w : tame (get_next_channel_event (R := R) w).
Proof. unfold get_next_channel_event, get_rdma, get_worker, upd_rdma, upd, must. tame_go. Qed.
Lemma idle_channel_event {R} w : idle (get_next_channel_event (R := R) w).
Proof. unfold get_next_channel_event, get_rdma, get_worker, upd_rdma, upd, must. steady_go. Qed.
Hint Resolve tame_create tame_channel_event : tame.
Hint Resolve idle_channel_event : steady.

Lemma tame_must_event w : tame (must_event w).
Proof. unfold must_event, must. tame_go. Qed.
Lemma idle_must_event w : idle (must_event w).
Proof. unfold must_event, must. steady_go. Qed.
Hint Resolve tame_must_event : tame.
Hint Resolve idle_must_event : steady.

Lemma event_afloat {R} ch f n s :
  alive f n s -> 0 < n -> lives (get_cq_event (R := R) ch) s (fun _ s' => afloat f n s').
Proof.
  intros [[Hl F] Hc] Hn. pose proof (fl_out _ _ _ _ F) as Ho. eapply lives_mono.
  - apply lives_flies; [apply (event_lives ch 0); [done | done | lia] |].
    apply (flies_thrifty depth (get_cq_event ch) f n); [unfold get_cq_event; steady_go | done].
  - intros a s' [(H1 & _) H2]. by split.
Qed.

Lemma notify_afloat {R} q f n s :
  afloat f n s -> lives (ext (R := R) (Ibv_req_notify_cq q)) s (fun r s' => afloat f n s' /\
    (r = 0 -> asked (log s') /\ (n <= 0 -> certain (log s')))).
Proof.
  intros [Hl F]. eapply lives_mono.
  - apply lives_flies; [by apply (notify_lives q 0) |].
    apply (flies_thrifty depth (ext (Ibv_req_notify_cq q)) f n); [steady_go | done].
  - intros a s' [[(H1 & _) H3] H2]. by rewrite (fl_out _ _ _ _ F) in H3.
Qed.

Lemma must_lives r s (Q : st rdma_io -> Prop) : (r = 0 -> Q s) -> lives (must r) s (fun _ s' => Q s').
Proof. intros H. unfold must. destruct (r =? 0) eqn:E; cbn [negb when]; [bool_hyps; by apply H | done]. Qed.

(** A statement of the set-up. *)
Local Ltac step_afloat :=
  eapply lives_bind; [apply (still_afloat _ depth 0);
    [tame_go | steady_go; by apply idle_create | eassumption] | intros ? ? (? & _ & _); cbn beta iota zeta].

(** The set-up asks for notification while nothing is posted. *)
Lemma setup_lives {R} s :
  afloat depth 0 s -> lives (rdma_setup (R := R) g) s (fun r s' => r = 0 -> alive depth 0 s').
Proof.
  assert (in_int (depth * 2) = true) as Hd
    by (unfold in_int, INT_MIN, INT_MAX; apply andb_true_iff; split; apply Z.leb_le; lia).
  pose proof (fun T R => @tame_int_ret T R (depth * 2) Hd) as Hint. intros Ha. unfold rdma_setup.
  match goal with |- lives (call ?m) _ _ => set (body := m) end.
  assert (lives body s (fun _ s' => alive depth 0 s')) as Hb.
  { unfold body, cm_client, cm_server, get_rdma, get_worker, upd_rdma, upd, must.
    do 2 step_afloat. eapply lives_bind; [apply (still_afloat _ depth 0); [tame_go | steady_go | eassumption] |].
    intros [r id] s3 (A3 & _ & _). do 11 step_afloat.
    eapply lives_bind; [apply (notify_afloat _ depth 0); eassumption |]. intros r' x1 [B1 M1].
    eapply lives_bind; [apply must_lives with (Q := fun s' => alive depth 0 s');
      intros E; split; [exact B1 | by apply M1] |]. intros ? x2 B2. cbn beta in B2.
    eapply lives_mono; [apply (still_lives _ depth 0); [tame_go | steady_go | exact B2] |]. by intros ? ? [? _]. }
  assert (leaves (fun r => r = 1) body) as Hr.
  { unfold body, create, cm_client, cm_server, must_event, get_next_channel_event, must, non_null, get_rdma,
      get_worker, upd_rdma, upd. leaves_go. unfold int_ret. leaves_go. }
  apply wp_call. eapply wp_mono; [| apply wp_and; [exact Hb | apply Hr]].
  intros [r | r | |] s' [H1 H2]; [by intros _ | by rewrite (H2 r eq_refl) | done..].
Qed.

Lemma tame_make_pool size remote : tame (make_pool size remote).
Proof.
  unfold make_pool, memalign, posix_memalign, get_rdma, get_worker, upd_rdma, upd, non_null. tame_go.
Qed.
Lemma idle_make_pool size remote : idle (make_pool size remote).
Proof.
  unfold make_pool, memalign, posix_memalign, get_rdma, get_worker, upd_rdma, upd, non_null. steady_go.
Qed.
Lemma tame_must r : tame (must r).
Proof. unfold must. tame_go. Qed.
Lemma idle_must r : idle (must r).
Proof. unfold must. steady_go. Qed.
Lemma tame_non_null r : tame (non_null r).
Proof. unfold non_null. tame_go. Qed.
Lemma idle_non_null r : idle (non_null r).
Proof. unfold non_null. steady_go. Qed.
Hint Resolve tame_make_pool tame_must tame_non_null : tame.
Hint Resolve idle_make_pool idle_must idle_non_null : steady.

(** A completion comes before the polls run out. *)
Lemma poll_one_lives fuel f s :
  afloat f 1 s -> asked (log s) -> poll_budget (log s) < Z.of_nat fuel ->
  lives (poll_one fuel) s (fun _ s' => alive f 0 s').
Proof.
  revert s. induction fuel as [| fuel IH]; intros s Ha Hk Hf; pose proof Ha as [Hl F];
    pose proof (poll_budget_pos s Hl) as Hpp; [lia |].
  cbn [poll_one]. unfold get_rdma, get_worker. apply wp_bind, wp_get_own. cbn beta iota.
  apply wp_bind. pose proof (flies_poll fabric_posted depth (R := Z) (cq (rdma (worker (own s)))) 1 f 1 s F)
    as [_ HF]. cbn beta in HF.
  apply (wp_ext (Ibv_poll_cq _ 1)). intros r Hw. cbn beta iota.
  destruct (poll_step _ _ s r Hw Hl) as (L1 & _ & _ & M1 & A1 & _ & B1).
  rewrite <- Hw in HF. specialize (HF r eq_refl) as [Hr F1]. destruct r as [ret wc]. cbn [fst snd] in *.
  pose proof (fl_out _ _ _ _ F) as Hout.
  destruct (ret <? 1) eqn:E; bool_hyps.
  - replace (1 - Z.max 0 ret) with 1 in F1 by lia.
    apply IH; [by split | by apply (no_wait_step _ (log s)) |]. cbn [log] in *. lia.
  - destruct wc as [| a wc]; [cbn in A1; lia |]. apply lives_ret.
    split; [split; [exact L1 | by replace (1 - Z.max 0 ret) with 0 in F1 by lia] |].
    apply poll_notice; [exact Hk | right; cbn; lia].
Qed.

Lemma await_lives at_ fuel into f s :
  alive f 1 s -> poll_bound < Z.of_nat fuel ->
  lives (await_completion at_ fuel into) s (fun _ s' => alive f 0 s').
Proof.
  intros Ha Hf. unfold await_completion, get_rdma, get_worker, upd_rdma, upd.
  eapply lives_bind; [apply (still_lives _ f 1); [tame_go | steady_go | done] |]. intros q s1 [A1 _].
  eapply lives_bind; [by apply (event_afloat _ f 1) |]. intros [r ev] s2 A2.
  do 2 (eapply lives_bind; [apply (still_afloat _ f 1); [tame_go | steady_go | eassumption] | intros ? ? [? _]]).
  eapply lives_bind; [by apply (notify_afloat _ f 1) |]. intros r' x1 [B1 M1].
  eapply lives_bind; [apply must_lives with (Q := fun s' => afloat f 1 s' /\ asked (log s'));
    intros E; split; [exact B1 | by apply M1] |]. intros ? x2 [B2 M2].
  eapply lives_bind.
  { apply (poll_one_lives fuel f); [done | done |]. pose proof (poll_budget_bound f 1 x2 B2). lia. }
  intros wc s' A'. eapply lives_mono; [apply (still_lives _ f 0); [tame_go | steady_go | exact A'] |].
  by intros ? ? [? _].
Qed.

Lemma recv_lives {R} q a l k f n s :
  alive f n s -> n < depth ->
  lives (ext (R := R) (Ibv_post_recv q a l k)) s (fun r s' =>
    alive f (if r =? 0 then n + 1 else n) s' /\ since s s').
Proof.
  intros Hl Hn. pose proof (flies_recv depth (R := R) q a l k f n s (proj2 (proj1 Hl)) Hn) as [_ HF].
  apply (wp_ext (Ibv_post_recv q a l k)). intros r Hr.
  apply (alive_ext (Ibv_post_recv q a l k) r f n s); try done; [cbn; lia |].
  subst r. by apply HF.
Qed.

(** One posted work request, and the wait for its completion. *)
Lemma exchange_lives {A} (post : M (st rdma_io) Z Z) at_ fuel into f s (rest : M (st rdma_io) Z A) Q :
  lives post s (fun r s' => alive f (if r =? 0 then 0 + 1 else 0) s' /\ since s s') ->
  poll_bound < Z.of_nat fuel ->
  (forall s', alive f 0 s' -> lives rest s' Q) ->
  lives (r ← post; must r;; await_completion at_ fuel into;; rest) s Q.
Proof.
  intros Hp Hf Hr. eapply lives_bind; [exact Hp |]. intros r s1 [A1 _].
  eapply lives_bind with (P := fun _ s' => alive f 1 s').
  { unfold must. destruct (r =? 0); cbn [negb when]; [by apply lives_ret | done]. }
  intros _ s2 A2. eapply lives_bind; [by apply (await_lives at_ fuel into f) |]. intros u s3 A3. by apply Hr.
Qed.

(** The next statement of the handshake neither posts nor polls. *)
Local Ltac step_alive f :=
  eapply lives_bind; [apply (still_lives _ f 0); [tame_go | steady_go | eassumption] |].

Lemma handshake_lives at_ fuel n f s :
  alive f 0 s -> poll_bound < Z.of_nat fuel ->
  lives (if client g then handshake_client at_ n fuel else handshake_server at_ n fuel) s
    (fun _ s' => alive f 0 s').
Proof.
  intros Ha Hf. unfold handshake_client, handshake_server, get_rdma, get_worker, upd_rdma, upd.
  assert (forall {A} (m : M (st rdma_io) Z A) x, tame m -> idle m -> alive f 0 x ->
    lives m x (fun _ s' => alive f 0 s')) as Hlast.
  { intros A m x H1 H2 H3. eapply lives_mono; [by apply (still_lives m f 0) |]. by intros a s' [H _]. }
  destruct (client g).
  - do 5 (step_alive f; intros ? ? [? _]). step_alive f; intros [[mr lkey] ?] ? [? _].
    step_alive f; intros ? ? [? _].
    apply exchange_lives with (f := f); [apply (recv_lives _ _ _ _ f 0); [eassumption | lia] | done |].
    intros s' A'. apply Hlast; [tame_go | steady_go | done].
  - do 9 (step_alive f; intros ? ? [? _]). step_alive f; intros [[mr lkey] ?] ? [? _].
    step_alive f; intros ? ? [? _].
    apply exchange_lives with (f := f); [apply (send_lives _ _ _ f 0); [eassumption | lia] | done |].
    intros s' A'. apply Hlast; [tame_go | steady_go | done].
Qed.

Lemma rdma_handshake_lives {R} at_ fuel f s :
  alive f 0 s -> poll_bound < Z.of_nat fuel ->
  lives (rdma_handshake (R := R) g at_ fuel) s (fun r s' => r = 0 -> alive f 0 s').
Proof.
  intros Ha Hf. set (body := id ← get_rdma cm_id; '(r, m) ← ext (Ibv_query_device id); must r;;
    let depth := m mod 256 in
    (if client g then handshake_client at_ depth fuel else handshake_server at_ depth fuel);;
    mret 0 : M (st rdma_io) Z Z).
  assert (lives body s (fun _ s' => alive f 0 s')) as Hb.
  { unfold body, get_rdma, get_worker.
    step_alive f; intros id s1 [A1 _]. step_alive f; intros [r m] s2 [A2 _].
    step_alive f; intros u s3 [A3 _].
    eapply lives_bind; [by apply (handshake_lives at_ fuel (m mod 256) f) |]. intros u' s4 A4.
    by apply lives_ret. }
  assert (leaves (fun r => r = 1) body) as Hr.
  { unfold body, get_rdma, get_worker. apply leaves_bind; [leaves_go | intros id].
    apply leaves_bind; [leaves_go | intros [r m]]. apply leaves_bind; [unfold must; leaves_go | intros _].
    apply leaves_bind; [apply one_handshake | intros _]. leaves_go. }
  apply wp_call. eapply wp_mono; [| apply wp_and; [exact Hb | apply Hr]].
  intros [r | r | |] s' [H1 H2]; [by intros _ | by rewrite (H2 r eq_refl) | done..].
Qed.

(** A receive that was refused. *)
Definition refused (h : history) : Prop := exists q a l k r, Ibv_post_recv q a l k ~> r ∈ h /\ r <> 0.

(** The server waits for ever only for the completion of a receive that was refused. *)
Lemma serve_ends {R} f s :
  alive f 0 s -> wp (serve (R := R)) (fun o s' => match o with
    | Stop u => u = Thread_exit \/ u = Blocks /\ refused (log s') | NoFuel => False | _ => True end) s.
Proof.
  intros Ha. unfold serve, get_rdma, get_worker. apply wp_bind, wp_get_own. cbn beta iota.
  set (e := Ibv_post_recv _ _ _ _). apply wp_bind.
  eapply wp_mono; [| apply wp_and; [apply (recv_lives _ _ _ _ f 0 s Ha); lia |]].
  2: { apply (wp_ext e) with (Q := fun o s' => exists r, o = Val r /\ e ~> r ∈ log s').
       intros r _. exists r. split; [done | apply list_elem_of_here]. }
  intros o s1 [H1 (r & -> & Hin)]. destruct H1 as [A1 _].
  assert (forall x : Z * Z, tame (exit_if (negb (x.1 =? 0));;
    exit_if (negb (x.2 =? cq (rdma (worker (own s)))));;
    '(n, _) ← ext (Ibv_poll_cq (cq (rdma (worker (own s)))) 1);
    exit_if (negb (n =? 1));; ext (Ibv_ack_cq_events (cq (rdma (worker (own s)))) 1) : M (st rdma_io) R ())) as Ht
    by (intros x; unfold exit_if; tame_go).
  apply wp_bind. destruct (decide (r = 0)) as [-> | Hr].
  - eapply wp_mono; [| by apply (event_afloat _ f 1)]. intros [[r' c'] | | |] s2 H2; [| done | by left | done].
    eapply wp_mono; [| apply (Ht (r', c'))]. intros [| | u |] s3 H3; [done | done | by left | done].
  - unfold get_cq_event. apply wp_bind, (wp_ext (Ibv_get_cq_event _)). intros [[r' c'] |] _; cbn beta iota.
    + apply wp_ret. eapply wp_mono; [| apply (Ht (r', c'))]. intros [| | u |] s3 H3; [done | done | by left | done].
    + right. split; [done |]. exists (qp (rdma (worker (own s)))), (data_pool (rdma (worker (own s)))), 4,
        (mr_lkey (data_pool_mr (rdma (worker (own s))))), r. split; [by apply list_elem_of_further | done].
Qed.

(** ** The thread *)

Lemma tame_open_test_file {R} : tame (open_test_file (R := R) g).
Proof. unfold open_test_file. tame_go. Qed.
Lemma idle_open_test_file {R} : idle (with_worker (open_test_file (R := R) g)).
Proof. apply idle_worker. unfold open_test_file. steady_go. Qed.

Lemma client_part_lives {R} pace fuel s :
  clock_pace pace -> 0 < pace -> 0 <= runtime g -> alive depth 0 s ->
  Z.of_nat (readings_needed g pace) + poll_bound + bound < Z.of_nat fuel ->
  lives (client_part (R := R) g fuel) s (fun _ s' => stopped (worker (own s')) = true).
Proof.
  intros Hpace Hp Hrun Ha Hf. unfold client_part, rdma_client_terminate, get_rdma, get_worker.
  eapply lives_bind; [apply (still_lives _ depth 0);
    [apply tame_worker, tame_open_test_file | apply idle_open_test_file | exact Ha] |].
  intros _ s1 [[[L1 F1] C1] _]. apply wp_bind, (wp_ext Clock_now). intros now Hnow. cbn beta iota.
  apply wp_bind, wp_set_own. cbn beta iota. cbn [own heap log].
  set (s2 := mk_st _ _ _).
  assert (looping s2) as H2.
  { exists depth. split; [lia |]. rewrite Z.sub_diag. split; [| by apply (no_wait_step _ (log s1))]. destruct L1 as [R1 Hrun1 Hout1].
    pose proof (ready_ext s1 Clock_now now Hnow ltac:(done) R1) as R2.
    split; [split |].
    - exact (ready_set _ (set_worker (set_start now (worker (own s1))) (own s1)) R2
        (conj eq_refl (conj eq_refl (conj eq_refl eq_refl))) eq_refl).
    - done.
    - done.
    - destruct F1 as [G1 G2 G3 G4]. split; [done | done | done |]. split; [cbn [outstanding]; lia | done]. }
  eapply lives_bind.
  { apply (read_loop_lives fuel 0 (readings_needed g pace) (Clock_now ~> now :: log s1) s2 []);
      [| exact H2 | done | cbn [readings filter]; change (readings []) with O; lia].
    intros l Hl. by apply (clock_runs_out g pace now (log s1) l). }
  intros _ s3 _. unfold lives, upd. wp_steps. done.
Qed.
End termination.

(** The thread's function has no early return. *)
Lemma no_return {PF : Platform} {R} g rmt_buf_at fuel :
  leaves (fun _ : R => False) (do_io_user_rdma g rmt_buf_at fuel).
Proof.
  assert (forall fuel offset, leaves (fun _ : R => False) (read_loop g fuel offset)) as Hl.
  { intros n. induction n as [| n IH]; intros offset; cbn [read_loop];
      unfold runtime_exceeded, read_step, get_rdma, get_worker, upd, exit_if; leaves_go;
      apply leaves_call. }
  unfold do_io_user_rdma, serve, client_part, rdma_client_terminate, with_worker, open_test_file,
    rdma_setup, rdma_handshake, get_cq_event, get_rdma, get_worker, upd, exit_if. leaves_go.
  all: first [apply leaves_call | apply Hl | apply leaves_zoom; leaves_go].
Qed.

(** The state the thread starts in: no write and no work request on its way. *)
Lemma afloat_start {PF : Platform} g b c s :
  let d := io_uring_queue_depth g in
  0 < d <= INT_MAX -> 1 <= io_uring_batch_submit g ->
  0 < rdma_queue_depth g < 2 ^ 30 ->
  io_uring_sqe_queued (worker (own s)) = 0 -> free_io_units_io_uring (worker (own s)) = d ->
  sq (own s) = [] -> free_io_units_rdma (worker (own s)) = rdma_queue_depth g ->
  queued (log s) = 0 -> inflight (log s) = 0 -> stall_run (log s) = O ->
  outstanding (log s) = 0 -> empty_run (log s) = O -> never_over (rdma_queue_depth g) (log s) ->
  afloat (d := d) (b := b) (c := c) g (rdma_queue_depth g) 0 s.
Proof.
  intros d Hdr Hbat Hdep Hq Hf Hsq Hfr H1 H2 H3 H4 H5 H6. split.
  - split; [split; [split; [split |..] |..] | |]; rewrite ?Hsq, ?H1, ?H2, ?H3, ?H4, ?H5; cbn; try done; lia.
  - split; [done | done | lia | done].
Qed.

(** How the thread ends. *)
Lemma do_io_user_rdma_ends {PF : Platform} {R} g b c
    {RL : RingLaws (io_uring_queue_depth g) b} {FL : FabricLaws c} rmt_buf_at pace fuel s :
  let d := io_uring_queue_depth g in
  1 <= io_uring_batch_submit g <= d -> 0 < rdma_queue_depth g < 2 ^ 30 ->
  clock_pace pace -> 0 < pace -> 0 <= runtime g ->
  afloat (d := d) (b := b) (c := c) g (rdma_queue_depth g) 0 s ->
  Z.of_nat (readings_needed g pace) + poll_bound (c := c) g + bound (d := d) (b := b) < Z.of_nat fuel ->
  wp (do_io_user_rdma (R := R) g rmt_buf_at fuel) (fun o s' => match o with
    | Val _ => client g = true -> stopped (worker (own s')) = true
    | Ret _ => True
    | Stop u => u = Thread_exit \/ u = Blocks /\ client g = false /\ refused (log s')
    | NoFuel => False end) s.
Proof.
  intros d Hbat Hdep Hpace Hp Hrun Ha Hfuel. set (depth := rdma_queue_depth g) in *.
  pose proof (bound_pos (d := d) (b := b) g Hbat) as Hbp. unfold do_io_user_rdma. apply wp_bind.
  eapply wp_mono; [| apply (setup_lives (d := d) (b := b) (c := c) g Hdep); exact Ha].
  intros [r | | u |] s1 A1; [| done | by left | done]. unfold exit_if at 1. apply wp_bind.
  destruct (r =? 0) eqn:E1; cbn [negb when]; [| by left]. bool_hyps. specialize (A1 E1).
  apply wp_ret. cbn beta iota. apply wp_bind.
  eapply wp_mono; [| apply (rdma_handshake_lives (d := d) (b := b) (c := c) g Hdep _ _ depth); [exact A1 | lia]].
  intros [r' | | u |] s2 H2; [| done | by left | done]. apply wp_bind. unfold exit_if.
  destruct (r' =? 0) eqn:E; cbn [negb when]; [| by left]. bool_hyps. specialize (H2 E).
  apply wp_ret. cbn beta iota. destruct (client g) eqn:Eg; cbn [negb].
  - eapply wp_mono; [| by apply (client_part_lives (d := d) (b := b) (c := c) g Hbat Hdep pace)].
    intros [| | u |] s' H; [by intros _ | done | by left | done].
  - eapply wp_mono; [| apply (serve_ends (d := d) (b := b) (c := c) g Hdep depth), H2].
    intros [| | u |] s' H; [done | done | | done]. destruct H as [H | [H1 H3]]; [by left | by right].
Qed.

(** ** Theorem *)


(** ** Instances *)

(** The fabric of [Rdma] with a ring that completes everything at once. *)
Definition prompt_fabric : Platform := platform_of (fun h e =>
  match e with
  | Uring_peek_cqe => if 0 <? inflight h then Some 0 else None
  | Uring_submit => queued h
  | e => world (Platform := client_fabric) h e
  end).

#[export] Instance prompt_ring d : RingLaws (PF := prompt_fabric) d 0.
Proof.
  split.
  - split. intros h r. cbn. destruct (0 <? inflight h) eqn:E; bool_hyps; [done | discriminate].
  - done.
  - intros h _. cbn. lia.
  - intros h q. cbn. lia.
  - intros h e. destruct e; cbn; try discriminate.
    + intros [H1 H2]%andb_true_iff. bool_hyps. lia.
    + destruct (0 <? inflight h); discriminate.
    + intros [H1 H2]%andb_true_iff. bool_hyps. lia.
Qed.

#[export] Instance prompt_queue : FabricLaws (PF := prompt_fabric) 0.
Proof.
  split.
  - intros h q n H. exact (fabric_polls_posted client_events (Some sample_token) h q n H).
  - intros h q n. cbn. by destruct (outstanding h <=? 0).
  - intros h q n. cbn. destruct (outstanding h <=? 0) eqn:E; cbn; [| discriminate].
    rewrite Z.ltb_antisym, E. discriminate.
  - intros h ch _ _. by exists (0, 5).
Qed.

Lemma prompt_pace : clock_pace (PF := prompt_fabric) 250000000.
Proof.
  intros l h. cbn. unfold readings. rewrite filter_app, length_app.
  rewrite filter_cons_True by done. cbn [length]. lia.
Qed.


(** On that fabric the client does return: two reads a round, for one reading
    more than a second, and the file has been written to. *)
Example client_returns :
  let r := do_io_user_rdma (PF := prompt_fabric) (R := Empty_set) (rdma_options true) 32 140
    (rdma_start no_rdma) in
  r.1 = Val () /\ offsets (log r.2) <> [].
Proof. vm_compute. done. Qed.
