(* ===== verification/Benchmark.v ===== *)
(** * The benchmark as a whole (src/src/benchmark.cc, [main] and its threads)

    [main] reads the command line, launches the worker's thread, launches a
    monitor thread that prints the throughput, and joins.  [Worker] and [Rdma]
    hold the two bodies the worker's thread can have.  After it has created the
    thread, [main] touches of the worker only [tid], which the thread does not
    use, so the thread is run where it is joined.  The monitor only reads: what it
    finds at each access is a [view] of the worker.  [main] stores the return
    code of the second [pthread_create] over the monitor's id and joins that. *)

From S2P Require Import Prelude Proto Env Worker Rdma RdmaRing RdmaTermination.

(** ** Threads *)

(** A thread's function and what it ends with: a null pointer when it returns,
    1 where it calls [pthread_exit]. *)
Definition thread {S R} (body : M S () ()) : M S R Z := fun s =>
  match body s with
  | (Val _, s') | (Ret _, s') => (Val 0, s')
  | (Stop Thread_exit, s') => (Val 1, s')
  | (Stop u, s') => (Stop u, s')
  | (NoFuel, s') => (NoFuel, s')
  end.

(** Whether [pthread_create] has made a thread with this function. *)
Definition created (name : string) (h : history) : bool :=
  existsb (fun e => match e with
    | existT (Pthread_create n) r => String.eqb n name && (r.1 =? 0)
    | _ => false
    end) h.

(** Whether a thread with this id is there to be joined: it was created, and
    nobody has joined it. *)
Definition joinable (id : Z) (h : history) : bool :=
  existsb (fun e => match e with
    | existT (Pthread_create _) r => (r.1 =? 0) && (r.2 =? id)
    | _ => false
    end) h &&
  forallb (fun e => match e with existT (Pthread_join t) _ => negb (t =? id) | _ => true end) h.

(** [pthread_join]; the id of no joinable thread is undefined behaviour. *)
Definition pthread_join {PF : Platform} {P R} (id : Z) : M (st P) R () :=
  h ← gets log;
  if joinable id h then ext (Pthread_join id);; mret () else stop_ UB_thread.

Lemma joinable_created id h : joinable id h = true ->
  exists name, Pthread_create name ~> (0, id) ∈ h.
Proof.
  intros [H _]%andb_true_iff. apply existsb_exists in H as ([[] r] & Hin & Hr); try done.
  apply andb_true_iff in Hr as [H1 H2]. bool_hyps. destruct r as [x y]. cbn in *. subst x y.
  eexists. by apply list_elem_of_In.
Qed.

Lemma wp_thread {S R} (body : M S () ()) (Q : outcome R Z -> S -> Prop) s :
  wp body (fun o s' => match o with
    | Val _ | Ret _ => Q (Val 0) s'
    | Stop Thread_exit => Q (Val 1) s'
    | Stop u => Q (Stop u) s'
    | NoFuel => Q NoFuel s'
    end) s ->
  wp (thread body) Q s.
Proof. unfold wp, thread. destruct (body s) as [[a | r | [] |] s']; done. Qed.

(** ** The monitor *)

(** How many times it has looked at the worker, and the numbers it printed. *)
Record monitor := mk_monitor { looks : nat; printed : list Z }.

Section Monitor.
Context {PF : Platform} (g : options) (view : nat -> io_worker).

Definition look {R A} (f : io_worker -> A) : M (st monitor) R A :=
  k ← get_own looks;
  set_own (fun m => mk_monitor (S (looks m)) (printed m));;
  mret (f (view k)).

(** [while (!worker->stopped)]. *)
Fixpoint stats_loop {R} (fuel : nat) : M (st monitor) R () :=
  match fuel with
  | O => nofuel
  | S fuel =>
      stop ← look stopped;
      if (stop : bool) then mret ()
      else
        n ← look io_completed;
        now ← ext Clock_now;
        start ← look start_time;
        match stats_sample n now start with
        | None => stats_loop fuel
        | Some kiops =>
            set_own (fun m => mk_monitor (looks m) (printed m ++ [kiops]));;
            ext (Sleep 1000000);;
            stats_loop fuel
        end
  end.

Definition calculate_stats {R} (fuel : nat) : M (st monitor) R () :=
  if user_rdma g && negb (client g) then mret () else stats_loop fuel.
End Monitor.

(** ** The process *)

Section Process.
Context {PF : Platform} (rmt_buf_at : Z).

Definition worker_body (g : options) (fuel : nat) : M (st rdma_io) () () :=
  if user_rdma g then do_io_user_rdma g rmt_buf_at fuel else with_worker (do_io_io_uring g fuel).

(** [pthread_join(worker->tid)]: the thread runs to its end.  Without a thread
    the id is whatever the block held. *)
Definition join_worker {R} (g : options) (fuel : nat) : M (st rdma_io) R () :=
  h ← gets log;
  if created (if user_rdma g then "do_io_user_rdma" else "do_io_io_uring") h then
    thread (worker_body g fuel);;
    t ← get_worker tid;
    ext (Pthread_join t);;
    mret ()
  else stop_ UB_uninit.

(** [parsed] is what argparse made of the arguments and [garbage] what the
    allocator left in the worker's block. *)
Definition main {R} (argc : Z) (parsed : option arguments) (garbage : io_worker) (fuel : nat)
  : M (st rdma_io) R Z :=
  match parse_args argc parsed with
  | (0, Some g) =>
      worker ← with_worker (launch_worker g garbage 0);
      '(ret, _) ← ext (Pthread_create "calculate_stats");
      let monitor_thread := u64 ret in
      if negb worker then stop_ UB_null                        (* worker->tid *)
      else
        join_worker g fuel;;
        pthread_join monitor_thread;;
        mret 0
  | _ => mret 1
  end.
End Process.

(** ** What the thread leaves alone

    [calm m]: [m] writes neither [stopped] nor [tid], whatever calls it makes. *)

Definition flags (w : io_worker) : bool * Z := (stopped w, tid w).
Definition any_call : bool * Z -> entry -> Prop := fun _ _ => True.

Abbreviation calm_io m := (steady flags any_call m).
Abbreviation calm m := (steady (fun x => flags (worker x)) any_call m).

Section calm.
Context {PF : Platform} (g : options) {R : Type}.

Lemma calm_zoom {A} (m : M (st io_worker) R A) : calm_io m -> calm (with_worker m).
Proof. by apply steady_zoom. Qed.
Hint Resolve calm_zoom : steady.

Lemma calm_reap_loop fuel reaped min : calm_io (Worker.reap_loop fuel reaped min).
Proof. revert reaped. induction fuel as [| fuel IH]; intros reaped; cbn [reap_loop]; steady_go; apply IH. Qed.
Hint Resolve calm_reap_loop : steady.

Lemma calm_reap_io {R'} fuel min : calm_io (reap_io_uring_cq (R := R') fuel min).
Proof. unfold reap_io_uring_cq. steady_go. Qed.
Hint Resolve calm_reap_io : steady.

Lemma calm_reap_or_exit fuel min : calm_io (reap_or_exit (R := R) fuel min).
Proof. unfold reap_or_exit. steady_go. Qed.
Hint Resolve calm_reap_or_exit : steady.

Lemma calm_get_sqe_io fuel : calm_io (Worker.get_sqe (R := R) fuel).
Proof. induction fuel as [| fuel IH]; cbn [Worker.get_sqe]; steady_go. Qed.
Lemma calm_submit_all_io fuel : calm_io (Worker.submit_all (R := R) fuel).
Proof. induction fuel as [| fuel IH]; cbn [Worker.submit_all]; steady_go. Qed.
Hint Resolve calm_get_sqe_io calm_submit_all_io : steady.

Lemma calm_issue_loop fuel p : calm_io (issue_loop (R := R) g fuel p).
Proof.
  induction fuel as [| fuel IH]; cbn [issue_loop]; unfold runtime_exceeded, issue; steady_go.
Qed.
Hint Resolve calm_issue_loop : steady.

Lemma calm_open_test_file : calm_io (open_test_file (R := R) g).
Proof. unfold open_test_file. steady_go. Qed.
Hint Resolve calm_open_test_file : steady.
End calm.
#[export] Hint Resolve calm_zoom calm_reap_io calm_issue_loop calm_open_test_file : steady.

Section calm_rdma.
Context {PF : Platform} (g : options) (rmt_buf_at : Z) {R : Type}.

Lemma calm_reap fuel min : calm (reap fuel min).
Proof. unfold reap. steady_go. Qed.
Hint Resolve calm_reap : steady.

Lemma calm_get_sqe fuel : calm (get_sqe fuel).
Proof. induction fuel as [| fuel IH]; cbn [get_sqe]; steady_go. Qed.
Lemma calm_submit_all fuel : calm (submit_all fuel).
Proof. induction fuel as [| fuel IH]; cbn [submit_all]; unfold submit, upd, get_worker; steady_go. Qed.
Hint Resolve calm_get_sqe calm_submit_all : steady.

Lemma calm_completions fuel todo wc : calm (completions g fuel todo wc).
Proof.
  revert wc. induction todo as [| todo IH]; intros [| c wc]; cbn [completions];
    unfold write_completed, enqueue, upd, get_worker; steady_go.
Qed.
Hint Resolve calm_completions : steady.

Lemma calm_poll_loop fuel reaped : calm (poll_loop g fuel reaped).
Proof.
  revert reaped. induction fuel as [| fuel IH]; intros reaped; cbn [poll_loop];
    unfold upd, get_rdma, get_worker; steady_go.
Qed.
Hint Resolve calm_poll_loop : steady.

Lemma calm_reap_again fuel reaped min : calm (reap_again g fuel reaped min).
Proof.
  revert reaped. induction fuel as [| fuel IH]; intros reaped; cbn [reap_again];
    unfold wait_event, get_cq_event, get_rdma, get_worker; steady_go.
Qed.
Hint Resolve calm_reap_again : steady.

Lemma calm_reap_rdma_cq {R'} fuel min : calm (reap_rdma_cq (R := R') g fuel min).
Proof. unfold reap_rdma_cq, get_rdma, get_worker. steady_go. Qed.
Hint Resolve calm_reap_rdma_cq : steady.

Lemma calm_read_loop fuel offset : calm (read_loop (R := R) g fuel offset).
Proof.
  revert offset. induction fuel as [| fuel IH]; intros offset; cbn [read_loop];
    unfold runtime_exceeded, read_step, get_rdma, get_worker, upd, exit_if; steady_go.
Qed.

Lemma calm_poll_one fuel : calm (poll_one fuel).
Proof. induction fuel as [| fuel IH]; cbn [poll_one]; unfold get_rdma, get_worker; steady_go. Qed.
Hint Resolve calm_poll_one : steady.

Lemma calm_must_event e : calm (must_event e).
Proof. unfold must_event, get_next_channel_event, must, upd_rdma, upd, get_rdma, get_worker. steady_go. Qed.
Lemma calm_await fuel into : calm (await_completion rmt_buf_at fuel into).
Proof. unfold await_completion, get_cq_event, must, upd_rdma, upd, get_rdma, get_worker. steady_go. Qed.
Lemma calm_make_pool size remote : calm (make_pool size remote).
Proof.
  unfold make_pool, memalign, posix_memalign, non_null, upd_rdma, upd, get_rdma, get_worker. steady_go.
Qed.
Lemma calm_create e result set : calm (create e result set).
Proof. unfold create, non_null, upd_rdma, upd. steady_go. Qed.
Hint Resolve calm_must_event calm_await calm_make_pool calm_create : steady.

Lemma calm_setup : calm (rdma_setup (R := R) g).
Proof.
  unfold rdma_setup, cm_client, cm_server, must, upd_rdma, upd, get_rdma, get_worker. steady_go.
Qed.
Lemma calm_handshake fuel : calm (rdma_handshake (R := R) g rmt_buf_at fuel).
Proof.
  unfold rdma_handshake, handshake_client, handshake_server, must, non_null, upd_rdma, upd,
    get_rdma, get_worker. steady_go.
Qed.
Lemma calm_serve : calm (serve (R := R)).
Proof. unfold serve, get_cq_event, exit_if, get_rdma, get_worker. steady_go. Qed.
End calm_rdma.

(** ** How the worker's thread ends *)

(** Whether the monitor watches: it returns at once in an RDMA server. *)
Definition monitored (g : options) : bool := negb (user_rdma g && negb (client g)).

(** [look] finds the worker in the state of the thread. *)
Definition ended {P} (look : P -> io_worker) (g : options) (s : st P) (o : outcome () ()) (s' : st P)
  : Prop :=
  let w := look (own s) in
  let w' := look (own s') in
  tid w' = tid w /\ (exists l, log s' = l ++ log s) /\
  match o with
  | Val _ => monitored g = true -> stopped w' = true
  | _ => stopped w' = stopped w
  end.

Section thread_flags.
Context {PF : Platform} (g : options) (rmt_buf_at : Z).

Lemma calm_ended {P A} (look : P -> io_worker) (m : M (st P) () A) (f : A -> M (st P) () ()) s :
  steady (fun x => flags (look x)) any_call m ->
  (forall a s1, wp (f a) (ended look g s1) s1) -> wp (m ≫= f) (ended look g s) s.
Proof.
  intros Hm Hf. apply wp_bind. eapply wp_mono; [| apply Hm].
  intros o s1 ([= E1 E2] & l1 & L1 & _).
  destruct o as [a | | |]; [| by (split; [done | split; [by exists l1 | done]])..].
  eapply wp_mono; [| apply Hf]. intros o s2 (T2 & (l2 & L2) & H2).
  split; [congruence |]. split; [exists (l2 ++ l1); by rewrite L2, L1, app_assoc |].
  destruct o; [done | congruence..].
Qed.

(** [worker->stopped = true]. *)
Lemma set_stopped_ended (s : st io_worker) : wp (set_own set_stopped) (ended (fun w => w) g s) s.
Proof. apply wp_set_own. split; [done |]. split; [by exists [] | done]. Qed.

Lemma io_ended fuel s : wp (do_io_io_uring g fuel) (ended (fun w => w) g s) s.
Proof.
  unfold do_io_io_uring, memalign, posix_memalign.
  apply calm_ended; [steady_go | intros _ s1]. apply calm_ended; [steady_go | intros [p |] s2].
  - repeat (apply calm_ended; [steady_go |]; intros). apply set_stopped_ended.
  - apply wp_stop. split; [done |]. split; [by exists [] | done].
Qed.

Lemma client_ended fuel s : wp (client_part g fuel) (ended worker g s) s.
Proof.
  unfold client_part, upd.
  repeat (apply calm_ended; [solve [steady_go | apply calm_read_loop] |]; intros).
  unfold rdma_client_terminate, get_rdma, get_worker. wp_steps.
  split; [done |]. split; [by eexists [_] | done].
Qed.

Lemma worker_ended fuel s : wp (worker_body rmt_buf_at g fuel) (ended worker g s) s.
Proof.
  unfold worker_body. destruct (user_rdma g) eqn:Eu.
  - unfold do_io_user_rdma, exit_if.
    repeat (apply calm_ended; [solve [apply calm_setup | apply calm_handshake | steady_go] |]; intros).
    destruct (client g) eqn:Ec; cbn [negb]; [apply client_ended |].
    eapply wp_mono; [| apply calm_serve]. intros o s' ([= E1 E2] & l & L & _).
    split; [done |]. split; [by exists l |].
    destruct o; [unfold monitored; by rewrite Eu, Ec | done..].
  - apply wp_zoom. eapply wp_mono; [| apply io_ended]. intros o s' H. exact H.
Qed.
End thread_flags.

(** ** The monitor's loop *)

(** What the monitor can see of a worker that ends as [w']: [w'] from some look
    on, and [stopped] never before it was set. *)
Definition sees (view : nat -> io_worker) (w' : io_worker) : Prop :=
  (exists n, forall k, (n <= k)%nat -> view k = w') /\
  forall k, stopped (view k) = true -> stopped w' = true.

Section monitor.
Context {PF : Platform} {R : Type} (g : options) (view : nat -> io_worker).

Lemma stats_loop_ends n w' fuel (m : st monitor) :
  (forall k, (n <= k)%nat -> view k = w') -> stopped w' = true ->
  (n - looks (own m) < fuel)%nat ->
  wp (stats_loop (R := R) view fuel) (fun o _ => o = Val ()) m.
Proof.
  intros Hv Hs. revert m. induction fuel as [| fuel IH]; intros m Hf; [lia |].
  cbn [stats_loop]. unfold look. wp_steps.
  destruct (stopped (view _)) eqn:E; [by wp_steps |].
  assert (looks (own m) < n)%nat as Hn.
  { destruct (decide (n <= looks (own m))%nat) as [H |]; [| lia]. rewrite Hv in E by done. congruence. }
  wp_steps. destruct (stats_sample _ _ _); wp_steps; apply IH; cbn [own looks]; lia.
Qed.

Lemma stats_loop_watches fuel (m : st monitor) :
  (forall k, stopped (view k) = false) ->
  wp (stats_loop (R := R) view fuel) (fun o _ => o = NoFuel) m.
Proof.
  intros Hv. revert m. induction fuel as [| fuel IH]; intros m; cbn [stats_loop]; [done |].
  unfold look. wp_steps. rewrite Hv. wp_steps. destruct (stats_sample _ _ _); wp_steps; apply IH.
Qed.
End monitor.

(** ** Launching *)

(** What [launch_worker] makes of the block. *)
Definition launched (g : options) (garbage w : io_worker) : Prop :=
  stopped w = false /\ io_uring_sqe_queued w = io_uring_sqe_queued garbage /\
  free_io_units_io_uring w = u64 (io_uring_queue_depth g) /\
  free_io_units_rdma w = u64 (rdma_queue_depth g).

Definition body_name (g : options) : string :=
  if user_rdma g then "do_io_user_rdma" else "do_io_io_uring".

Section launch.
Context {PF : Platform} {R : Type} (g : options).

(** Memory and threads are to be had. *)
Record resources : Prop := {
  has_memory : forall h, world h (Alloc None 1) = 0;
  has_threads : forall h name, (world h (Pthread_create name)).1 = 0;
}.

Lemma launch_spec garbage (s : st rdma_io) :
  resources ->
  wp (with_worker (launch_worker (R := R) g garbage 0)) (fun o s' =>
    launched g garbage (worker (own s')) /\ sq (own s') = sq (own s) /\
    tid (worker (own s')) = (world (Alloc None 1 ~> 0 :: log s) (Pthread_create (body_name g))).2 /\
    exists t r, log s' = Pthread_setaffinity (tid (worker (own s'))) 0 ~> r ::
        Pthread_create (body_name g) ~> (0, t) :: Alloc None 1 ~> 0 :: log s /\
      o = Val (r =? 0)) s.
Proof.
  intros [Hm Ht]. apply wp_zoom. unfold launch_worker, set_worker_cpu. cbn [own heap log].
  wp_steps. rewrite Hw, Hm. cbn [negb Z.eqb]. wp_steps.
  fold (body_name g) in *. specialize (Ht (Alloc None 1 ~> 0 :: log s) (body_name g)).
  rewrite Hw0, ?Hw, ?Hm. destruct (world _ (Pthread_create _)) as [x t]. cbn in Ht. subst x. wp_steps.
  unfold launched. split_and!; try done.
  exists t, r1. split; [done |]. by destruct (r1 =? 0).
Qed.
End launch.

(** ** Theorems *)

Section theorems.
Context {PF : Platform} (rmt_buf_at : Z).

(** C28: The monitor ends exactly when the worker's function returned: after a
    return it sees [stopped] at the latest when it looks at the ended worker, and
    prints no more; after [pthread_exit] on an error [stopped] is never set and
    the monitor watches for ever.  In an RDMA server it does not watch at all. *)
Theorem monitor_ends_iff_worker_returned {R} g fuel (s : st rdma_io) o s' view :
  stopped (worker (own s)) = false ->
  worker_body rmt_buf_at g fuel s = (o, s') ->
  sees view (worker (own s')) ->
  (o = Val () \/ monitored g = false -> exists n, forall fuel m, (n < fuel)%nat ->
     (calculate_stats (R := R) g view fuel m).1 = Val ()) /\
  (o = Stop Thread_exit -> monitored g = true -> forall fuel m,
     (calculate_stats (R := R) g view fuel m).1 = NoFuel).
Proof.
  intros Hs H ([n Hv] & Hl). destruct (wp_run _ _ _ (worker_ended g rmt_buf_at fuel s) _ _ H) as (_ & _ & He).
  assert (monitored g = false <-> user_rdma g && negb (client g) = true) as Hm
    by (unfold monitored; by destruct (user_rdma g && negb (client g))).
  split.
  - intros Ho. exists n. intros fu m Hf. unfold calculate_stats.
    destruct (user_rdma g && negb (client g)) eqn:E; [done |].
    assert (monitored g = true) as Em by (unfold monitored; by rewrite E).
    assert (wp (stats_loop (R := R) view fu) (fun o _ => o = Val ()) m) as Hw.
    { apply (stats_loop_ends view n (worker (own s'))); [done | | lia].
      destruct Ho as [-> |]; [by apply He | congruence]. }
    unfold wp in Hw. by destruct (stats_loop view fu m).
  - intros -> Em fu m. unfold calculate_stats.
    destruct (user_rdma g && negb (client g)) eqn:E; [unfold monitored in Em; by rewrite E in Em |].
    assert (wp (stats_loop (R := R) view fu) (fun o _ => o = NoFuel) m) as Hw.
    { apply stats_loop_watches. intros k. destruct (stopped (view k)) eqn:Ek; [| done].
      specialize (Hl k Ek). congruence. }
    unfold wp in Hw. by destruct (stats_loop view fu m).
Qed.

(** The two joins. *)
Lemma main_joins {R} id (Q : outcome R Z -> st rdma_io -> Prop) (s : st rdma_io) :
  (forall r1 r2, let l := Pthread_join (tid (worker (own s))) ~> r1 :: log s in
     if joinable id l then Q (Val 0) (mk_st (own s) (heap s) (Pthread_join id ~> r2 :: l))
     else Q (Stop UB_thread) (mk_st (own s) (heap s) l)) ->
  wp (R := R) (t ← get_worker tid; ext (Pthread_join t);; mret ())
    (fun o s' => match o with
     | Val _ => wp (pthread_join id;; mret 0) Q s' | _ => False end) s.
Proof.
  intros H. unfold get_worker. wp_steps. unfold pthread_join. apply wp_bind. unfold wp at 1, gets. cbn beta iota.
  cbn [log]. specialize (H r). cbn zeta in H. destruct (joinable id _); wp_steps; [apply H | apply (H 0)].
Qed.

(** What [main] leaves behind a command line that was read. *)
Lemma main_calls {R} argc parsed g garbage fuel (s : st rdma_io) Q :
  parse_args argc parsed = (0, Some g) -> resources ->
  (forall s1 t r m,
     launched g garbage (worker (own s1)) -> sq (own s1) = sq (own s) ->
     log s1 = Pthread_create "calculate_stats" ~> (0, m) ::
       Pthread_setaffinity (tid (worker (own s1))) 0 ~> r ::
       Pthread_create (body_name g) ~> (0, t) :: Alloc None 1 ~> 0 :: log s ->
     (r <> 0 -> Q (Stop UB_null) s1) /\
     (r = 0 -> wp (worker_body rmt_buf_at g fuel) (fun o s2 =>
        match o with
        | Val _ | Ret _ | Stop Thread_exit => forall r1 r2,
            let l := Pthread_join (tid (worker (own s2))) ~> r1 :: log s2 in
            if joinable 0 l then Q (Val 0) (mk_st (own s2) (heap s2) (Pthread_join 0 ~> r2 :: l))
            else Q (Stop UB_thread) (mk_st (own s2) (heap s2) l)
        | Stop u => Q (Stop u) s2
        | NoFuel => Q NoFuel s2
        end) s1)) ->
  wp (main (R := R) rmt_buf_at argc parsed garbage fuel) Q s.
Proof.
  intros Hp Hres H. unfold main. rewrite Hp. apply wp_bind.
  eapply wp_mono; [| by apply launch_spec]. intros o s1 (Hl & Hsq & Htid & t & r & El & ->). cbn beta iota.
  apply wp_bind, (wp_ext (Pthread_create "calculate_stats")). intros [ret m] Hw. cbn beta iota.
  pose proof (has_threads Hres (log s1) "calculate_stats") as H0. rewrite <- Hw in H0. cbn in H0. subst ret.
  specialize (H (mk_st (own s1) (heap s1) (Pthread_create "calculate_stats" ~> (0, m) :: log s1)) t r m Hl Hsq
    ltac:(cbn [log own]; by rewrite El)) as [H1 H2].
  destruct (r =? 0) eqn:Er; bool_hyps; cbn [negb]; [| wp_steps; by apply H1].
  specialize (H2 Er). apply wp_bind. unfold join_worker. apply wp_bind. unfold wp at 1, gets. cbn beta iota.
  assert (created (body_name g) (log s1) = true) as Hc.
  { rewrite El. unfold created. cbn [existsb]. by rewrite String.eqb_refl. }
  fold (body_name g). unfold created in *. cbn [log existsb]. rewrite Hc, orb_true_r.
  apply wp_bind, wp_thread. eapply wp_mono; [| exact H2].
  intros [a | r1 | [] |] s2 H3; try exact H3; apply main_joins; exact H3.
Qed.

(** A thread that starts with a fresh ring. *)
Lemma body_ends b c g {RL : RingLaws (io_uring_queue_depth g) b} {FL : FabricLaws c} pace fuel s :
  let d := io_uring_queue_depth g in
  0 < d <= INT_MAX -> 1 <= io_uring_batch_submit g <= d -> 0 < rdma_queue_depth g < 2 ^ 30 ->
  clock_pace pace -> 0 < pace -> 0 <= runtime g ->
  io_uring_sqe_queued (worker (own s)) = 0 -> free_io_units_io_uring (worker (own s)) = d ->
  sq (own s) = [] -> free_io_units_rdma (worker (own s)) = rdma_queue_depth g ->
  Forall elsewhere (log s) ->
  Z.of_nat (readings_needed g pace) + poll_bound (c := c) g + bound (d := d) (b := b) < Z.of_nat fuel ->
  wp (worker_body rmt_buf_at g fuel) (fun o s' =>
    match o with
    | Val _ | Ret _ | Stop Thread_exit => True
    | Stop Blocks => user_rdma g = true /\ client g = false /\ refused (log s')
    | _ => False
    end) s.
Proof.
  intros d Hd Hbat Hdep Hpace Hp Hrun Hq Hf Hsq Hfr He Hfuel.
  destruct (elsewhere_log (log s) [] He) as (E1 & E2 & E3 & _ & E4 & E5).
  rewrite app_nil_r in *. unfold worker_body. destruct (user_rdma g).
  - eapply wp_mono; [| apply (do_io_user_rdma_ends g b c rmt_buf_at pace); try done].
    + intros [a | r | u |] s' H; try done. destruct H as [-> | (-> & H)]; done.
    + apply afloat_start; try done; try lia.
      rewrite <- (app_nil_r (log s)). apply no_verbs_app; [| cbn; lia | done].
      eapply Forall_impl; [exact He |]. by intros [[] r].
  - apply wp_zoom. eapply wp_mono; [| apply (do_io_ends g d b pace); try done].
    + by intros o s' [-> | [-> _]].
    + apply at_head_start; try done; lia.
    + unfold poll_bound in Hfuel. nia.
Qed.

Lemma parse_args_runtime argc parsed g : parse_args argc parsed = (0, Some g) -> 0 <= runtime g.
Proof.
  unfold parse_args. destruct (argc =? 1); [done |]. destruct parsed as [a |]; [| done].
  intros [= <-]. cbn. pose proof (Z.mod_pos_bound (a_runtime a) (2 ^ 32)). unfold u32. lia.
Qed.

End theorems.

(** A command line that is not understood ends the program before it has made
    any call. *)
Lemma bad_command_line {PF : Platform} {R} rmt_buf_at argc garbage fuel (s : st rdma_io) :
  main (R := R) rmt_buf_at argc None garbage fuel s = (Val 1, s).
Proof. unfold main, parse_args. by destruct (argc =? 1). Qed.

(** ** Instances *)

(** The defaults, and the client of the RDMA benchmark. *)
Definition default_options : options :=
  mk_options 4096 32 32 "/mnt/test" (10 * 2 ^ 30) 128 128 30 false false "10.10.1.2" 9876 false.
Definition client_arguments : arguments :=
  mk_arguments 4 "/mnt/test" 128 128 30 10 32 32 true "10.10.1.2" 9876 true false.
Definition client_options : options :=
  mk_options 4096 32 32 "/mnt/test" (10 * 2 ^ 30) 128 128 30 true true "10.10.1.2" 9876 false.

Lemma prompt_resources : resources (PF := prompt_fabric).
Proof. by split. Qed.

(** A worker with [n] writes completed in a second and [stopped] as given. *)
Definition seen_worker (n : Z) (stop : bool) : io_worker :=
  mk_worker 0 0 0 0 n 128 128 77 5 stop 1 no_rdma.
Definition start_state : st rdma_io :=
  mk_st (mk_io (seen_worker 0 false) [] 0 0) heap_empty [].


(** On that fabric the client's [main] joins a thread that is none. *)
Example benchmark_joins_no_thread :
  (main (PF := prompt_fabric) (R := Empty_set) 32 2 (Some client_arguments) fresh_worker 700
    start_state).1 = Stop UB_thread.
Proof. vm_compute. reflexivity. Qed.

(** A machine without RDMA hardware, and without a file system. *)
Definition bare_machine : Platform := platform_of (fun h e =>
  match e with Clock_now => 1000000000 * Z.of_nat (readings h) | e => default_reply e end).

(** The worker fails to set up its connection, and the monitor watches on. *)
Lemma monitor_ends_iff_worker_returned_witness :
  exists s',
    worker_body (PF := bare_machine) 32 client_options 3 start_state = (Stop Thread_exit, s') /\
    forall fuel m, (calculate_stats (PF := bare_machine) (R := Empty_set) client_options
      (fun _ => worker (own s')) fuel m).1 = NoFuel.
Proof.
  destruct (worker_body (PF := bare_machine) 32 client_options 3 start_state) as [o s'] eqn:E.
  assert (o = Stop Thread_exit) as ->.
  { change o with (fst (o, s')). rewrite <- E. vm_compute. reflexivity. }
  exists s'. split; [exact eq_refl |].
  destruct (monitor_ends_iff_worker_returned (PF := bare_machine) 32 (R := Empty_set) client_options
    3 start_state (Stop Thread_exit) s' (fun _ => worker (own s')) eq_refl E
    (conj (ex_intro _ O (fun _ _ => eq_refl)) (fun _ H => H))) as [_ H].
  exact (H eq_refl eq_refl).
Defined.

(** While the worker runs the monitor prints once a second; it skips the looks
    at which nothing was completed. *)
Example monitor_prints :
  let view k := if (k <? 3)%nat then seen_worker 0 false
                else if (k <? 9)%nat then seen_worker 5000 false else seen_worker 9000 true in
  let r := calculate_stats (PF := bare_machine) (R := Empty_set) default_options view 9
    (mk_st (mk_monitor 0 []) heap_empty [Clock_now ~> 0]) in
  (r.1, printed (own r.2)) = (Val (), [2; 1]).
Proof. vm_compute. done. Qed.
